(** * Footprint builder of the Vulkan API (gapis/api/vulkan/footprint_builder.go)

    A shallow embedding of the parts of the footprint builder that the
    specification's properties talk about: the dependency behavior
    emitter ([read], [write], [modify]), the memory binding engine
    ([resBinding], [getSubBindingList], [getBoundData]), the roll-out of
    executed subcommands ([rollOutExecuted]) and a few arms of the
    [BuildFootprint] command switch.

    Conventions.
    - A Go [uint64] is a [Z] in [[0, 2^64)]; every arithmetic operation of
      the source is written with its wrap-around ([add64], [sub64], [mul64]).
    - A Go map is a [gmap]; a lookup that misses yields [None] where Go
      yields the zero value (a nil pointer for the pointer-valued maps).
    - A nil-pointer dereference or an index out of range is the outcome
      [Panic] of the [res] type.
    - Pointers to variables are modelled by the value they point to; the
      back pointer [b] from a variable to its defining behavior is only a
      lookup handle for the later pruning pass and is left out. *)

From Stdlib Require Import ZArith List Bool Lia Sorted.
From stdpp Require Import base option list gmap.

Local Open Scope Z_scope.

(** ** Machine integers *)

Definition two64 : Z := 2 ^ 64.
Definition wrap64 (x : Z) : Z := x mod two64.
Definition add64 (a b : Z) : Z := wrap64 (a + b).
Definition sub64 (a b : Z) : Z := wrap64 (a - b).
Definition mul64 (a b : Z) : Z := wrap64 (a * b).
Definition is_u32 (x : Z) : Prop := 0 <= x < 2 ^ 32.

(** [const vkWholeSize = uint64(0xFFFFFFFFFFFFFFFF)] *)
Definition vkWholeSize : Z := 0xFFFFFFFFFFFFFFFF.

(** ** Outcomes: a value or a run-time panic *)

Inductive res (A : Type) : Type :=
| Ok (a : A)
| Panic.
Arguments Ok {A} a.
Arguments Panic {A}.

Definition rbind {A B : Type} (r : res A) (k : A -> res B) : res B :=
  match r with
  | Ok a => k a
  | Panic => Panic
  end.

Notation "x <-! r ; k" := (rbind r (fun x => k))
  (at level 100, r at next level, right associativity).

(** ** Spans ([interval.U64Span]) *)

Record U64Span : Type := mkSpan { Start : Z; End : Z }.

(** ** Memory spans *)

(** [type memorySpan struct { sp; memory; b; recordTo }].  [recordTo] always
    points to the one [deviceMemoryRecords] of the builder, which the
    emitter state below holds. *)
Record memorySpan : Type := mkMemorySpan {
  sp : U64Span;
  memory : Z
}.

Inductive LogMsg : Type :=
| ErrShrinkOutOfMemBindingBound (offset size : Z)
| ErrCannotShrinkNonSpan
| ErrExecutionOrderDiffers (executed submitted : list Z)
| ErrInvalidIndexSize
| ErrInvalidFullCommandIndexLength
| WarnCommandNotHandled.

Module MemorySpan.

Definition size (s : memorySpan) : Z := sub64 (End (sp s)) (Start (sp s)).

Definition span (s : memorySpan) : U64Span := sp s.

(** [func (s *memorySpan) shrink(offset, size uint64) error] *)
Definition shrink (s : memorySpan) (offset size0 : Z) : LogMsg + memorySpan :=
  let size1 := if size0 =? vkWholeSize then sub64 (size s) offset else size0 in
  if (add64 offset size1 <? offset) || (size s <? add64 offset size1)
  then inl (ErrShrinkOutOfMemBindingBound offset size1)
  else
    let start' := add64 (Start (sp s)) offset in
    inr (mkMemorySpan (mkSpan start' (add64 start' size1)) (memory s)).

(** [func (s *memorySpan) duplicate() memBinding]: a copy of the struct. *)
Definition duplicate (s : memorySpan) : memorySpan := s.

End MemorySpan.

(** ** Abstract variables ([dependencygraph.DefUseVariable]) *)

Inductive DefUseVariable : Type :=
| VHandle (handle : Z)                 (* *vkHandle *)
| VLabel (l : Z)                       (* *label, by its number *)
| VNil                                 (* a nil pointer out of a map miss *)
| VForwardPairedLabel (id : Z)         (* *forwardPairedLabel *)
| VMemorySpan (s : memorySpan)         (* *memorySpan *)
| VResBinding (resourceOffset bindSize : Z) (backingData : DefUseVariable)
| VSparseImageMemoryBinding (backingData : DefUseVariable)
| VCommand (c : Z)                     (* *commandBufferCommand, by address *)
| VOther (tag : Z).                    (* descriptors, bound sets, ... *)

(** ** Behaviors ([dependencygraph.Behavior]) *)

(** Modelled from the spec: package [dependencygraph] is not part of the
    sources at hand.  A behavior is "a node in the footprint carrying a
    command index, a read set, a write set, and liveness flags"; [Read] and
    [Write] append to the read and to the write set. *)
Record Behavior : Type := mkBehavior {
  Owner : list Z;
  Reads : list DefUseVariable;
  Writes : list DefUseVariable;
  Alive : bool;
  Aborted : bool
}.

Definition NewBehavior (fullCommandIndex : list Z) : Behavior :=
  mkBehavior fullCommandIndex [] [] false false.

Definition Behavior_Read (b : Behavior) (c : DefUseVariable) : Behavior :=
  mkBehavior (Owner b) (Reads b ++ [c]) (Writes b) (Alive b) (Aborted b).

Definition Behavior_Write (b : Behavior) (c : DefUseVariable) : Behavior :=
  mkBehavior (Owner b) (Reads b) (Writes b ++ [c]) (Alive b) (Aborted b).

Definition setAlive (b : Behavior) (v : bool) : Behavior :=
  mkBehavior (Owner b) (Reads b) (Writes b) v (Aborted b).

(** ** Interval lists ([interval.Intersect]) *)

Module Interval.

(** Modelled from the spec: package [core/math/interval] is not part of
    the sources at hand.  [Search] is the index of the first element of
    the list for which the predicate holds (the length when there is
    none); [Intersect l span] finds "the intervals from the list that
    overlap" [span] in a list ordered by start: [first] is the index of
    the first interval that ends after [span] starts, and [count] the
    number of intervals from there on that start before [span] ends. *)
Fixpoint Search {A : Type} (t : A -> bool) (l : list A) : nat :=
  match l with
  | [] => 0%nat
  | x :: l' => if t x then 0%nat else S (Search t l')
  end.

Definition Intersect {A : Type} (spanOf : A -> U64Span) (l : list A)
    (span : U64Span) : nat * nat :=
  let first := Search (fun x => Start span <? End (spanOf x)) l in
  let count := Search (fun x => End span <=? Start (spanOf x)) (drop first l) in
  (first, count).
#[global] Arguments Intersect : simpl never.

(** Two half-open spans overlap. *)
Definition overlaps (a b : U64Span) : bool :=
  (Start a <? End b) && (Start b <? End a).

End Interval.

(** ** Memory bindings ([memBinding], [memBindingList]) *)

(** The interface [memBinding], with the four methods that both
    [*memorySpan] and [*resBinding] implement for it. *)
Class MemBinding (A : Type) : Type := {
  mb_span : A -> U64Span;
  mb_size : A -> Z;
  mb_shrink : A -> Z -> Z -> LogMsg + A;
  mb_duplicate : A -> A
}.

#[global] Instance memorySpan_MemBinding : MemBinding memorySpan := {
  mb_span := MemorySpan.span;
  mb_size := MemorySpan.size;
  mb_shrink := MemorySpan.shrink;
  mb_duplicate := MemorySpan.duplicate
}.

Section AddBinding.
Context {A : Type} `{MemBinding A}.

(** Modelled from the spec: part of [addBinding], which is not part of the
    sources at hand.  What is left of an existing binding [e] when [b] is
    bound over it ("rebinding overwrites the overlap"): the piece in front
    of [b] and the piece behind [b], each obtained by [shrink]. *)
Definition remainders (e b : A) : LogMsg + (list A * list A) :=
  let se := mb_span e in
  let sb := mb_span b in
  match
    (if Start se <? Start sb
     then match mb_shrink e 0 (sub64 (Start sb) (Start se)) with
          | inl err => inl err
          | inr e' => inr [e']
          end
     else inr [])
  with
  | inl err => inl err
  | inr front =>
      match
        (if End sb <? End se
         then match mb_shrink (mb_duplicate e) (sub64 (End sb) (Start se))
                      (sub64 (End se) (End sb)) with
              | inl err => inl err
              | inr e' => inr [e']
              end
         else inr [])
      with
      | inl err => inl err
      | inr back => inr (front, back)
      end
  end.

(** Modelled from the spec: the same for all the bindings that [b]
    overlaps. *)
Fixpoint allRemainders (mid : list A) (b : A) : LogMsg + (list A * list A) :=
  match mid with
  | [] => inr ([], [])
  | e :: mid' =>
      match remainders e b with
      | inl err => inl err
      | inr (f, k) =>
          match allRemainders mid' b with
          | inl err => inl err
          | inr (fs, ks) => inr (f ++ fs, k ++ ks)
          end
      end
  end.

(** Modelled from the spec: [addBinding] lives in a file of the package
    that is not part of the sources at hand.  "insert [b] preserving
    order; overlapping prior bindings are replaced over the overlap
    region". *)
Definition addBinding (l : list A) (b : A) : LogMsg + list A :=
  let fc := Interval.Intersect mb_span l (mb_span b) in
  let rest := drop (fst fc) l in
  match allRemainders (take (snd fc) rest) b with
  | inl err => inl err
  | inr (fronts, backs) =>
      inr (take (fst fc) l ++ fronts ++ [b] ++ backs ++ drop (snd fc) rest)
  end.

End AddBinding.

(** ** The dependency behavior emitter: [read], [write], [modify] *)

(** The state the emitter works on: [memorySpanRecords.records], to which
    the [recordTo] of every memory span points, the reader lists of the
    forward-paired labels (behaviors by their owner), and the errors and
    warnings written to the log of the context ([log.E], [log.W]; the
    [debug] lines, which a configuration flag gates, are not kept). *)
Record Emitter : Type := mkEmitter {
  records : gmap Z (list memorySpan);
  labelReadBehaviors : gmap Z (list (list Z));
  logged : list LogMsg
}.

Definition setRecords (em : Emitter) (r : gmap Z (list memorySpan)) : Emitter :=
  mkEmitter r (labelReadBehaviors em) (logged em).

Definition setLabelReadBehaviors (em : Emitter)
    (r : gmap Z (list (list Z))) : Emitter :=
  mkEmitter (records em) r (logged em).

Definition logE (em : Emitter) (m : LogMsg) : Emitter :=
  mkEmitter (records em) (labelReadBehaviors em) (logged em ++ [m]).

Definition recordsOf (em : Emitter) (mem : Z) : list memorySpan :=
  default [] (records em !! mem).

(** One round of the loop [for _, c := range cs] of [read]. *)
Definition read1 (st : bool * Behavior * Emitter) (c : DefUseVariable)
    : bool * Behavior * Emitter :=
  let '(allSucceeded, bh, em) := st in
  match c with
  | VHandle h =>
      if h =? 0 then (false, bh, em)
      else (allSucceeded, Behavior_Read bh c, em)
  | VForwardPairedLabel id =>
      (allSucceeded, Behavior_Read bh c,
       setLabelReadBehaviors em
         (<[id := default [] (labelReadBehaviors em !! id) ++ [Owner bh]]>
            (labelReadBehaviors em)))
  | VMemorySpan s =>
      if memory s =? 0 then (allSucceeded, bh, em)
      else
        let fc :=
          Interval.Intersect mb_span (recordsOf em (memory s)) (MemorySpan.span s) in
        (allSucceeded,
         fold_left (fun b x => Behavior_Read b (VMemorySpan x))
           (take (snd fc) (drop (fst fc) (recordsOf em (memory s)))) bh,
         em)
  | _ => (allSucceeded, Behavior_Read bh c, em)
  end.

(** [func read(ctx, bh, cs ...DefUseVariable) bool] *)
Definition read (em : Emitter) (bh : Behavior) (cs : list DefUseVariable)
    : bool * Behavior * Emitter :=
  fold_left read1 cs (true, bh, em).

(** One round of the loop of [write]. *)
Definition write1 (st : bool * Behavior * Emitter) (c : DefUseVariable)
    : bool * Behavior * Emitter :=
  let '(allSucceeded, bh, em) := st in
  match c with
  | VHandle h =>
      if h =? 0 then (false, bh, em)
      else (allSucceeded, Behavior_Write bh c, em)
  | VMemorySpan s =>
      if memory s =? 0 then (allSucceeded, bh, em)
      else
        let c' := MemorySpan.duplicate s in
        match addBinding (recordsOf em (memory c')) c' with
        | inl _ => (false, bh, em)
        | inr newList =>
            (allSucceeded, Behavior_Write bh (VMemorySpan c'),
             setRecords em (<[memory c' := newList]> (records em)))
        end
  | _ => (allSucceeded, Behavior_Write bh c, em)
  end.

(** [func write(ctx, bh, cs ...DefUseVariable) bool] *)
Definition write (em : Emitter) (bh : Behavior) (cs : list DefUseVariable)
    : bool * Behavior * Emitter :=
  fold_left write1 cs (true, bh, em).

(** [func modify(ctx, bh, cs ...DefUseVariable) bool] *)
Definition modify (em : Emitter) (bh : Behavior) (cs : list DefUseVariable)
    : bool * Behavior * Emitter :=
  let '(allSucceeded, bh1, em1) := read em bh cs in
  if allSucceeded then write em1 bh1 cs else (false, bh1, em1).

(** [if bh != nil { read(ctx, bh, cs...) }] and the same for [write]. *)
Definition readIfBehavior (em : Emitter) (bh : option Behavior)
    (cs : list DefUseVariable) : option Behavior * Emitter :=
  match bh with
  | Some b => let '(_, b', em') := read em b cs in (Some b', em')
  | None => (None, em)
  end.

Definition writeIfBehavior (em : Emitter) (bh : option Behavior)
    (cs : list DefUseVariable) : option Behavior * Emitter :=
  match bh with
  | Some b => let '(_, b', em') := write em b cs in (Some b', em')
  | None => (None, em)
  end.

(** ** Resource bindings ([resBinding], [resBindingList]) *)

Record resBinding : Type := mkResBinding {
  resourceOffset : Z;
  bindSize : Z;
  backingData : DefUseVariable
}.

Definition varOfResBinding (bd : resBinding) : DefUseVariable :=
  VResBinding (resourceOffset bd) (bindSize bd) (backingData bd).

Module ResBinding.

Definition size (bd : resBinding) : Z := bindSize bd.

Definition span (bd : resBinding) : U64Span :=
  mkSpan (resourceOffset bd) (add64 (resourceOffset bd) (size bd)).

(** [func (bd *resBinding) shrink(offset, size uint64) error] *)
Definition shrink (bd : resBinding) (offset size0 : Z) : LogMsg + resBinding :=
  let size1 := if size0 =? vkWholeSize then sub64 (size bd) offset else size0 in
  if (add64 offset size1 <? offset) || (size bd <? add64 offset size1)
  then inl (ErrShrinkOutOfMemBindingBound offset size1)
  else
    match backingData bd with
    | VMemorySpan s =>
        let start' := add64 (Start (sp s)) offset in
        inr (mkResBinding (add64 (resourceOffset bd) offset) size1
               (VMemorySpan
                  (mkMemorySpan (mkSpan start' (add64 start' size1)) (memory s))))
    | _ =>
        if negb (offset =? 0) || negb (size1 =? size bd)
        then inl ErrCannotShrinkNonSpan
        else inr bd
    end.

(** [func (bd *resBinding) duplicate() memBinding]: a copy of the struct,
    with a copy of the backing memory span. *)
Definition duplicate (bd : resBinding) : resBinding :=
  match backingData bd with
  | VMemorySpan d =>
      mkResBinding (resourceOffset bd) (bindSize bd)
        (VMemorySpan (MemorySpan.duplicate d))
  | _ => bd
  end.

(** [func (bd *resBinding) newSubBinding(ctx, bh, offset, size)], which
    returns the sub-binding or an error. *)
Definition newSubBinding (em : Emitter) (bh : option Behavior)
    (bd : resBinding) (offset size : Z)
    : (LogMsg + resBinding) * option Behavior * Emitter :=
  match shrink (duplicate bd) offset size with
  | inl err => (inl err, bh, em)
  | inr subBinding =>
      let '(bh', em') := writeIfBehavior em bh [varOfResBinding subBinding] in
      (inr subBinding, bh', em')
  end.

End ResBinding.

#[global] Instance resBinding_MemBinding : MemBinding resBinding := {
  mb_span := ResBinding.span;
  mb_size := ResBinding.size;
  mb_shrink := ResBinding.shrink;
  mb_duplicate := ResBinding.duplicate
}.

(** The body of the loop [for i := first; i < first+count; i++] of
    [getSubBindingList], for the binding [bli] at index [i]. *)
Definition subBindingStep (offset size : Z)
    (st : list resBinding * option Behavior * Emitter) (bli : resBinding)
    : list resBinding * option Behavior * Emitter :=
  let '(subBindings, bh, em) := st in
  let start0 := Start (ResBinding.span bli) in
  let end0 := End (ResBinding.span bli) in
  let start := if start0 <? offset then offset else start0 in
  let end_ := if add64 offset size <? end0 then add64 offset size else end0 in
  let '(bh1, em1) := readIfBehavior em bh [varOfResBinding bli] in
  let '(r, bh2, em2) :=
    ResBinding.newSubBinding em1 bh1 bli
      (sub64 start (Start (ResBinding.span bli))) (sub64 end_ start) in
  match r with
  | inl err => (subBindings, bh2, logE em2 err)
  | inr newB => (subBindings ++ [newB], bh2, em2)
  end.

(** [func (l resBindingList) getSubBindingList(ctx, bh, offset, size)
    resBindingList] *)
Definition getSubBindingList (em : Emitter) (bh : option Behavior)
    (l : list resBinding) (offset size0 : Z)
    : list resBinding * option Behavior * Emitter :=
  let size := if add64 offset size0 <? offset
              then sub64 vkWholeSize offset else size0 in
  let fc := Interval.Intersect mb_span l (mkSpan offset (add64 offset size)) in
  fold_left (subBindingStep offset size) (take (snd fc) (drop (fst fc) l))
    ([], bh, em).

(** [func (l resBindingList) getBoundData(ctx, bh, offset, size)
    []dependencygraph.DefUseVariable] *)
Definition getBoundData (em : Emitter) (bh : option Behavior)
    (l : list resBinding) (offset size : Z)
    : list DefUseVariable * option Behavior * Emitter :=
  let '(bindingList, bh', em') := getSubBindingList em bh l offset size in
  (map backingData bindingList, bh', em').

(** ** Shadow state *)

(** Modelled from the spec: the declaration of [VkIndexType] is generated
    code that is not part of the sources at hand; the two index types that
    the specification names, with their values in the Vulkan API. *)
Definition VkIndexType_VK_INDEX_TYPE_UINT16 : Z := 0.
Definition VkIndexType_VK_INDEX_TYPE_UINT32 : Z := 1.

Record fence : Type := mkFence { fence_signal : Z; fence_unsignal : Z }.

Record query : Type := mkQuery {
  query_reset : Z; query_begin : Z; query_end : Z; query_result : Z
}.

Record queryPool : Type := mkQueryPool { queries : list query }.

Record commandBuffer : Type := mkCommandBuffer {
  cb_begin : Z; cb_end : Z; cb_renderPassBegin : Z
}.

Record sparseImageMemoryBinding : Type := mkSparseBinding {
  sparse_backingData : DefUseVariable
}.

(** [sparseData], a map of maps in the source, is kept as the list of its
    blocks in the order in which the four nested [range] loops of
    [getImageData] visit them. *)
Record imageLayoutAndData : Type := mkImageLayoutAndData {
  layout : Z;
  opaqueData : list resBinding;
  sparseData : list sparseImageMemoryBinding
}.

(** The fields of [commandBufferExecutionState] that the functions below
    use (the bound descriptor sets are left out). *)
Record commandBufferExecutionState : Type := mkCmdBufState {
  vertexBufferResBindings : gmap Z (list resBinding);
  indexBufferResBindings : list resBinding;
  indexType : Z;
  pipeline : Z;
  dynamicState : Z
}.

(** [currentCmdBufState] aliases either the primary or the secondary
    state. *)
Inductive cmdBufSel : Type := PrimaryCmdBuf | SecondaryCmdBuf.

(** The fields of [queueExecutionState] that the functions below use (the
    render pass state is left out).  [currentSubmitInfo] is the key of the
    submit info it points to. *)
Record queueExecutionState : Type := mkQueueExecutionState {
  currentCmdBufState : option cmdBufSel;
  primaryCmdBufState : option commandBufferExecutionState;
  secondaryCmdBufState : option commandBufferExecutionState;
  currentCommand : list Z;
  lastSubmitID : Z;
  currentSubmitInfo : option Z
}.

(** What a deferred command can reach when it runs: the footprint [ft] and
    every field of the builder but [commands] and [submitInfos], which no
    [behave] closure of the source touches.  [nextLabelVal] is the global
    counter of [newLabel]. *)
Record Shadow : Type := mkShadow {
  emitter : Emitter;
  footprint : list Behavior;
  nextLabelVal : Z;
  semaphoreSignals : gmap Z Z;
  fences : gmap Z fence;
  querypools : gmap Z queryPool;
  commandBuffers : gmap Z commandBuffer;
  images : gmap Z imageLayoutAndData;
  buffers : gmap Z (list resBinding);
  executionStates : gmap Z queueExecutionState;
  swapchainImageAcquired : gmap Z (list Z);
  swapchainImagePresented : gmap Z (list Z)
}.

Definition setEmitter (s : Shadow) (em : Emitter) : Shadow :=
  mkShadow em (footprint s) (nextLabelVal s) (semaphoreSignals s) (fences s)
    (querypools s) (commandBuffers s) (images s) (buffers s)
    (executionStates s) (swapchainImageAcquired s) (swapchainImagePresented s).

(** [ft.AddBehavior(ctx, bh)] *)
Definition AddBehavior (s : Shadow) (bh : Behavior) : Shadow :=
  mkShadow (emitter s) (footprint s ++ [bh]) (nextLabelVal s)
    (semaphoreSignals s) (fences s) (querypools s) (commandBuffers s)
    (images s) (buffers s) (executionStates s) (swapchainImageAcquired s)
    (swapchainImagePresented s).

Definition setNextLabelVal (s : Shadow) (n : Z) : Shadow :=
  mkShadow (emitter s) (footprint s) n (semaphoreSignals s) (fences s)
    (querypools s) (commandBuffers s) (images s) (buffers s)
    (executionStates s) (swapchainImageAcquired s) (swapchainImagePresented s).

Definition setExecutionStates (s : Shadow)
    (e : gmap Z queueExecutionState) : Shadow :=
  mkShadow (emitter s) (footprint s) (nextLabelVal s) (semaphoreSignals s)
    (fences s) (querypools s) (commandBuffers s) (images s) (buffers s) e
    (swapchainImageAcquired s) (swapchainImagePresented s).

(** [func newLabel() *label] *)
Definition newLabel (s : Shadow) : Z * Shadow :=
  (nextLabelVal s, setNextLabelVal s (add64 (nextLabelVal s) 1)).

(** A label out of a map of the builder: nil when the lookup misses. *)
Definition labelVar (l : option Z) : DefUseVariable :=
  match l with
  | Some n => VLabel n
  | None => VNil
  end.

(** [vb.toVkHandle(handle)]: the one [*vkHandle] of that value. *)
Definition toVkHandle (handle : Z) : DefUseVariable := VHandle handle.

(** [read], [write] and [modify] on the emitter of the shadow state. *)
Definition sread (s : Shadow) (bh : Behavior) (cs : list DefUseVariable)
    : bool * Behavior * Shadow :=
  let '(ok, bh', em') := read (emitter s) bh cs in (ok, bh', setEmitter s em').

Definition swrite (s : Shadow) (bh : Behavior) (cs : list DefUseVariable)
    : bool * Behavior * Shadow :=
  let '(ok, bh', em') := write (emitter s) bh cs in (ok, bh', setEmitter s em').

Definition smodify (s : Shadow) (bh : Behavior) (cs : list DefUseVariable)
    : bool * Behavior * Shadow :=
  let '(ok, bh', em') := modify (emitter s) bh cs in (ok, bh', setEmitter s em').

(** ** Image and buffer data *)

(** The loop over the sparse blocks of [getImageData]. *)
Definition sparseStep (st : list DefUseVariable * option Behavior * Emitter)
    (blocki : sparseImageMemoryBinding)
    : list DefUseVariable * option Behavior * Emitter :=
  let '(data, bh, em) := st in
  let '(bh', em') :=
    readIfBehavior em bh [VSparseImageMemoryBinding (sparse_backingData blocki)] in
  (data ++ [sparse_backingData blocki], bh', em').

(** The part of [getImageData] after the block [if bh != nil]. *)
Definition getImageDataTail (s : Shadow) (bh : option Behavior) (vkImg : Z)
    : list DefUseVariable * option Behavior * Shadow :=
  match images s !! vkImg with
  | None => ([], bh, s)
  | Some img =>
      let '(data, bh1, em1) :=
        getBoundData (emitter s) bh (opaqueData img) 0 vkWholeSize in
      let '(data', bh2, em2) :=
        fold_left sparseStep (sparseData img) (data, bh1, em1) in
      (data', bh2, setEmitter s em2)
  end.

(** [func (vb *FootprintBuilder) getImageData(ctx, bh, vkImg)
    []dependencygraph.DefUseVariable] *)
Definition getImageData (s : Shadow) (bh : option Behavior) (vkImg : Z)
    : res (list DefUseVariable * option Behavior * Shadow) :=
  match bh with
  | Some b =>
      let '(ok, b1, s1) := sread s b [toVkHandle vkImg] in
      if negb ok then Ok ([], Some b1, s1)
      else
        match images s1 !! vkImg with
        | None => Panic
        | Some img =>
            let '(ok2, b2, s2) := sread s1 b1 [VLabel (layout img)] in
            if negb ok2 then Ok ([], Some b2, s2)
            else Ok (getImageDataTail s2 (Some b2) vkImg)
        end
  | None => Ok (getImageDataTail s None vkImg)
  end.

(** [func (vb *FootprintBuilder) getImageLayoutAndData(ctx, bh, vkImg)]
    with a behavior at hand. *)
Definition getImageLayoutAndData (s : Shadow) (bh : Behavior) (vkImg : Z)
    : res (Z * list DefUseVariable * Behavior * Shadow) :=
  let '(_, b1, s1) := sread s bh [toVkHandle vkImg] in
  match images s1 !! vkImg with
  | None => Panic
  | Some img =>
      r <-! getImageData s1 (Some b1) vkImg;
      let '(data, bh2, s2) := r in
      match bh2 with
      | Some b2 => Ok (layout img, data, b2, s2)
      | None => Panic
      end
  end.

(** ** Index buffers *)

(** [func (t VkIndexType) size() int] *)
Definition VkIndexType_size (t : Z) : Z :=
  if t =? VkIndexType_VK_INDEX_TYPE_UINT16 then 2
  else if t =? VkIndexType_VK_INDEX_TYPE_UINT32 then 4
  else 0.

(** The commands that the type switch of [readBoundIndexBuffer] tells
    apart; the counts and indices are [uint32]. *)
Inductive DrawCmd : Type :=
| VkCmdDrawIndexed (IndexCount FirstIndex : Z)
| VkCmdDrawIndexedIndirect
| OtherDrawCmd.

(** The state that [execInfo.currentCmdBufState] points to. *)
Definition currentState (qei : queueExecutionState)
    : option commandBufferExecutionState :=
  match currentCmdBufState qei with
  | Some PrimaryCmdBuf => primaryCmdBufState qei
  | Some SecondaryCmdBuf => secondaryCmdBufState qei
  | None => None
  end.

(** The offset and the size that [readBoundIndexBuffer] asks for. *)
Definition indexBufferRange (indexSize : Z) (cmd : DrawCmd) : Z * Z :=
  match cmd with
  | VkCmdDrawIndexed IndexCount FirstIndex =>
      (add64 0 (mul64 FirstIndex indexSize), mul64 IndexCount indexSize)
  | _ => (0, vkWholeSize)
  end.

(** [func (vb *FootprintBuilder) readBoundIndexBuffer(ctx, bh, execInfo, cmd)] *)
Definition readBoundIndexBuffer (em : Emitter) (bh : Behavior)
    (execInfo : queueExecutionState) (cmd : DrawCmd)
    : res (Behavior * Emitter) :=
  match currentState execInfo with
  | None => Panic
  | Some cbs =>
      let indexSize := VkIndexType_size (indexType cbs) in
      let em0 := if indexSize =? 0 then logE em ErrInvalidIndexSize else em in
      let '(offset, size) := indexBufferRange indexSize cmd in
      let '(dataToRead, bh1, em1) :=
        getBoundData em0 (Some bh) (indexBufferResBindings cbs) offset size in
      match bh1 with
      | Some b1 =>
          let '(_, b2, em2) := read em1 b1 dataToRead in Ok (b2, em2)
      | None => Panic
      end
  end.

(** ** Deferred commands and submits *)

(** What a [behave] closure gets of its arguments [sc submittedCommand] and
    [execInfo *queueExecutionState]: the full command index, the addresses
    of the command and of its parent, the queue whose execution state
    [execInfo] is, and the [queued] label of [execInfo.currentSubmitInfo]. *)
Record SubCtx : Type := mkSubCtx {
  ctx_id : list Z;
  ctx_cmd : Z;
  ctx_parentCmd : option Z;
  ctx_queue : Z;
  ctx_queued : Z
}.

(** [type commandBufferCommand struct]; [cbc_addr] stands for the address
    of the struct, by which [read] and [write] know it. *)
Record commandBufferCommand : Type := mkCommand {
  cbc_addr : Z;
  isCmdExecuteCommands : bool;
  secondaryCommandBuffers : list Z;
  behave : SubCtx -> Shadow -> res Shadow
}.

Record submittedCommand : Type := mkSubmittedCommand {
  id : list Z;
  cmd : commandBufferCommand;
  parentCmd : option commandBufferCommand
}.

Record queueSubmitInfo : Type := mkQueueSubmitInfo {
  queue : Z;
  began : bool;
  queued : Z;
  done : Z;
  waitSemaphores : list Z;
  signalSemaphores : list Z;
  signalFence : Z;
  pendingCommands : list submittedCommand
}.

Definition setBegan (i : queueSubmitInfo) (b : bool) : queueSubmitInfo :=
  mkQueueSubmitInfo (queue i) b (queued i) (done i) (waitSemaphores i)
    (signalSemaphores i) (signalFence i) (pendingCommands i).

Definition setPendingCommands (i : queueSubmitInfo)
    (p : list submittedCommand) : queueSubmitInfo :=
  mkQueueSubmitInfo (queue i) (began i) (queued i) (done i) (waitSemaphores i)
    (signalSemaphores i) (signalFence i) p.

Record FootprintBuilder : Type := mkBuilder {
  shadow : Shadow;
  commands : gmap Z (list commandBufferCommand);
  submitInfos : gmap Z queueSubmitInfo;
  nextCommandAddr : Z
}.

Definition setShadow (vb : FootprintBuilder) (s : Shadow) : FootprintBuilder :=
  mkBuilder s (commands vb) (submitInfos vb) (nextCommandAddr vb).

Definition setCommands (vb : FootprintBuilder)
    (c : gmap Z (list commandBufferCommand)) : FootprintBuilder :=
  mkBuilder (shadow vb) c (submitInfos vb) (nextCommandAddr vb).

Definition setSubmitInfos (vb : FootprintBuilder)
    (i : gmap Z queueSubmitInfo) : FootprintBuilder :=
  mkBuilder (shadow vb) (commands vb) i (nextCommandAddr vb).

(** [func (cbc *commandBufferCommand) newBehavior(ctx, sc, qei)] *)
Definition newBehavior (s : Shadow) (c : SubCtx) : Behavior * Shadow :=
  let bh := NewBehavior (ctx_id c) in
  let '(_, bh1, s1) := sread s bh [VCommand (ctx_cmd c)] in
  let '(_, bh2, s2) := sread s1 bh1 [VLabel (ctx_queued c)] in
  match ctx_parentCmd c with
  | Some p => let '(_, bh3, s3) := sread s2 bh2 [VCommand p] in (bh3, s3)
  | None => (bh2, s2)
  end.

(** ** The order of execution *)

(** Modelled from the spec: package [api] is not part of the sources at
    hand.  Full command indices are ordered "by (submitIndex, cbIndex,
    cmdIndex)", one component after the other; [Equals] is equality. *)
Fixpoint SubCmdIdx_LessThan (s s2 : list Z) : bool :=
  match s, s2 with
  | [], [] => false
  | [], _ :: _ => true
  | _ :: _, [] => false
  | x :: s', y :: s2' =>
      if x <? y then true
      else if y <? x then false
      else SubCmdIdx_LessThan s' s2'
  end.

Definition SubCmdIdx_Equals (s s2 : list Z) : bool :=
  bool_decide (s = s2).

(** [func newCommandBufferExecutionState() *commandBufferExecutionState] *)
Definition newCommandBufferExecutionState (s : Shadow)
    : commandBufferExecutionState * Shadow :=
  let '(p, s1) := newLabel s in
  let '(d, s2) := newLabel s1 in
  (mkCmdBufState ∅ [] 0 p d, s2).

(** [func (qei *queueExecutionState) updateCurrentCommand(ctx, fci)].  A
    slice [x[0:n]] of an index shorter than [n], which Go serves from the
    capacity of the slice or refuses, is cut at the length. *)
Definition updateCurrentCommand (s : Shadow) (qei : queueExecutionState)
    (fci : list Z) : queueExecutionState * Shadow :=
  let setCurrent q :=
    mkQueueExecutionState (currentCmdBufState q) (primaryCmdBufState q)
      (secondaryCmdBufState q) fci (lastSubmitID q) (currentSubmitInfo q) in
  if (length fci =? 4)%nat then
    let '(prim, s1) :=
      if SubCmdIdx_LessThan (take 3 (currentCommand qei)) (take 3 fci)
      then let '(st, s1) := newCommandBufferExecutionState s in (Some st, s1)
      else (primaryCmdBufState qei, s) in
    (setCurrent
       (mkQueueExecutionState (Some PrimaryCmdBuf) prim
          (secondaryCmdBufState qei) (currentCommand qei) (lastSubmitID qei)
          (currentSubmitInfo qei)), s1)
  else if (length fci =? 6)%nat then
    let '(sec, s1) :=
      if negb (length (currentCommand qei) =? 6)%nat
      then let '(st, s1) := newCommandBufferExecutionState s in (Some st, s1)
      else if SubCmdIdx_LessThan (take 5 (currentCommand qei)) (take 5 fci)
      then let '(st, s1) := newCommandBufferExecutionState s in (Some st, s1)
      else (secondaryCmdBufState qei, s) in
    (setCurrent
       (mkQueueExecutionState (Some SecondaryCmdBuf) (primaryCmdBufState qei)
          sec (currentCommand qei) (lastSubmitID qei) (currentSubmitInfo qei)),
     s1)
  else
    (setCurrent qei, setEmitter s (logE (emitter s) ErrInvalidFullCommandIndexLength)).

(** ** Rolling out the executed subcommands *)

(** [if read(ctx, bh, vb.toVkHandle(uint64(sp))) { modify(ctx, bh,
    vb.semaphoreSignals[sp]) }], the body of the loop over the wait
    semaphores. *)
Definition waitSemaphoreStep (st : Behavior * Shadow) (sem : Z)
    : Behavior * Shadow :=
  let '(bh, s) := st in
  let '(ok, bh1, s1) := sread s bh [toVkHandle sem] in
  if ok then
    let '(_, bh2, s2) := smodify s1 bh1 [labelVar (semaphoreSignals s1 !! sem)] in
    (bh2, s2)
  else (bh1, s1).

(** The same with [write] for the signal semaphores. *)
Definition signalSemaphoreStep (st : Behavior * Shadow) (sem : Z)
    : Behavior * Shadow :=
  let '(bh, s) := st in
  let '(ok, bh1, s1) := sread s bh [toVkHandle sem] in
  if ok then
    let '(_, bh2, s2) := swrite s1 bh1 [labelVar (semaphoreSignals s1 !! sem)] in
    (bh2, s2)
  else (bh1, s1).

(** The behavior that [rollOutExecuted] builds when a submit begins. *)
Definition beganBehavior (s : Shadow) (submitID : Z) (info : queueSubmitInfo)
    : Behavior * Shadow :=
  fold_left waitSemaphoreStep (waitSemaphores info) (NewBehavior [submitID], s).

(** The behavior that [rollOutExecuted] builds "after the last command of
    the submit", for "semaphore and fence signaling". *)
Definition terminalBehavior (s : Shadow) (submitID : Z) (info : queueSubmitInfo)
    : res (Behavior * Shadow) :=
  let bh := NewBehavior [submitID] in
  let '(_, bh1, s1) := sread s bh [VLabel (queued info)] in
  let '(_, bh2, s2) := swrite s1 bh1 [VLabel (done info)] in
  let '(bh3, s3) := fold_left signalSemaphoreStep (signalSemaphores info) (bh2, s2) in
  let '(ok, bh4, s4) := sread s3 bh3 [toVkHandle (signalFence info)] in
  if ok then
    match fences s4 !! signalFence info with
    | None => Panic
    | Some f =>
        let '(_, bh5, s5) := swrite s4 bh4 [VLabel (fence_signal f)] in
        Ok (bh5, s5)
    end
  else Ok (bh4, s4).

(** The block [if !submitinfo.began { ... }]. *)
Definition beginSubmit (s : Shadow) (submitID : Z) (submitinfo : queueSubmitInfo)
    : queueSubmitInfo * Shadow :=
  if began submitinfo then (submitinfo, s)
  else
    let '(bh, s1) := beganBehavior s submitID submitinfo in
    (setBegan submitinfo true, AddBehavior s1 bh).

(** The branch of the submitted command whose index is the executed one:
    the execution state of the queue takes the submit and the command
    index, and the command runs. *)
Definition runSubmitted (s : Shadow) (submitID : Z) (submitinfo : queueSubmitInfo)
    (submittedCmd : submittedCommand) (executedFCI : list Z) : res Shadow :=
  match executionStates s !! queue submitinfo with
  | None => Panic
  | Some execInfo0 =>
      let execInfo1 :=
        mkQueueExecutionState (currentCmdBufState execInfo0)
          (primaryCmdBufState execInfo0) (secondaryCmdBufState execInfo0)
          (currentCommand execInfo0) (lastSubmitID execInfo0) (Some submitID) in
      let '(execInfo2, s1) := updateCurrentCommand s execInfo1 executedFCI in
      let s2 :=
        setExecutionStates s1
          (<[queue submitinfo := execInfo2]> (executionStates s1)) in
      behave (cmd submittedCmd)
        (mkSubCtx (id submittedCmd) (cbc_addr (cmd submittedCmd))
           (option_map cbc_addr (parentCmd submittedCmd))
           (queue submitinfo) (queued submitinfo)) s2
  end.

(** The block [if len(submitinfo.pendingCommands) == 0 { ... }] after the
    front command has been removed. *)
Definition finishSubmit (s : Shadow) (submitID : Z) (submitinfo : queueSubmitInfo)
    (pending : list submittedCommand) : res Shadow :=
  match pending with
  | [] =>
      r <-! terminalBehavior s submitID submitinfo;
      Ok (AddBehavior (snd r) (fst r))
  | _ :: _ => Ok s
  end.

(** One round of the loop [for _, executedFCI := range executedCommands]:
    the new state, and whether the loop goes on ([false] after the
    [return] of the branch that logs). *)
Definition rollOutStep (vb : FootprintBuilder) (executedFCI : list Z)
    : res (bool * FootprintBuilder) :=
  match executedFCI with
  | [] => Panic
  | submitID :: _ =>
      match submitInfos vb !! submitID with
      | None => Panic
      | Some submitinfo0 =>
          let submitinfo := fst (beginSubmit (shadow vb) submitID submitinfo0) in
          let s0 := snd (beginSubmit (shadow vb) submitID submitinfo0) in
          match pendingCommands submitinfo with
          | [] => Panic
          | submittedCmd :: pending' =>
              if SubCmdIdx_Equals executedFCI (id submittedCmd) then
                s3 <-! runSubmitted s0 submitID submitinfo submittedCmd executedFCI;
                s4 <-! finishSubmit s3 submitID submitinfo pending';
                Ok (true,
                    setShadow
                      (setSubmitInfos vb
                         (<[submitID := setPendingCommands submitinfo pending']>
                            (submitInfos vb))) s4)
              else
                Ok (false,
                    setShadow
                      (setSubmitInfos vb (<[submitID := submitinfo]> (submitInfos vb)))
                      (setEmitter s0
                         (logE (emitter s0)
                            (ErrExecutionOrderDiffers executedFCI (id submittedCmd)))))
          end
      end
  end.

(** [func (vb *FootprintBuilder) rollOutExecuted(ctx, ft, executedCommands)] *)
Fixpoint rollOutExecuted (vb : FootprintBuilder) (executedCommands : list (list Z))
    : res FootprintBuilder :=
  match executedCommands with
  | [] => Ok vb
  | executedFCI :: rest =>
      r <-! rollOutStep vb executedFCI;
      if fst r then rollOutExecuted (snd r) rest else Ok (snd r)
  end.

(** ** Recording commands *)

(** The zero value of the field [behave]: calling a nil function panics. *)
Definition nilBehave : SubCtx -> Shadow -> res Shadow := fun _ _ => Panic.

(** [func (vb *FootprintBuilder) newCommand(ctx, bh, vkCb)
    *commandBufferCommand]; the result is nil when the command buffer is
    not known. *)
Definition newCommand (vb : FootprintBuilder) (bh : Behavior) (vkCb : Z)
    : option commandBufferCommand * Behavior * FootprintBuilder :=
  let cbc := mkCommand (nextCommandAddr vb) false [] nilBehave in
  let vb0 := mkBuilder (shadow vb) (commands vb) (submitInfos vb)
               (nextCommandAddr vb + 1) in
  let '(_, bh1, s1) := sread (shadow vb0) bh [toVkHandle vkCb] in
  match commandBuffers s1 !! vkCb with
  | Some cb =>
      let '(_, bh2, s2) := sread s1 bh1 [VLabel (cb_begin cb)] in
      let '(_, bh3, s3) := swrite s2 bh2 [VCommand (cbc_addr cbc)] in
      (Some cbc, bh3,
       setShadow
         (setCommands vb0
            (<[vkCb := default [] (commands vb0 !! vkCb) ++ [cbc]]> (commands vb0)))
         s3)
  | None => (None, bh1, setShadow vb0 s1)
  end.

(** [cbc.behave = f] for the command [cbc] that [newCommand] has returned:
    the assignment goes through the pointer that the list of the command
    buffer holds, and panics on nil. *)
Definition setBehave (vb : FootprintBuilder) (vkCb : Z)
    (cbc : option commandBufferCommand) (f : SubCtx -> Shadow -> res Shadow)
    : res FootprintBuilder :=
  match cbc with
  | None => Panic
  | Some c =>
      Ok (setCommands vb
            (<[vkCb :=
                 map (fun x => if cbc_addr x =? cbc_addr c
                               then mkCommand (cbc_addr x) (isCmdExecuteCommands x)
                                      (secondaryCommandBuffers x) f
                               else x)
                   (default [] (commands vb !! vkCb))]> (commands vb)))
  end.

(** The closure of [keepSubmittedCommandAlive]. *)
Definition keepAliveBehave : SubCtx -> Shadow -> res Shadow :=
  fun sc s =>
    let '(cbh, s1) := newBehavior s sc in
    Ok (AddBehavior s1 (setAlive cbh true)).

(** [func (vb *FootprintBuilder) keepSubmittedCommandAlive(ctx, ft, bh, vkCb)] *)
Definition keepSubmittedCommandAlive (vb : FootprintBuilder) (bh : Behavior)
    (vkCb : Z) : res (Behavior * FootprintBuilder) :=
  let '(cbc, bh1, vb1) := newCommand vb bh vkCb in
  vb2 <-! setBehave vb1 vkCb cbc keepAliveBehave;
  Ok (bh1, vb2).

(** The closure of [recordReadsWritesModifies]. *)
Definition readsWritesModifiesBehave (reads writes modifies : list DefUseVariable)
    : SubCtx -> Shadow -> res Shadow :=
  fun sc s =>
    let '(cbh, s1) := newBehavior s sc in
    let '(_, cbh1, s2) := sread s1 cbh reads in
    let '(_, cbh2, s3) := swrite s2 cbh1 writes in
    let '(_, cbh3, s4) := smodify s3 cbh2 modifies in
    Ok (AddBehavior s4 cbh3).

(** [func (vb *FootprintBuilder) recordReadsWritesModifies(ctx, ft, bh, vkCb,
    reads, writes, modifies)] *)
Definition recordReadsWritesModifies (vb : FootprintBuilder) (bh : Behavior)
    (vkCb : Z) (reads writes modifies : list DefUseVariable)
    : res (Behavior * FootprintBuilder) :=
  let '(cbc, bh1, vb1) := newCommand vb bh vkCb in
  vb2 <-! setBehave vb1 vkCb cbc (readsWritesModifiesBehave reads writes modifies);
  Ok (bh1, vb2).

(** ** The command switch of [BuildFootprint] *)

(** The commands whose arm of the switch is embedded here, each with the
    arguments that its arm reads, and [UnhandledCmd] for a command that
    only the [default] arm takes.  For [VkQueuePresentKHR], [PSwapchains]
    lists, per presented image, the swapchain, the image index and the
    handle of that swapchain image in the state of the collaborator. *)
Inductive Cmd : Type :=
| VkBeginCommandBuffer (CommandBuffer : Z)
| VkResetCommandBuffer (CommandBuffer : Z)
| VkCmdDebugMarkerInsertEXT (CommandBuffer : Z)
| VkCmdBeginQuery (CommandBuffer QueryPool Query : Z)
| VkQueuePresentKHR (Queue : Z) (PWaitSemaphores : list Z)
    (PSwapchains : list (Z * Z * Z))
| UnhandledCmd.

(** What the collaborator contributes to one call: whether [cmd.Mutate]
    fails, and the images of the attachments of the framebuffer of the last
    draw (empty when the state reports none). *)
Record Collaborator : Type := mkCollaborator {
  mutateFails : bool;
  lastDrawImages : list Z
}.

(** [if read(ctx, bh, vb.toVkHandle(uint64(vkSp))) { read(ctx, bh,
    vb.semaphoreSignals[vkSp]) }] *)
Definition presentWaitStep (st : Behavior * Shadow) (vkSp : Z)
    : Behavior * Shadow :=
  let '(bh, s) := st in
  let '(ok, bh1, s1) := sread s bh [toVkHandle vkSp] in
  if ok then
    let '(_, bh2, s2) := sread s1 bh1 [labelVar (semaphoreSignals s1 !! vkSp)] in
    (bh2, s2)
  else (bh1, s1).

(** The loop over the wait semaphores for the extra behavior of a presented
    image, which reads the queue in every round. *)
Definition extraWaitStep (Queue : Z) (st : Behavior * Shadow) (vkSp : Z)
    : Behavior * Shadow :=
  let '(bh, s) := st in
  let '(_, bh0, s0) := sread s bh [toVkHandle Queue] in
  presentWaitStep (bh0, s0) vkSp.

(** The extra behavior of one presented image. *)
Definition presentExtraBehavior (s : Shadow) (cmdId Queue : Z)
    (PWaitSemaphores : list Z) (vkSw imgID : Z) : res (Behavior * Shadow) :=
  let '(extraBh, s1) :=
    fold_left (extraWaitStep Queue) PWaitSemaphores (NewBehavior [cmdId], s) in
  match default [] (swapchainImageAcquired s1 !! vkSw) !! Z.to_nat imgID with
  | None => Panic
  | Some acquired =>
      let '(_, extraBh1, s2) := sread s1 extraBh [VLabel acquired] in
      match default [] (swapchainImagePresented s2 !! vkSw) !! Z.to_nat imgID with
      | None => Panic
      | Some presented =>
          let '(_, extraBh2, s3) := swrite s2 extraBh1 [VLabel presented] in
          Ok (setAlive extraBh2 true, s3)
      end
  end.

(** The body of the loop over the presented swapchains. *)
Definition presentStep (cmdId Queue : Z) (PWaitSemaphores : list Z)
    (st : res (Behavior * Shadow)) (sw : Z * Z * Z) : res (Behavior * Shadow) :=
  st0 <-! st;
  let '(bh, s) := st0 in
  let '(vkSw, imgID, vkImg) := sw in
  let '(_, bh1, s1) := sread s bh [toVkHandle vkSw] in
  r <-! getImageLayoutAndData s1 bh1 vkImg;
  let '(imgLayout, imgData, bh2, s2) := r in
  let '(_, bh3, s3) := sread s2 bh2 [VLabel imgLayout] in
  let '(_, bh4, s4) := sread s3 bh3 imgData in
  e <-! presentExtraBehavior s4 cmdId Queue PWaitSemaphores vkSw imgID;
  Ok (bh4, AddBehavior (snd e) (fst e)).

(** The arms of [switch cmd := cmd.(type)]. *)
Definition mainSwitch (vb : FootprintBuilder) (bh : Behavior) (cmdId : Z)
    (c : Cmd) : res (Behavior * FootprintBuilder) :=
  match c with
  | VkResetCommandBuffer cb =>
      let '(_, bh1, s1) := sread (shadow vb) bh [toVkHandle cb] in
      match commandBuffers s1 !! cb with
      | Some cbo =>
          let '(_, bh2, s2) := swrite s1 bh1 [VLabel (cb_begin cbo)] in
          let '(_, bh3, s3) := swrite s2 bh2 [VLabel (cb_end cbo)] in
          Ok (bh3, setShadow (setCommands vb (<[cb := []]> (commands vb))) s3)
      | None => Ok (bh1, setShadow vb s1)
      end
  | VkBeginCommandBuffer cb =>
      let '(_, bh1, s1) := sread (shadow vb) bh [toVkHandle cb] in
      match commandBuffers s1 !! cb with
      | Some cbo =>
          let '(_, bh2, s2) := swrite s1 bh1 [VLabel (cb_begin cbo)] in
          Ok (bh2, setShadow (setCommands vb (<[cb := []]> (commands vb))) s2)
      | None => Ok (bh1, setShadow vb s1)
      end
  | VkCmdDebugMarkerInsertEXT cb => keepSubmittedCommandAlive vb bh cb
  | VkCmdBeginQuery cb pool q =>
      let '(_, bh1, s1) := sread (shadow vb) bh [toVkHandle pool] in
      match querypools s1 !! pool with
      | None => Panic
      | Some qp =>
          match queries qp !! Z.to_nat q with
          | None => Panic
          | Some qu =>
              recordReadsWritesModifies (setShadow vb s1) bh1 cb
                [VLabel (query_reset qu)] [VLabel (query_begin qu)] []
          end
      end
  | VkQueuePresentKHR Queue sems sws =>
      let '(_, bh1, s1) := sread (shadow vb) bh [toVkHandle Queue] in
      let '(bh2, s2) := fold_left presentWaitStep sems (bh1, s1) in
      r <-! fold_left (presentStep cmdId Queue sems) sws (Ok (bh2, s2));
      Ok (fst r, setShadow vb (snd r))
  | UnhandledCmd =>
      Ok (setAlive bh true,
          setShadow vb
            (setEmitter (shadow vb) (logE (emitter (shadow vb)) WarnCommandNotHandled)))
  end.

(** The images of the last draw: [fbData = append(fbData,
    vb.getImageData(ctx, nil, img.VulkanHandle())...)]. *)
Definition lastDrawStep (st : res (list DefUseVariable * Shadow)) (img : Z)
    : res (list DefUseVariable * Shadow) :=
  st0 <-! st;
  r <-! getImageData (snd st0) None img;
  Ok (fst st0 ++ fst (fst r), snd r).

(** [func (vb *FootprintBuilder) BuildFootprint(ctx, s, ft, id, cmd)], for
    the commands of [Cmd]; none of them is a [VkQueueSubmit] or a
    [VkSetEvent], after which the source rolls out the executed
    subcommands. *)
Definition BuildFootprint (vb : FootprintBuilder) (co : Collaborator)
    (cmdId : Z) (c : Cmd) : res FootprintBuilder :=
  if mutateFails co then Ok vb
  else
    r <-! mainSwitch vb (NewBehavior [cmdId]) cmdId c;
    let '(bh, vb1) := r in
    let s1 := AddBehavior (shadow vb1) bh in
    fb <-! fold_left lastDrawStep (lastDrawImages co) (Ok ([], s1));
    let '(fbData, s2) := fb in
    match fbData with
    | [] => Ok (setShadow vb1 s2)
    | _ :: _ =>
        let '(_, fbh, s3) := sread s2 (NewBehavior [cmdId]) fbData in
        Ok (setShadow vb1 (AddBehavior s3 fbh))
    end.

(** [func newFootprintBuilder() *FootprintBuilder]; the counter of
    [newLabel] starts at 1. *)
Definition newShadow : Shadow :=
  mkShadow (mkEmitter ∅ ∅ []) [] 1 ∅ ∅ ∅ ∅ ∅ ∅ ∅ ∅ ∅.

Definition newFootprintBuilder : FootprintBuilder :=
  mkBuilder newShadow ∅ ∅ 0.

(** * Specification-level notions *)

(** "Binding lists for a resource are sorted and non-overlapping": every
    interval is well formed and ends before the later ones start. *)
Fixpoint sortedSpans {A : Type} (spanOf : A -> U64Span) (l : list A) : Prop :=
  match l with
  | [] => True
  | x :: l' =>
      Start (spanOf x) <= End (spanOf x) /\
      Forall (fun y => End (spanOf x) <= Start (spanOf y)) l' /\
      sortedSpans spanOf l'
  end.

(** The intervals of a list that overlap a span, in the order of the list. *)
Definition overlapping {A : Type} (spanOf : A -> U64Span) (l : list A)
    (span : U64Span) : list A :=
  List.filter (fun x => Interval.overlaps (spanOf x) span) l.

(** The size that [getSubBindingList] works with: when [offset+size] wraps,
    the size up to [vkWholeSize]. *)
Definition clampedSize (offset size0 : Z) : Z :=
  if add64 offset size0 <? offset then sub64 vkWholeSize offset else size0.

(** The bindings that the loop of [getSubBindingList] visits. *)
Definition visited (l : list resBinding) (offset size0 : Z) : list resBinding :=
  let fc :=
    Interval.Intersect mb_span l
      (mkSpan offset (add64 offset (clampedSize offset size0))) in
  take (snd fc) (drop (fst fc) l).

(** The offset and the size, relative to the binding [b], of the part of
    [b] inside the requested range. *)
Definition subRange (offset size : Z) (b : resBinding) : Z * Z :=
  let start0 := Start (ResBinding.span b) in
  let end0 := End (ResBinding.span b) in
  let start := if start0 <? offset then offset else start0 in
  let end_ := if add64 offset size <? end0 then add64 offset size else end0 in
  (sub64 start start0, sub64 end_ start).

(** The size asked for, with [vkWholeSize] read as "up to the end". *)
Definition wholeSizeTo (b : resBinding) (off sz : Z) : Z :=
  if sz =? vkWholeSize then sub64 (bindSize b) off else sz.

(** "offset plus size exceeds the binding's size or wraps" *)
Definition outOfBounds (b : resBinding) (off sz : Z) : bool :=
  (add64 off (wholeSizeTo b off sz) <? off)
  || (bindSize b <? add64 off (wholeSizeTo b off sz)).

Definition isSpanBacked (b : resBinding) : bool :=
  match backingData b with
  | VMemorySpan _ => true
  | _ => false
  end.

(** "the binding's backing data is not a memory span and the requested
    sub-range differs from the whole binding" *)
Definition notResizable (b : resBinding) (off sz : Z) : bool :=
  negb (isSpanBacked b)
  && (negb (off =? 0) || negb (wholeSizeTo b off sz =? bindSize b)).

(** The error, if any, of clipping [b] to the sub-range. *)
Definition clipError (b : resBinding) (off sz : Z) : option LogMsg :=
  if outOfBounds b off sz
  then Some (ErrShrinkOutOfMemBindingBound off (wholeSizeTo b off sz))
  else if notResizable b off sz then Some ErrCannotShrinkNonSpan
  else None.

(** The sub-binding of [b] for the requested range, when clipping works. *)
Definition subBindingOf (offset size : Z) (b : resBinding) : option resBinding :=
  match ResBinding.shrink (ResBinding.duplicate b)
          (fst (subRange offset size b)) (snd (subRange offset size b)) with
  | inl _ => None
  | inr nb => Some nb
  end.

Definition subBindingError (offset size : Z) (b : resBinding) : option LogMsg :=
  clipError b (fst (subRange offset size b)) (snd (subRange offset size b)).

(** A binding inside the address space: its offset and size are [uint64]
    and its end does not wrap. *)
Definition wfBinding (b : resBinding) : Prop :=
  0 <= resourceOffset b /\ 0 <= bindSize b /\
  resourceOffset b + bindSize b < two64.

(** A binding list as the builder keeps it: the bindings are inside the
    address space, sorted and non-overlapping. *)
Definition wfBindings (l : list resBinding) : Prop :=
  Forall wfBinding l /\ sortedSpans mb_span l.

(** The range [[offset, offset+size)] that is asked for, its end clamped to
    [vkWholeSize] when the sum wraps. *)
Definition requestedSpan (offset size0 : Z) : U64Span :=
  mkSpan offset
    (if two64 <=? offset + size0 then vkWholeSize else offset + size0).

(** The memory span [m] shrunk to [size] bytes from [off] on. *)
Definition shrunkSpan (m : memorySpan) (off size : Z) : memorySpan :=
  mkMemorySpan
    (mkSpan (add64 (Start (sp m)) off) (add64 (add64 (Start (sp m)) off) size))
    (memory m).

(** The binding [b] clipped to the range [[lo, hi)]: a binding backed by a
    memory span keeps the intersection, its span shrunk accordingly; any
    other binding is returned whole or not at all. *)
Definition clip (lo hi : Z) (b : resBinding) : option resBinding :=
  let s := Z.max lo (resourceOffset b) in
  let e := Z.min hi (resourceOffset b + bindSize b) in
  match backingData b with
  | VMemorySpan m =>
      Some (mkResBinding s (e - s)
              (VMemorySpan (shrunkSpan m (s - resourceOffset b) (e - s))))
  | _ =>
      if (s =? resourceOffset b) && (e =? resourceOffset b + bindSize b)
      then Some b else None
  end.

(** The clipping that keeps every binding: the intersection with the same
    backing data, a memory span shrunk accordingly. *)
Definition clipAlways (lo hi : Z) (b : resBinding) : resBinding :=
  let s := Z.max lo (resourceOffset b) in
  let e := Z.min hi (resourceOffset b + bindSize b) in
  mkResBinding s (e - s)
    (match backingData b with
     | VMemorySpan m => VMemorySpan (shrunkSpan m (s - resourceOffset b) (e - s))
     | d => d
     end).

(** The range of an indexed draw read as an interval from
    [firstIndex*indexSize] to [count*indexSize]. *)
Definition countEndedIndexSpan (indexSize IndexCount FirstIndex : Z) : U64Span :=
  mkSpan (FirstIndex * indexSize) (IndexCount * indexSize).

(** The range of [IndexCount] indices from the index [FirstIndex] on. *)
Definition indexSpan (indexSize IndexCount FirstIndex : Z) : U64Span :=
  mkSpan (FirstIndex * indexSize) (FirstIndex * indexSize + IndexCount * indexSize).

(** The shadow state [s] with another emitter and another footprint. *)
Definition withEmitterAndFootprint (s : Shadow) (em : Emitter)
    (ft : list Behavior) : Shadow :=
  mkShadow em ft (nextLabelVal s) (semaphoreSignals s) (fences s) (querypools s)
    (commandBuffers s) (images s) (buffers s) (executionStates s)
    (swapchainImageAcquired s) (swapchainImagePresented s).

(** [s'] differs from [s] in the emitter and in the footprint at most. *)
Definition frame (s s' : Shadow) : Prop :=
  s' = withEmitterAndFootprint s (emitter s') (footprint s').

(** The commands of a trace, one after the other. *)
Fixpoint BuildFootprints (vb : FootprintBuilder) (co : Collaborator)
    (cmdId : Z) (cs : list Cmd) : res FootprintBuilder :=
  match cs with
  | [] => Ok vb
  | c :: cs' =>
      vb' <-! BuildFootprint vb co cmdId c;
      BuildFootprints vb' co (cmdId + 1) cs'
  end.

(** What the wait semaphores leave of a behavior: its owner, its flags and
    its writes; reads are only added. *)
Definition readsAdded (bh bh' : Behavior) : Prop :=
  Owner bh' = Owner bh /\ Alive bh' = Alive bh /\ Writes bh' = Writes bh /\
  exists extra, Reads bh' = Reads bh ++ extra.

(** The acquired and the presented label of the image [imgID] of the
    swapchain [vkSw]. *)
Definition acquiredLabel (s : Shadow) (vkSw imgID : Z) : option Z :=
  default [] (swapchainImageAcquired s !! vkSw) !! Z.to_nat imgID.

Definition presentedLabel (s : Shadow) (vkSw imgID : Z) : option Z :=
  default [] (swapchainImagePresented s !! vkSw) !! Z.to_nat imgID.

(** The image to present is known to the builder, with its two labels. *)
Definition presentable (s : Shadow) (sw : Z * Z * Z) : Prop :=
  is_Some (images s !! snd sw) /\
  is_Some (acquiredLabel s (fst (fst sw)) (snd (fst sw))) /\
  is_Some (presentedLabel s (fst (fst sw)) (snd (fst sw))).

(** The extra behavior of a presented image: alive, owned by the command,
    reading the acquired label and writing the presented label. *)
Definition holdsAcquirePresentPair (s : Shadow) (cmdId : Z) (e : Behavior)
    (sw : Z * Z * Z) : Prop :=
  Alive e = true /\ Owner e = [cmdId] /\
  exists a p,
    acquiredLabel s (fst (fst sw)) (snd (fst sw)) = Some a /\
    presentedLabel s (fst (fst sw)) (snd (fst sw)) = Some p /\
    In (VLabel a) (Reads e) /\ In (VLabel p) (Writes e).

(** The executed indices that belong to the submit [submitID]. *)
Definition ofSubmit (submitID : Z) (executed : list (list Z)) : list (list Z) :=
  List.filter (fun fci => bool_decide (head fci = Some submitID)) executed.

(** [bh'] is [bh] with more reads and more writes. *)
Definition grown (bh bh' : Behavior) : Prop :=
  Owner bh' = Owner bh /\ Alive bh' = Alive bh /\
  (exists r, Reads bh' = Reads bh ++ r) /\
  (exists w, Writes bh' = Writes bh ++ w).

(** The terminal behavior of a submit: it is owned by the submit, reads
    the [queued] label, writes the [done] label, the signal label of every
    signal semaphore and the signal label of the signal fence. *)
Definition isTerminalBehavior (s : Shadow) (submitID : Z)
    (info : queueSubmitInfo) (tb : Behavior) : Prop :=
  Owner tb = [submitID] /\
  In (VLabel (queued info)) (Reads tb) /\
  In (VLabel (done info)) (Writes tb) /\
  (forall sem l,
     In sem (signalSemaphores info) -> sem <> 0 ->
     semaphoreSignals s !! sem = Some l -> In (VLabel l) (Writes tb)) /\
  (forall f,
     signalFence info <> 0 -> fences s !! signalFence info = Some f ->
     In (VLabel (fence_signal f)) (Writes tb)).

(** A recorded span inside the 64-bit address space of its memory. *)
Definition wfSpan (m : memorySpan) : Prop :=
  0 <= Start (sp m) /\ Start (sp m) <= End (sp m) /\ End (sp m) < two64.

(** The records of one device memory as the emitter keeps them. *)
Definition wfRecords (l : list memorySpan) : Prop :=
  Forall wfSpan l /\ sortedSpans mb_span l.

(** What is left of the span [e] in front of and behind the span [b]. *)
Definition frontOf (b e : memorySpan) : list memorySpan :=
  if Start (sp e) <? Start (sp b)
  then [mkMemorySpan (mkSpan (Start (sp e)) (Start (sp b))) (memory e)]
  else [].

Definition backOf (b e : memorySpan) : list memorySpan :=
  if End (sp b) <? End (sp e)
  then [mkMemorySpan (mkSpan (End (sp b)) (End (sp e))) (memory e)]
  else [].

(** * Further parts of the builder *)

(** ** Kinds of variables *)

(** [c.isNullHandle()] for a variable that is a [*vkHandle]. *)
Definition isNullHandle (c : DefUseVariable) : bool :=
  match c with
  | VHandle h => h =? 0
  | _ => false
  end.

Definition isMemorySpan (c : DefUseVariable) : bool :=
  match c with
  | VMemorySpan _ => true
  | _ => false
  end.

Definition isForwardPairedLabel (c : DefUseVariable) : bool :=
  match c with
  | VForwardPairedLabel _ => true
  | _ => false
  end.

(** The variables that [read] and [write] pass on to the behavior when
    none of them is a memory span: all but the null handles. *)
Definition passedOn (cs : list DefUseVariable) : list DefUseVariable :=
  List.filter (fun c => negb (isNullHandle c)) cs.

(** The behavior [bh] with the variables [r] added to its reads and [w]
    to its writes. *)
Definition withReadsWrites (bh : Behavior) (r w : list DefUseVariable)
    : Behavior :=
  mkBehavior (Owner bh) (Reads bh ++ r) (Writes bh ++ w) (Alive bh) (Aborted bh).

(** The binding [b] stands for the bytes of the memory span [m]: it is as
    long as [m], and both lie inside the address space. *)
Definition backedBy (b : resBinding) (m : memorySpan) : Prop :=
  backingData b = VMemorySpan m /\ wfBinding b /\ wfSpan m /\
  bindSize b = End (sp m) - Start (sp m).

(** The binding [b] lies inside the range [[lo, hi)]. *)
Definition insideRange (lo hi : Z) (b : resBinding) : Prop :=
  lo <= resourceOffset b /\ resourceOffset b + bindSize b <= hi.

(** A binding that holds bytes, and whose memory span, if it is backed by
    one, starts inside the address space and is as long as the binding. *)
Definition intact (b : resBinding) : Prop :=
  0 < bindSize b /\
  forall m, backingData b = VMemorySpan m ->
    0 <= Start (sp m) < two64 /\
    End (sp m) = add64 (Start (sp m)) (bindSize b).


(** ** Coherent memory *)

(** [func (vb *FootprintBuilder) newMemorySpan(mem, offset, size)
    *memorySpan]: the span, and the records of the memory started when the
    builder has none for it. *)
Definition newMemorySpan (em : Emitter) (mem offset size : Z)
    : memorySpan * Emitter :=
  (mkMemorySpan (mkSpan offset (add64 offset size)) mem,
   match records em !! mem with
   | Some _ => em
   | None => setRecords em (<[mem := []]> (records em))
   end).

(** [memory.Range] *)
Record Range : Type := mkRange { Base : Z; Size : Z }.

(** What [writeCoherentMemoryData] reads of a mapped device memory object:
    [MappedLocation().Address()], [MappedSize()] and [MappedOffset()]. *)
Record DeviceMemoryObject : Type := mkDeviceMemoryObject {
  MappedLocation : Z;
  MappedSize : Z;
  MappedOffset : Z
}.

Section CoherentMemory.

(** [Range.Overlaps] and [Range.Intersect] of package [memory], which is
    not part of the sources at hand: the embedding takes them as they
    come. *)
Variable Range_Overlaps : Range -> Range -> bool.
Variable Range_Intersect : Range -> Range -> Range.

(** The body of the loop [for vkDm, mm := range vb.mappedCoherentMemories]
    of [writeCoherentMemoryData], for the observation [ro]. *)
Definition coherentStep (ro : Range) (st : Behavior * Shadow)
    (entry : Z * DeviceMemoryObject) : Behavior * Shadow :=
  let '(bh, s) := st in
  let '(vkDm, mm) := entry in
  let mappedRng := mkRange (MappedLocation mm) (MappedSize mm) in
  if Range_Overlaps ro mappedRng then
    let bh1 := setAlive bh true in
    let intersect := Range_Intersect ro mappedRng in
    let offset :=
      sub64 (add64 (MappedOffset mm) (Base intersect)) (MappedLocation mm) in
    let '(ms, em1) := newMemorySpan (emitter s) vkDm offset (Size intersect) in
    let '(_, bh2, s2) := swrite (setEmitter s em1) bh1 [VMemorySpan ms] in
    (bh2, s2)
  else st.

(** [func (vb *FootprintBuilder) writeCoherentMemoryData(ctx, cmd, bh)].
    [observations] is [cmd.Extras().Observations().Reads], and [None] when
    the command has no extras or no observations; [mapped] is
    [vb.mappedCoherentMemories] in the order in which [range] visits it. *)
Definition writeCoherentMemoryData (mapped : list (Z * DeviceMemoryObject))
    (observations : option (list Range)) (s : Shadow) (bh : Behavior)
    : Behavior * Shadow :=
  match observations with
  | None => (bh, s)
  | Some reads =>
      fold_left (fun st ro => fold_left (coherentStep ro) mapped st) reads (bh, s)
  end.

(** ** [VkQueueSubmit] *)

(** One element of [cmd.PSubmits()]: the command buffers, the wait
    semaphores and the signal semaphores of a [VkSubmitInfo]. *)
Record SubmitArg : Type := mkSubmitArg {
  PCommandBuffers : list Z;
  PWaitSemaphores : list Z;
  PSignalSemaphores : list Z
}.

(** [func newQueueExecutionState(id api.CmdID) *queueExecutionState] *)
Definition newQueueExecutionState (id : Z) : queueExecutionState :=
  mkQueueExecutionState None None None [0; 0; 0; 0] id None.

Definition setLastSubmitID (q : queueExecutionState) (id : Z)
    : queueExecutionState :=
  mkQueueExecutionState (currentCmdBufState q) (primaryCmdBufState q)
    (secondaryCmdBufState q) (currentCommand q) id (currentSubmitInfo q).

(** The state of the loops that collect the submitted commands: [hasCmd],
    the behavior, the shadow state and [pendingCommands]. *)
Definition SubmitState : Type :=
  (bool * Behavior * Shadow * list submittedCommand)%type.

(** [for sci, scbc := range vb.commands[scb]] *)
Definition secondaryCommands (id i j k scbi : Z) (cbc : commandBufferCommand)
    (cmds : list commandBufferCommand) : list submittedCommand :=
  imap (fun sci scbc =>
          mkSubmittedCommand [id; i; j; k; scbi; Z.of_nat sci] scbc (Some cbc))
    cmds.

(** [for scbi, scb := range cbc.secondaryCommandBuffers], which stops at
    the first secondary command buffer that is not known. *)
Fixpoint submitSecondaries (cmds : gmap Z (list commandBufferCommand))
    (id i j k : Z) (cbc : commandBufferCommand) (scbi : nat) (scbs : list Z)
    (st : SubmitState) : SubmitState :=
  match scbs with
  | [] => st
  | scb :: rest =>
      let '(hasCmd, bh, s, pending) := st in
      match commandBuffers s !! scb with
      | None => st
      | Some cbo =>
          let '(_, bh1, s1) := sread s bh [VLabel (cb_end cbo)] in
          submitSecondaries cmds id i j k cbc (S scbi) rest
            (hasCmd, bh1, s1,
             pending ++ secondaryCommands id i j k (Z.of_nat scbi) cbc
                          (default [] (cmds !! scb)))
      end
  end.

(** The body of [for k, cbc := range vb.commands[vkCb]]. *)
Definition submitCommand (cmds : gmap Z (list commandBufferCommand))
    (id i j : Z) (k : nat) (cbc : commandBufferCommand) (st : SubmitState)
    : SubmitState :=
  let '(_, bh, s, pending) := st in
  let st1 :=
    (true, bh, s,
     pending ++ [mkSubmittedCommand [id; i; j; Z.of_nat k] cbc None]) in
  if isCmdExecuteCommands cbc
  then submitSecondaries cmds id i j (Z.of_nat k) cbc 0
         (secondaryCommandBuffers cbc) st1
  else st1.

Fixpoint submitCommands (cmds : gmap Z (list commandBufferCommand))
    (id i j : Z) (k : nat) (l : list commandBufferCommand) (st : SubmitState)
    : SubmitState :=
  match l with
  | [] => st
  | cbc :: l' =>
      submitCommands cmds id i j (S k) l' (submitCommand cmds id i j k cbc st)
  end.

(** [for j := uint64(0); j < commandBufferCount; j++], which stops at the
    first command buffer that is not known. *)
Fixpoint submitCommandBuffers (cmds : gmap Z (list commandBufferCommand))
    (id i : Z) (j : nat) (cbs : list Z) (st : SubmitState) : SubmitState :=
  match cbs with
  | [] => st
  | vkCb :: rest =>
      let '(hasCmd, bh, s, pending) := st in
      match commandBuffers s !! vkCb with
      | None => st
      | Some cbo =>
          let '(_, bh1, s1) := sread s bh [VLabel (cb_end cbo)] in
          submitCommandBuffers cmds id i (S j) rest
            (submitCommands cmds id i (Z.of_nat j) 0 (default [] (cmds !! vkCb))
               (hasCmd, bh1, s1, pending))
      end
  end.

(** The semaphores of a submit up to the first one that the state of the
    collaborator does not contain. *)
Fixpoint knownSemaphores (contains : Z -> bool) (sps : list Z) : list Z :=
  match sps with
  | [] => []
  | sp :: rest => if contains sp then sp :: knownSemaphores contains rest else []
  end.

(** [for i, submit := range cmd.PSubmits()...]; the result carries the
    wait and the signal semaphores of the submit info. *)
Fixpoint submitLoop (cmds : gmap Z (list commandBufferCommand))
    (contains : Z -> bool) (id : Z) (i : nat) (submits : list SubmitArg)
    (st : SubmitState) (ws ss : list Z) : SubmitState * list Z * list Z :=
  match submits with
  | [] => (st, ws, ss)
  | submit :: rest =>
      submitLoop cmds contains id (S i) rest
        (submitCommandBuffers cmds id (Z.of_nat i) 0 (PCommandBuffers submit) st)
        (ws ++ knownSemaphores contains (PWaitSemaphores submit))
        (ss ++ knownSemaphores contains (PSignalSemaphores submit))
  end.

(** [if read(ctx, bh, vb.toVkHandle(uint64(sp))) { if !hasCmd { modify(ctx,
    bh, vb.semaphoreSignals[sp]) } }] *)
Definition submitWaitStep (hasCmd : bool) (st : Behavior * Shadow) (sp : Z)
    : Behavior * Shadow :=
  let '(bh, s) := st in
  let '(ok, bh1, s1) := sread s bh [toVkHandle sp] in
  if ok && negb hasCmd then
    let '(_, bh2, s2) := smodify s1 bh1 [labelVar (semaphoreSignals s1 !! sp)] in
    (bh2, s2)
  else (bh1, s1).

(** [if read(ctx, bh, vb.toVkHandle(uint64(sp))) { if !hasCmd { write(ctx,
    bh, vb.toVkHandle(uint64(sp))) } }] *)
Definition submitSignalStep (hasCmd : bool) (st : Behavior * Shadow) (sp : Z)
    : Behavior * Shadow :=
  let '(bh, s) := st in
  let '(ok, bh1, s1) := sread s bh [toVkHandle sp] in
  if ok && negb hasCmd then
    let '(_, bh2, s2) := swrite s1 bh1 [toVkHandle sp] in (bh2, s2)
  else (bh1, s1).

(** The arm [case *VkQueueSubmit] of the main switch.  [contains] is
    [GetState(s).Semaphores().Contains]. *)
Definition queueSubmit (vb : FootprintBuilder)
    (mapped : list (Z * DeviceMemoryObject)) (observations : option (list Range))
    (contains : Z -> bool) (bh : Behavior) (id Queue : Z)
    (PSubmits : list SubmitArg) (Fence : Z)
    : res (Behavior * FootprintBuilder) :=
  let '(_, bh1, s1) := sread (shadow vb) bh [toVkHandle Queue] in
  let qei := default (newQueueExecutionState id) (executionStates s1 !! Queue) in
  let s2 :=
    setExecutionStates s1
      (<[Queue := setLastSubmitID qei id]> (executionStates s1)) in
  let '(queued, s3) := newLabel s2 in
  let '(done, s4) := newLabel s3 in
  let '(st, ws, ss) :=
    submitLoop (commands vb) contains id 0 PSubmits (false, bh1, s4, []) [] [] in
  let '(hasCmd, bh2, s5, pending) := st in
  let info := mkQueueSubmitInfo Queue false queued done ws ss Fence pending in
  let '(bh3, s6) := writeCoherentMemoryData mapped observations s5 bh2 in
  let '(ok, bh4, s7) := sread s6 bh3 [toVkHandle Fence] in
  r <-! (if ok then
           match fences s7 !! Fence with
           | None => Panic
           | Some f =>
               let '(_, bh5, s8) := sread s7 bh4 [VLabel (fence_unsignal f)] in
               let '(_, bh6, s9) := swrite s8 bh5 [VLabel (fence_signal f)] in
               Ok (bh6, s9)
           end
         else Ok (bh4, s7));
  let '(bh7, s10) := r in
  let '(_, bh8, s11) := swrite s10 bh7 [VLabel queued] in
  let '(bh9, s12) := fold_left (submitWaitStep hasCmd) ws (bh8, s11) in
  let '(bh10, s13) := fold_left (submitSignalStep hasCmd) ss (bh9, s12) in
  let '(ok2, bh11, s14) := sread s13 bh10 [toVkHandle Fence] in
  r2 <-! (if ok2 && negb hasCmd then
            match fences s14 !! Fence with
            | None => Panic
            | Some f =>
                let '(_, bh12, s15) := swrite s14 bh11 [VLabel (fence_signal f)] in
                Ok (bh12, s15)
            end
          else Ok (bh11, s14));
  Ok (fst r2,
      setShadow (setSubmitInfos vb (<[id := info]> (submitInfos vb))) (snd r2)).

(** The end of [BuildFootprint]: the data of the images of the last draw,
    read by one more behavior when there is any. *)
Definition lastDrawTail (vb : FootprintBuilder) (co : Collaborator) (cmdId : Z)
    : res FootprintBuilder :=
  fb <-! fold_left lastDrawStep (lastDrawImages co) (Ok ([], shadow vb));
  let '(fbData, s2) := fb in
  match fbData with
  | [] => Ok (setShadow vb s2)
  | _ :: _ =>
      let '(_, fbh, s3) := sread s2 (NewBehavior [cmdId]) fbData in
      Ok (setShadow vb (AddBehavior s3 fbh))
  end.

(** [BuildFootprint] for a [VkQueueSubmit]: the arm of the switch, the
    behavior of the command, the roll-out of the subcommands that the
    callback [PostSubcommand] has collected in [executedCommands] while the
    command was mutated, and the end of the function. *)
Definition BuildFootprint_VkQueueSubmit (vb : FootprintBuilder)
    (co : Collaborator) (mapped : list (Z * DeviceMemoryObject))
    (observations : option (list Range)) (contains : Z -> bool)
    (executedCommands : list (list Z)) (id Queue : Z)
    (PSubmits : list SubmitArg) (Fence : Z) : res FootprintBuilder :=
  if mutateFails co then Ok vb
  else
    r <-! queueSubmit vb mapped observations contains (NewBehavior [id]) id
            Queue PSubmits Fence;
    let '(bh, vb1) := r in
    vb2 <-! rollOutExecuted (setShadow vb1 (AddBehavior (shadow vb1) bh))
              executedCommands;
    lastDrawTail vb2 co id.

End CoherentMemory.

(** ** Full command indices *)

(** The index [x] comes before the index [y] in the order of execution. *)
Definition before (x y : list Z) : Prop := SubCmdIdx_LessThan x y = true.

(** The index [x] goes on from the prefix [P] with the component [n], and
    with a component that is not below [n]. *)
Definition atIndex (P : list Z) (n : Z) (x : list Z) : Prop :=
  exists t, x = P ++ n :: t.

Definition fromIndex (P : list Z) (n : Z) (x : list Z) : Prop :=
  exists a, n <= a /\ atIndex P a x.

(** A submitted command of the submit [submitID] as [VkQueueSubmit] queues
    it: a command of a primary command buffer, with an index of four
    components and no parent, or a command of a secondary command buffer,
    with an index of six components and the [VkCmdExecuteCommands] command
    that runs it as its parent. *)
Definition queuedBy (submitID : Z) (sc : submittedCommand) : Prop :=
  (exists i j k, id sc = [submitID; i; j; k] /\ parentCmd sc = None) \/
  (exists i j k a b p,
     id sc = [submitID; i; j; k; a; b] /\ parentCmd sc = Some p /\
     isCmdExecuteCommands p = true).

(** What a loop of [VkQueueSubmit] over the index component behind [P],
    from [n] on, makes of the state [(hasCmd, bh, s, pending)]: the shadow
    state stays, the commands [new] are queued behind the pending ones,
    sorted by their indices, and [hasCmd] is set when there is any. *)
Definition queues (sid : Z) (P : list Z) (n : Z) (st st' : SubmitState)
    (new : list submittedCommand) : Prop :=
  snd (fst st') = snd (fst st) /\
  snd st' = snd st ++ new /\
  fst (fst (fst st')) = match new with
                        | [] => fst (fst (fst st))
                        | _ :: _ => true
                        end /\
  StronglySorted before (map id new) /\
  Forall (fromIndex P n) (map id new) /\
  Forall (queuedBy sid) new.

(** The fences and the execution states of the queues are the same in
    [s'] as in [s]. *)
Definition keepsSync (s s' : Shadow) : Prop :=
  fences s' = fences s /\ executionStates s' = executionStates s.

(** A deferred command that returns, and that leaves the fences alone and
    the queues with an execution state. *)
Definition returning (f : SubCtx -> Shadow -> res Shadow) : Prop :=
  forall c s, exists s',
    f c s = Ok s' /\ fences s' = fences s /\
    forall q, is_Some (executionStates s !! q) ->
              is_Some (executionStates s' !! q).

(** A builder in which the command buffer 7 holds a debug marker and a
    [VkCmdExecuteCommands] command for the secondary command buffer 8,
    which holds one debug marker. *)
Definition exampleBuilder : FootprintBuilder :=
  mkBuilder
    (mkShadow (mkEmitter ∅ ∅ []) [] 100 ∅ ∅ ∅
       {[7 := mkCommandBuffer 70 71 72; 8 := mkCommandBuffer 80 81 82]}
       ∅ ∅ ∅ ∅ ∅)
    {[7 := [mkCommand 0 false [] keepAliveBehave;
            mkCommand 1 true [8] (fun _ s => Ok s)];
      8 := [mkCommand 2 false [] keepAliveBehave]]}
    ∅ 3.

(** The command [c] stands in the list of a command buffer. *)
Definition recorded (cmds : gmap Z (list commandBufferCommand))
    (c : commandBufferCommand) : Prop :=
  exists cb l, cmds !! cb = Some l /\ In c l.

(** The indices of the queue of the submit [sid] in the outcome of an arm. *)
Definition queuedIndices (r : res (Behavior * FootprintBuilder)) (sid : Z)
    : option (list (list Z)) :=
  match r with
  | Ok (_, vb) =>
      match submitInfos vb !! sid with
      | Some info => Some (map id (pendingCommands info))
      | None => None
      end
  | Panic => None
  end.

(** ** Creating and destroying objects *)

Definition setSemaphoreSignals (s : Shadow) (m : gmap Z Z) : Shadow :=
  mkShadow (emitter s) (footprint s) (nextLabelVal s) m (fences s)
    (querypools s) (commandBuffers s) (images s) (buffers s)
    (executionStates s) (swapchainImageAcquired s) (swapchainImagePresented s).

Definition setFences (s : Shadow) (m : gmap Z fence) : Shadow :=
  mkShadow (emitter s) (footprint s) (nextLabelVal s) (semaphoreSignals s) m
    (querypools s) (commandBuffers s) (images s) (buffers s)
    (executionStates s) (swapchainImageAcquired s) (swapchainImagePresented s).

Definition setQuerypools (s : Shadow) (m : gmap Z queryPool) : Shadow :=
  mkShadow (emitter s) (footprint s) (nextLabelVal s) (semaphoreSignals s)
    (fences s) m (commandBuffers s) (images s) (buffers s)
    (executionStates s) (swapchainImageAcquired s) (swapchainImagePresented s).

Definition setCommandBuffers (s : Shadow) (m : gmap Z commandBuffer) : Shadow :=
  mkShadow (emitter s) (footprint s) (nextLabelVal s) (semaphoreSignals s)
    (fences s) (querypools s) m (images s) (buffers s)
    (executionStates s) (swapchainImageAcquired s) (swapchainImagePresented s).

Definition setImages (s : Shadow) (m : gmap Z imageLayoutAndData) : Shadow :=
  mkShadow (emitter s) (footprint s) (nextLabelVal s) (semaphoreSignals s)
    (fences s) (querypools s) (commandBuffers s) m (buffers s)
    (executionStates s) (swapchainImageAcquired s) (swapchainImagePresented s).

Definition setBuffers (s : Shadow) (m : gmap Z (list resBinding)) : Shadow :=
  mkShadow (emitter s) (footprint s) (nextLabelVal s) (semaphoreSignals s)
    (fences s) (querypools s) (commandBuffers s) (images s) m
    (executionStates s) (swapchainImageAcquired s) (swapchainImagePresented s).

(** [func newQuery() *query] *)
Definition newQuery (s : Shadow) : query * Shadow :=
  let '(r, s1) := newLabel s in
  let '(b, s2) := newLabel s1 in
  let '(e, s3) := newLabel s2 in
  let '(t, s4) := newLabel s3 in
  (mkQuery r b e t, s4).

(** [for i := uint64(0); i < count; i++ { ...queries = append(...queries,
    newQuery()) }] *)
Fixpoint newQueries (count : nat) (s : Shadow) : list query * Shadow :=
  match count with
  | O => ([], s)
  | S n =>
      let '(q, s1) := newQuery s in
      let '(qs, s2) := newQueries n s1 in
      (q :: qs, s2)
  end.

(** [func newImageLayoutAndData(ctx, bh) *imageLayoutAndData] *)
Definition newImageLayoutAndData (s : Shadow) (bh : Behavior)
    : imageLayoutAndData * Behavior * Shadow :=
  let '(l, s1) := newLabel s in
  let '(_, bh1, s2) := swrite s1 bh [VLabel l] in
  (mkImageLayoutAndData l [] [], bh1, s2).

(** The commands that create, query and destroy the objects of the shadow
    state, each with the arguments that its arm reads; the handles that a
    command returns through a pointer are those that the command has
    written to the memory of the trace. *)
Inductive ObjectCmd : Type :=
| VkCreateSemaphore (PSemaphore : Z)
| VkDestroySemaphore (Semaphore : Z)
| VkCreateFence (PFence : Z)
| VkGetFenceStatus (Fence : Z)
| VkWaitForFences (PFences : list Z)
| VkResetFences (PFences : list Z)
| VkDestroyFence (Fence : Z)
| VkCreateQueryPool (PQueryPool QueryCount : Z)
| VkDestroyQueryPool (QueryPool : Z)
| VkGetQueryPoolResults (QueryPool FirstQuery QueryCount : Z)
| VkAllocateCommandBuffers (PCommandBuffers : list Z)
| VkFreeCommandBuffers (PCommandBuffers : list Z)
| VkEndCommandBuffer (CommandBuffer : Z)
| VkCreateImage (PImage : Z)
| VkDestroyImage (Image : Z)
| VkCreateBuffer (PBuffer : Z)
| VkDestroyBuffer (Buffer : Z)
| VkQueueWaitIdle (Queue : Z)
| VkDeviceWaitIdle.

(** The body of the loops of [VkGetFenceStatus] and [VkWaitForFences]. *)
Definition fenceStatusStep (st : res (Behavior * Shadow)) (vkFe : Z)
    : res (Behavior * Shadow) :=
  st0 <-! st;
  let '(bh, s) := st0 in
  let '(ok, bh1, s1) := sread s bh [toVkHandle vkFe] in
  if ok then
    match fences s1 !! vkFe with
    | None => Panic
    | Some f =>
        let '(_, bh2, s2) := sread s1 bh1 [VLabel (fence_signal f)] in
        let '(_, bh3, s3) := sread s2 bh2 [VLabel (fence_unsignal f)] in
        Ok (setAlive bh3 true, s3)
    end
  else Ok (bh1, s1).

(** The body of the loop of [VkResetFences]. *)
Definition resetFenceStep (st : res (Behavior * Shadow)) (vkFe : Z)
    : res (Behavior * Shadow) :=
  st0 <-! st;
  let '(bh, s) := st0 in
  let '(ok, bh1, s1) := sread s bh [toVkHandle vkFe] in
  if ok then
    match fences s1 !! vkFe with
    | None => Panic
    | Some f =>
        let '(_, bh2, s2) := swrite s1 bh1 [VLabel (fence_unsignal f)] in
        Ok (setAlive bh2 true, s2)
    end
  else Ok (bh1, s1).

(** The body of the loop of [VkGetQueryPoolResults], for the query [i]. *)
Definition queryResultStep (QueryPool first : Z)
    (st : res (Behavior * Shadow)) (i : nat) : res (Behavior * Shadow) :=
  st0 <-! st;
  let '(bh, s) := st0 in
  match querypools s !! QueryPool with
  | None => Panic
  | Some qp =>
      match queries qp !! Z.to_nat (add64 (Z.of_nat i) first) with
      | None => Panic
      | Some q =>
          let '(_, bh1, s1) := sread s bh [VLabel (query_result q)] in
          Ok (bh1, s1)
      end
  end.

(** The body of the loop of [VkAllocateCommandBuffers]. *)
Definition allocateCommandBufferStep (st : Behavior * Shadow) (vkCb : Z)
    : Behavior * Shadow :=
  let '(bh, s) := st in
  let '(_, bh1, s1) := swrite s bh [toVkHandle vkCb] in
  let '(b, s2) := newLabel s1 in
  let '(e, s3) := newLabel s2 in
  let '(r, s4) := newLabel s3 in
  (bh1, setCommandBuffers s4 (<[vkCb := mkCommandBuffer b e r]> (commandBuffers s4))).

(** The body of the loop of [VkFreeCommandBuffers]. *)
Definition freeCommandBufferStep (st : Behavior * FootprintBuilder) (vkCb : Z)
    : Behavior * FootprintBuilder :=
  let '(bh, vb) := st in
  match commandBuffers (shadow vb) !! vkCb with
  | Some cbo =>
      let '(ok, bh1, s1) := sread (shadow vb) bh [toVkHandle vkCb] in
      if ok then
        let '(_, bh2, s2) := swrite s1 bh1 [VLabel (cb_begin cbo)] in
        let '(_, bh3, s3) := swrite s2 bh2 [VLabel (cb_end cbo)] in
        (bh3,
         setShadow (setCommands vb (delete vkCb (commands vb)))
           (setCommandBuffers s3 (delete vkCb (commandBuffers s3))))
      else (bh1, setShadow vb s1)
  | None => (bh, vb)
  end.

(** The body of the loop [for _, qei := range vb.executionStates] of
    [VkDeviceWaitIdle]. *)
Definition deviceWaitIdleStep (infos : gmap Z queueSubmitInfo)
    (st : res (Behavior * Shadow)) (entry : Z * queueExecutionState)
    : res (Behavior * Shadow) :=
  st0 <-! st;
  let '(bh, s) := st0 in
  match infos !! lastSubmitID (snd entry) with
  | None => Panic
  | Some lastSubmitInfo =>
      let '(_, bh1, s1) := sread s bh [VLabel (done lastSubmitInfo)] in
      Ok (setAlive bh1 true, s1)
  end.

(** The arms of the main switch for the commands of [ObjectCmd]. *)
Definition objectSwitch (vb : FootprintBuilder) (bh : Behavior) (c : ObjectCmd)
    : res (Behavior * FootprintBuilder) :=
  let s := shadow vb in
  match c with
  | VkCreateSemaphore vkSp =>
      let '(_, bh1, s1) := swrite s bh [toVkHandle vkSp] in
      let '(l, s2) := newLabel s1 in
      Ok (bh1,
          setShadow vb (setSemaphoreSignals s2 (<[vkSp := l]> (semaphoreSignals s2))))
  | VkDestroySemaphore vkSp =>
      let '(ok, bh1, s1) := sread s bh [toVkHandle vkSp] in
      if ok then
        Ok (setAlive bh1 true,
            setShadow vb (setSemaphoreSignals s1 (delete vkSp (semaphoreSignals s1))))
      else Ok (bh1, setShadow vb s1)
  | VkCreateFence vkFe =>
      let '(_, bh1, s1) := swrite s bh [toVkHandle vkFe] in
      let '(sig, s2) := newLabel s1 in
      let '(unsig, s3) := newLabel s2 in
      Ok (bh1, setShadow vb (setFences s3 (<[vkFe := mkFence sig unsig]> (fences s3))))
  | VkGetFenceStatus vkFe =>
      r <-! fenceStatusStep (Ok (bh, s)) vkFe;
      Ok (fst r, setShadow vb (snd r))
  | VkWaitForFences PFences =>
      r <-! fold_left fenceStatusStep PFences (Ok (bh, s));
      Ok (fst r, setShadow vb (snd r))
  | VkResetFences PFences =>
      r <-! fold_left resetFenceStep PFences (Ok (bh, s));
      Ok (fst r, setShadow vb (snd r))
  | VkDestroyFence vkFe =>
      let '(ok, bh1, s1) := sread s bh [toVkHandle vkFe] in
      if ok then
        Ok (setAlive bh1 true, setShadow vb (setFences s1 (delete vkFe (fences s1))))
      else Ok (bh1, setShadow vb s1)
  | VkCreateQueryPool vkQp count =>
      let '(_, bh1, s1) := swrite s bh [toVkHandle vkQp] in
      let '(qs, s2) := newQueries (Z.to_nat count) s1 in
      Ok (bh1,
          setShadow vb (setQuerypools s2 (<[vkQp := mkQueryPool qs]> (querypools s2))))
  | VkDestroyQueryPool vkQp =>
      let '(ok, bh1, s1) := sread s bh [toVkHandle vkQp] in
      Ok (setAlive bh1 true,
          setShadow vb
            (if ok then setQuerypools s1 (delete vkQp (querypools s1)) else s1))
  | VkGetQueryPoolResults vkQp first count =>
      let '(_, bh1, s1) := sread s bh [toVkHandle vkQp] in
      r <-! fold_left (queryResultStep vkQp first) (seq 0 (Z.to_nat count))
              (Ok (bh1, s1));
      Ok (fst r, setShadow vb (snd r))
  | VkAllocateCommandBuffers PCommandBuffers =>
      let '(bh1, s1) := fold_left allocateCommandBufferStep PCommandBuffers (bh, s) in
      Ok (bh1, setShadow vb s1)
  | VkFreeCommandBuffers PCommandBuffers =>
      let '(bh1, vb1) := fold_left freeCommandBufferStep PCommandBuffers (bh, vb) in
      Ok (setAlive bh1 true, vb1)
  | VkEndCommandBuffer cb =>
      let '(_, bh1, s1) := sread s bh [toVkHandle cb] in
      match commandBuffers s1 !! cb with
      | Some cbo =>
          let '(_, bh2, s2) := sread s1 bh1 [VLabel (cb_begin cbo)] in
          let '(_, bh3, s3) := swrite s2 bh2 [VLabel (cb_end cbo)] in
          Ok (bh3, setShadow vb s3)
      | None => Ok (bh1, setShadow vb s1)
      end
  | VkCreateImage vkImg =>
      let '(_, bh1, s1) := swrite s bh [toVkHandle vkImg] in
      let '(d, bh2, s2) := newImageLayoutAndData s1 bh1 in
      Ok (bh2, setShadow vb (setImages s2 (<[vkImg := d]> (images s2))))
  | VkDestroyImage vkImg =>
      let '(ok, bh1, s1) := sread s bh [toVkHandle vkImg] in
      Ok (setAlive bh1 true,
          setShadow vb (if ok then setImages s1 (delete vkImg (images s1)) else s1))
  | VkCreateBuffer vkBuf =>
      let '(_, bh1, s1) := swrite s bh [toVkHandle vkBuf] in
      Ok (bh1, setShadow vb s1)
  | VkDestroyBuffer vkBuf =>
      let '(ok, bh1, s1) := sread s bh [toVkHandle vkBuf] in
      Ok (setAlive bh1 true,
          setShadow vb (if ok then setBuffers s1 (delete vkBuf (buffers s1)) else s1))
  | VkQueueWaitIdle vkQu =>
      let '(ok, bh1, s1) := sread s bh [toVkHandle vkQu] in
      Ok (if ok && bool_decide (is_Some (executionStates s1 !! vkQu))
          then setAlive bh1 true else bh1,
          setShadow vb s1)
  | VkDeviceWaitIdle =>
      r <-! fold_left (deviceWaitIdleStep (submitInfos vb))
              (map_to_list (executionStates s)) (Ok (bh, s));
      Ok (fst r, setShadow vb (snd r))
  end.

(** [BuildFootprint] for a command of [ObjectCmd]: none of them is a
    [VkQueueSubmit] or a [VkSetEvent], so nothing is rolled out. *)
Definition BuildFootprint_object (vb : FootprintBuilder) (co : Collaborator)
    (cmdId : Z) (c : ObjectCmd) : res FootprintBuilder :=
  if mutateFails co then Ok vb
  else
    r <-! objectSwitch vb (NewBehavior [cmdId]) c;
    let '(bh, vb1) := r in
    lastDrawTail (setShadow vb1 (AddBehavior (shadow vb1) bh)) co cmdId.

(** ** Labels *)

(** The labels of a binding list: the backing data of the bindings that
    are not backed by a memory span. *)
Definition bindingLabelsBelow (n : Z) (l : list resBinding) : Prop :=
  Forall (fun b => forall x, backingData b = VLabel x -> x < n) l.

Definition stateLabelsBelow (n : Z) (st : option commandBufferExecutionState)
    : Prop :=
  forall x, st = Some x ->
    pipeline x < n /\ dynamicState x < n /\
    bindingLabelsBelow n (indexBufferResBindings x) /\
    map_Forall (fun _ l => bindingLabelsBelow n l) (vertexBufferResBindings x).

(** Every label that the shadow state holds lies below [n]. *)
Definition labelsBelow (n : Z) (s : Shadow) : Prop :=
  map_Forall (fun _ l => l < n) (semaphoreSignals s) /\
  map_Forall (fun _ f => fence_signal f < n /\ fence_unsignal f < n) (fences s) /\
  map_Forall
    (fun _ qp =>
       Forall (fun q => query_reset q < n /\ query_begin q < n /\
                        query_end q < n /\ query_result q < n) (queries qp))
    (querypools s) /\
  map_Forall
    (fun _ cb => cb_begin cb < n /\ cb_end cb < n /\ cb_renderPassBegin cb < n)
    (commandBuffers s) /\
  map_Forall
    (fun _ img => layout img < n /\ bindingLabelsBelow n (opaqueData img))
    (images s) /\
  map_Forall (fun _ l => bindingLabelsBelow n l) (buffers s) /\
  map_Forall
    (fun _ q => stateLabelsBelow n (primaryCmdBufState q) /\
                stateLabelsBelow n (secondaryCmdBufState q))
    (executionStates s) /\
  map_Forall (fun _ l => Forall (fun x => x < n) l) (swapchainImageAcquired s) /\
  map_Forall (fun _ l => Forall (fun x => x < n) l) (swapchainImagePresented s).

(** The same for the builder, with the labels of the submit infos. *)
Definition builderLabelsBelow (n : Z) (vb : FootprintBuilder) : Prop :=
  labelsBelow n (shadow vb) /\
  map_Forall (fun _ i => queued i < n /\ done i < n) (submitInfos vb).

(** The number of labels that the arm of a command takes. *)
Definition labelsTaken (c : ObjectCmd) : Z :=
  match c with
  | VkCreateSemaphore _ => 1
  | VkCreateFence _ => 2
  | VkCreateQueryPool _ count => 4 * Z.of_nat (Z.to_nat count)
  | VkAllocateCommandBuffers l => 3 * Z.of_nat (length l)
  | VkCreateImage _ => 1
  | _ => 0
  end.

(** ** Known objects *)

(** Every fence of the list that is not the null handle has an entry in
    [vb.fences]. *)
Definition fencesKnown (s : Shadow) (fs : list Z) : Prop :=
  Forall (fun f => f <> 0 -> is_Some (fences s !! f)) fs.

(** Some fence of the list is not the null handle. *)
Definition someNonNull (fs : list Z) : bool :=
  existsb (fun f => negb (f =? 0)) fs.

(** Every queue that has an execution state has a submit info under its
    [lastSubmitID]. *)
Definition lastSubmitsKnown (vb : FootprintBuilder) : Prop :=
  map_Forall (fun _ q => is_Some (submitInfos vb !! lastSubmitID q))
    (executionStates (shadow vb)).

(** The command buffer [cb] is freed by a [VkFreeCommandBuffers] with the
    command buffers [l]. *)
Definition freed (s : Shadow) (l : list Z) (cb : Z) : bool :=
  existsb (Z.eqb cb) l && negb (cb =? 0) &&
  match commandBuffers s !! cb with
  | Some _ => true
  | None => false
  end.

(** The number of queries of the pool [qp]: none when the builder holds no
    such pool. *)
Definition queryCount (s : Shadow) (qp : Z) : Z :=
  match querypools s !! qp with
  | Some p => Z.of_nat (length (queries p))
  | None => 0
  end.

(** * Properties *)

(** ** Arithmetic on [uint64] *)

Lemma two64_value : two64 = 18446744073709551616.
Proof. reflexivity. Qed.

Lemma vkWholeSize_value : vkWholeSize = two64 - 1.
Proof. reflexivity. Qed.

Lemma wrap64_small (x : Z) : 0 <= x < two64 -> wrap64 x = x.
Proof. intros Hx. unfold wrap64. apply Z.mod_small. exact Hx. Qed.

Lemma add64_small (a b : Z) : 0 <= a + b < two64 -> add64 a b = a + b.
Proof. apply wrap64_small. Qed.

Lemma sub64_small (a b : Z) : 0 <= a - b < two64 -> sub64 a b = a - b.
Proof. apply wrap64_small. Qed.

Lemma mul64_small (a b : Z) : 0 <= a * b < two64 -> mul64 a b = a * b.
Proof. apply wrap64_small. Qed.

Lemma add64_wraps (a b : Z) :
  0 <= a < two64 -> 0 <= b < two64 -> two64 <= a + b ->
  add64 a b = a + b - two64.
Proof.
  intros Ha Hb Hab. unfold add64, wrap64.
  symmetry. apply (Z.mod_unique_pos (a + b) two64 1). lia. lia.
Qed.

Lemma wrap64_range (x : Z) : 0 <= wrap64 x < two64.
Proof. unfold wrap64. apply Z.mod_pos_bound. rewrite two64_value. lia. Qed.

#[global] Opaque two64.

(** ** Intersection with a sorted list *)

Section IntersectSorted.
Context {A : Type} (spanOf : A -> U64Span).

Lemma overlapping_none (l : list A) (span : U64Span) :
  Forall (fun y => End span <= Start (spanOf y)) l ->
  overlapping spanOf l span = [].
Proof.
  induction 1 as [|y l Hy Hl IH]; [reflexivity|].
  unfold overlapping in *. simpl. rewrite IH.
  unfold Interval.overlaps.
  destruct (Z.ltb_spec (Start (spanOf y)) (End span)); [lia|reflexivity].
Qed.

Lemma sortedSpans_later (l : list A) (bound : Z) :
  sortedSpans spanOf l ->
  Forall (fun y => bound <= Start (spanOf y)) l ->
  Forall (fun y => bound <= End (spanOf y)) l.
Proof.
  intros Hs Hf. induction Hf as [|y l Hy Hl IH]; constructor.
  - destruct Hs as (Hwf & _ & _). lia.
  - apply IH. destruct Hs as (_ & _ & Hs). exact Hs.
Qed.

(** Once the list is past the start of the span, the run that
    [Intersect] counts is the overlapping part. *)
Lemma take_Search_overlapping (l : list A) (span : U64Span) :
  sortedSpans spanOf l ->
  Forall (fun y => Start span < End (spanOf y)) l ->
  take (Interval.Search (fun x => End span <=? Start (spanOf x)) l) l
  = overlapping spanOf l span.
Proof.
  induction l as [|x l IH]; intros Hs Hf; [reflexivity|].
  destruct Hs as (Hwf & Hlater & Hs).
  inversion Hf as [|? ? Hx Hf']; subst.
  simpl. destruct (Z.leb_spec (End span) (Start (spanOf x))) as [Hle|Hlt].
  - simpl. symmetry. apply (overlapping_none (x :: l)).
    constructor; [exact Hle|].
    eapply Forall_impl; [exact Hlater|]. simpl. intros y Hy. lia.
  - simpl. rewrite (IH Hs Hf').
    unfold overlapping. simpl. unfold Interval.overlaps at 2.
    destruct (Z.ltb_spec (Start (spanOf x)) (End span)); [|lia].
    destruct (Z.ltb_spec (Start span) (End (spanOf x))); [|lia].
    reflexivity.
Qed.

(** On a sorted list, [Intersect] delimits exactly the intervals that
    overlap the span. *)
Lemma Intersect_overlapping (l : list A) (span : U64Span) :
  sortedSpans spanOf l ->
  take (snd (Interval.Intersect spanOf l span))
       (drop (fst (Interval.Intersect spanOf l span)) l)
  = overlapping spanOf l span.
Proof.
  unfold Interval.Intersect. simpl.
  induction l as [|x l IH]; intros Hs; [reflexivity|].
  destruct Hs as (Hwf & Hlater & Hs).
  simpl Interval.Search at 2 3.
  destruct (Z.ltb_spec (Start span) (End (spanOf x))) as [Hlt|Hge].
  - rewrite drop_0. apply take_Search_overlapping.
    + simpl. auto.
    + constructor; [exact Hlt|].
      assert (Hl : Forall (fun y => End (spanOf x) <= End (spanOf y)) l)
        by (apply sortedSpans_later; assumption).
      eapply Forall_impl; [exact Hl|]. simpl. intros y Hy. lia.
  - simpl drop. rewrite (IH Hs).
    unfold overlapping. simpl. unfold Interval.overlaps at 2.
    destruct (Z.ltb_spec (Start span) (End (spanOf x))); [lia|].
    rewrite andb_false_r. reflexivity.
Qed.

End IntersectSorted.

Lemma overlapping_Forall {A : Type} (spanOf : A -> U64Span) (P : A -> Prop)
    (l : list A) (span : U64Span) :
  Forall P l ->
  Forall (fun x => P x /\ Interval.overlaps (spanOf x) span = true)
    (overlapping spanOf l span).
Proof.
  intros Hl. apply Forall_forall. intros x Hx.
  unfold overlapping in Hx. apply list_elem_of_In, filter_In in Hx.
  destruct Hx as [Hin Hov]. split; [|exact Hov].
  rewrite Forall_forall in Hl. apply Hl, list_elem_of_In. exact Hin.
Qed.

(** ** The emitter *)

Lemma read1_null_memory (st : bool * Behavior * Emitter) (s : memorySpan) :
  memory s = 0 -> read1 st (VMemorySpan s) = st.
Proof.
  intros Hs. destruct st as [[ok bh] em]. simpl. rewrite Hs. reflexivity.
Qed.

Lemma write1_null_memory (st : bool * Behavior * Emitter) (s : memorySpan) :
  memory s = 0 -> write1 st (VMemorySpan s) = st.
Proof.
  intros Hs. destruct st as [[ok bh] em]. simpl. rewrite Hs. reflexivity.
Qed.

Lemma read1_flag (st : bool * Behavior * Emitter) (c : DefUseVariable) :
  fst (fst st) = false -> fst (fst (read1 st c)) = false.
Proof.
  destruct st as [[ok bh] em]. simpl. intros ->.
  destruct c; simpl; try reflexivity.
  - destruct (handle =? 0); reflexivity.
  - destruct (memory s =? 0); reflexivity.
Qed.

Lemma write1_flag (st : bool * Behavior * Emitter) (c : DefUseVariable) :
  fst (fst st) = false -> fst (fst (write1 st c)) = false.
Proof.
  destruct st as [[ok bh] em]. simpl. intros ->.
  destruct c; simpl; try reflexivity.
  - destruct (handle =? 0); reflexivity.
  - destruct (memory s =? 0); [reflexivity|].
    match goal with
    | |- context [addBinding ?l ?x] => destruct (addBinding l x)
    end; reflexivity.
Qed.

Lemma fold_read1_flag (cs : list DefUseVariable) (st : bool * Behavior * Emitter) :
  fst (fst st) = false -> fst (fst (fold_left read1 cs st)) = false.
Proof.
  revert st. induction cs as [|c cs IH]; intros st Hst; [exact Hst|].
  simpl. apply IH. apply read1_flag. exact Hst.
Qed.

Lemma fold_write1_flag (cs : list DefUseVariable) (st : bool * Behavior * Emitter) :
  fst (fst st) = false -> fst (fst (fold_left write1 cs st)) = false.
Proof.
  revert st. induction cs as [|c cs IH]; intros st Hst; [exact Hst|].
  simpl. apply IH. apply write1_flag. exact Hst.
Qed.

Lemma read1_null_handle (st : bool * Behavior * Emitter) :
  fst (fst (read1 st (VHandle 0))) = false.
Proof. destruct st as [[ok bh] em]. reflexivity. Qed.

Lemma write1_null_handle (st : bool * Behavior * Emitter) :
  fst (fst (write1 st (VHandle 0))) = false.
Proof. destruct st as [[ok bh] em]. reflexivity. Qed.

(** C10.  A memory span of the null device memory (VkDeviceMemory 0) is
    passed over by [read] and by [write]: wherever it stands among the
    variables, the outcome (the flag, the behavior, the recorded spans) is
    the one without it, and on its own the call changes nothing and returns
    true.  A null Vulkan handle, in contrast, makes either call return
    false. *)
Theorem null_memory_span_is_skipped_without_failure
    (em : Emitter) (bh : Behavior) (s : memorySpan)
    (cs cs' : list DefUseVariable) :
  memory s = 0 ->
  read em bh (cs ++ VMemorySpan s :: cs') = read em bh (cs ++ cs') /\
  write em bh (cs ++ VMemorySpan s :: cs') = write em bh (cs ++ cs') /\
  read em bh [VMemorySpan s] = (true, bh, em) /\
  write em bh [VMemorySpan s] = (true, bh, em) /\
  fst (fst (read em bh (cs ++ VHandle 0 :: cs'))) = false /\
  fst (fst (write em bh (cs ++ VHandle 0 :: cs'))) = false.
Proof.
  intros Hs. unfold read, write.
  rewrite !fold_left_app. cbn [fold_left].
  rewrite !(read1_null_memory _ _ Hs), !(write1_null_memory _ _ Hs).
  repeat split.
  - apply fold_read1_flag, read1_null_handle.
  - apply fold_write1_flag, write1_null_handle.
Qed.

Lemma null_memory_span_is_skipped_without_failure_witness :
  let em := mkEmitter ∅ ∅ [] in
  let bh := NewBehavior [1] in
  let s := mkMemorySpan (mkSpan 0 16) 0 in
  memory s = 0 /\
  read em bh ([VLabel 3] ++ VMemorySpan s :: []) = read em bh ([VLabel 3] ++ []) /\
  write em bh [VMemorySpan s] = (true, bh, em).
Proof.
  intros em bh s.
  pose proof (null_memory_span_is_skipped_without_failure em bh s [VLabel 3] []
                eq_refl) as H.
  split; [reflexivity|]. split; [apply H|apply H].
Defined.

Lemma fold_Behavior_Read (l : list memorySpan) (bh : Behavior) :
  fold_left (fun b x => Behavior_Read b (VMemorySpan x)) l bh
  = mkBehavior (Owner bh) (Reads bh ++ map VMemorySpan l) (Writes bh)
      (Alive bh) (Aborted bh).
Proof.
  revert bh. induction l as [|x l IH]; intros bh.
  - simpl. rewrite app_nil_r. destruct bh; reflexivity.
  - simpl. rewrite IH. simpl. rewrite <- app_assoc. reflexivity.
Qed.

(** What [read] does with one memory span of a device memory whose
    recorded spans are sorted. *)
Lemma read_memorySpan (em : Emitter) (bh : Behavior) (s : memorySpan) :
  recordsOf em 0 = [] ->
  sortedSpans mb_span (recordsOf em (memory s)) ->
  read em bh [VMemorySpan s]
  = (true,
     mkBehavior (Owner bh)
       (Reads bh
        ++ map VMemorySpan (overlapping mb_span (recordsOf em (memory s)) (sp s)))
       (Writes bh) (Alive bh) (Aborted bh),
     em).
Proof.
  intros Hnull Hsorted. unfold read. cbn [fold_left read1].
  destruct (Z.eqb_spec (memory s) 0) as [Hz|Hnz].
  - rewrite Hz, Hnull. simpl. rewrite app_nil_r. destruct bh; reflexivity.
  - rewrite fold_Behavior_Read.
    rewrite (Intersect_overlapping mb_span _ (MemorySpan.span s) Hsorted).
    reflexivity.
Qed.

Lemma addBinding_In {A : Type} `{MemBinding A} (l l' : list A) (b : A) :
  addBinding l b = inr l' -> In b l'.
Proof.
  unfold addBinding.
  destruct (allRemainders _ b) as [err|[fronts backs]]; [discriminate|].
  intros [= <-]. rewrite !in_app_iff. right. right. left. reflexivity.
Qed.

(** What [write] does with one memory span of a device memory that is not
    null. *)
Lemma write_memorySpan (em : Emitter) (bh : Behavior) (s : memorySpan)
    (newList : list memorySpan) :
  memory s <> 0 ->
  addBinding (recordsOf em (memory s)) (MemorySpan.duplicate s) = inr newList ->
  write em bh [VMemorySpan s]
  = (true, Behavior_Write bh (VMemorySpan (MemorySpan.duplicate s)),
     setRecords em (<[memory s := newList]> (records em))).
Proof.
  intros Hnz Hadd. unfold write. cbn [fold_left write1].
  destruct (Z.eqb_spec (memory s) 0) as [Hz|_]; [contradiction|].
  unfold MemorySpan.duplicate in *. rewrite Hadd. reflexivity.
Qed.

Lemma recordsOf_setRecords_insert (em : Emitter) (mem : Z) (l : list memorySpan) :
  recordsOf (setRecords em (<[mem := l]> (records em))) mem = l.
Proof. unfold recordsOf. simpl. rewrite lookup_insert_eq. reflexivity. Qed.

Lemma recordsOf_setRecords_insert_ne (em : Emitter) (mem mem' : Z)
    (l : list memorySpan) :
  mem <> mem' ->
  recordsOf (setRecords em (<[mem := l]> (records em))) mem' = recordsOf em mem'.
Proof.
  intros Hne. unfold recordsOf. simpl. rewrite lookup_insert_ne by exact Hne.
  reflexivity.
Qed.

(** Decide the comparisons of the goal from the hypotheses. *)
Ltac zbool :=
  repeat match goal with
    | |- context [?a <? ?b] =>
        first [ replace (a <? b) with true by (symmetry; apply Z.ltb_lt; lia)
              | replace (a <? b) with false by (symmetry; apply Z.ltb_ge; lia) ]
    | |- context [?a <=? ?b] =>
        first [ replace (a <=? b) with true by (symmetry; apply Z.leb_le; lia)
              | replace (a <=? b) with false by (symmetry; apply Z.leb_gt; lia) ]
    | |- context [?a =? ?b] =>
        first [ replace (a =? b) with true by (symmetry; apply Z.eqb_eq; lia)
              | replace (a =? b) with false by (symmetry; apply Z.eqb_neq; lia) ]
    end.

(** Remove the wrap-around of the operations that do not wrap. *)
Ltac unwrap64 :=
  repeat first
    [ rewrite add64_small by lia
    | rewrite sub64_small by lia
    | rewrite mul64_small by lia ].

Lemma addBinding_nil {A : Type} `{MemBinding A} (b : A) :
  addBinding [] b = inr [b].
Proof. reflexivity. Qed.

(** A write of [[A, C)] and then a write of [[B, D)], with A < B < C < D,
    leave the spans [[A, B)] and [[B, D)] on record. *)
Lemma addBinding_second_write (mem A B C D : Z) :
  0 <= A -> A < B -> B < C -> C < D -> D < two64 ->
  addBinding [mkMemorySpan (mkSpan A C) mem] (mkMemorySpan (mkSpan B D) mem)
  = inr [mkMemorySpan (mkSpan A B) mem; mkMemorySpan (mkSpan B D) mem].
Proof.
  intros HA HAB HBC HCD HD.
  pose proof vkWholeSize_value as Hw.
  pose proof two64_value as Ht.
  unfold addBinding, Interval.Intersect.
  repeat (progress (simpl; zbool)).
  unfold remainders.
  repeat (progress (simpl; try unfold MemorySpan.shrink, MemorySpan.size;
                    simpl; unwrap64; zbool)).
  replace (A + 0 + (B - A)) with B by lia.
  replace (A + 0) with A by lia. reflexivity.
Qed.

(** ** Merging a span into sorted records *)

Section SortedLists.
Context {A : Type} (spanOf : A -> U64Span).

Lemma Search_take (t : A -> bool) (l : list A) :
  Forall (fun x => t x = false) (take (Interval.Search t l) l).
Proof.
  induction l as [|x l IH]; [constructor|].
  simpl. destruct (t x) eqn:Hx; [constructor|].
  simpl. constructor; assumption.
Qed.

Lemma Search_drop (t : A -> bool) (l : list A) :
  match drop (Interval.Search t l) l with
  | [] => True
  | y :: _ => t y = true
  end.
Proof.
  induction l as [|x l IH]; [exact I|].
  simpl. destruct (t x) eqn:Hx; [exact Hx|exact IH].
Qed.

Lemma sortedSpans_app (l1 l2 : list A) :
  sortedSpans spanOf (l1 ++ l2) <->
  sortedSpans spanOf l1 /\ sortedSpans spanOf l2 /\
  Forall (fun x => Forall (fun y => End (spanOf x) <= Start (spanOf y)) l2) l1.
Proof.
  induction l1 as [|x l1 IH]; simpl.
  - split; [intros H; repeat split; [exact H|constructor]|tauto].
  - rewrite IH, Forall_app, Forall_cons. tauto.
Qed.

Lemma sortedSpans_starts (x : A) (l : list A) :
  sortedSpans spanOf (x :: l) ->
  Forall (fun y => Start (spanOf x) <= Start (spanOf y)) l.
Proof.
  intros (Hwf & Hl & _). eapply Forall_impl; [exact Hl|]. simpl. intros. lia.
Qed.

(** The three parts into which [Intersect] cuts a sorted list. *)
Lemma Intersect_parts (l : list A) (span : U64Span) :
  sortedSpans spanOf l ->
  let fc := Interval.Intersect spanOf l span in
  Forall (fun x => End (spanOf x) <= Start span) (take (fst fc) l) /\
  Forall (fun x => Start span < End (spanOf x) /\ Start (spanOf x) < End span)
    (take (snd fc) (drop (fst fc) l)) /\
  Forall (fun y => End span <= Start (spanOf y))
    (drop (snd fc) (drop (fst fc) l)).
Proof.
  intros Hsorted fc. split; [|split].
  - eapply Forall_impl; [apply Search_take|]. simpl. intros x Hx.
    apply Z.ltb_ge in Hx. exact Hx.
  - subst fc. rewrite (Intersect_overlapping spanOf l span Hsorted).
    eapply Forall_impl; [apply (overlapping_Forall spanOf (fun _ => True));
                         apply Forall_forall; auto|].
    simpl. intros x [_ Hov]. unfold Interval.overlaps in Hov.
    apply andb_true_iff in Hov. destruct Hov as [H1 H2].
    apply Z.ltb_lt in H1, H2. split; assumption.
  - unfold fc, Interval.Intersect. cbn [fst snd].
    set (rest := drop (Interval.Search (fun x => Start span <? End (spanOf x)) l) l).
    assert (Hrest : sortedSpans spanOf rest).
    { rewrite <- (take_drop (Interval.Search
                               (fun x => Start span <? End (spanOf x)) l) l)
        in Hsorted.
      apply sortedSpans_app in Hsorted. tauto. }
    pose proof (Search_drop (fun x => End span <=? Start (spanOf x)) rest) as Hd.
    assert (Hafter : sortedSpans spanOf
                       (drop (Interval.Search
                                (fun x => End span <=? Start (spanOf x)) rest) rest)).
    { rewrite <- (take_drop (Interval.Search
                               (fun x => End span <=? Start (spanOf x)) rest) rest)
        in Hrest.
      apply sortedSpans_app in Hrest. tauto. }
    destruct (drop _ rest) as [|y after]; [constructor|].
    apply Z.leb_le in Hd. constructor; [exact Hd|].
    eapply Forall_impl; [apply (sortedSpans_starts y after Hafter)|].
    simpl. intros. lia.
Qed.

End SortedLists.

Lemma remainders_memorySpan (b e : memorySpan) :
  wfSpan e -> wfSpan b ->
  Start (sp b) < End (sp e) -> Start (sp e) < End (sp b) ->
  remainders e b = inr (frontOf b e, backOf b e).
Proof.
  intros (He0 & He1 & He2) (Hb0 & Hb1 & Hb2) Hov1 Hov2.
  pose proof vkWholeSize_value as Hw.
  unfold remainders, frontOf, backOf.
  cbn [mb_span mb_shrink mb_duplicate memorySpan_MemBinding MemorySpan.span
       MemorySpan.duplicate].
  unfold MemorySpan.shrink, MemorySpan.size, MemorySpan.span,
    MemorySpan.duplicate.
  destruct (Z.ltb_spec (Start (sp e)) (Start (sp b))) as [Hf|Hf];
    destruct (Z.ltb_spec (End (sp b)) (End (sp e))) as [Hk|Hk];
    repeat (progress (unwrap64; zbool; cbn [orb sp Start End memory]));
    repeat match goal with
      | |- context [Start (sp e) + 0] =>
          replace (Start (sp e) + 0) with (Start (sp e)) by lia
      | |- context [Start (sp e) + (?x - Start (sp e))] =>
          replace (Start (sp e) + (x - Start (sp e))) with x by lia
      | |- context [?y + (?x - ?y)] =>
          replace (y + (x - y)) with x by lia
      end;
    reflexivity.
Qed.

Lemma allRemainders_memorySpan (b : memorySpan) (mid : list memorySpan) :
  wfSpan b -> Forall wfSpan mid ->
  Forall (fun e => Start (sp b) < End (sp e) /\ Start (sp e) < End (sp b)) mid ->
  allRemainders mid b = inr (flat_map (frontOf b) mid, flat_map (backOf b) mid).
Proof.
  intros Hb Hwf Hov. induction mid as [|e mid IH]; [reflexivity|].
  inversion Hwf as [|? ? He Hwf']; subst.
  inversion Hov as [|? ? [H1 H2] Hov']; subst.
  cbn [allRemainders flat_map].
  rewrite (remainders_memorySpan b e He Hb H1 H2), (IH Hwf' Hov'). reflexivity.
Qed.

Lemma frontOf_In (b e f : memorySpan) :
  In f (frontOf b e) ->
  Start (sp f) = Start (sp e) /\ End (sp f) = Start (sp b) /\
  Start (sp e) < Start (sp b).
Proof.
  unfold frontOf. destruct (Z.ltb_spec (Start (sp e)) (Start (sp b))) as [H|H].
  - intros [<-|[]]. simpl. auto.
  - intros [].
Qed.

Lemma backOf_In (b e k : memorySpan) :
  In k (backOf b e) ->
  Start (sp k) = End (sp b) /\ End (sp k) = End (sp e) /\
  End (sp b) < End (sp e).
Proof.
  unfold backOf. destruct (Z.ltb_spec (End (sp b)) (End (sp e))) as [H|H].
  - intros [<-|[]]. simpl. auto.
  - intros [].
Qed.

Lemma fronts_In (b f : memorySpan) (mid : list memorySpan) :
  In f (flat_map (frontOf b) mid) ->
  exists e, In e mid /\ Start (sp f) = Start (sp e) /\
            End (sp f) = Start (sp b) /\ Start (sp e) < Start (sp b).
Proof.
  intros H. apply in_flat_map in H. destruct H as (e & He & Hf).
  exists e. split; [exact He|]. eapply frontOf_In. exact Hf.
Qed.

Lemma backs_In (b k : memorySpan) (mid : list memorySpan) :
  In k (flat_map (backOf b) mid) ->
  exists e, In e mid /\ Start (sp k) = End (sp b) /\
            End (sp k) = End (sp e) /\ End (sp b) < End (sp e).
Proof.
  intros H. apply in_flat_map in H. destruct H as (e & He & Hk).
  exists e. split; [exact He|]. eapply backOf_In. exact Hk.
Qed.

(** Of the spans that overlap [b], only the first reaches in front of
    [b]. *)
Lemma fronts_sorted (b : memorySpan) (mid : list memorySpan) :
  sortedSpans mb_span mid ->
  Forall (fun e => Start (sp b) < End (sp e) /\ Start (sp e) < End (sp b)) mid ->
  sortedSpans mb_span (flat_map (frontOf b) mid).
Proof.
  intros Hs Hov. destruct mid as [|e mid]; [exact I|].
  destruct Hs as (_ & Hlater & _). inversion Hov as [|? ? [H1 _] _]; subst.
  assert (Hnil : flat_map (frontOf b) mid = []).
  { clear Hov. induction Hlater as [|e' mid He' _ IH]; [reflexivity|].
    cbn [flat_map]. rewrite IH. unfold frontOf.
    cbn [mb_span memorySpan_MemBinding] in He'. unfold MemorySpan.span in He'.
    destruct (Z.ltb_spec (Start (sp e')) (Start (sp b))); [lia|reflexivity]. }
  cbn [flat_map]. rewrite Hnil, app_nil_r. unfold frontOf.
  destruct (Z.ltb_spec (Start (sp e)) (Start (sp b))); [|exact I].
  simpl. split; [lia|]. split; [constructor|exact I].
Qed.

(** Of the spans that overlap [b], only the last reaches behind [b]. *)
Lemma backs_sorted (b : memorySpan) (mid : list memorySpan) :
  sortedSpans mb_span mid ->
  Forall (fun e => Start (sp b) < End (sp e) /\ Start (sp e) < End (sp b)) mid ->
  sortedSpans mb_span (flat_map (backOf b) mid).
Proof.
  induction mid as [|e mid IH]; intros Hs Hov; [exact I|].
  destruct Hs as (Hwf & Hlater & Hs). inversion Hov as [|? ? _ Hov']; subst.
  cbn [flat_map]. unfold backOf at 1.
  destruct (Z.ltb_spec (End (sp b)) (End (sp e))) as [Hk|Hk].
  - destruct mid as [|e' mid].
    + simpl. split; [lia|]. split; [constructor|exact I].
    + exfalso. inversion Hlater as [|? ? He' _]; subst.
      inversion Hov' as [|? ? [_ H2] _]; subst.
      cbn [mb_span memorySpan_MemBinding] in He'. unfold MemorySpan.span in He'.
      lia.
  - apply IH; assumption.
Qed.

Lemma frontOf_wfSpan (b e : memorySpan) :
  wfSpan b -> wfSpan e -> Forall wfSpan (frontOf b e).
Proof.
  intros (Hb0 & Hb1 & Hb2) (He0 & He1 & He2). unfold frontOf.
  destruct (Z.ltb_spec (Start (sp e)) (Start (sp b))); [|constructor].
  constructor; [|constructor]. unfold wfSpan. simpl. lia.
Qed.

Lemma backOf_wfSpan (b e : memorySpan) :
  wfSpan b -> wfSpan e -> Forall wfSpan (backOf b e).
Proof.
  intros (Hb0 & Hb1 & Hb2) (He0 & He1 & He2). unfold backOf.
  destruct (Z.ltb_spec (End (sp b)) (End (sp e))); [|constructor].
  constructor; [|constructor]. unfold wfSpan. simpl. lia.
Qed.

Lemma flat_map_Forall {A B : Type} (P : B -> Prop) (f : A -> list B) (l : list A) :
  (forall x, In x l -> Forall P (f x)) -> Forall P (flat_map f l).
Proof.
  intros H. induction l as [|x l IH]; [constructor|].
  cbn [flat_map]. apply Forall_app. split.
  - apply H. left. reflexivity.
  - apply IH. intros y Hy. apply H. right. exact Hy.
Qed.

(** Unfold the span of a memory span. *)
Ltac mspan :=
  cbn [mb_span memorySpan_MemBinding] in *; unfold MemorySpan.span in *;
  cbv beta in *.

(** Merging a span into sorted records works, and keeps them sorted. *)
Lemma addBinding_wfRecords (l : list memorySpan) (b : memorySpan) :
  wfRecords l -> wfSpan b ->
  exists l', addBinding l b = inr l' /\ wfRecords l'.
Proof.
  intros [Hwf Hsorted] Hb.
  pose proof (Intersect_parts mb_span l (mb_span b) Hsorted) as Hparts.
  cbv zeta in Hparts. unfold addBinding.
  set (fc := Interval.Intersect mb_span l (mb_span b)) in *.
  assert (Hl : l = take (fst fc) l
                   ++ take (snd fc) (drop (fst fc) l)
                   ++ drop (snd fc) (drop (fst fc) l))
    by (rewrite !take_drop; reflexivity).
  set (B := take (fst fc) l) in *.
  set (M := take (snd fc) (drop (fst fc) l)) in *.
  set (Af := drop (snd fc) (drop (fst fc) l)) in *.
  destruct Hparts as (FB & FM & FA).
  rewrite Hl in Hwf, Hsorted.
  apply Forall_app in Hwf. destruct Hwf as [HwfB Hwf].
  apply Forall_app in Hwf. destruct Hwf as [HwfM HwfA].
  apply sortedSpans_app in Hsorted. destruct Hsorted as (HsB & Hs & HcB).
  apply sortedSpans_app in Hs. destruct Hs as (HsM & HsA & HcM).
  rewrite (allRemainders_memorySpan b M Hb HwfM FM).
  eexists. split; [reflexivity|].
  pose proof Hb as (Hb0 & Hb1 & Hb2).
  pose proof (proj1 (List.Forall_forall _ _) FB) as FB'.
  pose proof (proj1 (List.Forall_forall _ _) FA) as FA'.
  pose proof (proj1 (List.Forall_forall _ _) HcB) as HcB'.
  pose proof (proj1 (List.Forall_forall _ _) HcM) as HcM'.
  cbn [mb_span memorySpan_MemBinding] in *. unfold MemorySpan.span in *.
  split.
  - (* every span is inside the address space *)
    apply Forall_app. split; [exact HwfB|].
    apply Forall_app. split.
    { apply flat_map_Forall. intros e He. apply frontOf_wfSpan; [exact Hb|].
      exact (proj1 (List.Forall_forall _ _) HwfM e He). }
    apply Forall_app. split; [constructor; [exact Hb|constructor]|].
    apply Forall_app. split; [|exact HwfA].
    apply flat_map_Forall. intros e He. apply backOf_wfSpan; [exact Hb|].
    exact (proj1 (List.Forall_forall _ _) HwfM e He).
  - (* the spans are sorted *)
    apply sortedSpans_app. split; [exact HsB|]. split.
    + apply sortedSpans_app. split; [apply fronts_sorted; assumption|]. split.
      * apply (sortedSpans_app mb_span [b]). split.
        { simpl. split; [exact Hb1|]. split; [constructor|exact I]. }
        split.
        { apply sortedSpans_app. split; [apply backs_sorted; assumption|].
          split; [exact HsA|].
          apply List.Forall_forall. intros k Hk. apply List.Forall_forall.
          intros y Hy. destruct (backs_In b k M Hk) as (e & He & _ & Hke & _).
          pose proof (proj1 (List.Forall_forall _ _) (HcM' e He) y Hy) as Hey.
          mspan. lia. }
        constructor; [|constructor].
        apply List.Forall_forall. intros y Hy. apply in_app_or in Hy.
        destruct Hy as [Hy|Hy].
        { destruct (backs_In b y M Hy) as (e & _ & Hys & _). mspan. lia. }
        { specialize (FA' y Hy). mspan. exact FA'. }
      * apply List.Forall_forall. intros f Hf. apply List.Forall_forall.
        intros y Hy. destruct (fronts_In b f M Hf) as (e & _ & _ & Hfe & _).
        simpl in Hy. destruct Hy as [<-|Hy]; [mspan; lia|].
        apply in_app_or in Hy. destruct Hy as [Hy|Hy].
        { destruct (backs_In b y M Hy) as (e' & _ & Hys & _). mspan. lia. }
        { specialize (FA' y Hy). mspan. lia. }
    + apply List.Forall_forall. intros x Hx. apply List.Forall_forall.
      intros y Hy. specialize (FB' x Hx).
      apply in_app_or in Hy. destruct Hy as [Hy|Hy].
      { destruct (fronts_In b y M Hy) as (e & He & Hys & _).
        pose proof (proj1 (List.Forall_forall _ _) (HcB' x Hx) e
                      (in_or_app _ _ _ (or_introl He))) as Hxe.
        mspan. lia. }
      simpl in Hy. destruct Hy as [<-|Hy]; [mspan; lia|].
      apply in_app_or in Hy. destruct Hy as [Hy|Hy].
      { destruct (backs_In b y M Hy) as (e' & _ & Hys & _). mspan. lia. }
      { pose proof (proj1 (List.Forall_forall _ _) (HcB' x Hx) y
                      (in_or_app _ _ _ (or_intror Hy))) as Hxy.
        mspan. exact Hxy. }
Qed.

(** What [read] does with one memory span of a device memory that is not
    null and whose recorded spans are sorted. *)
Lemma read_memorySpan_sorted (em : Emitter) (bh : Behavior) (s : memorySpan) :
  memory s <> 0 ->
  sortedSpans mb_span (recordsOf em (memory s)) ->
  read em bh [VMemorySpan s]
  = (true,
     mkBehavior (Owner bh)
       (Reads bh
        ++ map VMemorySpan (overlapping mb_span (recordsOf em (memory s)) (sp s)))
       (Writes bh) (Alive bh) (Aborted bh),
     em).
Proof.
  intros Hnz Hsorted. unfold read. cbn [fold_left read1].
  destruct (Z.eqb_spec (memory s) 0) as [Hz|_]; [contradiction|].
  rewrite fold_Behavior_Read.
  rewrite (Intersect_overlapping mb_span _ (MemorySpan.span s) Hsorted).
  reflexivity.
Qed.

(** A write of a span inside the address space keeps the records sorted
    and inside the address space. *)
Lemma write_memorySpan_wfRecords (em : Emitter) (bh : Behavior) (s : memorySpan) :
  memory s <> 0 -> wfSpan s ->
  wfRecords (recordsOf em (memory s)) ->
  exists em',
    write em bh [VMemorySpan s]
    = (true, Behavior_Write bh (VMemorySpan (MemorySpan.duplicate s)), em') /\
    In (MemorySpan.duplicate s) (recordsOf em' (memory s)) /\
    wfRecords (recordsOf em' (memory s)) /\
    (forall mem', mem' <> memory s -> recordsOf em' mem' = recordsOf em mem').
Proof.
  intros Hnz Hs Hwf.
  destruct (addBinding_wfRecords (recordsOf em (memory s)) s Hwf Hs)
    as (newList & Hadd & Hwf').
  exists (setRecords em (<[memory s := newList]> (records em))).
  split; [apply write_memorySpan; assumption|].
  rewrite recordsOf_setRecords_insert.
  split; [eapply addBinding_In; exact Hadd|]. split; [exact Hwf'|].
  intros mem' Hne. apply recordsOf_setRecords_insert_ne. congruence.
Qed.

(** C1 (amended).  For a memory span of a device memory that is not
    null: when the recorded spans of the device memory are sorted and do
    not overlap, [read] makes the behavior read exactly the recorded spans
    that overlap the span, in their order, and leaves the records as they
    are; [write] duplicates the span, merges the duplicate into the
    records of its device memory and, when the merge succeeds, records the
    write on the duplicate and returns true; when the span lies inside the
    address space and the records are sorted and inside the address space,
    the merge succeeds and the records stay so.  [read] and [write] pass
    over a span of the null device memory.  So after a write of [[A, C)]
    and a write of [[B, D)], A < B < C < D, to a device memory without
    records, a read of [[A, D)] reads the two spans that cover it. *)
Theorem read_and_write_of_memory_spans :
  (forall (em : Emitter) (bh : Behavior) (s : memorySpan),
     memory s <> 0 ->
     sortedSpans mb_span (recordsOf em (memory s)) ->
     read em bh [VMemorySpan s]
     = (true,
        mkBehavior (Owner bh)
          (Reads bh
           ++ map VMemorySpan
                (overlapping mb_span (recordsOf em (memory s)) (sp s)))
          (Writes bh) (Alive bh) (Aborted bh),
        em)) /\
  (forall (em : Emitter) (bh : Behavior) (s : memorySpan)
          (newList : list memorySpan),
     memory s <> 0 ->
     addBinding (recordsOf em (memory s)) (MemorySpan.duplicate s) = inr newList ->
     exists em',
       write em bh [VMemorySpan s]
       = (true, Behavior_Write bh (VMemorySpan (MemorySpan.duplicate s)), em') /\
       recordsOf em' (memory s) = newList /\
       In (MemorySpan.duplicate s) newList /\
       (forall mem', mem' <> memory s -> recordsOf em' mem' = recordsOf em mem')) /\
  (forall (em : Emitter) (bh : Behavior) (s : memorySpan),
     memory s <> 0 -> wfSpan s ->
     wfRecords (recordsOf em (memory s)) ->
     exists em',
       write em bh [VMemorySpan s]
       = (true, Behavior_Write bh (VMemorySpan (MemorySpan.duplicate s)), em') /\
       In (MemorySpan.duplicate s) (recordsOf em' (memory s)) /\
       wfRecords (recordsOf em' (memory s)) /\
       (forall mem', mem' <> memory s -> recordsOf em' mem' = recordsOf em mem')) /\
  (forall (em : Emitter) (bh : Behavior) (s : memorySpan),
     memory s = 0 ->
     read em bh [VMemorySpan s] = (true, bh, em) /\
     write em bh [VMemorySpan s] = (true, bh, em)) /\
  (forall (em : Emitter) (b1 b2 b3 : Behavior) (mem A B C D : Z),
     mem <> 0 -> recordsOf em mem = [] ->
     0 <= A -> A < B -> B < C -> C < D -> D < two64 ->
     let ab := mkMemorySpan (mkSpan A B) mem in
     let bd := mkMemorySpan (mkSpan B D) mem in
     exists em1 em2,
       write em b1 [VMemorySpan (mkMemorySpan (mkSpan A C) mem)]
       = (true, Behavior_Write b1 (VMemorySpan (mkMemorySpan (mkSpan A C) mem)),
          em1) /\
       write em1 b2 [VMemorySpan bd]
       = (true, Behavior_Write b2 (VMemorySpan bd), em2) /\
       recordsOf em2 mem = [ab; bd] /\
       read em2 b3 [VMemorySpan (mkMemorySpan (mkSpan A D) mem)]
       = (true,
          mkBehavior (Owner b3) (Reads b3 ++ [VMemorySpan ab; VMemorySpan bd])
            (Writes b3) (Alive b3) (Aborted b3),
          em2)).
Proof.
  split; [|split; [|split; [|split]]].
  - intros em bh s Hnz Hsorted. apply read_memorySpan_sorted; assumption.
  - intros em bh s newList Hnz Hadd.
    exists (setRecords em (<[memory s := newList]> (records em))).
    split; [apply write_memorySpan; assumption|].
    split; [apply recordsOf_setRecords_insert|].
    split; [eapply addBinding_In; exact Hadd|].
    intros mem' Hne. apply recordsOf_setRecords_insert_ne. congruence.
  - intros em bh s. apply write_memorySpan_wfRecords.
  - intros em bh s Hz. unfold read, write. cbn [fold_left].
    rewrite (read1_null_memory _ s Hz), (write1_null_memory _ s Hz). auto.
  - intros em b1 b2 b3 mem A B C D Hmem Hempty HA HAB HBC HCD HD ab bd.
    set (ac := mkMemorySpan (mkSpan A C) mem).
    set (em1 := setRecords em (<[mem := [ac]]> (records em))).
    set (em2 := setRecords em1 (<[mem := [ab; bd]]> (records em1))).
    exists em1, em2.
    assert (H1 : write em b1 [VMemorySpan ac]
                 = (true, Behavior_Write b1 (VMemorySpan ac), em1)).
    { apply (write_memorySpan em b1 ac [ac] Hmem).
      simpl. rewrite Hempty. apply addBinding_nil. }
    assert (Hrec1 : recordsOf em1 mem = [ac])
      by apply recordsOf_setRecords_insert.
    assert (H2 : write em1 b2 [VMemorySpan bd]
                 = (true, Behavior_Write b2 (VMemorySpan bd), em2)).
    { apply (write_memorySpan em1 b2 bd [ab; bd] Hmem).
      simpl. rewrite Hrec1. apply addBinding_second_write; assumption. }
    assert (Hrec2 : recordsOf em2 mem = [ab; bd])
      by apply recordsOf_setRecords_insert.
    split; [exact H1|]. split; [exact H2|]. split; [exact Hrec2|].
    rewrite read_memorySpan_sorted.
    + simpl memory. rewrite Hrec2. unfold overlapping, Interval.overlaps.
      simpl. zbool. reflexivity.
    + exact Hmem.
    + simpl memory. rewrite Hrec2. simpl.
      repeat split; try lia; repeat constructor; simpl; lia.
Qed.

Lemma read_and_write_of_memory_spans_witness :
  let em := mkEmitter ∅ ∅ [] in
  let b := NewBehavior [7] in
  exists em1 em2,
    write em b [VMemorySpan (mkMemorySpan (mkSpan 0 8) 1)]
    = (true, Behavior_Write b (VMemorySpan (mkMemorySpan (mkSpan 0 8) 1)), em1) /\
    write em1 b [VMemorySpan (mkMemorySpan (mkSpan 4 12) 1)]
    = (true, Behavior_Write b (VMemorySpan (mkMemorySpan (mkSpan 4 12) 1)), em2) /\
    recordsOf em2 1
    = [mkMemorySpan (mkSpan 0 4) 1; mkMemorySpan (mkSpan 4 12) 1] /\
    read em2 b [VMemorySpan (mkMemorySpan (mkSpan 0 12) 1)]
    = (true,
       mkBehavior [7]
         [VMemorySpan (mkMemorySpan (mkSpan 0 4) 1);
          VMemorySpan (mkMemorySpan (mkSpan 4 12) 1)] [] false false,
       em2).
Proof.
  intros em b.
  refine (proj2 (proj2 (proj2 (proj2 read_and_write_of_memory_spans)))
            em b b b 1 0 4 8 12 _ _ _ _ _ _ _).
  - lia.
  - reflexivity.
  - lia.
  - lia.
  - lia.
  - lia.
  - rewrite two64_value. lia.
Defined.

(** C1 as it is stated fails on a span of the null device memory: [write]
    passes over it, so that no write is recorded on a duplicate and nothing
    is merged into the records. *)
Lemma write_of_null_memory_span_records_nothing :
  let em := mkEmitter ∅ ∅ [] in
  let bh := NewBehavior [1] in
  let v := mkMemorySpan (mkSpan 0 16) 0 in
  write em bh [VMemorySpan v] = (true, bh, em) /\
  Writes (snd (fst (write em bh [VMemorySpan v])))
  <> Writes bh ++ [VMemorySpan (MemorySpan.duplicate v)] /\
  ~ In (MemorySpan.duplicate v)
      (recordsOf (snd (write em bh [VMemorySpan v])) (memory v)).
Proof.
  intros em bh v. split; [reflexivity|]. split.
  - vm_compute. discriminate.
  - vm_compute. intros [].
Qed.

(** The records have to be sorted for [read] to find every overlapping
    span, and [write] does not keep them sorted when the span wraps around
    the address space, as the span [[8, 7)] that [newMemorySpan] makes for
    the offset 8 and the size [vkWholeSize]: written over the record
    [[0, 10)], it leaves the records [[0, 8)], [[8, 7)], [[7, 10)], and a
    read of [[7, 8)] then reads [[0, 8)] but not [[7, 10)], which overlaps
    it too. *)
Lemma read_misses_a_span_behind_a_wrapped_one :
  let em := mkEmitter {[1 := [mkMemorySpan (mkSpan 0 10) 1]]} ∅ [] in
  let bh := NewBehavior [1] in
  let v := mkMemorySpan (mkSpan 8 (add64 8 vkWholeSize)) 1 in
  let em' := snd (write em bh [VMemorySpan v]) in
  v = mkMemorySpan (mkSpan 8 7) 1 /\
  fst (fst (write em bh [VMemorySpan v])) = true /\
  recordsOf em' 1
  = [mkMemorySpan (mkSpan 0 8) 1; mkMemorySpan (mkSpan 8 7) 1;
     mkMemorySpan (mkSpan 7 10) 1] /\
  Reads (snd (fst (read em' bh [VMemorySpan (mkMemorySpan (mkSpan 7 8) 1)])))
  = [VMemorySpan (mkMemorySpan (mkSpan 0 8) 1)] /\
  overlapping mb_span (recordsOf em' 1) (mkSpan 7 8)
  = [mkMemorySpan (mkSpan 0 8) 1; mkMemorySpan (mkSpan 7 10) 1].
Proof. vm_compute. repeat split; reflexivity. Qed.

(** ** Sub-bindings *)

Lemma duplicate_id (b : resBinding) : ResBinding.duplicate b = b.
Proof. destruct b as [ro bs bd]. destruct bd; reflexivity. Qed.

(** [shrink] fails exactly in the two cases of [clipError]. *)
Lemma shrink_clipError (b : resBinding) (off sz : Z) :
  match ResBinding.shrink (ResBinding.duplicate b) off sz with
  | inl e => clipError b off sz = Some e
  | inr _ => clipError b off sz = None
  end.
Proof.
  rewrite duplicate_id.
  unfold ResBinding.shrink, clipError, outOfBounds, notResizable, wholeSizeTo,
    isSpanBacked, ResBinding.size.
  destruct ((add64 off (if sz =? vkWholeSize then sub64 (bindSize b) off else sz)
             <? off)
            || (bindSize b
                <? add64 off
                     (if sz =? vkWholeSize then sub64 (bindSize b) off else sz)));
    [reflexivity|].
  destruct (backingData b); simpl; try reflexivity;
    destruct (negb (off =? 0)
              || negb ((if sz =? vkWholeSize then sub64 (bindSize b) off else sz)
                       =? bindSize b)); reflexivity.
Qed.

Lemma readIfBehavior_resBinding (em : Emitter) (bh : option Behavior)
    (b : resBinding) :
  readIfBehavior em bh [varOfResBinding b]
  = (option_map (fun x => Behavior_Read x (varOfResBinding b)) bh, em).
Proof. destruct bh; reflexivity. Qed.

Lemma writeIfBehavior_resBinding (em : Emitter) (bh : option Behavior)
    (b : resBinding) :
  writeIfBehavior em bh [varOfResBinding b]
  = (option_map (fun x => Behavior_Write x (varOfResBinding b)) bh, em).
Proof. destruct bh; reflexivity. Qed.

(** One round of the loop: the sub-binding is appended, or the error is
    logged and nothing is appended. *)
Lemma subBindingStep_cases (offset size : Z) (acc : list resBinding)
    (bh : option Behavior) (em : Emitter) (b : resBinding) :
  exists bh',
    subBindingStep offset size (acc, bh, em) b
    = (acc ++ option_list (subBindingOf offset size b), bh',
       match subBindingError offset size b with
       | Some e => logE em e
       | None => em
       end).
Proof.
  unfold subBindingStep, subBindingOf, subBindingError, ResBinding.newSubBinding.
  rewrite readIfBehavior_resBinding.
  change (sub64 (if Start (ResBinding.span b) <? offset then offset
                 else Start (ResBinding.span b)) (Start (ResBinding.span b)))
    with (fst (subRange offset size b)).
  change (sub64 (if add64 offset size <? End (ResBinding.span b)
                 then add64 offset size else End (ResBinding.span b))
            (if Start (ResBinding.span b) <? offset then offset
             else Start (ResBinding.span b)))
    with (snd (subRange offset size b)).
  pose proof (shrink_clipError b (fst (subRange offset size b))
                (snd (subRange offset size b))) as Hc.
  destruct (ResBinding.shrink (ResBinding.duplicate b)
              (fst (subRange offset size b)) (snd (subRange offset size b)))
    as [e|nb].
  - rewrite Hc. eexists. simpl. rewrite app_nil_r. reflexivity.
  - rewrite Hc. rewrite writeIfBehavior_resBinding. eexists. reflexivity.
Qed.

Lemma subBindingStep_fold (offset size : Z) (run : list resBinding) :
  forall (acc : list resBinding) (bh : option Behavior) (em : Emitter),
    let r := fold_left (subBindingStep offset size) run (acc, bh, em) in
    fst (fst r) = acc ++ omap (subBindingOf offset size) run /\
    logged (snd r) = logged em ++ omap (subBindingError offset size) run /\
    records (snd r) = records em /\
    labelReadBehaviors (snd r) = labelReadBehaviors em.
Proof.
  induction run as [|b run IH]; intros acc bh em.
  - simpl. rewrite !app_nil_r. auto.
  - cbn [fold_left].
    destruct (subBindingStep_cases offset size acc bh em b) as [bh' ->].
    specialize (IH (acc ++ option_list (subBindingOf offset size b)) bh'
                  (match subBindingError offset size b with
                   | Some e => logE em e
                   | None => em
                   end)).
    cbv zeta in IH. destruct IH as (H1 & H2 & H3 & H4).
    cbv zeta. rewrite H1, H2, H3, H4. cbn [omap list_omap].
    destruct (subBindingOf offset size b), (subBindingError offset size b);
      simpl; rewrite <- ?app_assoc; auto.
Qed.

Lemma getSubBindingList_fold (em : Emitter) (bh : option Behavior)
    (l : list resBinding) (offset size0 : Z) :
  getSubBindingList em bh l offset size0
  = fold_left (subBindingStep offset (clampedSize offset size0))
      (visited l offset size0) ([], bh, em).
Proof. reflexivity. Qed.

Lemma subBindingOf_None (offset size : Z) (b : resBinding) :
  subBindingOf offset size b = None <-> subBindingError offset size b <> None.
Proof.
  unfold subBindingOf, subBindingError.
  pose proof (shrink_clipError b (fst (subRange offset size b))
                (snd (subRange offset size b))) as Hc.
  destruct (ResBinding.shrink (ResBinding.duplicate b) _ _) as [e|nb];
    rewrite Hc; split; intros H; congruence.
Qed.

Lemma clipError_cases (b : resBinding) (off sz : Z) :
  clipError b off sz <> None <->
  outOfBounds b off sz = true \/ notResizable b off sz = true.
Proof.
  unfold clipError.
  destruct (outOfBounds b off sz); [split; [auto|congruence]|].
  destruct (notResizable b off sz); split; intros H;
    try congruence; auto.
  destruct H; discriminate.
Qed.

(** C8.  [getSubBindingList] returns, in order, the sub-bindings of the
    bindings it visits for which clipping works, and logs one error for
    each of the others, which it leaves out; clipping fails exactly when
    the sub-range is out of the bounds of the binding (offset plus size
    exceeds its size, or wraps) or when the binding is not backed by a
    memory span and the sub-range is not the whole binding.  The result is
    a plain list: no error reaches the caller. *)
Theorem clipping_errors_are_logged_and_dropped
    (em : Emitter) (bh : option Behavior) (l : list resBinding)
    (offset size0 : Z) :
  let size := clampedSize offset size0 in
  let run := visited l offset size0 in
  let r := getSubBindingList em bh l offset size0 in
  fst (fst r) = omap (subBindingOf offset size) run /\
  logged (snd r) = logged em ++ omap (subBindingError offset size) run /\
  (forall b, subBindingOf offset size b = None <->
             subBindingError offset size b <> None) /\
  (forall b,
     subBindingError offset size b <> None <->
     outOfBounds b (fst (subRange offset size b)) (snd (subRange offset size b))
     = true \/
     notResizable b (fst (subRange offset size b)) (snd (subRange offset size b))
     = true) /\
  records (snd r) = records em.
Proof.
  intros size run r. subst r. rewrite getSubBindingList_fold.
  destruct (subBindingStep_fold offset size run [] bh em) as (H1 & H2 & H3 & _).
  split; [exact H1|]. split; [exact H2|].
  split; [intros b; apply subBindingOf_None|].
  split; [intros b; apply clipError_cases|exact H3].
Qed.

(** ** Sub-bindings of a well-formed binding list *)

Lemma omap_Forall_ext {A B : Type} (f g : A -> option B) (l : list A) :
  Forall (fun x => f x = g x) l -> omap f l = omap g l.
Proof.
  induction 1 as [|x l Hx Hl IH]; [reflexivity|].
  cbn [omap list_omap]. rewrite Hx, IH. reflexivity.
Qed.

Lemma requestedSpan_clamped (offset size0 : Z) :
  0 <= offset < two64 -> 0 <= size0 < two64 ->
  mkSpan offset (add64 offset (clampedSize offset size0))
  = requestedSpan offset size0 /\
  offset <= End (requestedSpan offset size0) < two64.
Proof.
  intros Ho Hs. pose proof vkWholeSize_value as Hw.
  unfold requestedSpan, clampedSize. cbn [End].
  destruct (Z.leb_spec two64 (offset + size0)) as [Hwrap|Hfit].
  - rewrite (add64_wraps offset size0) by lia. zbool. unwrap64.
    split; [f_equal; lia|lia].
  - rewrite (add64_small offset size0) by lia. zbool. unwrap64.
    split; [reflexivity|lia].
Qed.

Lemma span_wfBinding (b : resBinding) :
  wfBinding b ->
  ResBinding.span b = mkSpan (resourceOffset b) (resourceOffset b + bindSize b).
Proof.
  intros (H1 & H2 & H3). unfold ResBinding.span, ResBinding.size.
  unwrap64. reflexivity.
Qed.

(** On a binding that overlaps the range, the code computes [clip]. *)
Lemma subBindingOf_clip (offset size lo hi : Z) (b : resBinding) :
  wfBinding b ->
  offset = lo -> add64 offset size = hi ->
  0 <= lo -> lo <= hi -> hi < two64 ->
  Interval.overlaps (ResBinding.span b) (mkSpan lo hi) = true ->
  subBindingOf offset size b = clip lo hi b.
Proof.
  intros Hwf -> Hhi Hlo Hle Hhi64 Hov.
  pose proof vkWholeSize_value as Hw.
  pose proof Hwf as (Hro & Hbs & Hend).
  unfold subBindingOf, subRange. rewrite duplicate_id, Hhi.
  rewrite (span_wfBinding b Hwf) in *. cbn [Start End fst snd] in *.
  unfold Interval.overlaps in Hov. cbn [Start End] in Hov.
  apply andb_true_iff in Hov. destruct Hov as [Hov1 Hov2].
  apply Z.ltb_lt in Hov1, Hov2.
  assert (Hs : (if resourceOffset b <? lo then lo else resourceOffset b)
               = Z.max lo (resourceOffset b)).
  { destruct (Z.ltb_spec (resourceOffset b) lo); lia. }
  assert (He : (if hi <? resourceOffset b + bindSize b then hi
                else resourceOffset b + bindSize b)
               = Z.min hi (resourceOffset b + bindSize b)).
  { destruct (Z.ltb_spec hi (resourceOffset b + bindSize b)); lia. }
  rewrite Hs, He.
  set (s := Z.max lo (resourceOffset b)).
  set (e := Z.min hi (resourceOffset b + bindSize b)).
  assert (Hse : s <= e) by lia.
  assert (Hsro : resourceOffset b <= s) by lia.
  assert (Hebs : e <= resourceOffset b + bindSize b) by lia.
  rewrite (sub64_small s) by lia. rewrite (sub64_small e) by lia.
  unfold ResBinding.shrink, ResBinding.size, clip. fold s. fold e.
  assert (Hsz : (if e - s =? vkWholeSize
                 then sub64 (bindSize b) (s - resourceOffset b) else e - s)
                = e - s).
  { destruct (Z.eqb_spec (e - s) vkWholeSize) as [Heq|]; [|reflexivity].
    rewrite sub64_small by lia. lia. }
  rewrite Hsz.
  rewrite (add64_small (s - resourceOffset b)) by lia.
  zbool. cbn [orb].
  destruct (backingData b) eqn:Hbd;
    try (destruct (Z.eqb_spec (s - resourceOffset b) 0) as [H0|H0];
         destruct (Z.eqb_spec (e - s) (bindSize b)) as [H1|H1];
         destruct (Z.eqb_spec s (resourceOffset b)) as [H2|H2];
         destruct (Z.eqb_spec e (resourceOffset b + bindSize b)) as [H3|H3];
         cbn [negb orb andb]; try reflexivity; exfalso; lia).
  unfold shrunkSpan. rewrite (add64_small (resourceOffset b)) by lia.
  replace (resourceOffset b + (s - resourceOffset b)) with s by lia.
  reflexivity.
Qed.


(** The sub-bindings that [getSubBindingList] returns for a well-formed
    binding list. *)
Lemma getSubBindingList_clip (em : Emitter) (bh : option Behavior)
    (l : list resBinding) (offset size0 : Z) :
  wfBindings l -> 0 <= offset < two64 -> 0 <= size0 < two64 ->
  fst (fst (getSubBindingList em bh l offset size0))
  = omap (clip (Start (requestedSpan offset size0))
               (End (requestedSpan offset size0)))
      (overlapping mb_span l (requestedSpan offset size0)).
Proof.
  intros [Hwf Hsorted] Ho Hs.
  destruct (requestedSpan_clamped offset size0 Ho Hs) as [Hspan Hend].
  rewrite getSubBindingList_fold.
  destruct (subBindingStep_fold offset (clampedSize offset size0)
              (visited l offset size0) [] bh em) as (H1 & _).
  rewrite H1. cbn [app]. unfold visited. rewrite Hspan.
  rewrite (Intersect_overlapping mb_span l _ Hsorted).
  apply omap_Forall_ext.
  eapply Forall_impl; [apply overlapping_Forall; exact Hwf|].
  cbn beta. intros b [Hb Hov].
  apply subBindingOf_clip; try assumption; try reflexivity.
  all: try (cbn [Start requestedSpan]; lia).
  all: try (injection Hspan as Hspan; exact Hspan).
  all: try (destruct (requestedSpan offset size0); exact Hov).
Qed.

(** C4 (amended).  For a sorted, non-overlapping binding list inside the
    address space, [getSubBindingList l offset size] returns, in order, the
    bindings of [l] that intersect [[offset, offset+size)], the end of the
    range clamped to [vkWholeSize] when [offset+size] wraps: a binding
    backed by a memory span is clipped to the intersection, its span shrunk
    accordingly; a binding with other backing data is returned only when
    the range covers it whole, and is left out otherwise. *)
Theorem getSubBindingList_returns_clipped_intersection
    (em : Emitter) (bh : option Behavior) (l : list resBinding)
    (offset size : Z) :
  wfBindings l -> 0 <= offset < two64 -> 0 <= size < two64 ->
  fst (fst (getSubBindingList em bh l offset size))
  = omap (clip offset (End (requestedSpan offset size)))
      (overlapping mb_span l (requestedSpan offset size)) /\
  (two64 <= offset + size -> End (requestedSpan offset size) = vkWholeSize) /\
  (offset + size < two64 -> End (requestedSpan offset size) = offset + size).
Proof.
  intros Hwf Ho Hs. split; [|split].
  - exact (getSubBindingList_clip em bh l offset size Hwf Ho Hs).
  - intros Hwrap. unfold requestedSpan. cbn [End]. zbool. reflexivity.
  - intros Hfit. unfold requestedSpan. cbn [End]. zbool. reflexivity.
Qed.

Lemma getSubBindingList_returns_clipped_intersection_witness :
  let l := [mkResBinding 0 100 (VMemorySpan (mkMemorySpan (mkSpan 1000 1100) 1));
            mkResBinding 100 100 (VLabel 5)] in
  wfBindings l /\
  fst (fst (getSubBindingList (mkEmitter ∅ ∅ []) None l 50 150))
  = omap (clip 50 (End (requestedSpan 50 150)))
      (overlapping mb_span l (requestedSpan 50 150)) /\
  fst (fst (getSubBindingList (mkEmitter ∅ ∅ []) None l 50 150))
  = [mkResBinding 50 50 (VMemorySpan (mkMemorySpan (mkSpan 1050 1100) 1));
     mkResBinding 100 100 (VLabel 5)].
Proof.
  intros l.
  assert (Hwf : wfBindings l).
  { pose proof two64_value as Ht. split.
    - repeat constructor; simpl; lia.
    - unfold l. cbn [sortedSpans mb_span resBinding_MemBinding ResBinding.span
                     ResBinding.size resourceOffset bindSize Start End].
      unwrap64. repeat split; try lia; repeat constructor; simpl; unwrap64; lia. }
  split; [exact Hwf|]. split.
  - apply (getSubBindingList_returns_clipped_intersection
             (mkEmitter ∅ ∅ []) None l 50 150 Hwf);
      rewrite two64_value; lia.
  - vm_compute. reflexivity.
Defined.

(** C4 as it is stated fails on a binding that is not backed by a memory
    span: the swapchain-style binding [[0, 100)] intersects the range
    [[10, 30)], and yet it is not returned clipped, it is left out. *)
Lemma getSubBindingList_leaves_out_clipped_label_binding :
  let l := [mkResBinding 0 100 (VLabel 1)] in
  let r := fst (fst (getSubBindingList (mkEmitter ∅ ∅ []) None l 10 20)) in
  wfBindings l /\
  overlapping mb_span l (requestedSpan 10 20) = l /\
  r = [] /\
  r <> map (clipAlways 10 (End (requestedSpan 10 20)))
         (overlapping mb_span l (requestedSpan 10 20)).
Proof.
  intros l r. split; [|split; [|split]].
  - pose proof two64_value as Ht. split.
    + repeat constructor; simpl; lia.
    + unfold l. cbn [sortedSpans mb_span resBinding_MemBinding ResBinding.span
                     ResBinding.size resourceOffset bindSize Start End].
      unwrap64. repeat split; try lia; repeat constructor.
  - vm_compute. reflexivity.
  - vm_compute. reflexivity.
  - vm_compute. discriminate.
Qed.

(** ** Index buffers *)

Lemma subBindingStep_keeps_behavior (offset size : Z) (run : list resBinding) :
  forall (acc : list resBinding) (b : Behavior) (em : Emitter),
    is_Some (snd (fst (fold_left (subBindingStep offset size) run
                         (acc, Some b, em)))).
Proof.
  induction run as [|x run IH]; intros acc b em.
  - simpl. eauto.
  - cbn [fold_left]. unfold subBindingStep at 2.
    rewrite readIfBehavior_resBinding. unfold ResBinding.newSubBinding.
    destruct (ResBinding.shrink _ _ _) as [e|nb].
    + apply IH.
    + rewrite writeIfBehavior_resBinding. apply IH.
Qed.

Lemma requestedSpan_fits (offset size : Z) :
  offset + size < two64 ->
  requestedSpan offset size = mkSpan offset (offset + size).
Proof. intros H. unfold requestedSpan. zbool. reflexivity. Qed.

(** C7 (amended).  For a [VkCmdDrawIndexed], [readBoundIndexBuffer] makes
    the behavior read the data of the bound index buffer over the range
    [[firstIndex*indexSize, firstIndex*indexSize + count*indexSize)], where
    [indexSize] is 2 for [VK_INDEX_TYPE_UINT16] and 4 for
    [VK_INDEX_TYPE_UINT32]: the data it passes to [read] is the backing
    data of the bindings of the index buffer clipped to that range. *)
Theorem readBoundIndexBuffer_reads_indices_from_first
    (em : Emitter) (bh : Behavior) (execInfo : queueExecutionState)
    (cbs : commandBufferExecutionState) (IndexCount FirstIndex : Z) :
  currentState execInfo = Some cbs ->
  indexType cbs = VkIndexType_VK_INDEX_TYPE_UINT16 \/
  indexType cbs = VkIndexType_VK_INDEX_TYPE_UINT32 ->
  is_u32 IndexCount -> is_u32 FirstIndex ->
  wfBindings (indexBufferResBindings cbs) ->
  let indexSize := VkIndexType_size (indexType cbs) in
  let range := indexSpan indexSize IndexCount FirstIndex in
  let data :=
    map backingData
      (omap (clip (Start range) (End range))
         (overlapping mb_span (indexBufferResBindings cbs) range)) in
  (indexType cbs = VkIndexType_VK_INDEX_TYPE_UINT16 -> indexSize = 2) /\
  (indexType cbs = VkIndexType_VK_INDEX_TYPE_UINT32 -> indexSize = 4) /\
  exists bh1 em1,
    getBoundData em (Some bh) (indexBufferResBindings cbs) (Start range)
      (IndexCount * indexSize)
    = (data, Some bh1, em1) /\
    readBoundIndexBuffer em bh execInfo (VkCmdDrawIndexed IndexCount FirstIndex)
    = Ok (snd (fst (read em1 bh1 data)), snd (read em1 bh1 data)).
Proof.
  intros Hcur Hty [Hc0 Hc1] [Hf0 Hf1] Hwf indexSize range data.
  pose proof two64_value as Ht.
  assert (Hsz : indexSize = 2 \/ indexSize = 4).
  { unfold indexSize. destruct Hty as [-> | ->]; [left|right]; reflexivity. }
  split; [intros H; unfold indexSize; rewrite H; reflexivity|].
  split; [intros H; unfold indexSize; rewrite H; reflexivity|].
  assert (Hlo : 0 <= FirstIndex * indexSize < two64) by lia.
  assert (Hlen : 0 <= IndexCount * indexSize < two64) by lia.
  assert (Hfit : FirstIndex * indexSize + IndexCount * indexSize < two64) by lia.
  pose proof (getSubBindingList_clip em (Some bh) (indexBufferResBindings cbs)
                (FirstIndex * indexSize) (IndexCount * indexSize) Hwf Hlo Hlen)
    as Hclip.
  rewrite (requestedSpan_fits _ _ Hfit) in Hclip. cbn [Start End] in Hclip.
  pose proof (subBindingStep_keeps_behavior (FirstIndex * indexSize)
                (clampedSize (FirstIndex * indexSize) (IndexCount * indexSize))
                (visited (indexBufferResBindings cbs) (FirstIndex * indexSize)
                   (IndexCount * indexSize)) [] bh em) as Hsome.
  rewrite <- getSubBindingList_fold in Hsome.
  destruct (getSubBindingList em (Some bh) (indexBufferResBindings cbs)
              (FirstIndex * indexSize) (IndexCount * indexSize))
    as [[bl obh] em1] eqn:Hsub.
  cbn [fst snd] in Hclip, Hsome. destruct Hsome as [bh1 ->].
  exists bh1, em1.
  assert (Hbound : getBoundData em (Some bh) (indexBufferResBindings cbs)
                     (FirstIndex * indexSize) (IndexCount * indexSize)
                   = (data, Some bh1, em1)).
  { unfold getBoundData. rewrite Hsub. unfold data, range, indexSpan.
    cbn [Start End]. rewrite Hclip. reflexivity. }
  split; [exact Hbound|].
  unfold readBoundIndexBuffer. rewrite Hcur. fold indexSize.
  assert (Hnz : (indexSize =? 0) = false) by (apply Z.eqb_neq; lia).
  rewrite Hnz. unfold indexBufferRange.
  rewrite (mul64_small FirstIndex) by lia.
  rewrite (mul64_small IndexCount) by lia.
  rewrite add64_small by lia. rewrite Z.add_0_l.
  rewrite Hbound.
  destruct (read em1 bh1 data) as [[ok b2] em2]. reflexivity.
Qed.

Lemma readBoundIndexBuffer_reads_indices_from_first_witness :
  let cbs :=
    mkCmdBufState ∅
      [mkResBinding 0 100 (VMemorySpan (mkMemorySpan (mkSpan 0 100) 1))]
      VkIndexType_VK_INDEX_TYPE_UINT16 1 2 in
  let execInfo :=
    mkQueueExecutionState (Some PrimaryCmdBuf) (Some cbs) None [0; 0; 0; 0] 0 None in
  let em := mkEmitter {[1 := [mkMemorySpan (mkSpan 5 6) 1]]} ∅ [] in
  let data :=
    map backingData
      (omap (clip 4 6) (overlapping mb_span (indexBufferResBindings cbs) (mkSpan 4 6))) in
  wfBindings (indexBufferResBindings cbs) /\
  exists bh1 em1,
    getBoundData em (Some (NewBehavior [9])) (indexBufferResBindings cbs) 4 2
    = (data, Some bh1, em1) /\
    readBoundIndexBuffer em (NewBehavior [9]) execInfo (VkCmdDrawIndexed 1 2)
    = Ok (snd (fst (read em1 bh1 data)), snd (read em1 bh1 data)).
Proof.
  intros cbs execInfo em data.
  assert (Hwf : wfBindings (indexBufferResBindings cbs)).
  { pose proof two64_value as Ht. split.
    - repeat constructor; simpl; lia.
    - cbn [cbs indexBufferResBindings sortedSpans mb_span resBinding_MemBinding
           ResBinding.span ResBinding.size resourceOffset bindSize Start End].
      unwrap64. repeat split; try lia; repeat constructor. }
  split; [exact Hwf|].
  apply (readBoundIndexBuffer_reads_indices_from_first em (NewBehavior [9])
           execInfo cbs 1 2 eq_refl (or_introl eq_refl)).
  - unfold is_u32. lia.
  - unfold is_u32. lia.
  - exact Hwf.
Defined.

(** C7 as it is stated fails: for a draw of one 16-bit index from the
    index 2 on, the range asked for is [[4, 6)] and not [[4, 2)], and the
    behavior reads the recorded span [[5, 6)], which lies past
    [count*indexSize = 2]. *)
Lemma indexed_draw_reads_past_count_times_indexSize :
  let cbs :=
    mkCmdBufState ∅
      [mkResBinding 0 100 (VMemorySpan (mkMemorySpan (mkSpan 0 100) 1))]
      VkIndexType_VK_INDEX_TYPE_UINT16 1 2 in
  let execInfo :=
    mkQueueExecutionState (Some PrimaryCmdBuf) (Some cbs) None [0; 0; 0; 0] 0 None in
  let em := mkEmitter {[1 := [mkMemorySpan (mkSpan 5 6) 1]]} ∅ [] in
  let range := indexBufferRange 2 (VkCmdDrawIndexed 1 2) in
  mkSpan (fst range) (add64 (fst range) (snd range)) = mkSpan 4 6 /\
  mkSpan (fst range) (add64 (fst range) (snd range)) <> countEndedIndexSpan 2 1 2 /\
  End (countEndedIndexSpan 2 1 2) = 2 /\
  exists b2 em2,
    readBoundIndexBuffer em (NewBehavior [9]) execInfo (VkCmdDrawIndexed 1 2)
    = Ok (b2, em2) /\
    In (VMemorySpan (mkMemorySpan (mkSpan 5 6) 1)) (Reads b2).
Proof.
  intros cbs execInfo em range.
  split; [vm_compute; reflexivity|].
  split; [vm_compute; discriminate|].
  split; [reflexivity|].
  vm_compute. eexists. eexists. split; [reflexivity|].
  right. left. reflexivity.
Qed.

(** ** What the emitter leaves alone *)

Lemma frame_refl (s : Shadow) : frame s s.
Proof. destruct s; reflexivity. Qed.

Lemma frame_trans (s1 s2 s3 : Shadow) : frame s1 s2 -> frame s2 s3 -> frame s1 s3.
Proof.
  unfold frame. intros H12 H23. rewrite H23 at 1. rewrite H12 at 1. reflexivity.
Qed.

Lemma frame_setEmitter (s : Shadow) (em : Emitter) : frame s (setEmitter s em).
Proof. reflexivity. Qed.

Lemma frame_AddBehavior (s : Shadow) (bh : Behavior) : frame s (AddBehavior s bh).
Proof. reflexivity. Qed.

Lemma frame_sread (s : Shadow) (bh : Behavior) (cs : list DefUseVariable) :
  frame s (snd (sread s bh cs)).
Proof. unfold sread. destruct (read _ _ _) as [[ok b] em]. reflexivity. Qed.

Lemma frame_swrite (s : Shadow) (bh : Behavior) (cs : list DefUseVariable) :
  frame s (snd (swrite s bh cs)).
Proof. unfold swrite. destruct (write _ _ _) as [[ok b] em]. reflexivity. Qed.

Lemma frame_smodify (s : Shadow) (bh : Behavior) (cs : list DefUseVariable) :
  frame s (snd (smodify s bh cs)).
Proof. unfold smodify. destruct (modify _ _ _) as [[ok b] em]. reflexivity. Qed.

Lemma footprint_sread (s : Shadow) (bh : Behavior) (cs : list DefUseVariable) :
  footprint (snd (sread s bh cs)) = footprint s.
Proof. unfold sread. destruct (read _ _ _) as [[ok b] em]. reflexivity. Qed.

Lemma footprint_swrite (s : Shadow) (bh : Behavior) (cs : list DefUseVariable) :
  footprint (snd (swrite s bh cs)) = footprint s.
Proof. unfold swrite. destruct (write _ _ _) as [[ok b] em]. reflexivity. Qed.

Lemma footprint_smodify (s : Shadow) (bh : Behavior) (cs : list DefUseVariable) :
  footprint (snd (smodify s bh cs)) = footprint s.
Proof. unfold smodify. destruct (modify _ _ _) as [[ok b] em]. reflexivity. Qed.

Lemma frame_getImageDataTail (s : Shadow) (bh : option Behavior) (vkImg : Z) :
  frame s (snd (getImageDataTail s bh vkImg)) /\
  footprint (snd (getImageDataTail s bh vkImg)) = footprint s.
Proof.
  unfold getImageDataTail. destruct (images s !! vkImg) as [img|].
  - destruct (getBoundData _ _ _ _ _) as [[data bh1] em1].
    destruct (fold_left sparseStep _ _) as [[data' bh2] em2].
    split; reflexivity.
  - split; [apply frame_refl|reflexivity].
Qed.

(** Without a behavior, [getImageData] returns, whatever the image. *)
Lemma getImageData_without_behavior (s : Shadow) (vkImg : Z) :
  getImageData s None vkImg = Ok (getImageDataTail s None vkImg).
Proof. reflexivity. Qed.

Lemma lastDrawStep_fold (imgs : list Z) :
  forall (fbData : list DefUseVariable) (s : Shadow),
  exists fbData' s',
    fold_left lastDrawStep imgs (Ok (fbData, s)) = Ok (fbData', s') /\
    frame s s' /\ footprint s' = footprint s.
Proof.
  induction imgs as [|img imgs IH]; intros fbData s.
  - exists fbData, s. split; [reflexivity|]. split; [apply frame_refl|reflexivity].
  - cbn [fold_left]. unfold lastDrawStep at 2. cbn [rbind fst snd].
    rewrite getImageData_without_behavior. cbn [rbind].
    destruct (frame_getImageDataTail s None img) as [Hf Hft].
    destruct (getImageDataTail s None img) as [[data bh'] s1]. cbn [fst snd] in *.
    destruct (IH (fbData ++ data) s1) as (fbData' & s' & Heq & Hf' & Hft').
    exists fbData', s'. split; [exact Heq|].
    split; [eapply frame_trans; eassumption|congruence].
Qed.

(** Name the outcome of the next [sread], [swrite] or [smodify] of the
    goal, with what it leaves alone. *)
Ltac step_emit :=
  match goal with
  | |- context [sread ?s ?b ?cs] =>
      let Hf := fresh "Hframe" in
      let Hft := fresh "Hfootprint" in
      pose proof (frame_sread s b cs) as Hf;
      pose proof (footprint_sread s b cs) as Hft;
      destruct (sread s b cs) as [[? ?] ?]; cbn [fst snd] in Hf, Hft
  | |- context [swrite ?s ?b ?cs] =>
      let Hf := fresh "Hframe" in
      let Hft := fresh "Hfootprint" in
      pose proof (frame_swrite s b cs) as Hf;
      pose proof (footprint_swrite s b cs) as Hft;
      destruct (swrite s b cs) as [[? ?] ?]; cbn [fst snd] in Hf, Hft
  | |- context [smodify ?s ?b ?cs] =>
      let Hf := fresh "Hframe" in
      let Hft := fresh "Hfootprint" in
      pose proof (frame_smodify s b cs) as Hf;
      pose proof (footprint_smodify s b cs) as Hft;
      destruct (smodify s b cs) as [[? ?] ?]; cbn [fst snd] in Hf, Hft
  end.

Lemma frame_commandBuffers (s s' : Shadow) :
  frame s s' -> commandBuffers s' = commandBuffers s.
Proof. intros H. rewrite H. reflexivity. Qed.

(** ** Begin and Reset of a command buffer *)

(** After the switch, [BuildFootprint] adds behaviors and returns. *)
Lemma BuildFootprint_after_switch (vb vb1 : FootprintBuilder) (co : Collaborator)
    (cmdId : Z) (c : Cmd) (bh : Behavior) :
  mutateFails co = false ->
  mainSwitch vb (NewBehavior [cmdId]) cmdId c = Ok (bh, vb1) ->
  exists s',
    BuildFootprint vb co cmdId c = Ok (setShadow vb1 s') /\
    frame (shadow vb1) s' /\
    exists fbh, footprint s' = footprint (shadow vb1) ++ bh :: fbh.
Proof.
  intros Hmut Hswitch. unfold BuildFootprint. rewrite Hmut, Hswitch.
  cbn [rbind].
  destruct (lastDrawStep_fold (lastDrawImages co) []
              (AddBehavior (shadow vb1) bh)) as (fbData & s2 & -> & Hf & Hft).
  cbn [rbind]. destruct fbData as [|d fbData].
  - exists s2. split; [reflexivity|]. split.
    + eapply frame_trans; [apply frame_AddBehavior|exact Hf].
    + exists []. rewrite Hft. reflexivity.
  - step_emit. eexists. split; [reflexivity|]. split.
    + eapply frame_trans; [apply frame_AddBehavior|].
      eapply frame_trans; [exact Hf|].
      eapply frame_trans; [exact Hframe|apply frame_AddBehavior].
    + eexists. cbn [AddBehavior footprint]. rewrite Hfootprint, Hft.
      cbn [AddBehavior footprint]. rewrite <- app_assoc. reflexivity.
Qed.

Lemma mainSwitch_begin_or_reset (vb : FootprintBuilder) (bh : Behavior)
    (cmdId cb : Z) (cbo : commandBuffer) (c : Cmd) :
  commandBuffers (shadow vb) !! cb = Some cbo ->
  c = VkBeginCommandBuffer cb \/ c = VkResetCommandBuffer cb ->
  exists bh' s',
    mainSwitch vb bh cmdId c
    = Ok (bh', setShadow (setCommands vb (<[cb := []]> (commands vb))) s') /\
    frame (shadow vb) s'.
Proof.
  intros Hcb [-> | ->]; unfold mainSwitch.
  - step_emit. rewrite (frame_commandBuffers _ _ Hframe), Hcb.
    step_emit. eexists. eexists. split; [reflexivity|].
    eapply frame_trans; eassumption.
  - step_emit. rewrite (frame_commandBuffers _ _ Hframe), Hcb.
    step_emit. step_emit. eexists. eexists. split; [reflexivity|].
    eapply frame_trans; [eassumption|]. eapply frame_trans; eassumption.
Qed.

(** Begin and Reset leave the command buffer without deferred commands. *)
Lemma BuildFootprint_begin_or_reset (vb : FootprintBuilder) (co : Collaborator)
    (cmdId cb : Z) (cbo : commandBuffer) (c : Cmd) :
  mutateFails co = false ->
  commandBuffers (shadow vb) !! cb = Some cbo ->
  c = VkBeginCommandBuffer cb \/ c = VkResetCommandBuffer cb ->
  exists vb',
    BuildFootprint vb co cmdId c = Ok vb' /\
    commands vb' !! cb = Some [] /\
    commandBuffers (shadow vb') !! cb = Some cbo /\
    nextCommandAddr vb' = nextCommandAddr vb.
Proof.
  intros Hmut Hcb Hc.
  destruct (mainSwitch_begin_or_reset vb (NewBehavior [cmdId]) cmdId cb cbo c
              Hcb Hc) as (bh' & s' & Hswitch & Hf).
  destruct (BuildFootprint_after_switch _ _ co cmdId c bh' Hmut Hswitch)
    as (s'' & Hbuild & Hf' & _).
  eexists. split; [exact Hbuild|]. cbn [commands setShadow setCommands shadow] in *.
  split; [apply lookup_insert_eq|]. split; [|reflexivity].
  rewrite (frame_commandBuffers _ _ Hf'), (frame_commandBuffers _ _ Hf).
  exact Hcb.
Qed.

(** Recording a command appends it to the list of its command buffer. *)
Lemma keepSubmittedCommandAlive_known (vb : FootprintBuilder) (bh : Behavior)
    (cb : Z) (cbo : commandBuffer) :
  commandBuffers (shadow vb) !! cb = Some cbo ->
  exists bh' vb' cmds',
    keepSubmittedCommandAlive vb bh cb = Ok (bh', vb') /\
    frame (shadow vb) (shadow vb') /\
    nextCommandAddr vb' = nextCommandAddr vb + 1 /\
    commands vb' !! cb = Some cmds' /\
    map cbc_addr cmds'
    = map cbc_addr (default [] (commands vb !! cb)) ++ [nextCommandAddr vb].
Proof.
  intros Hcb. unfold keepSubmittedCommandAlive, newCommand.
  cbn [shadow commands nextCommandAddr cbc_addr].
  step_emit. rewrite (frame_commandBuffers _ _ Hframe), Hcb.
  step_emit. step_emit.
  cbn [setBehave rbind setShadow setCommands commands shadow submitInfos
       nextCommandAddr cbc_addr].
  eexists. eexists. eexists. split; [reflexivity|].
  cbn [setShadow setCommands commands shadow nextCommandAddr].
  split; [eapply frame_trans; [eassumption|];
          eapply frame_trans; eassumption|].
  split; [reflexivity|]. split; [apply lookup_insert_eq|].
  rewrite lookup_insert_eq. cbn [default].
  rewrite map_map.
  rewrite (map_ext (fun x => cbc_addr
                      (if cbc_addr x =? nextCommandAddr vb
                       then mkCommand (cbc_addr x) (isCmdExecuteCommands x)
                              (secondaryCommandBuffers x) keepAliveBehave
                       else x)) cbc_addr).
  - unfold Datatypes.id. rewrite map_app. reflexivity.
  - intros x. destruct (cbc_addr x =? nextCommandAddr vb); reflexivity.
Qed.

Lemma BuildFootprint_marker (vb : FootprintBuilder) (co : Collaborator)
    (cmdId cb : Z) (cbo : commandBuffer) :
  mutateFails co = false ->
  commandBuffers (shadow vb) !! cb = Some cbo ->
  exists vb' cmds',
    BuildFootprint vb co cmdId (VkCmdDebugMarkerInsertEXT cb) = Ok vb' /\
    commandBuffers (shadow vb') !! cb = Some cbo /\
    nextCommandAddr vb' = nextCommandAddr vb + 1 /\
    commands vb' !! cb = Some cmds' /\
    map cbc_addr cmds'
    = map cbc_addr (default [] (commands vb !! cb)) ++ [nextCommandAddr vb].
Proof.
  intros Hmut Hcb.
  destruct (keepSubmittedCommandAlive_known vb (NewBehavior [cmdId]) cb cbo Hcb)
    as (bh' & vb1 & cmds' & Hkeep & Hf & Hnext & Hcmds & Haddr).
  destruct (BuildFootprint_after_switch vb vb1 co cmdId
              (VkCmdDebugMarkerInsertEXT cb) bh' Hmut Hkeep)
    as (s' & Hbuild & Hf' & _).
  exists (setShadow vb1 s'), cmds'. split; [exact Hbuild|].
  cbn [setShadow shadow commands nextCommandAddr].
  split; [|auto].
  rewrite (frame_commandBuffers _ _ Hf'), (frame_commandBuffers _ _ Hf).
  exact Hcb.
Qed.

(** The commands recorded one after the other are the only additions. *)
Lemma BuildFootprints_markers (co : Collaborator) (cb : Z) (cbo : commandBuffer)
    (n : nat) :
  forall (vb : FootprintBuilder) (cmdId a0 : Z) (cmds : list commandBufferCommand),
    mutateFails co = false ->
    commandBuffers (shadow vb) !! cb = Some cbo ->
    commands vb !! cb = Some cmds ->
    Forall (fun a => a0 <= a) (map cbc_addr cmds) ->
    a0 <= nextCommandAddr vb ->
    exists vb' cmds',
      BuildFootprints vb co cmdId (replicate n (VkCmdDebugMarkerInsertEXT cb))
      = Ok vb' /\
      commands vb' !! cb = Some cmds' /\
      length cmds' = (length cmds + n)%nat /\
      Forall (fun a => a0 <= a) (map cbc_addr cmds').
Proof.
  induction n as [|n IH]; intros vb cmdId a0 cmds Hmut Hcb Hcmds Hall Ha0.
  - exists vb, cmds. split; [reflexivity|]. split; [exact Hcmds|].
    split; [lia|exact Hall].
  - cbn [replicate BuildFootprints].
    destruct (BuildFootprint_marker vb co cmdId cb cbo Hmut Hcb)
      as (vb1 & cmds1 & -> & Hcb1 & Hnext1 & Hcmds1 & Haddr1).
    cbn [rbind]. rewrite Hcmds in Haddr1. cbn [default] in Haddr1.
    assert (Hall1 : Forall (fun a => a0 <= a) (map cbc_addr cmds1)).
    { rewrite Haddr1. apply Forall_app. split; [exact Hall|].
      constructor; [exact Ha0|constructor]. }
    destruct (IH vb1 (cmdId + 1) a0 cmds1 Hmut Hcb1 Hcmds1 Hall1 ltac:(lia))
      as (vb' & cmds' & Hb & Hc & Hlen & Hall').
    exists vb', cmds'. split; [exact Hb|]. split; [exact Hc|].
    split; [|exact Hall'].
    rewrite Hlen.
    assert (Hl : length cmds1 = S (length cmds)).
    { rewrite <- (length_map cbc_addr cmds1), Haddr1, length_app, length_map.
      simpl. lia. }
    lia.
Qed.

(** C5.  When the mutation of the command succeeds, a
    [VkBeginCommandBuffer] or a [VkResetCommandBuffer] on a command buffer
    that has a shadow entry leaves the deferred command list of that
    command buffer empty; and after a Reset and the recording of [n]
    commands, the list holds [n] commands, all of them recorded after the
    Reset (their addresses are not below the allocation mark at the time
    of the Reset). *)
Theorem begin_and_reset_clear_the_deferred_commands
    (vb : FootprintBuilder) (co : Collaborator) (cmdId cb : Z)
    (cbo : commandBuffer) :
  mutateFails co = false ->
  commandBuffers (shadow vb) !! cb = Some cbo ->
  (forall c,
     c = VkBeginCommandBuffer cb \/ c = VkResetCommandBuffer cb ->
     exists vb',
       BuildFootprint vb co cmdId c = Ok vb' /\ commands vb' !! cb = Some []) /\
  (forall n : nat,
     exists vb' cmds,
       BuildFootprints vb co cmdId
         (VkResetCommandBuffer cb :: replicate n (VkCmdDebugMarkerInsertEXT cb))
       = Ok vb' /\
       commands vb' !! cb = Some cmds /\
       length cmds = n /\
       Forall (fun c => nextCommandAddr vb <= cbc_addr c) cmds).
Proof.
  intros Hmut Hcb. split.
  - intros c Hc.
    destruct (BuildFootprint_begin_or_reset vb co cmdId cb cbo c Hmut Hcb Hc)
      as (vb' & Hb & Hcmds & _).
    exists vb'. split; assumption.
  - intros n.
    destruct (BuildFootprint_begin_or_reset vb co cmdId cb cbo
                (VkResetCommandBuffer cb) Hmut Hcb (or_intror eq_refl))
      as (vb1 & Hb & Hcmds & Hcb1 & Hnext).
    cbn [BuildFootprints]. rewrite Hb. cbn [rbind].
    destruct (BuildFootprints_markers co cb cbo n vb1 (cmdId + 1)
                (nextCommandAddr vb) [] Hmut Hcb1 Hcmds)
      as (vb' & cmds & Hbs & Hc & Hlen & Hall).
    + constructor.
    + lia.
    + exists vb', cmds. split; [exact Hbs|]. split; [exact Hc|].
      split; [exact Hlen|].
      apply Forall_forall. intros c Hin.
      rewrite Forall_forall in Hall. apply Hall.
      apply list_elem_of_fmap. exists c. split; [reflexivity|exact Hin].
Qed.

Lemma begin_and_reset_clear_the_deferred_commands_witness :
  let old := mkCommand 0 false [] keepAliveBehave in
  let s := mkShadow (mkEmitter ∅ ∅ []) [] 4 ∅ ∅ ∅ {[7 := mkCommandBuffer 1 2 3]}
             ∅ ∅ ∅ ∅ ∅ in
  let vb := mkBuilder s {[7 := [old]]} ∅ 1 in
  let co := mkCollaborator false [] in
  commandBuffers (shadow vb) !! 7 = Some (mkCommandBuffer 1 2 3) /\
  commands vb !! 7 = Some [old] /\
  exists vb',
    BuildFootprint vb co 10 (VkResetCommandBuffer 7) = Ok vb' /\
    commands vb' !! 7 = Some [].
Proof.
  intros old s vb co.
  split; [reflexivity|]. split; [reflexivity|].
  apply (proj1 (begin_and_reset_clear_the_deferred_commands vb co 10 7
                  (mkCommandBuffer 1 2 3) eq_refl eq_refl)).
  right. reflexivity.
Defined.

(** ** Lookups that miss *)

Lemma setEmitter_same (s : Shadow) : setEmitter s (emitter s) = s.
Proof. destruct s; reflexivity. Qed.

Lemma setShadow_same (vb : FootprintBuilder) : setShadow vb (shadow vb) = vb.
Proof. destruct vb; reflexivity. Qed.

Lemma sread_handle (s : Shadow) (bh : Behavior) (h : Z) :
  sread s bh [toVkHandle h]
  = (negb (h =? 0), if h =? 0 then bh else Behavior_Read bh (VHandle h), s).
Proof.
  unfold sread, read, toVkHandle. cbn [fold_left read1].
  destruct (h =? 0); rewrite setEmitter_same; reflexivity.
Qed.

Lemma mainSwitch_unknown_command_buffer (vb : FootprintBuilder) (bh : Behavior)
    (cmdId cb : Z) (c : Cmd) :
  commandBuffers (shadow vb) !! cb = None ->
  c = VkBeginCommandBuffer cb \/ c = VkResetCommandBuffer cb ->
  mainSwitch vb bh cmdId c
  = Ok (if cb =? 0 then bh else Behavior_Read bh (VHandle cb), vb).
Proof.
  intros Hcb [-> | ->]; unfold mainSwitch; rewrite sread_handle, Hcb,
    setShadow_same; reflexivity.
Qed.

(** C9 (amended).  Where the arm of a command guards the lookup of the
    shadow state, as the arms of [VkBeginCommandBuffer] and
    [VkResetCommandBuffer] do for the command buffer and as [getImageData]
    does for the image when it is called without a behavior (the pin of
    the last draw), a lookup that misses skips the affected operation,
    without a word in the log, and [BuildFootprint] returns. *)
Theorem guarded_lookup_miss_skips_silently
    (vb : FootprintBuilder) (co : Collaborator) (bh : Behavior)
    (cmdId cb img : Z) (c : Cmd) :
  mutateFails co = false ->
  commandBuffers (shadow vb) !! cb = None ->
  images (shadow vb) !! img = None ->
  c = VkBeginCommandBuffer cb \/ c = VkResetCommandBuffer cb ->
  (exists bh', mainSwitch vb bh cmdId c = Ok (bh', vb) /\ Writes bh' = Writes bh) /\
  (exists vb',
     BuildFootprint vb co cmdId c = Ok vb' /\
     commands vb' = commands vb /\ submitInfos vb' = submitInfos vb) /\
  getImageData (shadow vb) None img = Ok ([], None, shadow vb).
Proof.
  intros Hmut Hcb Himg Hc. split; [|split].
  - eexists. split;
      [exact (mainSwitch_unknown_command_buffer vb bh cmdId cb c Hcb Hc)|].
    destruct (cb =? 0); reflexivity.
  - pose proof (mainSwitch_unknown_command_buffer vb (NewBehavior [cmdId]) cmdId
                  cb c Hcb Hc) as Hswitch.
    destruct (BuildFootprint_after_switch vb vb co cmdId c _ Hmut Hswitch)
      as (s' & Hbuild & _).
    exists (setShadow vb s'). split; [exact Hbuild|]. split; reflexivity.
  - rewrite getImageData_without_behavior. unfold getImageDataTail.
    rewrite Himg. reflexivity.
Qed.

Lemma guarded_lookup_miss_skips_silently_witness :
  let co := mkCollaborator false [5] in
  exists vb',
    BuildFootprint newFootprintBuilder co 1 (VkBeginCommandBuffer 7) = Ok vb' /\
    commands vb' = commands newFootprintBuilder /\
    submitInfos vb' = submitInfos newFootprintBuilder.
Proof.
  intros co.
  exact (proj1 (proj2 (guarded_lookup_miss_skips_silently newFootprintBuilder co
                         (NewBehavior [1]) 1 7 5 (VkBeginCommandBuffer 7)
                         eq_refl eq_refl eq_refl (or_introl eq_refl)))).
Defined.

(** C9 as it is stated fails: a lookup that misses is never logged (here
    for a [VkBeginCommandBuffer] on an unknown command buffer), and where
    the lookup is not guarded the failure escapes: a [VkCmdBeginQuery] on an
    unknown query pool, a [VkCmdDebugMarkerInsertEXT] on an unknown command
    buffer and [getImageData] with a behavior on an unknown image panic. *)
Lemma lookup_miss_is_not_logged_and_may_panic :
  let co := mkCollaborator false [] in
  (exists vb',
     BuildFootprint newFootprintBuilder co 1 (VkBeginCommandBuffer 7) = Ok vb' /\
     logged (emitter (shadow vb')) = []) /\
  BuildFootprint newFootprintBuilder co 1 (VkCmdBeginQuery 7 8 0) = Panic /\
  BuildFootprint newFootprintBuilder co 1 (VkCmdDebugMarkerInsertEXT 7) = Panic /\
  getImageData newShadow (Some (NewBehavior [1])) 5 = Panic.
Proof.
  intros co. split; [|split; [|split]].
  - eexists. split; vm_compute; reflexivity.
  - vm_compute. reflexivity.
  - vm_compute. reflexivity.
  - vm_compute. reflexivity.
Qed.

(** ** Presentation *)

Lemma sread_label (s : Shadow) (bh : Behavior) (l : Z) :
  sread s bh [VLabel l] = (true, Behavior_Read bh (VLabel l), s).
Proof. unfold sread, read. cbn [fold_left read1]. rewrite setEmitter_same. reflexivity. Qed.

Lemma swrite_label (s : Shadow) (bh : Behavior) (l : Z) :
  swrite s bh [VLabel l] = (true, Behavior_Write bh (VLabel l), s).
Proof. unfold swrite, write. cbn [fold_left write1]. rewrite setEmitter_same. reflexivity. Qed.

Lemma sread_labelVar (s : Shadow) (bh : Behavior) (l : option Z) :
  sread s bh [labelVar l] = (true, Behavior_Read bh (labelVar l), s).
Proof.
  unfold sread, read. destruct l; cbn [fold_left read1 labelVar];
    rewrite setEmitter_same; reflexivity.
Qed.

Lemma swrite_labelVar (s : Shadow) (bh : Behavior) (l : option Z) :
  swrite s bh [labelVar l] = (true, Behavior_Write bh (labelVar l), s).
Proof.
  unfold swrite, write. destruct l; cbn [fold_left write1 labelVar];
    rewrite setEmitter_same; reflexivity.
Qed.

Lemma readsAdded_refl (bh : Behavior) : readsAdded bh bh.
Proof. repeat split. exists []. rewrite app_nil_r. reflexivity. Qed.

Lemma readsAdded_trans (b1 b2 b3 : Behavior) :
  readsAdded b1 b2 -> readsAdded b2 b3 -> readsAdded b1 b3.
Proof.
  intros (H1 & H2 & H3 & e1 & H4) (H5 & H6 & H7 & e2 & H8).
  repeat split; try congruence.
  exists (e1 ++ e2). rewrite H8, H4, app_assoc. reflexivity.
Qed.

Lemma readsAdded_Read (bh : Behavior) (c : DefUseVariable) :
  readsAdded bh (Behavior_Read bh c).
Proof. repeat split. exists [c]. reflexivity. Qed.

Lemma readsAdded_if (b : bool) (bh : Behavior) (c : DefUseVariable) :
  readsAdded bh (if b then bh else Behavior_Read bh c).
Proof. destruct b; [apply readsAdded_refl|apply readsAdded_Read]. Qed.

Lemma presentWaitStep_spec (bh : Behavior) (s : Shadow) (vkSp : Z) :
  exists bh', presentWaitStep (bh, s) vkSp = (bh', s) /\ readsAdded bh bh'.
Proof.
  unfold presentWaitStep. rewrite sread_handle.
  destruct (vkSp =? 0); cbn [negb].
  - exists bh. split; [reflexivity|apply readsAdded_refl].
  - rewrite sread_labelVar. eexists. split; [reflexivity|].
    eapply readsAdded_trans; apply readsAdded_Read.
Qed.

Lemma extraWaitStep_fold (Queue : Z) (sems : list Z) :
  forall (bh : Behavior) (s : Shadow),
  exists bh',
    fold_left (extraWaitStep Queue) sems (bh, s) = (bh', s) /\ readsAdded bh bh'.
Proof.
  induction sems as [|vkSp sems IH]; intros bh s.
  - exists bh. split; [reflexivity|apply readsAdded_refl].
  - cbn [fold_left]. unfold extraWaitStep at 2. rewrite sread_handle.
    destruct (presentWaitStep_spec
                (if Queue =? 0 then bh else Behavior_Read bh (VHandle Queue))
                s vkSp) as (bh1 & -> & H1).
    destruct (IH bh1 s) as (bh' & -> & H2).
    exists bh'. split; [reflexivity|].
    eapply readsAdded_trans; [apply readsAdded_if|].
    eapply readsAdded_trans; eassumption.
Qed.

Lemma frame_presentable (s s' : Shadow) (sw : Z * Z * Z) :
  frame s s' -> presentable s sw -> presentable s' sw.
Proof.
  intros Hf. unfold presentable, acquiredLabel, presentedLabel.
  rewrite Hf. cbn [images swapchainImageAcquired swapchainImagePresented
                   withEmitterAndFootprint]. auto.
Qed.

Lemma frame_holds (s s' : Shadow) (cmdId : Z) (e : Behavior) (sw : Z * Z * Z) :
  frame s' s -> holdsAcquirePresentPair s cmdId e sw ->
  holdsAcquirePresentPair s' cmdId e sw.
Proof.
  intros Hf. unfold holdsAcquirePresentPair, acquiredLabel, presentedLabel.
  rewrite Hf. cbn [swapchainImageAcquired swapchainImagePresented
                   withEmitterAndFootprint]. auto.
Qed.

Lemma presentExtraBehavior_spec (s : Shadow) (cmdId Queue : Z) (sems : list Z)
    (vkSw imgID vkImg : Z) :
  presentable s (vkSw, imgID, vkImg) ->
  exists e,
    presentExtraBehavior s cmdId Queue sems vkSw imgID = Ok (e, s) /\
    holdsAcquirePresentPair s cmdId e (vkSw, imgID, vkImg).
Proof.
  intros (_ & [a Ha] & [p Hp]). cbn [fst snd] in Ha, Hp.
  unfold presentExtraBehavior.
  destruct (extraWaitStep_fold Queue sems (NewBehavior [cmdId]) s)
    as (bh & -> & Howner & _ & Hwrites & extra & Hreads).
  unfold acquiredLabel in Ha. unfold presentedLabel in Hp.
  rewrite Ha, sread_label, Hp, swrite_label.
  eexists. split; [reflexivity|].
  split; [reflexivity|]. split; [exact Howner|].
  exists a, p. split; [exact Ha|]. split; [exact Hp|].
  cbn [setAlive Behavior_Write Behavior_Read Reads Writes].
  split; apply in_or_app; right; left; reflexivity.
Qed.

Lemma getImageData_with_behavior (s : Shadow) (bh : Behavior) (vkImg : Z) :
  is_Some (images s !! vkImg) ->
  exists data bh' s',
    getImageData s (Some bh) vkImg = Ok (data, Some bh', s') /\
    frame s s' /\ footprint s' = footprint s.
Proof.
  intros [img Himg]. unfold getImageData. rewrite sread_handle.
  destruct (vkImg =? 0); cbn [negb].
  - do 3 eexists. split; [reflexivity|]. split; [apply frame_refl|reflexivity].
  - rewrite Himg, sread_label. cbn [negb].
    destruct (frame_getImageDataTail s (Some (Behavior_Read
                (Behavior_Read bh (VHandle vkImg)) (VLabel (layout img)))) vkImg)
      as [Hf Hft].
    unfold getImageDataTail in *. rewrite Himg in *.
    destruct (getBoundData _ _ _ _ _) as [[data bh1] em1] eqn:Hbound.
    assert (Hsome1 : is_Some bh1).
    { unfold getBoundData in Hbound. rewrite getSubBindingList_fold in Hbound.
      pose proof (subBindingStep_keeps_behavior 0 (clampedSize 0 vkWholeSize)
                    (visited (opaqueData img) 0 vkWholeSize) []
                    (Behavior_Read (Behavior_Read bh (VHandle vkImg))
                       (VLabel (layout img))) (emitter s)) as Hk.
      destruct (fold_left _ _ _) as [[bl obh] em']. cbn [fst snd] in Hk.
      injection Hbound as _ <- _. exact Hk. }
    destruct Hsome1 as [b1 ->].
    assert (Hsparse : forall l d b em,
               exists d' b' em',
                 fold_left sparseStep l (d, Some b, em) = (d', Some b', em')).
    { induction l as [|x l IH]; intros d b em; [do 3 eexists; reflexivity|].
      cbn [fold_left]. unfold sparseStep at 2. unfold readIfBehavior.
      destruct (read em b _) as [[ok b'] em']. apply IH. }
    destruct (Hsparse (sparseData img) data b1 em1) as (d' & b' & em' & Heq).
    rewrite Heq in *. cbn [fst snd] in *.
    do 3 eexists. split; [reflexivity|]. split; assumption.
Qed.

Lemma frame_images (s s' : Shadow) : frame s s' -> images s' = images s.
Proof. intros H. rewrite H. reflexivity. Qed.

Lemma getImageLayoutAndData_known (s : Shadow) (bh : Behavior) (vkImg : Z) :
  is_Some (images s !! vkImg) ->
  exists l data bh' s',
    getImageLayoutAndData s bh vkImg = Ok (l, data, bh', s') /\
    frame s s' /\ footprint s' = footprint s.
Proof.
  intros Himg. unfold getImageLayoutAndData. rewrite sread_handle.
  destruct Himg as [img Himg]. rewrite Himg.
  destruct (getImageData_with_behavior s
              (if vkImg =? 0 then bh else Behavior_Read bh (VHandle vkImg))
              vkImg (ex_intro _ img Himg))
    as (data & bh' & s' & -> & Hf & Hft).
  cbn [rbind]. do 4 eexists. split; [reflexivity|]. split; assumption.
Qed.

(** One presented image: one extra behavior at the end of the footprint. *)
Lemma presentStep_spec (cmdId Queue : Z) (sems : list Z) (bh : Behavior)
    (s : Shadow) (sw : Z * Z * Z) :
  presentable s sw ->
  exists bh' e s',
    presentStep cmdId Queue sems (Ok (bh, s)) sw = Ok (bh', s') /\
    frame s s' /\ footprint s' = footprint s ++ [e] /\
    holdsAcquirePresentPair s cmdId e sw.
Proof.
  intros Hp. destruct sw as [[vkSw imgID] vkImg].
  unfold presentStep. cbn [rbind]. rewrite sread_handle.
  destruct (getImageLayoutAndData_known s
              (if vkSw =? 0 then bh else Behavior_Read bh (VHandle vkSw)) vkImg
              (proj1 Hp)) as (l & data & bh1 & s1 & -> & Hf1 & Hft1).
  cbn [rbind]. rewrite sread_label. step_emit.
  assert (Hf3 : frame s s0) by (eapply frame_trans; eassumption).
  destruct (presentExtraBehavior_spec s0 cmdId Queue sems vkSw imgID vkImg
              (frame_presentable _ _ _ Hf3 Hp)) as (e & -> & He).
  cbn [rbind fst snd]. exists b0, e. eexists. split; [reflexivity|].
  split; [eapply frame_trans; [exact Hf3|apply frame_AddBehavior]|].
  split; [cbn [AddBehavior footprint]; congruence|].
  eapply frame_holds; eassumption.
Qed.

Lemma presentStep_fold (cmdId Queue : Z) (sems : list Z) (sws : list (Z * Z * Z)) :
  forall (bh : Behavior) (s : Shadow),
    Forall (presentable s) sws ->
    exists bh' extras s',
      fold_left (presentStep cmdId Queue sems) sws (Ok (bh, s)) = Ok (bh', s') /\
      frame s s' /\ footprint s' = footprint s ++ extras /\
      Forall2 (holdsAcquirePresentPair s cmdId) extras sws.
Proof.
  induction sws as [|sw sws IH]; intros bh s Hall.
  - exists bh, [], s. split; [reflexivity|]. split; [apply frame_refl|].
    split; [rewrite app_nil_r; reflexivity|constructor].
  - inversion Hall as [|? ? Hsw Hsws]; subst. cbn [fold_left].
    destruct (presentStep_spec cmdId Queue sems bh s sw Hsw)
      as (bh1 & e & s1 & -> & Hf1 & Hft1 & He).
    assert (Hall1 : Forall (presentable s1) sws).
    { eapply Forall_impl; [exact Hsws|]. intros x. apply frame_presentable.
      exact Hf1. }
    destruct (IH bh1 s1 Hall1) as (bh' & extras & s' & -> & Hf & Hft & Hex).
    exists bh', (e :: extras), s'. split; [reflexivity|].
    split; [eapply frame_trans; eassumption|].
    split; [rewrite Hft, Hft1, <- app_assoc; reflexivity|].
    constructor; [exact He|].
    eapply Forall2_impl; [exact Hex|]. intros x y. apply frame_holds. exact Hf1.
Qed.

Lemma presentWaitStep_fold (sems : list Z) :
  forall (bh : Behavior) (s : Shadow),
  exists bh', fold_left presentWaitStep sems (bh, s) = (bh', s).
Proof.
  induction sems as [|vkSp sems IH]; intros bh s; [eexists; reflexivity|].
  cbn [fold_left]. destruct (presentWaitStep_spec bh s vkSp) as (bh1 & -> & _).
  apply IH.
Qed.

(** C6.  When the mutation succeeds and the images to present are known
    to the builder, [BuildFootprint] of a [VkQueuePresentKHR] adds to the
    footprint, for every presented image in turn, one extra behavior whose
    [Alive] flag is true, which reads the acquired label and writes the
    presented label of that swapchain image; the behavior of the command
    itself follows them. *)
Theorem queue_present_adds_an_alive_behavior_per_image
    (vb : FootprintBuilder) (co : Collaborator) (cmdId Queue : Z)
    (sems : list Z) (sws : list (Z * Z * Z)) :
  mutateFails co = false ->
  Forall (presentable (shadow vb)) sws ->
  exists vb' extras bh rest,
    BuildFootprint vb co cmdId (VkQueuePresentKHR Queue sems sws) = Ok vb' /\
    footprint (shadow vb') = footprint (shadow vb) ++ extras ++ bh :: rest /\
    Forall2 (holdsAcquirePresentPair (shadow vb) cmdId) extras sws.
Proof.
  intros Hmut Hall.
  assert (Hswitch : exists bh s' extras,
             mainSwitch vb (NewBehavior [cmdId]) cmdId
               (VkQueuePresentKHR Queue sems sws) = Ok (bh, setShadow vb s') /\
             footprint s' = footprint (shadow vb) ++ extras /\
             Forall2 (holdsAcquirePresentPair (shadow vb) cmdId) extras sws).
  { unfold mainSwitch. rewrite sread_handle.
    destruct (presentWaitStep_fold sems
                (if Queue =? 0 then NewBehavior [cmdId]
                 else Behavior_Read (NewBehavior [cmdId]) (VHandle Queue))
                (shadow vb)) as (bh2 & ->).
    destruct (presentStep_fold cmdId Queue sems sws bh2 (shadow vb) Hall)
      as (bh' & extras & s' & -> & Hf & Hft & Hex).
    cbn [rbind fst snd]. exists bh', s', extras. auto. }
  destruct Hswitch as (bh & s' & extras & Hswitch & Hft & Hex).
  destruct (BuildFootprint_after_switch vb (setShadow vb s') co cmdId _ bh Hmut
              Hswitch) as (s'' & Hbuild & _ & rest & Hft').
  exists (setShadow (setShadow vb s') s''), extras, bh, rest.
  split; [exact Hbuild|]. split; [|exact Hex].
  cbn [setShadow shadow] in *. rewrite Hft', Hft, <- app_assoc. reflexivity.
Qed.

Lemma queue_present_adds_an_alive_behavior_per_image_witness :
  let s := mkShadow (mkEmitter ∅ ∅ []) [] 200 {[9 := 50]} ∅ ∅ ∅
             {[20 := mkImageLayoutAndData 60
                       [mkResBinding 0 vkWholeSize (VLabel 61)] []]}
             ∅ ∅ {[3 := [100]]} {[3 := [101]]} in
  let vb := mkBuilder s ∅ ∅ 0 in
  let co := mkCollaborator false [] in
  Forall (presentable (shadow vb)) [(3, 0, 20)] /\
  exists vb' extras bh rest,
    BuildFootprint vb co 1 (VkQueuePresentKHR 2 [9] [(3, 0, 20)]) = Ok vb' /\
    footprint (shadow vb') = footprint (shadow vb) ++ extras ++ bh :: rest /\
    Forall2 (holdsAcquirePresentPair (shadow vb) 1) extras [(3, 0, 20)].
Proof.
  intros s vb co.
  assert (Hp : Forall (presentable (shadow vb)) [(3, 0, 20)]).
  { constructor; [|constructor].
    split; [|split]; vm_compute; eexists; reflexivity. }
  split; [exact Hp|].
  exact (queue_present_adds_an_alive_behavior_per_image vb co 1 2 [9]
           [(3, 0, 20)] eq_refl Hp).
Defined.

(** ** Rolling out *)

Lemma read1_logged (st : bool * Behavior * Emitter) (c : DefUseVariable) :
  logged (snd (read1 st c)) = logged (snd st).
Proof.
  destruct st as [[ok bh] em]. destruct c; simpl; try reflexivity.
  - destruct (handle =? 0); reflexivity.
  - destruct (memory s =? 0); reflexivity.
Qed.

Lemma write1_logged (st : bool * Behavior * Emitter) (c : DefUseVariable) :
  logged (snd (write1 st c)) = logged (snd st).
Proof.
  destruct st as [[ok bh] em]. destruct c; simpl; try reflexivity.
  - destruct (handle =? 0); reflexivity.
  - destruct (memory s =? 0); [reflexivity|].
    match goal with
    | |- context [addBinding ?l ?x] => destruct (addBinding l x)
    end; reflexivity.
Qed.

Lemma read_logged (em : Emitter) (bh : Behavior) (cs : list DefUseVariable) :
  logged (snd (read em bh cs)) = logged em.
Proof.
  unfold read. change (logged em) with (logged (snd (true, bh, em))).
  generalize (true, bh, em). induction cs as [|c cs IH]; intros st; [reflexivity|].
  cbn [fold_left]. rewrite IH. apply read1_logged.
Qed.

Lemma write_logged (em : Emitter) (bh : Behavior) (cs : list DefUseVariable) :
  logged (snd (write em bh cs)) = logged em.
Proof.
  unfold write. change (logged em) with (logged (snd (true, bh, em))).
  generalize (true, bh, em). induction cs as [|c cs IH]; intros st; [reflexivity|].
  cbn [fold_left]. rewrite IH. apply write1_logged.
Qed.

Lemma sread_logged (s : Shadow) (bh : Behavior) (cs : list DefUseVariable) :
  logged (emitter (snd (sread s bh cs))) = logged (emitter s).
Proof.
  unfold sread. pose proof (read_logged (emitter s) bh cs) as H.
  destruct (read _ _ _) as [[ok b] em]. exact H.
Qed.

Lemma swrite_logged (s : Shadow) (bh : Behavior) (cs : list DefUseVariable) :
  logged (emitter (snd (swrite s bh cs))) = logged (emitter s).
Proof.
  unfold swrite. pose proof (write_logged (emitter s) bh cs) as H.
  destruct (write _ _ _) as [[ok b] em]. exact H.
Qed.

Lemma smodify_logged (s : Shadow) (bh : Behavior) (cs : list DefUseVariable) :
  logged (emitter (snd (smodify s bh cs))) = logged (emitter s).
Proof.
  unfold smodify, modify. pose proof (read_logged (emitter s) bh cs) as Hr.
  destruct (read _ _ _) as [[ok b] em]. cbn [snd] in Hr. destruct ok.
  - pose proof (write_logged em b cs) as Hw.
    destruct (write _ _ _) as [[ok' b'] em']. simpl in *. congruence.
  - exact Hr.
Qed.

Lemma waitSemaphoreStep_spec (bh : Behavior) (s : Shadow) (sem : Z) :
  exists bh1 s1,
    waitSemaphoreStep (bh, s) sem = (bh1, s1) /\
    frame s s1 /\ footprint s1 = footprint s /\
    logged (emitter s1) = logged (emitter s).
Proof.
  unfold waitSemaphoreStep. rewrite sread_handle.
  destruct (sem =? 0); cbn [negb].
  - exists bh, s. split; [reflexivity|]. split; [apply frame_refl|].
    split; reflexivity.
  - pose proof (smodify_logged s (Behavior_Read bh (VHandle sem))
                  [labelVar (semaphoreSignals s !! sem)]) as Hl.
    step_emit. cbn [snd] in Hl. do 2 eexists. split; [reflexivity|]. auto.
Qed.

Lemma waitSemaphoreStep_fold (sems : list Z) :
  forall (bh : Behavior) (s : Shadow),
  exists bh1 s1,
    fold_left waitSemaphoreStep sems (bh, s) = (bh1, s1) /\
    frame s s1 /\ footprint s1 = footprint s /\
    logged (emitter s1) = logged (emitter s).
Proof.
  induction sems as [|sem sems IH]; intros bh s.
  - exists bh, s. split; [reflexivity|]. split; [apply frame_refl|].
    split; reflexivity.
  - cbn [fold_left].
    destruct (waitSemaphoreStep_spec bh s sem) as (bh1 & s1 & -> & H1 & H2 & H3).
    destruct (IH bh1 s1) as (bh2 & s2 & -> & H4 & H5 & H6).
    exists bh2, s2. split; [reflexivity|].
    split; [eapply frame_trans; eassumption|]. split; congruence.
Qed.

Lemma beginSubmit_spec (s : Shadow) (submitID : Z) (info : queueSubmitInfo) :
  pendingCommands (fst (beginSubmit s submitID info)) = pendingCommands info /\
  logged (emitter (snd (beginSubmit s submitID info))) = logged (emitter s) /\
  frame s (snd (beginSubmit s submitID info)).
Proof.
  unfold beginSubmit. destruct (began info).
  - split; [reflexivity|]. split; [reflexivity|apply frame_refl].
  - unfold beganBehavior.
    destruct (waitSemaphoreStep_fold (waitSemaphores info)
                (NewBehavior [submitID]) s) as (bh & s1 & -> & H1 & H2 & H3).
    cbn [fst snd] in *.
    split; [reflexivity|]. split; [exact H3|].
    eapply frame_trans; [exact H1|apply frame_AddBehavior].
Qed.

(** What a round of the loop that returns has done to the submits: the
    round takes the front command of the submit of the executed index when
    the indices agree, and logs and stops when they differ. *)
Lemma rollOutStep_inv (vb vb' : FootprintBuilder) (fci : list Z) (b : bool) :
  rollOutStep vb fci = Ok (b, vb') ->
  exists submitID info sc rest info',
    head fci = Some submitID /\
    submitInfos vb !! submitID = Some info /\
    pendingCommands info = sc :: rest /\
    submitInfos vb' = <[submitID := info']> (submitInfos vb) /\
    pendingCommands info' = (if b then rest else sc :: rest) /\
    (if b then id sc = fci
     else id sc <> fci /\
          logged (emitter (shadow vb'))
          = logged (emitter (shadow vb))
            ++ [ErrExecutionOrderDiffers fci (id sc)]).
Proof.
  unfold rollOutStep. destruct fci as [|submitID tl]; [discriminate|].
  destruct (submitInfos vb !! submitID) as [info|] eqn:Hinfo; [|discriminate].
  destruct (beginSubmit_spec (shadow vb) submitID info) as (Hpend & Hlog & _).
  destruct (pendingCommands (fst (beginSubmit (shadow vb) submitID info)))
    as [|sc rest] eqn:Hp; [discriminate|].
  unfold SubCmdIdx_Equals.
  destruct (bool_decide_reflect (submitID :: tl = id sc)) as [Heq|Hne].
  - destruct (runSubmitted _ _ _ _ _) as [s3|]; [|discriminate]. cbn [rbind].
    destruct (finishSubmit _ _ _ _) as [s4|]; [|discriminate]. cbn [rbind].
    intros [= <- <-].
    exists submitID, info, sc, rest. eexists.
    split; [reflexivity|]. split; [exact Hinfo|]. split; [congruence|].
    split; [reflexivity|]. split; [reflexivity|]. congruence.
  - intros [= <- <-].
    exists submitID, info, sc, rest. eexists.
    split; [reflexivity|]. split; [exact Hinfo|]. split; [congruence|].
    split; [reflexivity|]. split; [exact Hp|].
    split; [congruence|]. cbn [shadow setShadow emitter setEmitter logE logged].
    rewrite Hlog. reflexivity.
Qed.

Lemma ofSubmit_cons_same (submitID : Z) (fci : list Z) (l : list (list Z)) :
  head fci = Some submitID -> ofSubmit submitID (fci :: l) = fci :: ofSubmit submitID l.
Proof.
  intros H. unfold ofSubmit. cbn [List.filter].
  rewrite bool_decide_eq_true_2 by exact H. reflexivity.
Qed.

Lemma ofSubmit_cons_other (submitID : Z) (fci : list Z) (l : list (list Z)) :
  head fci <> Some submitID -> ofSubmit submitID (fci :: l) = ofSubmit submitID l.
Proof.
  intros H. unfold ofSubmit. cbn [List.filter].
  rewrite bool_decide_eq_false_2 by exact H. reflexivity.
Qed.

(** The front part of every pending queue that [rollOutExecuted] has
    consumed when it returns. *)
Lemma rollOutExecuted_fifo (executed : list (list Z)) :
  forall (vb vb' : FootprintBuilder),
  rollOutExecuted vb executed = Ok vb' ->
  exists k : nat,
    (k <= length executed)%nat /\
    (forall submitID info,
       submitInfos vb !! submitID = Some info ->
       exists info',
         submitInfos vb' !! submitID = Some info' /\
         pendingCommands info'
         = drop (length (ofSubmit submitID (take k executed)))
             (pendingCommands info) /\
         map id (take (length (ofSubmit submitID (take k executed)))
                   (pendingCommands info))
         = ofSubmit submitID (take k executed)) /\
    ((k < length executed)%nat ->
     exists fci submitID info sc,
       executed !! k = Some fci /\ head fci = Some submitID /\
       submitInfos vb' !! submitID = Some info /\
       head (pendingCommands info) = Some sc /\ id sc <> fci /\
       last (logged (emitter (shadow vb')))
       = Some (ErrExecutionOrderDiffers fci (id sc))).
Proof.
  induction executed as [|fci rest IH]; intros vb vb' Hroll.
  - injection Hroll as <-. exists 0%nat. split; [reflexivity|]. split.
    + intros submitID info Hinfo. exists info. split; [exact Hinfo|].
      split; reflexivity.
    + simpl. lia.
  - cbn [rollOutExecuted] in Hroll.
    destruct (rollOutStep vb fci) as [[b vb1]|] eqn:Hstep; [|discriminate].
    cbn [rbind fst snd] in Hroll.
    destruct (rollOutStep_inv vb vb1 fci b Hstep)
      as (sid & info0 & sc & rest0 & info1 & Hhead & Hinfo0 & Hpend0 & Hmap
          & Hpend1 & Hb).
    destruct b.
    + (* the indices agree: the loop goes on *)
      destruct (IH vb1 vb' Hroll) as (k & Hk & Hfifo & Hhalt).
      exists (S k). split; [simpl; lia|]. split.
      * intros submitID info Hinfo. cbn [take].
        destruct (decide (submitID = sid)) as [->|Hne].
        -- assert (info = info0) by congruence. subst info.
           destruct (Hfifo sid info1) as (info' & Hl & Hdrop & Htake).
           { rewrite Hmap. apply lookup_insert_eq. }
           exists info'. split; [exact Hl|].
           rewrite (ofSubmit_cons_same sid fci _ Hhead).
           rewrite Hpend0, Hpend1 in *. cbn [length drop take map].
           split; [exact Hdrop|]. rewrite Htake, Hb. reflexivity.
        -- destruct (Hfifo submitID info) as (info' & Hl & Hdrop & Htake).
           { rewrite Hmap, lookup_insert_ne by congruence. exact Hinfo. }
           exists info'. split; [exact Hl|].
           rewrite (ofSubmit_cons_other submitID fci _) by congruence.
           split; assumption.
      * intros Hlt. apply Hhalt. simpl in Hlt. lia.
    + (* the indices differ: the loop returns *)
      injection Hroll as <-. destruct Hb as [Hdiff Hlog].
      exists 0%nat. split; [simpl; lia|]. split.
      * intros submitID info Hinfo. cbn [take ofSubmit List.filter length drop map].
        destruct (decide (submitID = sid)) as [->|Hne].
        -- assert (info = info0) by congruence. subst info.
           exists info1. split; [rewrite Hmap; apply lookup_insert_eq|].
           split; [rewrite drop_0; congruence|reflexivity].
        -- exists info. split; [|split; reflexivity].
           rewrite Hmap, lookup_insert_ne by congruence. exact Hinfo.
      * intros _. exists fci, sid, info1, sc.
        split; [reflexivity|]. split; [exact Hhead|].
        split; [rewrite Hmap; apply lookup_insert_eq|].
        split; [rewrite Hpend1; reflexivity|]. split; [exact Hdiff|].
        rewrite Hlog. apply last_snoc.
Qed.

(** ** The terminal behavior of a submit *)

Lemma grown_refl (bh : Behavior) : grown bh bh.
Proof.
  split; [reflexivity|]. split; [reflexivity|].
  split; exists []; rewrite app_nil_r; reflexivity.
Qed.

Lemma grown_trans (b1 b2 b3 : Behavior) : grown b1 b2 -> grown b2 b3 -> grown b1 b3.
Proof.
  intros (H1 & H2 & [r1 H3] & [w1 H4]) (H5 & H6 & [r2 H7] & [w2 H8]).
  split; [congruence|]. split; [congruence|]. split.
  - exists (r1 ++ r2). rewrite H7, H3, app_assoc. reflexivity.
  - exists (w1 ++ w2). rewrite H8, H4, app_assoc. reflexivity.
Qed.

Lemma grown_Read (bh : Behavior) (c : DefUseVariable) : grown bh (Behavior_Read bh c).
Proof.
  split; [reflexivity|]. split; [reflexivity|]. split.
  - exists [c]. reflexivity.
  - exists []. simpl. rewrite app_nil_r. reflexivity.
Qed.

Lemma grown_Write (bh : Behavior) (c : DefUseVariable) : grown bh (Behavior_Write bh c).
Proof.
  split; [reflexivity|]. split; [reflexivity|]. split.
  - exists []. simpl. rewrite app_nil_r. reflexivity.
  - exists [c]. reflexivity.
Qed.

Lemma grown_In_Writes (bh bh' : Behavior) (c : DefUseVariable) :
  grown bh bh' -> In c (Writes bh) -> In c (Writes bh').
Proof. intros (_ & _ & _ & [w ->]) H. apply in_or_app. left. exact H. Qed.

Lemma grown_In_Reads (bh bh' : Behavior) (c : DefUseVariable) :
  grown bh bh' -> In c (Reads bh) -> In c (Reads bh').
Proof. intros (_ & _ & [r ->] & _) H. apply in_or_app. left. exact H. Qed.

Lemma signalSemaphoreStep_spec (bh : Behavior) (s : Shadow) (sem : Z) :
  exists bh',
    signalSemaphoreStep (bh, s) sem = (bh', s) /\ grown bh bh' /\
    (sem <> 0 -> In (labelVar (semaphoreSignals s !! sem)) (Writes bh')).
Proof.
  unfold signalSemaphoreStep. rewrite sread_handle.
  destruct (Z.eqb_spec sem 0) as [Hz|Hnz]; cbn [negb].
  - exists bh. split; [reflexivity|]. split; [apply grown_refl|]. contradiction.
  - rewrite swrite_labelVar. eexists. split; [reflexivity|]. split.
    + eapply grown_trans; [apply grown_Read|apply grown_Write].
    + intros _. cbn [Behavior_Write Writes]. apply in_or_app. right. left.
      reflexivity.
Qed.

Lemma signalSemaphoreStep_fold (sems : list Z) :
  forall (bh : Behavior) (s : Shadow),
  exists bh',
    fold_left signalSemaphoreStep sems (bh, s) = (bh', s) /\ grown bh bh' /\
    (forall sem, In sem sems -> sem <> 0 ->
                 In (labelVar (semaphoreSignals s !! sem)) (Writes bh')).
Proof.
  induction sems as [|sem sems IH]; intros bh s.
  - exists bh. split; [reflexivity|]. split; [apply grown_refl|].
    intros sem [].
  - cbn [fold_left].
    destruct (signalSemaphoreStep_spec bh s sem) as (bh1 & -> & Hg1 & Hw1).
    destruct (IH bh1 s) as (bh' & -> & Hg & Hw).
    exists bh'. split; [reflexivity|].
    split; [eapply grown_trans; eassumption|].
    intros x [<-|Hin] Hx.
    + eapply grown_In_Writes; [exact Hg|]. apply Hw1. exact Hx.
    + apply Hw; assumption.
Qed.

(** The terminal behavior is built whenever the signal fence is null or
    known, and it leaves the shadow state as it is. *)
Lemma terminalBehavior_spec (s : Shadow) (submitID : Z) (info : queueSubmitInfo) :
  signalFence info = 0 \/ is_Some (fences s !! signalFence info) ->
  exists tb,
    terminalBehavior s submitID info = Ok (tb, s) /\
    isTerminalBehavior s submitID info tb.
Proof.
  intros Hfence. unfold terminalBehavior.
  rewrite sread_label, swrite_label.
  destruct (signalSemaphoreStep_fold (signalSemaphores info)
              (Behavior_Write (Behavior_Read (NewBehavior [submitID])
                                 (VLabel (queued info))) (VLabel (done info))) s)
    as (bh3 & -> & Hg & Hsem).
  rewrite sread_handle.
  assert (Hq : In (VLabel (queued info)) (Reads bh3)).
  { eapply grown_In_Reads; [exact Hg|]. left. reflexivity. }
  assert (Hd : In (VLabel (done info)) (Writes bh3)).
  { eapply grown_In_Writes; [exact Hg|]. left. reflexivity. }
  assert (Ho : Owner bh3 = [submitID]) by (destruct Hg as (-> & _); reflexivity).
  destruct (Z.eqb_spec (signalFence info) 0) as [Hz|Hnz]; cbn [negb].
  - exists bh3. split; [reflexivity|].
    split; [exact Ho|]. split; [exact Hq|]. split; [exact Hd|]. split.
    + intros sem l Hin Hne Hl. specialize (Hsem sem Hin Hne).
      rewrite Hl in Hsem. exact Hsem.
    + intros f Hne. contradiction.
  - destruct Hfence as [Hz|[f Hf]]; [contradiction|]. rewrite Hf, swrite_label.
    eexists. split; [reflexivity|].
    pose proof (grown_trans _ _ _ (grown_Read bh3 (VHandle (signalFence info)))
                  (grown_Write _ (VLabel (fence_signal f)))) as Hg'.
    split; [destruct Hg' as (-> & _); exact Ho|].
    split; [eapply grown_In_Reads; eassumption|].
    split; [eapply grown_In_Writes; eassumption|]. split.
    + intros sem l Hin Hne Hl. eapply grown_In_Writes; [exact Hg'|].
      specialize (Hsem sem Hin Hne). rewrite Hl in Hsem. exact Hsem.
    + intros f' _ Hf'. assert (f' = f) by congruence. subst f'.
      cbn [Behavior_Write Writes]. apply in_or_app. right. left. reflexivity.
Qed.

Lemma beginSubmit_fields (s : Shadow) (submitID : Z) (info : queueSubmitInfo) :
  let info' := fst (beginSubmit s submitID info) in
  queue info' = queue info /\ queued info' = queued info /\
  done info' = done info /\ signalSemaphores info' = signalSemaphores info /\
  signalFence info' = signalFence info.
Proof.
  unfold beginSubmit. destruct (began info); [repeat split|].
  destruct (beganBehavior s submitID info). repeat split.
Qed.

Lemma isTerminalBehavior_fields (s : Shadow) (submitID : Z)
    (info info' : queueSubmitInfo) (tb : Behavior) :
  queued info' = queued info -> done info' = done info ->
  signalSemaphores info' = signalSemaphores info ->
  signalFence info' = signalFence info ->
  isTerminalBehavior s submitID info' tb -> isTerminalBehavior s submitID info tb.
Proof.
  unfold isTerminalBehavior. intros -> -> -> ->. auto.
Qed.

(** C3.  In the round of [rollOutExecuted] that takes the front command
    of a submit (the executed index is the index of that command and the
    command has run): when that command was the last of the pending queue,
    the round ends by adding to the footprint one behavior, the terminal
    behavior of the submit, which reads the [queued] label, writes the
    [done] label, the signal label of every signal semaphore and the
    signal label of the signal fence; when commands are left in the queue,
    the round adds nothing after the command. *)
Theorem draining_the_last_command_emits_one_terminal_behavior
    (vb : FootprintBuilder) (fci : list Z) (submitID : Z)
    (info : queueSubmitInfo) (sc : submittedCommand)
    (rest : list submittedCommand) (s3 : Shadow) :
  head fci = Some submitID ->
  submitInfos vb !! submitID = Some info ->
  pendingCommands info = sc :: rest ->
  id sc = fci ->
  runSubmitted (snd (beginSubmit (shadow vb) submitID info)) submitID
    (fst (beginSubmit (shadow vb) submitID info)) sc fci = Ok s3 ->
  signalFence info = 0 \/ is_Some (fences s3 !! signalFence info) ->
  exists vb',
    rollOutStep vb fci = Ok (true, vb') /\
    (exists info',
       submitInfos vb' !! submitID = Some info' /\ pendingCommands info' = rest) /\
    match rest with
    | [] =>
        exists tb,
          footprint (shadow vb') = footprint s3 ++ [tb] /\
          isTerminalBehavior s3 submitID info tb
    | _ :: _ => footprint (shadow vb') = footprint s3
    end.
Proof.
  intros Hhead Hinfo Hpend Hid Hrun Hfence.
  destruct fci as [|x tl]; [discriminate|]. injection Hhead as ->.
  unfold rollOutStep. rewrite Hinfo.
  destruct (beginSubmit_spec (shadow vb) submitID info) as (Hp & _ & _).
  destruct (beginSubmit_fields (shadow vb) submitID info)
    as (_ & Hq & Hd & Hs & Hf).
  rewrite Hp, Hpend. unfold SubCmdIdx_Equals.
  rewrite bool_decide_eq_true_2 by congruence.
  rewrite Hrun. cbn [rbind]. destruct rest as [|sc2 rest].
  - cbn [finishSubmit].
    destruct (terminalBehavior_spec s3 submitID
                (fst (beginSubmit (shadow vb) submitID info)))
      as (tb & -> & Htb).
    { rewrite Hf. exact Hfence. }
    cbn [rbind fst snd]. eexists. split; [reflexivity|].
    cbn [setShadow setSubmitInfos submitInfos shadow]. split.
    + eexists. split; [apply lookup_insert_eq|reflexivity].
    + exists tb. split; [reflexivity|].
      eapply isTerminalBehavior_fields; eassumption.
  - cbn [finishSubmit rbind]. eexists. split; [reflexivity|].
    cbn [setShadow setSubmitInfos submitInfos shadow]. split; [|reflexivity].
    eexists. split; [apply lookup_insert_eq|reflexivity].
Qed.

(** When the executed index differs from the index at the head of the
    pending queue, [rollOutExecuted] logs and returns, whatever follows. *)
Lemma rollOutExecuted_returns_on_divergence (vb : FootprintBuilder)
    (fci : list Z) (rest : list (list Z)) (submitID : Z) (info : queueSubmitInfo)
    (sc : submittedCommand) (pend : list submittedCommand) :
  head fci = Some submitID ->
  submitInfos vb !! submitID = Some info ->
  pendingCommands info = sc :: pend ->
  id sc <> fci ->
  exists vb',
    rollOutExecuted vb (fci :: rest) = Ok vb' /\
    logged (emitter (shadow vb'))
    = logged (emitter (shadow vb)) ++ [ErrExecutionOrderDiffers fci (id sc)] /\
    (forall sid i,
       submitInfos vb !! sid = Some i ->
       exists i',
         submitInfos vb' !! sid = Some i' /\
         pendingCommands i' = pendingCommands i).
Proof.
  intros Hhead Hinfo Hpend Hdiff.
  destruct fci as [|x tl]; [discriminate|]. injection Hhead as ->.
  cbn [rollOutExecuted]. unfold rollOutStep. rewrite Hinfo.
  destruct (beginSubmit_spec (shadow vb) submitID info) as (Hp & Hlog & _).
  rewrite Hp, Hpend. unfold SubCmdIdx_Equals.
  rewrite bool_decide_eq_false_2 by congruence.
  cbn [rbind fst snd]. eexists. split; [reflexivity|].
  cbn [setShadow setSubmitInfos submitInfos shadow emitter setEmitter logE logged].
  split; [rewrite Hlog; reflexivity|].
  intros sid i Hi. destruct (decide (sid = submitID)) as [->|Hne].
  - eexists. split; [apply lookup_insert_eq|]. congruence.
  - exists i. split; [|reflexivity]. rewrite lookup_insert_ne by congruence.
    exact Hi.
Qed.

(** C2.  When [rollOutExecuted] returns, it has rolled out the first [k]
    executed indices: for every submit, the commands that have left its
    pending queue are a front part of the queue, and their indices are, in
    order, the executed indices of that submit among those [k] (the queue
    is consumed from its head, first in first out).  When [k] falls short
    of the executed indices, the index at [k] differs from the index at the
    head of the queue of its submit, the error is the last line of the log,
    and nothing after it has been rolled out.  And whenever the executed
    index differs from the index at the head of the queue, the builder
    logs the error and returns, whatever follows, with every pending queue
    as it was. *)
Theorem rollOutExecuted_is_fifo_and_halts_on_divergence :
  (forall (executed : list (list Z)) (vb vb' : FootprintBuilder),
     rollOutExecuted vb executed = Ok vb' ->
     exists k : nat,
       (k <= length executed)%nat /\
       (forall submitID info,
          submitInfos vb !! submitID = Some info ->
          exists info',
            submitInfos vb' !! submitID = Some info' /\
            pendingCommands info'
            = drop (length (ofSubmit submitID (take k executed)))
                (pendingCommands info) /\
            map id (take (length (ofSubmit submitID (take k executed)))
                      (pendingCommands info))
            = ofSubmit submitID (take k executed)) /\
       ((k < length executed)%nat ->
        exists fci submitID info sc,
          executed !! k = Some fci /\ head fci = Some submitID /\
          submitInfos vb' !! submitID = Some info /\
          head (pendingCommands info) = Some sc /\ id sc <> fci /\
          last (logged (emitter (shadow vb')))
          = Some (ErrExecutionOrderDiffers fci (id sc)))) /\
  (forall (vb : FootprintBuilder) (fci : list Z) (rest : list (list Z))
          (submitID : Z) (info : queueSubmitInfo) (sc : submittedCommand)
          (pend : list submittedCommand),
     head fci = Some submitID ->
     submitInfos vb !! submitID = Some info ->
     pendingCommands info = sc :: pend ->
     id sc <> fci ->
     exists vb',
       rollOutExecuted vb (fci :: rest) = Ok vb' /\
       logged (emitter (shadow vb'))
       = logged (emitter (shadow vb)) ++ [ErrExecutionOrderDiffers fci (id sc)] /\
       (forall sid i,
          submitInfos vb !! sid = Some i ->
          exists i',
            submitInfos vb' !! sid = Some i' /\
            pendingCommands i' = pendingCommands i)).
Proof.
  split.
  - intros executed vb vb'. apply rollOutExecuted_fifo.
  - intros vb fci rest submitID info sc pend.
    apply rollOutExecuted_returns_on_divergence.
Qed.

Lemma rollOutExecuted_is_fifo_and_halts_on_divergence_witness :
  let s := mkShadow (mkEmitter ∅ ∅ []) [] 100 {[5 := 50]} {[6 := mkFence 60 61]}
             ∅ ∅ ∅ ∅
             {[3 := mkQueueExecutionState None None None [0; 0; 0; 0] 1 None]}
             ∅ ∅ in
  let c0 := mkCommand 0 false [] keepAliveBehave in
  let c1 := mkCommand 1 false [] keepAliveBehave in
  let sc0 := mkSubmittedCommand [1; 0; 0; 0] c0 None in
  let sc1 := mkSubmittedCommand [1; 0; 0; 1] c1 None in
  let info := mkQueueSubmitInfo 3 false 10 11 [] [5] 6 [sc0; sc1] in
  let vb := mkBuilder s ∅ {[1 := info]} 2 in
  let executed := [[1; 0; 0; 0]; [1; 0; 0; 5]; [1; 0; 0; 1]] in
  (exists vb',
     rollOutExecuted vb executed = Ok vb' /\
     exists k : nat,
       (k <= length executed)%nat /\
       (forall submitID info,
          submitInfos vb !! submitID = Some info ->
          exists info',
            submitInfos vb' !! submitID = Some info' /\
            pendingCommands info'
            = drop (length (ofSubmit submitID (take k executed)))
                (pendingCommands info) /\
            map id (take (length (ofSubmit submitID (take k executed)))
                      (pendingCommands info))
            = ofSubmit submitID (take k executed)) /\
       ((k < length executed)%nat ->
        exists fci submitID info sc,
          executed !! k = Some fci /\ head fci = Some submitID /\
          submitInfos vb' !! submitID = Some info /\
          head (pendingCommands info) = Some sc /\ id sc <> fci /\
          last (logged (emitter (shadow vb')))
          = Some (ErrExecutionOrderDiffers fci (id sc)))) /\
  (exists vb',
     rollOutExecuted vb ([1; 0; 0; 5] :: [[1; 0; 0; 0]; [1; 0; 0; 1]]) = Ok vb' /\
     logged (emitter (shadow vb'))
     = logged (emitter (shadow vb))
       ++ [ErrExecutionOrderDiffers [1; 0; 0; 5] (id sc0)] /\
     (forall sid i,
        submitInfos vb !! sid = Some i ->
        exists i',
          submitInfos vb' !! sid = Some i' /\
          pendingCommands i' = pendingCommands i)).
Proof.
  intros s c0 c1 sc0 sc1 info vb executed. split.
  - destruct (rollOutExecuted vb executed) as [vb'|] eqn:Hroll;
      [|vm_compute in Hroll; discriminate].
    exists vb'. split; [reflexivity|].
    exact (proj1 rollOutExecuted_is_fifo_and_halts_on_divergence executed vb vb'
             Hroll).
  - apply (proj2 rollOutExecuted_is_fifo_and_halts_on_divergence vb [1; 0; 0; 5]
             [[1; 0; 0; 0]; [1; 0; 0; 1]] 1 info sc0 [sc1]).
    + reflexivity.
    + reflexivity.
    + reflexivity.
    + discriminate.
Defined.

Lemma draining_the_last_command_emits_one_terminal_behavior_witness :
  let s := mkShadow (mkEmitter ∅ ∅ []) [] 100 {[5 := 50]} {[6 := mkFence 60 61]}
             ∅ ∅ ∅ ∅
             {[3 := mkQueueExecutionState None None None [0; 0; 0; 0] 1 None]}
             ∅ ∅ in
  let c0 := mkCommand 0 false [] keepAliveBehave in
  let sc0 := mkSubmittedCommand [1; 0; 0; 0] c0 None in
  let info := mkQueueSubmitInfo 3 false 10 11 [] [5] 6 [sc0] in
  let vb := mkBuilder s ∅ {[1 := info]} 1 in
  exists vb' s3 tb,
    rollOutStep vb [1; 0; 0; 0] = Ok (true, vb') /\
    footprint (shadow vb') = footprint s3 ++ [tb] /\
    isTerminalBehavior s3 1 info tb.
Proof.
  intros s c0 sc0 info vb.
  destruct (runSubmitted (snd (beginSubmit (shadow vb) 1 info)) 1
              (fst (beginSubmit (shadow vb) 1 info)) sc0 [1; 0; 0; 0])
    as [s3|] eqn:Hrun; [|vm_compute in Hrun; discriminate].
  assert (Hfence : signalFence info = 0 \/ is_Some (fences s3 !! signalFence info)).
  { right. vm_compute in Hrun. injection Hrun as <-. vm_compute. eexists.
    reflexivity. }
  destruct (draining_the_last_command_emits_one_terminal_behavior vb
              [1; 0; 0; 0] 1 info sc0 [] s3 eq_refl eq_refl eq_refl eq_refl
              Hrun Hfence) as (vb' & Hstep & _ & tb & Hft & Htb).
  exists vb', s3, tb. split; [exact Hstep|]. split; [exact Hft|exact Htb].
Defined.

(** * Further properties of the emitter *)

Lemma withReadsWrites_nil (bh : Behavior) : withReadsWrites bh [] [] = bh.
Proof. destruct bh. unfold withReadsWrites. simpl. rewrite !app_nil_r. reflexivity. Qed.

Lemma withReadsWrites_twice (bh : Behavior) (r1 w1 r2 w2 : list DefUseVariable) :
  withReadsWrites (withReadsWrites bh r1 w1) r2 w2
  = withReadsWrites bh (r1 ++ r2) (w1 ++ w2).
Proof. unfold withReadsWrites. simpl. rewrite !app_assoc. reflexivity. Qed.

Lemma Behavior_Read_with (bh : Behavior) (c : DefUseVariable) :
  Behavior_Read bh c = withReadsWrites bh [c] [].
Proof. unfold Behavior_Read, withReadsWrites. rewrite app_nil_r. reflexivity. Qed.

Lemma Behavior_Write_with (bh : Behavior) (c : DefUseVariable) :
  Behavior_Write bh c = withReadsWrites bh [] [c].
Proof. unfold Behavior_Write, withReadsWrites. rewrite app_nil_r. reflexivity. Qed.

Lemma fold_Behavior_Read_with (l : list memorySpan) (bh : Behavior) :
  fold_left (fun b x => Behavior_Read b (VMemorySpan x)) l bh
  = withReadsWrites bh (map VMemorySpan l) [].
Proof.
  revert bh. induction l as [|x l IH]; intros bh.
  - simpl. symmetry. apply withReadsWrites_nil.
  - cbn [fold_left map]. rewrite IH, Behavior_Read_with, withReadsWrites_twice.
    reflexivity.
Qed.

(** One round of [read] adds reads only. *)
Lemma read1_adds_reads (ok : bool) (bh : Behavior) (em : Emitter)
    (c : DefUseVariable) :
  exists r,
    snd (fst (read1 (ok, bh, em) c)) = withReadsWrites bh r [] /\
    records (snd (read1 (ok, bh, em) c)) = records em /\
    logged (snd (read1 (ok, bh, em) c)) = logged em.
Proof.
  destruct c; cbn [read1];
    try (exists [c]; rewrite Behavior_Read_with; auto; fail).
  - destruct (handle =? 0).
    + exists []. rewrite withReadsWrites_nil. auto.
    + eexists. rewrite Behavior_Read_with. simpl. eauto.
  - eexists. rewrite Behavior_Read_with. simpl. eauto.
  - eexists. rewrite Behavior_Read_with. simpl. eauto.
  - eexists. rewrite Behavior_Read_with. simpl. eauto.
  - destruct (memory s =? 0).
    + exists []. rewrite withReadsWrites_nil. auto.
    + eexists. cbn [fst snd]. rewrite fold_Behavior_Read_with. eauto.
  - eexists. rewrite Behavior_Read_with. simpl. eauto.
  - eexists. rewrite Behavior_Read_with. simpl. eauto.
  - eexists. rewrite Behavior_Read_with. simpl. eauto.
  - eexists. rewrite Behavior_Read_with. simpl. eauto.
Qed.

Lemma fold_read1_adds_reads (cs : list DefUseVariable) :
  forall (ok : bool) (bh : Behavior) (em : Emitter),
  exists r,
    snd (fst (fold_left read1 cs (ok, bh, em))) = withReadsWrites bh r [] /\
    records (snd (fold_left read1 cs (ok, bh, em))) = records em /\
    logged (snd (fold_left read1 cs (ok, bh, em))) = logged em.
Proof.
  induction cs as [|c cs IH]; intros ok bh em.
  - exists []. simpl. rewrite withReadsWrites_nil. auto.
  - cbn [fold_left].
    destruct (read1_adds_reads ok bh em c) as (r1 & H1 & H2 & H3).
    destruct (read1 (ok, bh, em) c) as [[ok1 bh1] em1] eqn:E.
    cbn [fst snd] in *. subst bh1.
    destruct (IH ok1 (withReadsWrites bh r1 []) em1) as (r2 & H4 & H5 & H6).
    exists (r1 ++ r2). rewrite H4, H5, H6, withReadsWrites_twice. simpl. auto.
Qed.

(** X1.  [read] only adds reads: whatever the variables are, the behavior
    keeps its owner, its writes and its flags, the reads it had stay in
    front of the new ones, and neither the recorded memory spans nor the
    log change. *)
Theorem read_only_adds_reads (em : Emitter) (bh : Behavior)
    (cs : list DefUseVariable) :
  exists r,
    snd (fst (read em bh cs)) = withReadsWrites bh r [] /\
    records (snd (read em bh cs)) = records em /\
    logged (snd (read em bh cs)) = logged em.
Proof. apply fold_read1_adds_reads. Qed.

Lemma read1_flag_value (ok : bool) (bh : Behavior) (em : Emitter)
    (c : DefUseVariable) :
  fst (fst (read1 (ok, bh, em) c)) = ok && negb (isNullHandle c).
Proof.
  destruct c; cbn [read1 isNullHandle fst negb]; rewrite ?andb_true_r;
    try reflexivity.
  - destruct (handle =? 0); simpl; rewrite ?andb_true_r, ?andb_false_r; reflexivity.
  - destruct (memory s =? 0); reflexivity.
Qed.

Lemma fold_read1_flag_value (cs : list DefUseVariable) :
  forall (ok : bool) (bh : Behavior) (em : Emitter),
    fst (fst (fold_left read1 cs (ok, bh, em)))
    = ok && negb (existsb isNullHandle cs).
Proof.
  induction cs as [|c cs IH]; intros ok bh em.
  - simpl. rewrite andb_true_r. reflexivity.
  - cbn [fold_left existsb].
    pose proof (read1_flag_value ok bh em c) as H1.
    destruct (read1 (ok, bh, em) c) as [[ok1 bh1] em1]. cbn [fst] in H1.
    rewrite IH, H1, negb_orb, andb_assoc. reflexivity.
Qed.

(** X2.  [modify] is [read] followed by [write], and the [write] is left
    out when the [read] reports a failure, which it does exactly when a
    null handle is among the variables: in that case [modify] only reads. *)
Theorem modify_skips_the_write_on_a_null_handle (em : Emitter) (bh : Behavior)
    (cs : list DefUseVariable) :
  fst (fst (read em bh cs)) = negb (existsb isNullHandle cs) /\
  modify em bh cs
  = if existsb isNullHandle cs
    then read em bh cs
    else write (snd (read em bh cs)) (snd (fst (read em bh cs))) cs.
Proof.
  pose proof (fold_read1_flag_value cs true bh em) as Hflag.
  change (fold_left read1 cs (true, bh, em)) with (read em bh cs) in Hflag.
  rewrite andb_true_l in Hflag. split; [exact Hflag|].
  unfold modify. destruct (read em bh cs) as [[ok bh1] em1].
  cbn [fst snd] in *. subst ok.
  destruct (existsb isNullHandle cs); reflexivity.
Qed.

Lemma write1_plain (ok : bool) (bh : Behavior) (em : Emitter)
    (c : DefUseVariable) :
  isMemorySpan c = false ->
  write1 (ok, bh, em) c
  = (ok && negb (isNullHandle c), withReadsWrites bh [] (passedOn [c]), em).
Proof.
  intros Hc.
  destruct c; try discriminate;
    cbn [write1 passedOn List.filter isNullHandle negb];
    rewrite ?andb_true_r, ?Behavior_Write_with; try reflexivity.
  destruct (handle =? 0); cbn [negb];
    rewrite ?andb_true_r, ?andb_false_r, ?withReadsWrites_nil,
      ?Behavior_Write_with; reflexivity.
Qed.

Lemma fold_write1_plain (cs : list DefUseVariable) :
  forall (ok : bool) (bh : Behavior) (em : Emitter),
    forallb (fun c => negb (isMemorySpan c)) cs = true ->
    fold_left write1 cs (ok, bh, em)
    = (ok && negb (existsb isNullHandle cs),
       withReadsWrites bh [] (passedOn cs), em).
Proof.
  induction cs as [|c cs IH]; intros ok bh em Hcs.
  - simpl. rewrite andb_true_r, withReadsWrites_nil. reflexivity.
  - cbn [forallb] in Hcs. apply andb_true_iff in Hcs as [Hc Hcs].
    apply negb_true_iff in Hc.
    cbn [fold_left existsb]. rewrite (write1_plain ok bh em c Hc).
    rewrite (IH _ _ _ Hcs), withReadsWrites_twice, negb_orb, andb_assoc.
    unfold passedOn. cbn [List.filter app].
    destruct (negb (isNullHandle c)); reflexivity.
Qed.

Lemma read1_plain (ok : bool) (bh : Behavior) (em : Emitter)
    (c : DefUseVariable) :
  isMemorySpan c = false -> isForwardPairedLabel c = false ->
  read1 (ok, bh, em) c
  = (ok && negb (isNullHandle c), withReadsWrites bh (passedOn [c]) [], em).
Proof.
  intros Hc Hf.
  destruct c; try discriminate;
    cbn [read1 passedOn List.filter isNullHandle negb];
    rewrite ?andb_true_r, ?Behavior_Read_with; try reflexivity.
  destruct (handle =? 0); cbn [negb];
    rewrite ?andb_true_r, ?andb_false_r, ?withReadsWrites_nil,
      ?Behavior_Read_with; reflexivity.
Qed.

Lemma fold_read1_plain (cs : list DefUseVariable) :
  forall (ok : bool) (bh : Behavior) (em : Emitter),
    forallb (fun c => negb (isMemorySpan c) && negb (isForwardPairedLabel c)) cs
    = true ->
    fold_left read1 cs (ok, bh, em)
    = (ok && negb (existsb isNullHandle cs),
       withReadsWrites bh (passedOn cs) [], em).
Proof.
  induction cs as [|c cs IH]; intros ok bh em Hcs.
  - simpl. rewrite andb_true_r, withReadsWrites_nil. reflexivity.
  - cbn [forallb] in Hcs. apply andb_true_iff in Hcs as [Hc Hcs].
    apply andb_true_iff in Hc as [Hc Hf].
    apply negb_true_iff in Hc. apply negb_true_iff in Hf.
    cbn [fold_left existsb]. rewrite (read1_plain ok bh em c Hc Hf).
    rewrite (IH _ _ _ Hcs), withReadsWrites_twice, negb_orb, andb_assoc.
    unfold passedOn. cbn [List.filter app].
    destruct (negb (isNullHandle c)); reflexivity.
Qed.

(** X3.  On variables that are handles, labels, bindings or commands (no
    memory span, no forward-paired label), [read], [write] and [modify] add
    to the behavior exactly the variables that are not a null handle, in
    their order, and leave the emitter as it is; the two former return
    false exactly when a null handle is among the variables, and [modify]
    then stops after its reads. *)
Theorem read_write_modify_of_plain_variables (em : Emitter) (bh : Behavior)
    (cs : list DefUseVariable) :
  forallb (fun c => negb (isMemorySpan c) && negb (isForwardPairedLabel c)) cs
  = true ->
  read em bh cs
  = (negb (existsb isNullHandle cs), withReadsWrites bh (passedOn cs) [], em) /\
  write em bh cs
  = (negb (existsb isNullHandle cs), withReadsWrites bh [] (passedOn cs), em) /\
  modify em bh cs
  = if existsb isNullHandle cs
    then (false, withReadsWrites bh (passedOn cs) [], em)
    else (true, withReadsWrites bh cs cs, em).
Proof.
  intros Hcs.
  assert (Hw : forallb (fun c => negb (isMemorySpan c)) cs = true).
  { apply forallb_forall. intros c Hc.
    apply (proj1 (forallb_forall _ _) Hcs) in Hc.
    apply andb_true_iff in Hc. tauto. }
  assert (Hr : read em bh cs
               = (negb (existsb isNullHandle cs),
                  withReadsWrites bh (passedOn cs) [], em)).
  { unfold read. rewrite (fold_read1_plain cs true bh em Hcs). reflexivity. }
  split; [exact Hr|]. split.
  - unfold write. rewrite (fold_write1_plain cs true bh em Hw). reflexivity.
  - unfold modify. rewrite Hr.
    destruct (existsb isNullHandle cs) eqn:Hn; cbn [negb]; [reflexivity|].
    unfold write. rewrite (fold_write1_plain cs true _ em Hw), Hn.
    rewrite withReadsWrites_twice. cbn [negb andb app].
    assert (Hp : passedOn cs = cs).
    { unfold passedOn. apply forallb_filter_id.
      apply forallb_forall. intros c Hc.
      destruct (isNullHandle c) eqn:E; [|reflexivity].
      assert (existsb isNullHandle cs = true)
        by (apply existsb_exists; exists c; auto).
      congruence. }
    rewrite Hp, app_nil_r. reflexivity.
Qed.

Lemma read_write_modify_of_plain_variables_witness :
  let em := mkEmitter ∅ ∅ [] in
  let bh := NewBehavior [7] in
  let cs := [VHandle 3; VHandle 0; VLabel 5] in
  modify em bh cs = (false, withReadsWrites bh [VHandle 3; VLabel 5] [], em).
Proof.
  intros em bh cs.
  exact (proj2 (proj2 (read_write_modify_of_plain_variables em bh cs eq_refl))).
Defined.

(** * Shrinking memory spans and bindings *)

Lemma size_wfSpan (s : memorySpan) :
  wfSpan s -> MemorySpan.size s = End (sp s) - Start (sp s).
Proof.
  intros (H1 & H2 & H3). unfold MemorySpan.size. apply sub64_small. lia.
Qed.

(** The outcome of [memorySpan.shrink] for a size other than
    [vkWholeSize]. *)
Lemma shrink_sized (s : memorySpan) (offset size : Z) :
  wfSpan s -> 0 <= offset < two64 -> 0 <= size < two64 ->
  size <> vkWholeSize ->
  MemorySpan.shrink s offset size
  = if offset + size <=? End (sp s) - Start (sp s)
    then inr (mkMemorySpan
                (mkSpan (Start (sp s) + offset) (Start (sp s) + offset + size))
                (memory s))
    else inl (ErrShrinkOutOfMemBindingBound offset size).
Proof.
  intros Hwf Ho Hs Hw. pose proof Hwf as (H1 & H2 & H3).
  unfold MemorySpan.shrink. rewrite (size_wfSpan s Hwf).
  destruct (Z.eqb_spec size vkWholeSize) as [E|_]; [contradiction|].
  destruct (Z.leb_spec (offset + size) (End (sp s) - Start (sp s))) as [Hin|Hout].
  - rewrite (add64_small offset size) by lia.
    rewrite (add64_small (Start (sp s)) offset) by lia.
    rewrite (add64_small (Start (sp s) + offset) size) by lia.
    zbool. reflexivity.
  - destruct (Z.lt_ge_cases (offset + size) two64) as [Hfit|Hwrap].
    + rewrite (add64_small offset size) by lia. zbool.
      rewrite orb_true_r. reflexivity.
    + rewrite (add64_wraps offset size) by lia. zbool. reflexivity.
Qed.

(** X4.  [memorySpan.shrink] on a span inside the address space, for a size
    other than [vkWholeSize]: it succeeds exactly when [offset + size] does
    not exceed the size of the span (the sum is taken without wrap-around:
    a sum that wraps is refused), and the span then becomes the [size]
    bytes from [offset] on, inside the old span and in the same memory. *)
Theorem memorySpan_shrink_stays_inside (s : memorySpan) (offset size : Z) :
  wfSpan s -> 0 <= offset < two64 -> 0 <= size < two64 ->
  size <> vkWholeSize ->
  MemorySpan.shrink s offset size
  = if offset + size <=? End (sp s) - Start (sp s)
    then inr (mkMemorySpan
                (mkSpan (Start (sp s) + offset) (Start (sp s) + offset + size))
                (memory s))
    else inl (ErrShrinkOutOfMemBindingBound offset size).
Proof. apply shrink_sized. Qed.

Lemma memorySpan_shrink_stays_inside_witness :
  MemorySpan.shrink (mkMemorySpan (mkSpan 100 200) 1) 10 20
  = inr (mkMemorySpan (mkSpan 110 130) 1).
Proof.
  pose proof two64_value as Ht.
  assert (Hwf : wfSpan (mkMemorySpan (mkSpan 100 200) 1))
    by (unfold wfSpan; simpl; lia).
  rewrite (memorySpan_shrink_stays_inside _ 10 20 Hwf); [reflexivity|lia|lia|].
  vm_compute. discriminate.
Defined.

(** The outcome of [memorySpan.shrink] for [vkWholeSize]. *)
Lemma shrink_whole (s : memorySpan) (offset : Z) :
  wfSpan s -> 0 <= offset < two64 ->
  MemorySpan.shrink s offset vkWholeSize
  = if offset <=? End (sp s) - Start (sp s)
    then inr (mkMemorySpan (mkSpan (Start (sp s) + offset) (End (sp s)))
                (memory s))
    else inl (ErrShrinkOutOfMemBindingBound offset
                (End (sp s) - Start (sp s) - offset + two64)).
Proof.
  intros Hwf Ho. pose proof Hwf as (H1 & H2 & H3).
  unfold MemorySpan.shrink. rewrite (size_wfSpan s Hwf).
  rewrite Z.eqb_refl.
  destruct (Z.leb_spec offset (End (sp s) - Start (sp s))) as [Hin|Hout].
  - rewrite (sub64_small _ offset) by lia.
    rewrite (add64_small offset _) by lia.
    rewrite (add64_small (Start (sp s)) offset) by lia.
    rewrite (add64_small (Start (sp s) + offset) _) by lia.
    zbool. repeat f_equal. lia.
  - assert (Hsz : sub64 (End (sp s) - Start (sp s)) offset
                  = End (sp s) - Start (sp s) - offset + two64).
    { unfold sub64, wrap64. symmetry.
      apply (Z.mod_unique_pos _ two64 (-1)); lia. }
    rewrite Hsz.
    rewrite (add64_wraps offset _) by lia. zbool. reflexivity.
Qed.

(** X5.  [memorySpan.shrink] with [vkWholeSize] keeps the span from
    [offset] up to its end; it fails exactly when [offset] lies behind the
    end of the span. *)
Theorem memorySpan_shrink_to_whole_size (s : memorySpan) (offset : Z) :
  wfSpan s -> 0 <= offset < two64 ->
  MemorySpan.shrink s offset vkWholeSize
  = if offset <=? End (sp s) - Start (sp s)
    then inr (mkMemorySpan (mkSpan (Start (sp s) + offset) (End (sp s)))
                (memory s))
    else inl (ErrShrinkOutOfMemBindingBound offset
                (End (sp s) - Start (sp s) - offset + two64)).
Proof. apply shrink_whole. Qed.

Lemma memorySpan_shrink_to_whole_size_witness :
  MemorySpan.shrink (mkMemorySpan (mkSpan 100 200) 1) 30 vkWholeSize
  = inr (mkMemorySpan (mkSpan 130 200) 1).
Proof.
  pose proof two64_value as Ht.
  assert (Hwf : wfSpan (mkMemorySpan (mkSpan 100 200) 1))
    by (unfold wfSpan; simpl; lia).
  rewrite (memorySpan_shrink_to_whole_size _ 30 Hwf); [reflexivity|lia].
Defined.



(** X7.  A successful [resBinding.shrink] of a binding backed by a memory
    span keeps the binding and its span in step: the new binding lies
    inside the old one, it is backed by a span of the same memory that is
    as long as the binding, and the distance from the resource offset to
    the start of the memory span stays what it was. *)
Theorem resBinding_shrink_keeps_span_in_step
    (b b' : resBinding) (m : memorySpan) (offset size : Z) :
  backedBy b m -> 0 <= offset < two64 -> 0 <= size < two64 ->
  ResBinding.shrink b offset size = inr b' ->
  exists m',
    backedBy b' m' /\ memory m' = memory m /\
    resourceOffset b' = resourceOffset b + offset /\
    resourceOffset b' + bindSize b' <= resourceOffset b + bindSize b /\
    Start (sp m') - resourceOffset b' = Start (sp m) - resourceOffset b.
Proof.
  intros (Hbd & Hwf & Hm & Hsz) Ho Hs E.
  pose proof Hwf as (B1 & B2 & B3). pose proof Hm as (M1 & M2 & M3).
  pose proof vkWholeSize_value as Hv.
  unfold ResBinding.shrink, ResBinding.size in E. rewrite Hbd in E.
  set (size1 := if size =? vkWholeSize then sub64 (bindSize b) offset else size)
    in E.
  destruct ((add64 offset size1 <? offset) || (bindSize b <? add64 offset size1))
    eqn:Hguard; [discriminate|].
  apply orb_false_iff in Hguard as [G1 G2].
  apply Z.ltb_ge in G1. apply Z.ltb_ge in G2.
  assert (Hsize1 : 0 <= size1 < two64).
  { subst size1. destruct (size =? vkWholeSize); [apply wrap64_range|exact Hs]. }
  assert (Hsum : offset + size1 <= bindSize b).
  { destruct (Z.lt_ge_cases (offset + size1) two64) as [Hfit|Hwrap].
    - rewrite (add64_small offset size1) in G2 by lia. exact G2.
    - rewrite (add64_wraps offset size1) in G1 by lia. lia. }
  injection E as <-.
  eexists. unfold backedBy, wfBinding, wfSpan.
  cbn [backingData resourceOffset bindSize sp Start End memory].
  rewrite (add64_small (resourceOffset b) offset) by lia.
  rewrite (add64_small (Start (sp m)) offset) by lia.
  rewrite (add64_small (Start (sp m) + offset) size1) by lia.
  repeat split; try reflexivity;
    cbn [backingData resourceOffset bindSize sp Start End memory]; lia.
Qed.

Lemma resBinding_shrink_keeps_span_in_step_witness :
  exists m',
    backedBy (mkResBinding 40 20 (VMemorySpan (mkMemorySpan (mkSpan 1040 1060) 1)))
      m' /\ memory m' = 1.
Proof.
  pose proof two64_value as Ht.
  set (m := mkMemorySpan (mkSpan 1000 1100) 1).
  set (b := mkResBinding 0 100 (VMemorySpan m)).
  assert (Hb : backedBy b m).
  { unfold backedBy, wfBinding, wfSpan. simpl. repeat split; lia. }
  destruct (resBinding_shrink_keeps_span_in_step b
              (mkResBinding 40 20 (VMemorySpan (mkMemorySpan (mkSpan 1040 1060) 1)))
              m 40 20 Hb) as (m' & H1 & H2 & _); [lia|lia|reflexivity|].
  exists m'. split; [exact H1|exact H2].
Defined.

(** * Further properties of the sub-binding lists *)

Lemma subBindingStep_with_behavior (offset size : Z) (acc : list resBinding)
    (bh : Behavior) (em : Emitter) (b : resBinding) :
  exists em',
    subBindingStep offset size (acc, Some bh, em) b
    = (acc ++ option_list (subBindingOf offset size b),
       Some (withReadsWrites bh [varOfResBinding b]
               (map varOfResBinding (option_list (subBindingOf offset size b)))),
       em').
Proof.
  unfold subBindingStep, subBindingOf, ResBinding.newSubBinding.
  rewrite readIfBehavior_resBinding.
  change (sub64 (if Start (ResBinding.span b) <? offset then offset
                 else Start (ResBinding.span b)) (Start (ResBinding.span b)))
    with (fst (subRange offset size b)).
  change (sub64 (if add64 offset size <? End (ResBinding.span b)
                 then add64 offset size else End (ResBinding.span b))
            (if Start (ResBinding.span b) <? offset then offset
             else Start (ResBinding.span b)))
    with (snd (subRange offset size b)).
  destruct (ResBinding.shrink (ResBinding.duplicate b)
              (fst (subRange offset size b)) (snd (subRange offset size b)))
    as [e|nb].
  - eexists. cbn [option_map option_list map]. rewrite app_nil_r.
    rewrite Behavior_Read_with. reflexivity.
  - rewrite writeIfBehavior_resBinding. eexists.
    cbn [option_map option_list map].
    rewrite Behavior_Read_with, Behavior_Write_with, withReadsWrites_twice.
    reflexivity.
Qed.

Lemma subBindingStep_fold_behavior (offset size : Z) (run : list resBinding) :
  forall (acc : list resBinding) (bh : Behavior) (em : Emitter),
    snd (fst (fold_left (subBindingStep offset size) run (acc, Some bh, em)))
    = Some (withReadsWrites bh (map varOfResBinding run)
              (map varOfResBinding (omap (subBindingOf offset size) run))).
Proof.
  induction run as [|b run IH]; intros acc bh em.
  - simpl. rewrite withReadsWrites_nil. reflexivity.
  - cbn [fold_left].
    destruct (subBindingStep_with_behavior offset size acc bh em b) as [em' ->].
    rewrite IH, withReadsWrites_twice. cbn [map omap list_omap app].
    destruct (subBindingOf offset size b); reflexivity.
Qed.

Lemma subBindingStep_fold_no_behavior (offset size : Z) (run : list resBinding) :
  forall (acc : list resBinding) (em : Emitter),
    snd (fst (fold_left (subBindingStep offset size) run (acc, None, em)))
    = None.
Proof.
  induction run as [|b run IH]; intros acc em; [reflexivity|].
  cbn [fold_left]. unfold subBindingStep at 2.
  rewrite readIfBehavior_resBinding. unfold ResBinding.newSubBinding.
  destruct (ResBinding.shrink _ _ _) as [e|nb].
  - apply IH.
  - rewrite writeIfBehavior_resBinding. apply IH.
Qed.

(** X8.  What [getSubBindingList] does to the behavior it is given: the
    behavior reads every binding that the range visits, also those whose
    clipping fails, and writes every sub-binding that is returned, in the
    order of the list; without a behavior none is made up. *)
Theorem getSubBindingList_reads_visited_and_writes_returned
    (em : Emitter) (bh : Behavior) (l : list resBinding) (offset size : Z) :
  snd (fst (getSubBindingList em (Some bh) l offset size))
  = Some (withReadsWrites bh
            (map varOfResBinding (visited l offset size))
            (map varOfResBinding
               (fst (fst (getSubBindingList em (Some bh) l offset size))))) /\
  snd (fst (getSubBindingList em None l offset size)) = None /\
  fst (fst (getSubBindingList em None l offset size))
  = fst (fst (getSubBindingList em (Some bh) l offset size)).
Proof.
  rewrite !getSubBindingList_fold.
  destruct (subBindingStep_fold offset (clampedSize offset size)
              (visited l offset size) [] (Some bh) em) as (H1 & _).
  destruct (subBindingStep_fold offset (clampedSize offset size)
              (visited l offset size) [] None em) as (H2 & _).
  cbv zeta in H1, H2. rewrite H1, H2. cbn [app].
  split; [apply subBindingStep_fold_behavior|].
  split; [apply subBindingStep_fold_no_behavior|reflexivity].
Qed.

(** ** The list that [getSubBindingList] returns *)

Lemma clip_inside (lo hi : Z) (b b' : resBinding) :
  wfBinding b -> 0 <= lo <= hi ->
  Interval.overlaps (ResBinding.span b) (mkSpan lo hi) = true ->
  clip lo hi b = Some b' ->
  wfBinding b' /\ insideRange lo hi b' /\
  insideRange (resourceOffset b) (resourceOffset b + bindSize b) b'.
Proof.
  intros Hwf Hlo Hov Hc. pose proof Hwf as (H1 & H2 & H3).
  rewrite (span_wfBinding b Hwf) in Hov.
  unfold Interval.overlaps in Hov. cbn [Start End] in Hov.
  apply andb_true_iff in Hov as [Ho1 Ho2].
  apply Z.ltb_lt in Ho1, Ho2.
  unfold clip in Hc.
  destruct (backingData b) as [h|n| |i|m|ro bs bd|bd|c|t];
    try (destruct ((Z.max lo (resourceOffset b) =? resourceOffset b)
                   && (Z.min hi (resourceOffset b + bindSize b)
                       =? resourceOffset b + bindSize b)) eqn:E;
         [|discriminate];
         apply andb_true_iff in E as [E1 E2];
         apply Z.eqb_eq in E1, E2; injection Hc as <-;
         unfold wfBinding, insideRange; lia).
  injection Hc as <-. unfold wfBinding, insideRange.
  cbn [resourceOffset bindSize]. lia.
Qed.

Lemma sortedSpans_filter {A : Type} (spanOf : A -> U64Span) (p : A -> bool)
    (l : list A) :
  sortedSpans spanOf l -> sortedSpans spanOf (List.filter p l).
Proof.
  induction l as [|x l IH]; intros Hs; [exact I|].
  destruct Hs as (Hwf & Hlater & Hs). simpl.
  destruct (p x); [|apply IH; exact Hs].
  simpl. split; [exact Hwf|]. split; [|apply IH; exact Hs].
  apply List.Forall_forall. intros y Hy. apply filter_In in Hy as [Hy _].
  rewrite List.Forall_forall in Hlater. apply Hlater. exact Hy.
Qed.

Lemma omap_length_le {A B : Type} (f : A -> option B) (l : list A) :
  (length (omap f l) <= length l)%nat.
Proof.
  induction l as [|x l IH]; [reflexivity|].
  cbn [omap list_omap]. destruct (f x); simpl; lia.
Qed.

(** Bindings that shrink inside their old range stay sorted. *)
Lemma sortedSpans_omap_inside (f : resBinding -> option resBinding)
    (l : list resBinding) :
  Forall wfBinding l -> sortedSpans mb_span l ->
  (forall b b', In b l -> f b = Some b' ->
     wfBinding b' /\
     insideRange (resourceOffset b) (resourceOffset b + bindSize b) b') ->
  Forall wfBinding (omap f l) /\ sortedSpans mb_span (omap f l) /\
  forall bound, Forall (fun y => bound <= Start (mb_span y)) l ->
                Forall (fun y => bound <= Start (mb_span y)) (omap f l).
Proof.
  induction l as [|x l IH]; intros Hwf Hs Hf.
  - simpl. repeat split; auto.
  - inversion Hwf as [|? ? Hx Hwf']; subst.
    destruct Hs as (Hwfx & Hlater & Hs).
    destruct (IH Hwf' Hs) as (IH1 & IH2 & IH3).
    { intros b b' Hb. apply Hf. right. exact Hb. }
    cbn [omap list_omap]. destruct (f x) as [x'|] eqn:Efx.
    + destruct (Hf x x' (or_introl eq_refl) Efx) as (Hwx' & Hin1 & Hin2).
      cbn [mb_span resBinding_MemBinding] in *.
      rewrite (span_wfBinding x Hx) in *. cbn [Start End] in *.
      split; [constructor; assumption|]. split.
      * cbn [sortedSpans mb_span resBinding_MemBinding].
        rewrite (span_wfBinding x' Hwx'). cbn [Start End].
        destruct Hwx' as (A & B & C).
        split; [lia|]. split; [|exact IH2].
        specialize (IH3 (resourceOffset x + bindSize x) Hlater).
        eapply Forall_impl; [exact IH3|]. cbn beta. intros y Hy. lia.
      * intros bound Hb. inversion Hb as [|? ? Hbx Hbl]; subst.
        rewrite (span_wfBinding x Hx) in Hbx. cbn [Start] in Hbx.
        constructor; [|apply IH3; exact Hbl].
        rewrite (span_wfBinding x' Hwx'). cbn [Start]. lia.
    + split; [exact IH1|]. split; [exact IH2|].
      intros bound Hb. inversion Hb; subst. apply IH3. assumption.
Qed.

(** X9.  The list that [getSubBindingList] returns for a sorted,
    non-overlapping binding list is again one: its bindings lie inside the
    address space, are sorted and do not overlap; each lies inside the
    requested range; and there are no more of them than in the list
    asked. *)
Theorem getSubBindingList_returns_a_sorted_list_inside_the_range
    (em : Emitter) (bh : option Behavior) (l : list resBinding)
    (offset size : Z) :
  wfBindings l -> 0 <= offset < two64 -> 0 <= size < two64 ->
  let r := fst (fst (getSubBindingList em bh l offset size)) in
  wfBindings r /\
  Forall (insideRange offset (End (requestedSpan offset size))) r /\
  (length r <= length l)%nat.
Proof.
  intros Hwf Ho Hs r. subst r.
  rewrite (getSubBindingList_clip em bh l offset size Hwf Ho Hs).
  destruct Hwf as [Hall Hsorted].
  destruct (requestedSpan_clamped offset size Ho Hs) as [_ Hend].
  set (span := requestedSpan offset size) in *.
  assert (Hstart : Start span = offset) by reflexivity.
  pose proof (overlapping_Forall mb_span wfBinding l span Hall) as Hov.
  assert (Hclip : forall b b', In b (overlapping mb_span l span) ->
            clip (Start span) (End span) b = Some b' ->
            wfBinding b' /\ insideRange (Start span) (End span) b' /\
            insideRange (resourceOffset b) (resourceOffset b + bindSize b) b').
  { intros b b' Hb Hc. rewrite List.Forall_forall in Hov.
    destruct (Hov b Hb) as [Hwb Hob].
    apply (clip_inside (Start span) (End span) b b' Hwb); [lia| |exact Hc].
    destruct span; exact Hob. }
  destruct (sortedSpans_omap_inside (clip (Start span) (End span))
              (overlapping mb_span l span)) as (R1 & R2 & _).
  - eapply Forall_impl; [exact Hov|]. cbn beta. tauto.
  - apply sortedSpans_filter. exact Hsorted.
  - intros b b' Hb Hc. destruct (Hclip b b' Hb Hc) as (A & _ & B). auto.
  - split; [split; assumption|]. split.
    + apply List.Forall_forall. intros b' Hb'.
      apply list_elem_of_In, list_elem_of_omap in Hb'.
      destruct Hb' as (b & Hb & Hc). apply list_elem_of_In in Hb.
      destruct (Hclip b b' Hb Hc) as (_ & A & _).
      rewrite <- Hstart. exact A.
    + etransitivity; [apply omap_length_le|].
      unfold overlapping. apply filter_length_le.
Qed.

Lemma getSubBindingList_returns_a_sorted_list_inside_the_range_witness :
  let l := [mkResBinding 0 100 (VMemorySpan (mkMemorySpan (mkSpan 1000 1100) 1));
            mkResBinding 100 100 (VLabel 5)] in
  wfBindings l /\
  wfBindings (fst (fst (getSubBindingList (mkEmitter ∅ ∅ []) None l 50 150))).
Proof.
  intros l.
  assert (Hwf : wfBindings l).
  { pose proof two64_value as Ht. split.
    - repeat constructor; simpl; lia.
    - unfold l. cbn [sortedSpans mb_span resBinding_MemBinding ResBinding.span
                     ResBinding.size resourceOffset bindSize Start End].
      unwrap64. repeat split; try lia; repeat constructor; simpl; unwrap64; lia. }
  split; [exact Hwf|].
  apply (getSubBindingList_returns_a_sorted_list_inside_the_range
           (mkEmitter ∅ ∅ []) None l 50 150 Hwf);
    rewrite two64_value; lia.
Defined.

Lemma omap_id {A : Type} (f : A -> option A) (l : list A) :
  Forall (fun x => f x = Some x) l -> omap f l = l.
Proof.
  induction 1 as [|x l Hx Hl IH]; [reflexivity|].
  cbn [omap list_omap]. rewrite Hx, IH. reflexivity.
Qed.

Lemma filter_id {A : Type} (p : A -> bool) (l : list A) :
  Forall (fun x => p x = true) l -> List.filter p l = l.
Proof.
  induction 1 as [|x l Hx Hl IH]; [reflexivity|].
  simpl. rewrite Hx, IH. reflexivity.
Qed.

(** X10.  Asked for the whole range ([offset] 0, [size] [vkWholeSize]), as
    [getImageData] and [draw] do, [getSubBindingList] returns the list
    itself, and [getBoundData] the backing data of all its bindings, when
    the list is sorted and its bindings are not empty. *)
Theorem whole_range_returns_every_binding
    (em : Emitter) (bh : option Behavior) (l : list resBinding) :
  wfBindings l -> Forall intact l ->
  fst (fst (getSubBindingList em bh l 0 vkWholeSize)) = l /\
  fst (fst (getBoundData em bh l 0 vkWholeSize)) = map backingData l.
Proof.
  intros Hwf Hint. pose proof vkWholeSize_value as Hv.
  pose proof two64_value as Ht.
  assert (Hl : fst (fst (getSubBindingList em bh l 0 vkWholeSize)) = l).
  { rewrite (getSubBindingList_clip em bh l 0 vkWholeSize Hwf) by lia.
    assert (Hspan : requestedSpan 0 vkWholeSize = mkSpan 0 vkWholeSize).
    { unfold requestedSpan. zbool. reflexivity. }
    rewrite Hspan. cbn [Start End].
    destruct Hwf as [Hall _].
    unfold overlapping. rewrite filter_id.
    - apply omap_id. rewrite List.Forall_forall in Hall, Hint |- *.
      intros b Hb. specialize (Hall b Hb). specialize (Hint b Hb).
      destruct Hall as (H1 & H2 & H3). destruct Hint as [Hpos Hm].
      unfold clip.
      replace (Z.max 0 (resourceOffset b)) with (resourceOffset b) by lia.
      replace (Z.min vkWholeSize (resourceOffset b + bindSize b))
        with (resourceOffset b + bindSize b) by lia.
      rewrite !Z.eqb_refl. cbn [andb].
      destruct b as [ro bs bd]. cbn [resourceOffset bindSize backingData] in *.
      destruct bd as [h|n| |i|m|ro' bs' bd'|bd'|c|t]; try reflexivity.
      destruct (Hm m eq_refl) as [Hstart Hend].
      unfold shrunkSpan.
      replace (ro - ro) with 0 by lia. replace (ro + bs - ro) with bs by lia.
      rewrite (add64_small (Start (sp m)) 0) by lia.
      replace (Start (sp m) + 0) with (Start (sp m)) by lia.
      rewrite <- Hend. destruct m as [[ms me] mm]. reflexivity.
    - rewrite List.Forall_forall in Hall, Hint |- *.
      intros b Hb. specialize (Hall b Hb). specialize (Hint b Hb).
      destruct Hint as [Hpos _].
      cbn [mb_span resBinding_MemBinding].
      rewrite (span_wfBinding b Hall). destruct Hall as (H1 & H2 & H3).
      unfold Interval.overlaps. cbn [Start End]. zbool. reflexivity. }
  split; [exact Hl|].
  unfold getBoundData.
  destruct (getSubBindingList em bh l 0 vkWholeSize) as [[r bh'] em'].
  cbn [fst] in *. rewrite Hl. reflexivity.
Qed.

Lemma whole_range_returns_every_binding_witness :
  let l := [mkResBinding 0 100 (VMemorySpan (mkMemorySpan (mkSpan 1000 1100) 1));
            mkResBinding 100 100 (VLabel 5)] in
  fst (fst (getBoundData (mkEmitter ∅ ∅ []) None l 0 vkWholeSize))
  = [VMemorySpan (mkMemorySpan (mkSpan 1000 1100) 1); VLabel 5].
Proof.
  intros l. pose proof two64_value as Ht.
  assert (Hwf : wfBindings l).
  { split.
    - repeat constructor; simpl; lia.
    - unfold l. cbn [sortedSpans mb_span resBinding_MemBinding ResBinding.span
                     ResBinding.size resourceOffset bindSize Start End].
      unwrap64. repeat split; try lia; repeat constructor; simpl; unwrap64; lia. }
  assert (Hint : Forall intact l).
  { constructor; [|constructor; [|constructor]].
    - split; [simpl; lia|]. intros m [= <-]. cbn [sp Start End bindSize].
      unwrap64. lia.
    - split; [simpl; lia|]. intros m [=]. }
  exact (proj2 (whole_range_returns_every_binding (mkEmitter ∅ ∅ []) None l
                  Hwf Hint)).
Defined.

(** * Queue submits *)

(** ** The order of the full command indices *)

Lemma before_prefix_lt (P : list Z) (a a' : Z) (t t' : list Z) :
  a < a' -> before (P ++ a :: t) (P ++ a' :: t').
Proof.
  intros Ha. unfold before. induction P as [|p P IH]; simpl.
  - destruct (Z.ltb_spec a a'); [reflexivity|lia].
  - rewrite Z.ltb_irrefl. exact IH.
Qed.

Lemma before_proper_prefix (P : list Z) (a : Z) (t : list Z) :
  before P (P ++ a :: t).
Proof.
  unfold before. induction P as [|p P IH]; simpl; [reflexivity|].
  rewrite Z.ltb_irrefl. exact IH.
Qed.

Lemma atIndex_fromIndex (P : list Z) (n : Z) (x : list Z) :
  atIndex P n x -> fromIndex P n x.
Proof. intros H. exists n. split; [lia|exact H]. Qed.

Lemma fromIndex_weaken (P : list Z) (n m : Z) (x : list Z) :
  n <= m -> fromIndex P m x -> fromIndex P n x.
Proof. intros Hnm (a & Ha & Hx). exists a. split; [lia|exact Hx]. Qed.

Lemma fromIndex_deeper (P : list Z) (n m : Z) (x : list Z) :
  fromIndex (P ++ [n]) m x -> atIndex P n x.
Proof.
  intros (a & _ & t & ->). exists (a :: t). rewrite <- app_assoc. reflexivity.
Qed.

Lemma before_at_from (P : list Z) (n : Z) (x y : list Z) :
  atIndex P n x -> fromIndex P (n + 1) y -> before x y.
Proof.
  intros (t & ->) (a & Ha & t' & ->). apply before_prefix_lt. lia.
Qed.

Lemma StronglySorted_app {A : Type} (R : A -> A -> Prop) (l1 l2 : list A) :
  StronglySorted R l1 -> StronglySorted R l2 ->
  (forall x y, In x l1 -> In y l2 -> R x y) ->
  StronglySorted R (l1 ++ l2).
Proof.
  intros H1 H2 H12. induction H1 as [|x l1 Hs IH Hx]; [exact H2|].
  simpl. constructor.
  - apply IH. intros a b Ha Hb. apply H12; [right; exact Ha|exact Hb].
  - apply List.Forall_forall. intros y Hy. apply in_app_or in Hy as [Hy|Hy].
    + rewrite List.Forall_forall in Hx. apply Hx. exact Hy.
    + apply H12; [left; reflexivity|exact Hy].
Qed.

(** One more round of a loop over an index component: the round adds
    indices at [n], the rounds after it indices from [n + 1] on. *)
Lemma sorted_round (P : list Z) (n : Z) (l1 l2 : list (list Z)) :
  StronglySorted before l1 -> Forall (atIndex P n) l1 ->
  StronglySorted before l2 -> Forall (fromIndex P (n + 1)) l2 ->
  StronglySorted before (l1 ++ l2) /\ Forall (fromIndex P n) (l1 ++ l2).
Proof.
  intros S1 F1 S2 F2. split.
  - apply StronglySorted_app; [exact S1|exact S2|].
    intros x y Hx Hy. rewrite List.Forall_forall in F1, F2.
    apply (before_at_from P n); auto.
  - apply Forall_app. split.
    + eapply Forall_impl; [exact F1|]. intros x. apply atIndex_fromIndex.
    + eapply Forall_impl; [exact F2|]. intros x. apply fromIndex_weaken. lia.
Qed.

(** ** The loops of [VkQueueSubmit] *)

Lemma secondaryCommands_from (P : list Z) (cbc : commandBufferCommand)
    (cmds : list commandBufferCommand) :
  forall n : nat,
    let new :=
      imap (fun sci scbc =>
              mkSubmittedCommand (P ++ [Z.of_nat (n + sci)]) scbc (Some cbc))
        cmds in
    StronglySorted before (map id new) /\
    Forall (fromIndex P (Z.of_nat n)) (map id new) /\
    Forall (fun sc => parentCmd sc = Some cbc /\
                      exists b, id sc = P ++ [b]) new.
Proof.
  induction cmds as [|c cmds IH]; intros n new; subst new.
  - simpl. repeat split; constructor.
  - rewrite imap_cons. cbn [map id].
    destruct (IH (S n)) as (S2 & F2 & Q2).
    rewrite (imap_ext _ (fun sci scbc =>
               mkSubmittedCommand (P ++ [Z.of_nat (S n + sci)]) scbc (Some cbc)))
      by (intros; cbn [compose]; do 3 f_equal; lia).
    rewrite Nat.add_0_r.
    set (rest := imap (fun sci scbc =>
               mkSubmittedCommand (P ++ [Z.of_nat (S n + sci)]) scbc (Some cbc))
               cmds) in *.
    destruct (sorted_round P (Z.of_nat n) [P ++ [Z.of_nat n]] (map id rest))
      as [S3 F3].
    + repeat constructor.
    + repeat constructor. exists []. reflexivity.
    + exact S2.
    + eapply Forall_impl; [exact F2|]. intros x. apply fromIndex_weaken. lia.
    + split; [exact S3|]. split; [exact F3|].
      constructor; [split; [reflexivity|eexists; reflexivity]|exact Q2].
Qed.

Lemma secondaryCommands_spec (sid i j k scbi : Z) (cbc : commandBufferCommand)
    (cmds : list commandBufferCommand) :
  let new := secondaryCommands sid i j k scbi cbc cmds in
  StronglySorted before (map id new) /\
  Forall (atIndex [sid; i; j; k] scbi) (map id new) /\
  Forall (fun sc => parentCmd sc = Some cbc /\
                    exists b, id sc = [sid; i; j; k; scbi; b]) new.
Proof.
  intros new. subst new. unfold secondaryCommands.
  destruct (secondaryCommands_from [sid; i; j; k; scbi] cbc cmds 0)
    as (S1 & F1 & Q1).
  cbn [Nat.add app] in *. split; [exact S1|]. split; [|exact Q1].
  eapply Forall_impl; [exact F1|]. intros x Hx.
  apply (fromIndex_deeper [sid; i; j; k] scbi 0). exact Hx.
Qed.

Lemma queues_nil (sid : Z) (P : list Z) (n : Z) (st : SubmitState) :
  queues sid P n st st [].
Proof.
  unfold queues. rewrite app_nil_r. repeat split; constructor.
Qed.

(** A round that queues [new1] at [n], then the rounds from [n + 1] on. *)
Lemma queues_round (sid : Z) (P : list Z) (n : Z) (st st1 st2 : SubmitState)
    (new1 new2 : list submittedCommand) :
  queues sid P n st st1 new1 -> Forall (atIndex P n) (map id new1) ->
  queues sid P (n + 1) st1 st2 new2 ->
  queues sid P n st st2 (new1 ++ new2).
Proof.
  intros (A1 & A2 & A3 & A4 & A5 & A6) Hat (B1 & B2 & B3 & B4 & B5 & B6).
  unfold queues. rewrite map_app.
  destruct (sorted_round P n (map id new1) (map id new2) A4 Hat B4 B5)
    as [S F].
  split; [congruence|]. split; [rewrite B2, A2, app_assoc; reflexivity|].
  split; [|split; [exact S|split; [exact F|apply Forall_app; auto]]].
  rewrite B3, A3. destruct new1, new2; reflexivity.
Qed.

(** The indices that a loop queues at a deeper level all lie at the
    component of the round. *)
Lemma queues_deeper (sid : Z) (P : list Z) (n m : Z) (st st' : SubmitState)
    (new : list submittedCommand) :
  queues sid (P ++ [n]) m st st' new -> Forall (atIndex P n) (map id new).
Proof.
  intros (_ & _ & _ & _ & F & _).
  eapply Forall_impl; [exact F|]. intros x. apply fromIndex_deeper.
Qed.

Lemma submitSecondaries_queues (cmds : gmap Z (list commandBufferCommand))
    (sid i j k : Z) (cbc : commandBufferCommand) (scbs : list Z) :
  isCmdExecuteCommands cbc = true ->
  forall (scbi : nat) (bh : Behavior) (s : Shadow)
         (pending : list submittedCommand),
  exists new,
    queues sid [sid; i; j; k] (Z.of_nat scbi) (true, bh, s, pending)
      (submitSecondaries cmds sid i j k cbc scbi scbs (true, bh, s, pending))
      new.
Proof.
  intros Hx. induction scbs as [|scb rest IH]; intros scbi bh s pending.
  - exists []. apply queues_nil.
  - cbn [submitSecondaries].
    destruct (commandBuffers s !! scb) as [cbo|]; [|exists []; apply queues_nil].
    rewrite sread_label.
    destruct (secondaryCommands_spec sid i j k (Z.of_nat scbi) cbc
                (default [] (cmds !! scb))) as (S1 & F1 & Q1).
    set (block := secondaryCommands sid i j k (Z.of_nat scbi) cbc
                    (default [] (cmds !! scb))) in *.
    destruct (IH (S scbi) (Behavior_Read bh (VLabel (cb_end cbo))) s
                (pending ++ block)) as [new Hnew].
    exists (block ++ new).
    apply (queues_round sid [sid; i; j; k] (Z.of_nat scbi) _
             (true, Behavior_Read bh (VLabel (cb_end cbo)), s, pending ++ block)).
    + unfold queues. cbn [fst snd].
      split; [reflexivity|]. split; [reflexivity|].
      split; [destruct block; reflexivity|].
      split; [exact S1|]. split.
      * eapply Forall_impl; [exact F1|]. intros x. apply atIndex_fromIndex.
      * eapply Forall_impl; [exact Q1|]. cbn beta. intros sc [Hp [b Hb]].
        right. exists i, j, k, (Z.of_nat scbi), b, cbc. auto.
    + exact F1.
    + replace (Z.of_nat scbi + 1) with (Z.of_nat (S scbi)) by lia. exact Hnew.
Qed.

Lemma submitCommand_queues (cmds : gmap Z (list commandBufferCommand))
    (sid i j : Z) (k : nat) (cbc : commandBufferCommand) (st : SubmitState) :
  exists new,
    queues sid [sid; i; j] (Z.of_nat k) st
      (submitCommand cmds sid i j k cbc st) new /\
    Forall (atIndex [sid; i; j] (Z.of_nat k)) (map id new).
Proof.
  destruct st as [[[hc bh] s] pending]. unfold submitCommand.
  set (sc := mkSubmittedCommand [sid; i; j; Z.of_nat k] cbc None).
  assert (Hone : queues sid [sid; i; j] (Z.of_nat k) (hc, bh, s, pending)
                   (true, bh, s, pending ++ [sc]) [sc] /\
                 Forall (atIndex [sid; i; j] (Z.of_nat k)) (map id [sc])).
  { assert (Hat : atIndex [sid; i; j] (Z.of_nat k) (id sc))
      by (exists []; reflexivity).
    split; [|repeat constructor; exact Hat].
    unfold queues. cbn [fst snd map].
    split; [reflexivity|]. split; [reflexivity|]. split; [reflexivity|].
    split; [constructor; constructor|]. split.
    - constructor; [|constructor]. apply atIndex_fromIndex. exact Hat.
    - constructor; [|constructor]. left. exists i, j, (Z.of_nat k). auto. }
  destruct (isCmdExecuteCommands cbc) eqn:Hx; [|exists [sc]; exact Hone].
  destruct (submitSecondaries_queues cmds sid i j (Z.of_nat k) cbc
              (secondaryCommandBuffers cbc) Hx 0 bh s (pending ++ [sc]))
    as [new Hnew].
  destruct Hone as [Hq Hat].
  pose proof (queues_deeper sid [sid; i; j] (Z.of_nat k) _ _ _ _ Hnew) as Hdeep.
  exists ([sc] ++ new). split; [|rewrite map_app; apply Forall_app; auto].
  destruct Hq as (A1 & A2 & A3 & A4 & A5 & A6).
  destruct Hnew as (B1 & B2 & B3 & B4 & B5 & B6).
  unfold queues. cbn [fst snd] in *.
  split; [congruence|].
  split; [rewrite B2, <- app_assoc; reflexivity|].
  split; [rewrite B3; destruct new; reflexivity|].
  rewrite map_app. split.
  - apply StronglySorted_app; [exact A4|exact B4|].
    intros x y [<-|[]] Hy. rewrite List.Forall_forall in B5.
    destruct (B5 y Hy) as (a & _ & t & ->).
    apply (before_proper_prefix [sid; i; j; Z.of_nat k]).
  - split; [|apply Forall_app; auto].
    apply Forall_app. split; [exact A5|].
    eapply Forall_impl; [exact Hdeep|]. intros x. apply atIndex_fromIndex.
Qed.

Lemma submitCommands_queues (cmds : gmap Z (list commandBufferCommand))
    (sid i j : Z) (l : list commandBufferCommand) :
  forall (k : nat) (st : SubmitState),
  exists new,
    queues sid [sid; i; j] (Z.of_nat k) st
      (submitCommands cmds sid i j k l st) new.
Proof.
  induction l as [|cbc l IH]; intros k st.
  - exists []. apply queues_nil.
  - cbn [submitCommands].
    destruct (submitCommand_queues cmds sid i j k cbc st) as (new1 & H1 & Hat).
    destruct (IH (S k) (submitCommand cmds sid i j k cbc st)) as [new2 H2].
    exists (new1 ++ new2).
    apply (queues_round sid [sid; i; j] (Z.of_nat k) st _ _ _ _ H1 Hat).
    replace (Z.of_nat k + 1) with (Z.of_nat (S k)) by lia. exact H2.
Qed.

Lemma submitCommandBuffers_queues (cmds : gmap Z (list commandBufferCommand))
    (sid i : Z) (cbs : list Z) :
  forall (j : nat) (st : SubmitState),
  exists new,
    queues sid [sid; i] (Z.of_nat j) st
      (submitCommandBuffers cmds sid i j cbs st) new.
Proof.
  induction cbs as [|vkCb rest IH]; intros j st.
  - exists []. apply queues_nil.
  - destruct st as [[[hc bh] s] pending]. cbn [submitCommandBuffers].
    destruct (commandBuffers s !! vkCb) as [cbo|]; [|exists []; apply queues_nil].
    rewrite sread_label.
    set (st0 := (hc, Behavior_Read bh (VLabel (cb_end cbo)), s, pending)).
    destruct (submitCommands_queues cmds sid i (Z.of_nat j)
                (default [] (cmds !! vkCb)) 0 st0) as [new1 H1].
    set (st1 := submitCommands cmds sid i (Z.of_nat j) 0
                  (default [] (cmds !! vkCb)) st0) in *.
    destruct (IH (S j) st1) as [new2 H2].
    exists (new1 ++ new2).
    pose proof (queues_deeper sid [sid; i] (Z.of_nat j) _ _ _ _ H1) as Hat.
    apply (queues_round sid [sid; i] (Z.of_nat j) _ st1 _ new1 new2).
    + destruct H1 as (A1 & A2 & A3 & A4 & A5 & A6).
      unfold queues. cbn [fst snd] in *.
      split; [exact A1|]. split; [exact A2|]. split; [exact A3|].
      split; [exact A4|]. split; [|exact A6].
      eapply Forall_impl; [exact Hat|]. intros x. apply atIndex_fromIndex.
    + exact Hat.
    + replace (Z.of_nat j + 1) with (Z.of_nat (S j)) by lia. exact H2.
Qed.

Lemma submitLoop_queues (cmds : gmap Z (list commandBufferCommand))
    (contains : Z -> bool) (sid : Z) (submits : list SubmitArg) :
  forall (i : nat) (st : SubmitState) (ws ss : list Z),
  exists new,
    queues sid [sid] (Z.of_nat i) st
      (fst (fst (submitLoop cmds contains sid i submits st ws ss))) new.
Proof.
  induction submits as [|submit rest IH]; intros i st ws ss.
  - exists []. apply queues_nil.
  - cbn [submitLoop].
    destruct (submitCommandBuffers_queues cmds sid (Z.of_nat i)
                (PCommandBuffers submit) 0 st) as [new1 H1].
    set (st1 := submitCommandBuffers cmds sid (Z.of_nat i) 0
                  (PCommandBuffers submit) st) in *.
    destruct (IH (S i) st1 (ws ++ knownSemaphores contains (PWaitSemaphores submit))
                (ss ++ knownSemaphores contains (PSignalSemaphores submit)))
      as [new2 H2].
    exists (new1 ++ new2).
    pose proof (queues_deeper sid [sid] (Z.of_nat i) _ _ _ _ H1) as Hat.
    apply (queues_round sid [sid] (Z.of_nat i) _ st1 _ new1 new2).
    + destruct H1 as (A1 & A2 & A3 & A4 & A5 & A6).
      unfold queues. cbn [fst snd] in *.
      split; [exact A1|]. split; [exact A2|]. split; [exact A3|].
      split; [exact A4|]. split; [|exact A6].
      eapply Forall_impl; [exact Hat|]. intros x. apply atIndex_fromIndex.
    + exact Hat.
    + replace (Z.of_nat i + 1) with (Z.of_nat (S i)) by lia. exact H2.
Qed.

Lemma submitLoop_semaphores (cmds : gmap Z (list commandBufferCommand))
    (contains : Z -> bool) (sid : Z) (submits : list SubmitArg) :
  forall (i : nat) (st : SubmitState) (ws ss : list Z),
    snd (fst (submitLoop cmds contains sid i submits st ws ss))
    = ws ++ flat_map (fun x => knownSemaphores contains (PWaitSemaphores x))
              submits /\
    snd (submitLoop cmds contains sid i submits st ws ss)
    = ss ++ flat_map (fun x => knownSemaphores contains (PSignalSemaphores x))
              submits.
Proof.
  induction submits as [|submit rest IH]; intros i st ws ss.
  - simpl. rewrite !app_nil_r. auto.
  - cbn [submitLoop flat_map].
    destruct (IH (S i)
                (submitCommandBuffers cmds sid (Z.of_nat i) 0
                   (PCommandBuffers submit) st)
                (ws ++ knownSemaphores contains (PWaitSemaphores submit))
                (ss ++ knownSemaphores contains (PSignalSemaphores submit)))
      as [H1 H2].
    rewrite H1, H2, <- !app_assoc. auto.
Qed.

(** ** The queued commands are recorded commands *)

Lemma secondaryCommands_recorded (sid i j k scbi : Z) (cbc : commandBufferCommand)
    (l : list commandBufferCommand) :
  Forall (fun sc => In (cmd sc) l) (secondaryCommands sid i j k scbi cbc l).
Proof.
  unfold secondaryCommands. apply List.Forall_forall. intros sc Hsc.
  apply list_elem_of_In, elem_of_lookup_imap in Hsc.
  destruct Hsc as (n & c & -> & Hc). cbn [cmd].
  apply list_elem_of_In. eapply list_elem_of_lookup_2. exact Hc.
Qed.

Lemma recorded_default (cmds : gmap Z (list commandBufferCommand)) (cb : Z)
    (c : commandBufferCommand) :
  In c (default [] (cmds !! cb)) -> recorded cmds c.
Proof.
  destruct (cmds !! cb) as [l|] eqn:E; [|intros []].
  intros Hc. exists cb, l. auto.
Qed.

Lemma submitSecondaries_recorded (cmds : gmap Z (list commandBufferCommand))
    (sid i j k : Z) (cbc : commandBufferCommand) (scbs : list Z) :
  forall (scbi : nat) (st : SubmitState),
    Forall (fun sc => recorded cmds (cmd sc)) (snd st) ->
    Forall (fun sc => recorded cmds (cmd sc))
      (snd (submitSecondaries cmds sid i j k cbc scbi scbs st)).
Proof.
  induction scbs as [|scb rest IH]; intros scbi st Hst; [exact Hst|].
  destruct st as [[[hc bh] s] pending]. cbn [submitSecondaries].
  destruct (commandBuffers s !! scb) as [cbo|]; [|exact Hst].
  rewrite sread_label. apply IH. cbn [snd] in *.
  apply Forall_app. split; [exact Hst|].
  eapply Forall_impl; [apply secondaryCommands_recorded|].
  cbn beta. intros sc. apply recorded_default.
Qed.

Lemma submitCommands_recorded (cmds : gmap Z (list commandBufferCommand))
    (sid i j : Z) (l : list commandBufferCommand) :
  forall (k : nat) (st : SubmitState),
    Forall (recorded cmds) l ->
    Forall (fun sc => recorded cmds (cmd sc)) (snd st) ->
    Forall (fun sc => recorded cmds (cmd sc))
      (snd (submitCommands cmds sid i j k l st)).
Proof.
  induction l as [|cbc l IH]; intros k st Hl Hst; [exact Hst|].
  inversion Hl as [|? ? Hc Hl']; subst.
  cbn [submitCommands]. apply IH; [exact Hl'|].
  destruct st as [[[hc bh] s] pending]. unfold submitCommand.
  assert (Hone : Forall (fun sc => recorded cmds (cmd sc))
                   (pending ++ [mkSubmittedCommand [sid; i; j; Z.of_nat k] cbc None])).
  { apply Forall_app. split; [exact Hst|]. constructor; [exact Hc|constructor]. }
  destruct (isCmdExecuteCommands cbc); [|exact Hone].
  apply submitSecondaries_recorded. exact Hone.
Qed.

Lemma submitCommandBuffers_recorded (cmds : gmap Z (list commandBufferCommand))
    (sid i : Z) (cbs : list Z) :
  forall (j : nat) (st : SubmitState),
    Forall (fun sc => recorded cmds (cmd sc)) (snd st) ->
    Forall (fun sc => recorded cmds (cmd sc))
      (snd (submitCommandBuffers cmds sid i j cbs st)).
Proof.
  induction cbs as [|vkCb rest IH]; intros j st Hst; [exact Hst|].
  destruct st as [[[hc bh] s] pending]. cbn [submitCommandBuffers].
  destruct (commandBuffers s !! vkCb) as [cbo|]; [|exact Hst].
  rewrite sread_label. apply IH. apply submitCommands_recorded; [|exact Hst].
  apply List.Forall_forall. intros c. apply recorded_default.
Qed.

Lemma submitLoop_recorded (cmds : gmap Z (list commandBufferCommand))
    (contains : Z -> bool) (sid : Z) (submits : list SubmitArg) :
  forall (i : nat) (st : SubmitState) (ws ss : list Z),
    Forall (fun sc => recorded cmds (cmd sc)) (snd st) ->
    Forall (fun sc => recorded cmds (cmd sc))
      (snd (fst (fst (submitLoop cmds contains sid i submits st ws ss)))).
Proof.
  induction submits as [|submit rest IH]; intros i st ws ss Hst; [exact Hst|].
  cbn [submitLoop]. apply IH. apply submitCommandBuffers_recorded. exact Hst.
Qed.

(** What [queueSubmit] stores when it returns. *)
Lemma queueSubmit_inv (ov : Range -> Range -> bool) (it : Range -> Range -> Range)
    (vb : FootprintBuilder) (mapped : list (Z * DeviceMemoryObject))
    (observations : option (list Range)) (contains : Z -> bool) (bh : Behavior)
    (sid Queue : Z) (PSubmits : list SubmitArg) (Fence : Z)
    (bh' : Behavior) (vb' : FootprintBuilder) :
  queueSubmit ov it vb mapped observations contains bh sid Queue PSubmits Fence
  = Ok (bh', vb') ->
  exists info new,
    submitInfos vb' = <[sid := info]> (submitInfos vb) /\
    commands vb' = commands vb /\
    began info = false /\ queue info = Queue /\ signalFence info = Fence /\
    pendingCommands info = new /\
    waitSemaphores info
    = flat_map (fun x => knownSemaphores contains (PWaitSemaphores x)) PSubmits /\
    signalSemaphores info
    = flat_map (fun x => knownSemaphores contains (PSignalSemaphores x)) PSubmits /\
    StronglySorted before (map id new) /\
    Forall (fromIndex [sid] 0) (map id new) /\
    Forall (queuedBy sid) new /\
    Forall (fun sc => recorded (commands vb) (cmd sc)) new.
Proof.
  unfold queueSubmit.
  destruct (sread (shadow vb) bh [toVkHandle Queue]) as [[ok0 bh1] s1].
  cbn [newLabel].
  match goal with
  | |- context [submitLoop ?c ?k ?i ?n ?l ?st ?w ?s] =>
      pose proof (submitLoop_queues c k i l n st w s) as Hq;
      pose proof (submitLoop_semaphores c k i l n st w s) as Hs;
      pose proof (submitLoop_recorded c k i l n st w s
                    (List.Forall_nil _)) as Hrec;
      destruct (submitLoop c k i n l st w s) as [[st1 ws] ss]
  end.
  destruct st1 as [[[hc bh2] s5] pending].
  destruct Hq as [new (_ & Hp & _ & Hsorted & Hfrom & Hqueued)].
  destruct Hs as [Hws Hss]. cbn [fst snd app] in *. subst pending ws ss.
  destruct (writeCoherentMemoryData ov it mapped observations s5 bh2) as [bh3 s6].
  destruct (sread s6 bh3 [toVkHandle Fence]) as [[ok bh4] s7].
  match goal with
  | |- (rbind ?r _) = _ -> _ => destruct r as [[bh7 s10]|]; [|discriminate]
  end.
  cbn [rbind].
  destruct (swrite s10 bh7 _) as [[ok1 bh8] s11].
  destruct (fold_left (submitWaitStep hc) _ _) as [bh9 s12].
  destruct (fold_left (submitSignalStep hc) _ _) as [bh10 s13].
  destruct (sread s13 bh10 [toVkHandle Fence]) as [[ok2 bh11] s14].
  match goal with
  | |- (rbind ?r _) = _ -> _ => destruct r as [r2|]; [|discriminate]
  end.
  cbn [rbind]. intros [= <- <-].
  eexists. exists new.
  cbn [setShadow setSubmitInfos submitInfos commands began queue signalFence
       pendingCommands waitSemaphores signalSemaphores].
  repeat (split; [reflexivity|]). auto.
Qed.

(** ** What the arm leaves alone *)

Lemma keepsSync_refl (s : Shadow) : keepsSync s s.
Proof. split; reflexivity. Qed.

Lemma keepsSync_trans (s1 s2 s3 : Shadow) :
  keepsSync s1 s2 -> keepsSync s2 s3 -> keepsSync s1 s3.
Proof. intros [A B] [C D]. split; congruence. Qed.

Lemma frame_keepsSync (s s' : Shadow) : frame s s' -> keepsSync s s'.
Proof. unfold frame. intros ->. split; reflexivity. Qed.

Lemma submitWaitStep_fold (hasCmd : bool) (sems : list Z) :
  forall (bh : Behavior) (s : Shadow),
    frame s (snd (fold_left (submitWaitStep hasCmd) sems (bh, s))).
Proof.
  induction sems as [|sem sems IH]; intros bh s; [apply frame_refl|].
  cbn [fold_left]. unfold submitWaitStep at 2. rewrite sread_handle.
  destruct (negb (sem =? 0) && negb hasCmd).
  - step_emit. eapply frame_trans; [exact Hframe|apply IH].
  - apply IH.
Qed.

Lemma submitSignalStep_fold (hasCmd : bool) (sems : list Z) :
  forall (bh : Behavior) (s : Shadow),
    frame s (snd (fold_left (submitSignalStep hasCmd) sems (bh, s))).
Proof.
  induction sems as [|sem sems IH]; intros bh s; [apply frame_refl|].
  cbn [fold_left]. unfold submitSignalStep at 2. rewrite sread_handle.
  destruct (negb (sem =? 0) && negb hasCmd).
  - step_emit. eapply frame_trans; [exact Hframe|apply IH].
  - apply IH.
Qed.

Lemma coherentStep_frame (ov : Range -> Range -> bool)
    (it : Range -> Range -> Range) (ro : Range) (bh : Behavior) (s : Shadow)
    (entry : Z * DeviceMemoryObject) :
  frame s (snd (coherentStep ov it ro (bh, s) entry)).
Proof.
  unfold coherentStep. destruct entry as [vkDm mm].
  destruct (ov ro _); [|apply frame_refl].
  destruct (newMemorySpan _ _ _ _) as [ms em1].
  step_emit. eapply frame_trans; [apply frame_setEmitter|exact Hframe].
Qed.

Lemma writeCoherentMemoryData_frame (ov : Range -> Range -> bool)
    (it : Range -> Range -> Range) (mapped : list (Z * DeviceMemoryObject))
    (observations : option (list Range)) (s : Shadow) (bh : Behavior) :
  frame s (snd (writeCoherentMemoryData ov it mapped observations s bh)).
Proof.
  unfold writeCoherentMemoryData. destruct observations as [reads|];
    [|apply frame_refl].
  revert bh s. induction reads as [|ro reads IH]; intros bh s;
    [apply frame_refl|].
  cbn [fold_left].
  assert (Hin : forall m b s0,
            frame s0 (snd (fold_left (coherentStep ov it ro) m (b, s0)))).
  { induction m as [|e m IHm]; intros b s0; [apply frame_refl|].
    cbn [fold_left].
    pose proof (coherentStep_frame ov it ro b s0 e) as He.
    destruct (coherentStep ov it ro (b, s0) e) as [b1 s1]. cbn [snd] in He.
    eapply frame_trans; [exact He|apply IHm]. }
  specialize (Hin mapped bh s).
  destruct (fold_left (coherentStep ov it ro) mapped (bh, s)) as [b1 s1].
  cbn [snd] in Hin. eapply frame_trans; [exact Hin|apply IH].
Qed.

Lemma frame_fences (s s' : Shadow) : frame s s' -> fences s' = fences s.
Proof. unfold frame. intros ->. reflexivity. Qed.

Lemma frame_executionStates (s s' : Shadow) :
  frame s s' -> executionStates s' = executionStates s.
Proof. unfold frame. intros ->. reflexivity. Qed.

(** The fence and the queue of a submit that [queueSubmit] has taken. *)
Lemma queueSubmit_sync (ov : Range -> Range -> bool) (it : Range -> Range -> Range)
    (vb : FootprintBuilder) (mapped : list (Z * DeviceMemoryObject))
    (observations : option (list Range)) (contains : Z -> bool) (bh : Behavior)
    (sid Queue : Z) (PSubmits : list SubmitArg) (Fence : Z)
    (bh' : Behavior) (vb' : FootprintBuilder) :
  queueSubmit ov it vb mapped observations contains bh sid Queue PSubmits Fence
  = Ok (bh', vb') ->
  (Fence = 0 \/ is_Some (fences (shadow vb') !! Fence)) /\
  (exists qei,
     executionStates (shadow vb') !! Queue = Some qei /\ lastSubmitID qei = sid) /\
  fences (shadow vb') = fences (shadow vb).
Proof.
  unfold queueSubmit. rewrite sread_handle. cbn [newLabel].
  match goal with
  | |- context [submitLoop ?c ?k ?i ?n ?l ?st ?w ?s] =>
      pose proof (submitLoop_queues c k i l n st w s) as Hq;
      destruct (submitLoop c k i n l st w s) as [[st1 ws] ss]
  end.
  destruct st1 as [[[hc bh2] s5] pending].
  destruct Hq as [new (Hs5 & _)]. cbn [fst snd] in Hs5.
  pose proof (writeCoherentMemoryData_frame ov it mapped observations s5 bh2)
    as Hf6.
  destruct (writeCoherentMemoryData ov it mapped observations s5 bh2) as [bh3 s6].
  cbn [snd] in Hf6. rewrite sread_handle.
  assert (Hfence : forall f0 : Shadow, fences s6 = fences (shadow vb)).
  { intros _. rewrite (frame_fences _ _ Hf6), Hs5. reflexivity. }
  assert (Hexec : executionStates s6 !! Queue
                  = Some (setLastSubmitID
                            (default (newQueueExecutionState sid)
                               (executionStates (shadow vb) !! Queue)) sid)).
  { rewrite (frame_executionStates _ _ Hf6), Hs5.
    cbn [executionStates setNextLabelVal setExecutionStates].
    apply lookup_insert_eq. }
  assert (Hstep : forall (b : Behavior) (vbx : FootprintBuilder) s13,
            frame s6 s13 ->
            (Fence = 0 \/ is_Some (fences s6 !! Fence)) ->
            (Fence = 0 \/ is_Some (fences s13 !! Fence)) /\
            (exists qei,
               executionStates s13 !! Queue = Some qei /\ lastSubmitID qei = sid) /\
            fences s13 = fences (shadow vb)).
  { intros b vbx s13 Hfr Hfe.
    rewrite (frame_fences _ _ Hfr), (frame_executionStates _ _ Hfr).
    split; [exact Hfe|]. split; [|apply (Hfence s6)].
    eexists. split; [exact Hexec|reflexivity]. }
  destruct (Z.eqb_spec Fence 0) as [Hz|Hnz]; cbn [negb].
  - cbn [rbind]. rewrite swrite_label.
    pose proof (submitWaitStep_fold hc ws
                  (Behavior_Write bh3 (VLabel (nextLabelVal
                     (setExecutionStates (shadow vb)
                        (<[Queue := setLastSubmitID
                                     (default (newQueueExecutionState sid)
                                        (executionStates (shadow vb) !! Queue))
                                     sid]> (executionStates (shadow vb)))))))
                  s6) as Hw.
    destruct (fold_left (submitWaitStep hc) ws _) as [bh9 s12]. cbn [snd] in Hw.
    pose proof (submitSignalStep_fold hc ss bh9 s12) as Hg.
    destruct (fold_left (submitSignalStep hc) ss _) as [bh10 s13].
    cbn [snd] in Hg. rewrite sread_handle.
    destruct (Z.eqb_spec Fence 0) as [_|]; [|contradiction].
    cbn [negb andb rbind fst snd]. intros [= <- <-].
    cbn [shadow setShadow].
    apply (Hstep bh vb s13); [eapply frame_trans; eassumption|left; exact Hz].
  - destruct (fences s6 !! Fence) as [f|] eqn:Ef; [|discriminate].
    rewrite sread_label, swrite_label. cbn [rbind]. rewrite swrite_label.
    match goal with
    | |- context [fold_left (submitWaitStep hc) ws (?b, s6)] =>
        pose proof (submitWaitStep_fold hc ws b s6) as Hw;
        destruct (fold_left (submitWaitStep hc) ws (b, s6)) as [bh9 s12]
    end.
    cbn [snd] in Hw.
    pose proof (submitSignalStep_fold hc ss bh9 s12) as Hg.
    destruct (fold_left (submitSignalStep hc) ss _) as [bh10 s13].
    cbn [snd] in Hg. rewrite sread_handle.
    destruct (Z.eqb_spec Fence 0) as [|_]; [contradiction|].
    cbn [negb andb].
    assert (Hfr : frame s6 s13) by (eapply frame_trans; eassumption).
    destruct (negb hc).
    + rewrite (frame_fences _ _ Hfr), Ef, swrite_label.
      cbn [rbind fst snd]. intros [= <- <-]. cbn [shadow setShadow].
      apply (Hstep bh vb s13 Hfr). right. rewrite ?Ef. eauto.
    + cbn [rbind fst snd]. intros [= <- <-]. cbn [shadow setShadow].
      apply (Hstep bh vb s13 Hfr). right. rewrite ?Ef. eauto.
Qed.

(** ** Rolling out a submit in the order of its queue *)

Lemma updateCurrentCommand_keepsSync (s : Shadow) (qei : queueExecutionState)
    (fci : list Z) :
  keepsSync s (snd (updateCurrentCommand s qei fci)).
Proof.
  unfold updateCurrentCommand, newCommandBufferExecutionState, newLabel.
  destruct (length fci =? 4)%nat.
  - destruct (SubCmdIdx_LessThan _ _); split; reflexivity.
  - destruct (length fci =? 6)%nat.
    + destruct (negb _); [split; reflexivity|].
      destruct (SubCmdIdx_LessThan _ _); split; reflexivity.
    + split; reflexivity.
Qed.

(** The round of [rollOutExecuted] for the command at the head of the
    queue of its submit, when that command returns. *)
Lemma rollOutStep_head (vb : FootprintBuilder) (sid : Z) (info : queueSubmitInfo)
    (sc : submittedCommand) (rest : list submittedCommand) :
  submitInfos vb !! sid = Some info ->
  pendingCommands info = sc :: rest ->
  head (id sc) = Some sid ->
  returning (behave (cmd sc)) ->
  is_Some (executionStates (shadow vb) !! queue info) ->
  signalFence info = 0 \/ is_Some (fences (shadow vb) !! signalFence info) ->
  exists vb' info',
    rollOutStep vb (id sc) = Ok (true, vb') /\
    submitInfos vb' = <[sid := info']> (submitInfos vb) /\
    pendingCommands info' = rest /\ began info' = true /\
    queue info' = queue info /\ signalFence info' = signalFence info /\
    fences (shadow vb') = fences (shadow vb) /\
    is_Some (executionStates (shadow vb') !! queue info) /\
    commands vb' = commands vb.
Proof.
  intros Hinfo Hpend Hhead Hret Hexec Hfence.
  unfold rollOutStep.
  destruct (id sc) as [|x tl] eqn:Hid; [discriminate|].
  injection Hhead as ->. rewrite Hinfo.
  destruct (beginSubmit_spec (shadow vb) sid info) as (Hp & _ & Hfr).
  destruct (beginSubmit_fields (shadow vb) sid info) as (Hq & _ & _ & _ & Hf).
  assert (Hb : began (fst (beginSubmit (shadow vb) sid info)) = true).
  { unfold beginSubmit. destruct (began info) eqn:E; [exact E|].
    destruct (beganBehavior _ _ _). reflexivity. }
  set (info1 := fst (beginSubmit (shadow vb) sid info)) in *.
  set (s0 := snd (beginSubmit (shadow vb) sid info)) in *.
  rewrite Hp, Hpend. unfold SubCmdIdx_Equals.
  rewrite bool_decide_eq_true_2 by congruence.
  unfold runSubmitted. rewrite Hq.
  destruct Hexec as [qei Hqei].
  rewrite (frame_executionStates _ _ Hfr), Hqei.
  match goal with
  | |- context [updateCurrentCommand s0 ?q ?f] =>
      pose proof (updateCurrentCommand_keepsSync s0 q f) as [Hk1 Hk2];
      destruct (updateCurrentCommand s0 q f) as [execInfo2 s1]
  end.
  cbn [snd] in Hk1, Hk2.
  match goal with
  | |- context [behave (cmd sc) ?c ?s2] =>
      destruct (Hret c s2) as (s3 & -> & Hf3 & He3)
  end.
  cbn [rbind].
  assert (Hfences3 : fences s3 = fences (shadow vb)).
  { rewrite Hf3. cbn [fences setExecutionStates].
    rewrite Hk1. apply (frame_fences _ _ Hfr). }
  assert (Hexec3 : is_Some (executionStates s3 !! queue info)).
  { apply He3. cbn [executionStates setExecutionStates].
    rewrite lookup_insert_eq. eauto. }
  destruct rest as [|sc2 rest].
  - cbn [finishSubmit].
    destruct (terminalBehavior_spec s3 sid info1) as (tb & -> & _).
    { rewrite Hf, Hfences3. exact Hfence. }
    cbn [rbind fst snd]. do 2 eexists. split; [reflexivity|].
    cbn [setShadow setSubmitInfos submitInfos shadow setPendingCommands
         pendingCommands began queue signalFence AddBehavior fences
         executionStates commands].
    repeat split; auto.
  - cbn [finishSubmit rbind]. do 2 eexists. split; [reflexivity|].
    cbn [setShadow setSubmitInfos submitInfos shadow setPendingCommands
         pendingCommands began queue signalFence commands].
    repeat split; auto.
Qed.

Lemma rollOutExecuted_in_order (sid : Z) (pend : list submittedCommand) :
  forall (vb : FootprintBuilder) (info : queueSubmitInfo),
  submitInfos vb !! sid = Some info ->
  pendingCommands info = pend ->
  Forall (fun sc => head (id sc) = Some sid /\ returning (behave (cmd sc))) pend ->
  is_Some (executionStates (shadow vb) !! queue info) ->
  signalFence info = 0 \/ is_Some (fences (shadow vb) !! signalFence info) ->
  exists vb' info',
    rollOutExecuted vb (map id pend) = Ok vb' /\
    submitInfos vb' !! sid = Some info' /\
    pendingCommands info' = [] /\
    (pend <> [] -> began info' = true) /\
    (forall other, other <> sid ->
                   submitInfos vb' !! other = submitInfos vb !! other) /\
    commands vb' = commands vb.
Proof.
  induction pend as [|sc rest IH]; intros vb info Hinfo Hpend Hall Hexec Hfence.
  - exists vb, info. cbn [map rollOutExecuted].
    split; [reflexivity|]. split; [exact Hinfo|]. split; [exact Hpend|].
    split; [congruence|]. split; [reflexivity|reflexivity].
  - inversion Hall as [|? ? [Hhead Hret] Hrest]; subst.
    destruct (rollOutStep_head vb sid info sc rest Hinfo Hpend Hhead Hret Hexec
                Hfence)
      as (vb1 & info1 & Hstep & Hmap & Hp1 & Hb1 & Hq1 & Hf1 & Hfe1 & Hex1 & Hc1).
    cbn [map rollOutExecuted]. rewrite Hstep. cbn [rbind fst snd].
    destruct (IH vb1 info1) as (vb' & info' & Hroll & Hl & Hp' & Hb' & Hother & Hc').
    + rewrite Hmap. apply lookup_insert_eq.
    + exact Hp1.
    + exact Hrest.
    + rewrite Hq1. exact Hex1.
    + rewrite Hf1, Hfe1. exact Hfence.
    + exists vb', info'. split; [exact Hroll|]. split; [exact Hl|].
      split; [exact Hp'|]. split.
      * intros _. destruct rest as [|sc2 rest'].
        -- cbn [map rollOutExecuted] in Hroll. injection Hroll as <-.
           rewrite Hmap, lookup_insert_eq in Hl. congruence.
        -- apply Hb'. discriminate.
      * split; [|congruence].
        intros other Hne. rewrite (Hother other Hne), Hmap.
        apply lookup_insert_ne. congruence.
Qed.

Lemma lastDrawTail_returns (vb : FootprintBuilder) (co : Collaborator) (cmdId : Z) :
  exists s',
    lastDrawTail vb co cmdId = Ok (setShadow vb s') /\ frame (shadow vb) s'.
Proof.
  unfold lastDrawTail.
  destruct (lastDrawStep_fold (lastDrawImages co) [] (shadow vb))
    as (fbData & s2 & -> & Hf & _).
  cbn [rbind]. destruct fbData as [|d fbData].
  - exists s2. split; [reflexivity|exact Hf].
  - step_emit. eexists. split; [reflexivity|].
    eapply frame_trans; [exact Hf|].
    eapply frame_trans; [exact Hframe|apply frame_AddBehavior].
Qed.

Lemma before_irrefl (x : list Z) : ~ before x x.
Proof.
  unfold before. induction x as [|a x IH]; simpl; [discriminate|].
  rewrite Z.ltb_irrefl. exact IH.
Qed.

Lemma StronglySorted_NoDup (l : list (list Z)) :
  StronglySorted before l -> NoDup l.
Proof.
  induction 1 as [|x l Hs IH Hx]; [constructor|].
  apply NoDup_cons. split; [|exact IH].
  intros Hin. apply list_elem_of_In in Hin.
  rewrite List.Forall_forall in Hx. exact (before_irrefl x (Hx x Hin)).
Qed.

Lemma queuedBy_head (sid : Z) (sc : submittedCommand) :
  queuedBy sid sc -> head (id sc) = Some sid.
Proof.
  intros [(i & j & k & -> & _)|(i & j & k & a & b & p & -> & _)]; reflexivity.
Qed.

Lemma newBehavior_frame (s : Shadow) (c : SubCtx) :
  frame s (snd (newBehavior s c)).
Proof.
  unfold newBehavior. do 2 step_emit.
  destruct (ctx_parentCmd c).
  - step_emit. eapply frame_trans; [exact Hframe|].
    eapply frame_trans; [exact Hframe0|exact Hframe1].
  - eapply frame_trans; eassumption.
Qed.

Lemma frame_returning (f : SubCtx -> Shadow -> res Shadow) :
  (forall c s, exists s', f c s = Ok s' /\ frame s s') -> returning f.
Proof.
  intros Hf c s. destruct (Hf c s) as (s' & E & Hfr).
  exists s'. split; [exact E|]. split; [apply (frame_fences _ _ Hfr)|].
  intros q. rewrite (frame_executionStates _ _ Hfr). auto.
Qed.

(** The deferred commands of [keepSubmittedCommandAlive] and of
    [recordReadsWritesModifies] return. *)
Lemma keepAliveBehave_returning : returning keepAliveBehave.
Proof.
  apply frame_returning. intros c s. unfold keepAliveBehave.
  pose proof (newBehavior_frame s c) as Hf.
  destruct (newBehavior s c) as [cbh s1]. cbn [snd] in Hf.
  eexists. split; [reflexivity|].
  eapply frame_trans; [exact Hf|apply frame_AddBehavior].
Qed.

Lemma readsWritesModifiesBehave_returning (reads writes modifies : list DefUseVariable) :
  returning (readsWritesModifiesBehave reads writes modifies).
Proof.
  apply frame_returning. intros c s. unfold readsWritesModifiesBehave.
  pose proof (newBehavior_frame s c) as Hf.
  destruct (newBehavior s c) as [cbh s1]. cbn [snd] in Hf.
  do 3 step_emit. eexists. split; [reflexivity|].
  eapply frame_trans; [exact Hf|].
  eapply frame_trans; [exact Hframe|].
  eapply frame_trans; [exact Hframe0|].
  eapply frame_trans; [exact Hframe1|apply frame_AddBehavior].
Qed.

(** X11.  What [VkQueueSubmit] queues.  When the arm returns, the builder
    holds under the id of the command a submit info that has not begun,
    with the queue and the fence of the command and, of every submit, the
    semaphores up to the first one that the state does not contain.  Each
    pending command is a command of a primary command buffer, with the
    index [[id; i; j; k]] and no parent, or a command of a secondary
    command buffer, with the index [[id; i; j; k; a; b]] and a
    [VkCmdExecuteCommands] command as its parent; the indices increase
    strictly in the order of execution, so that no two pending commands
    share one.  The other submit infos and the recorded commands are left
    as they were, and the execution state of the queue has the command as
    its last submit. *)
Theorem queueSubmit_queues_the_commands_in_index_order
    (ov : Range -> Range -> bool) (it : Range -> Range -> Range)
    (vb : FootprintBuilder) (mapped : list (Z * DeviceMemoryObject))
    (observations : option (list Range)) (contains : Z -> bool) (bh : Behavior)
    (sid Queue : Z) (PSubmits : list SubmitArg) (Fence : Z)
    (bh' : Behavior) (vb' : FootprintBuilder) :
  queueSubmit ov it vb mapped observations contains bh sid Queue PSubmits Fence
  = Ok (bh', vb') ->
  exists info,
    submitInfos vb' !! sid = Some info /\
    began info = false /\ queue info = Queue /\ signalFence info = Fence /\
    waitSemaphores info
    = flat_map (fun x => knownSemaphores contains (PWaitSemaphores x)) PSubmits /\
    signalSemaphores info
    = flat_map (fun x => knownSemaphores contains (PSignalSemaphores x)) PSubmits /\
    Forall (queuedBy sid) (pendingCommands info) /\
    StronglySorted before (map id (pendingCommands info)) /\
    NoDup (map id (pendingCommands info)) /\
    (forall other, other <> sid ->
                   submitInfos vb' !! other = submitInfos vb !! other) /\
    commands vb' = commands vb /\
    exists qei,
      executionStates (shadow vb') !! Queue = Some qei /\ lastSubmitID qei = sid.
Proof.
  intros Hsubmit.
  destruct (queueSubmit_inv _ _ _ _ _ _ _ _ _ _ _ _ _ Hsubmit)
    as (info & new & Hmap & Hc & Hb & Hq & Hf & Hp & Hw & Hs & Hsorted & _ & Hqueued
        & _).
  destruct (queueSubmit_sync _ _ _ _ _ _ _ _ _ _ _ _ _ Hsubmit) as (_ & Hexec & _).
  exists info. rewrite Hp.
  split; [rewrite Hmap; apply lookup_insert_eq|].
  repeat (split; [assumption|]).
  split; [apply StronglySorted_NoDup; exact Hsorted|].
  split; [|split; assumption].
  intros other Hne. rewrite Hmap. apply lookup_insert_ne. congruence.
Qed.

Lemma queueSubmit_queues_the_commands_in_index_order_witness :
  exists bh' vb' info,
    queueSubmit (fun _ _ => false) (fun r _ => r) exampleBuilder [] None
      (fun _ => true) (NewBehavior [1]) 1 3 [mkSubmitArg [7] [] []] 0
    = Ok (bh', vb') /\
    submitInfos vb' !! 1 = Some info /\
    map id (pendingCommands info)
    = [[1; 0; 0; 0]; [1; 0; 0; 1]; [1; 0; 0; 1; 0; 0]] /\
    StronglySorted before (map id (pendingCommands info)).
Proof.
  assert (Hids : queuedIndices
                   (queueSubmit (fun _ _ => false) (fun r _ => r) exampleBuilder
                      [] None (fun _ => true) (NewBehavior [1]) 1 3
                      [mkSubmitArg [7] [] []] 0) 1
                 = Some [[1; 0; 0; 0]; [1; 0; 0; 1]; [1; 0; 0; 1; 0; 0]])
    by (vm_compute; reflexivity).
  destruct (queueSubmit (fun _ _ => false) (fun r _ => r) exampleBuilder [] None
              (fun _ => true) (NewBehavior [1]) 1 3 [mkSubmitArg [7] [] []] 0)
    as [[bh' vb']|] eqn:E; [|discriminate].
  destruct (queueSubmit_queues_the_commands_in_index_order _ _ _ _ _ _ _ _ _ _ _
              _ _ E) as (info & Hl & _ & _ & _ & _ & _ & _ & Hsorted & _).
  exists bh', vb', info. split; [reflexivity|]. split; [exact Hl|].
  split; [|exact Hsorted].
  cbn [queuedIndices] in Hids. rewrite Hl in Hids. congruence.
Defined.

(** X12.  A submit whose subcommands are executed in the order of its queue
    is rolled out to the end.  When every recorded command returns when it
    runs, the arm of [VkQueueSubmit] returns, and the executed indices that
    the callback has collected are the indices of the queue in their
    order, [BuildFootprint] returns with the queue of the submit empty;
    the submit has begun when it had a command; the recorded commands stay
    what they were. *)
Theorem submit_executed_in_order_is_rolled_out
    (ov : Range -> Range -> bool) (it : Range -> Range -> Range)
    (vb : FootprintBuilder) (co : Collaborator)
    (mapped : list (Z * DeviceMemoryObject))
    (observations : option (list Range)) (contains : Z -> bool)
    (sid Queue : Z) (PSubmits : list SubmitArg) (Fence : Z)
    (bh : Behavior) (vb1 : FootprintBuilder) (info : queueSubmitInfo) :
  mutateFails co = false ->
  (forall c, recorded (commands vb) c -> returning (behave c)) ->
  queueSubmit ov it vb mapped observations contains (NewBehavior [sid]) sid Queue
    PSubmits Fence = Ok (bh, vb1) ->
  submitInfos vb1 !! sid = Some info ->
  exists vb' info',
    BuildFootprint_VkQueueSubmit ov it vb co mapped observations contains
      (map id (pendingCommands info)) sid Queue PSubmits Fence = Ok vb' /\
    submitInfos vb' !! sid = Some info' /\
    pendingCommands info' = [] /\
    (pendingCommands info <> [] -> began info' = true) /\
    commands vb' = commands vb.
Proof.
  intros Hmut Hret Hsubmit Hinfo.
  destruct (queueSubmit_inv _ _ _ _ _ _ _ _ _ _ _ _ _ Hsubmit)
    as (info0 & new & Hmap & Hc & _ & Hq & Hf & Hp & _ & _ & _ & _ & Hqueued
        & Hrec).
  destruct (queueSubmit_sync _ _ _ _ _ _ _ _ _ _ _ _ _ Hsubmit)
    as (Hfence & (qei & Hqei & _) & _).
  assert (info0 = info).
  { rewrite Hmap, lookup_insert_eq in Hinfo. congruence. }
  subst info0. subst new.
  unfold BuildFootprint_VkQueueSubmit. rewrite Hmut, Hsubmit. cbn [rbind].
  destruct (rollOutExecuted_in_order sid (pendingCommands info)
              (setShadow vb1 (AddBehavior (shadow vb1) bh)) info)
    as (vb2 & info' & Hroll & Hl & Hp' & Hb' & _ & Hc').
  - exact Hinfo.
  - reflexivity.
  - rewrite List.Forall_forall in Hqueued, Hrec |- *. intros sc Hsc.
    split; [apply (queuedBy_head sid), Hqueued, Hsc|apply Hret, Hrec, Hsc].
  - rewrite Hq. cbn [shadow setShadow AddBehavior executionStates].
    rewrite Hqei. eauto.
  - rewrite Hf. exact Hfence.
  - rewrite Hroll. cbn [rbind].
    destruct (lastDrawTail_returns vb2 co sid) as (s' & -> & _).
    exists (setShadow vb2 s'), info'.
    split; [reflexivity|]. split; [exact Hl|]. split; [exact Hp'|].
    split; [exact Hb'|]. cbn [commands setShadow] in *. congruence.
Qed.

(** The recorded commands of the example builder return. *)
Lemma exampleBuilder_commands_return (c : commandBufferCommand) :
  recorded (commands exampleBuilder) c -> returning (behave c).
Proof.
  intros (cb & l & Hl & Hc). cbn [commands exampleBuilder] in Hl.
  apply lookup_insert_Some in Hl as [[<- <-]|[_ Hl]].
  - destruct Hc as [<-|[<-|[]]]; cbn [behave].
    + apply keepAliveBehave_returning.
    + apply frame_returning. intros c s. exists s. split; [reflexivity|].
      apply frame_refl.
  - apply lookup_singleton_Some in Hl as [<- <-].
    destruct Hc as [<-|[]]. apply keepAliveBehave_returning.
Qed.

Lemma submit_executed_in_order_is_rolled_out_witness :
  exists vb' info',
    BuildFootprint_VkQueueSubmit (fun _ _ => false) (fun r _ => r) exampleBuilder
      (mkCollaborator false []) [] None (fun _ => true)
      [[1; 0; 0; 0]; [1; 0; 0; 1]; [1; 0; 0; 1; 0; 0]] 1 3
      [mkSubmitArg [7] [] []] 0 = Ok vb' /\
    submitInfos vb' !! 1 = Some info' /\ pendingCommands info' = [].
Proof.
  assert (Hids : queuedIndices
                   (queueSubmit (fun _ _ => false) (fun r _ => r) exampleBuilder
                      [] None (fun _ => true) (NewBehavior [1]) 1 3
                      [mkSubmitArg [7] [] []] 0) 1
                 = Some [[1; 0; 0; 0]; [1; 0; 0; 1]; [1; 0; 0; 1; 0; 0]])
    by (vm_compute; reflexivity).
  destruct (queueSubmit (fun _ _ => false) (fun r _ => r) exampleBuilder [] None
              (fun _ => true) (NewBehavior [1]) 1 3 [mkSubmitArg [7] [] []] 0)
    as [[bh vb1]|] eqn:E; [|discriminate].
  cbn [queuedIndices] in Hids.
  destruct (submitInfos vb1 !! 1) as [info|] eqn:Hinfo; [|discriminate].
  injection Hids as Hids.
  destruct (submit_executed_in_order_is_rolled_out (fun _ _ => false)
              (fun r _ => r) exampleBuilder (mkCollaborator false []) [] None
              (fun _ => true) 1 3 [mkSubmitArg [7] [] []] 0 bh vb1 info
              eq_refl exampleBuilder_commands_return E Hinfo)
    as (vb' & info' & Hbuild & Hl & Hp & _).
  exists vb', info'. rewrite <- Hids. auto.
Defined.

(** ** Command buffers that are not known *)

Lemma submitCommandBuffers_stops (cmds : gmap Z (list commandBufferCommand))
    (sid i : Z) (good rest : list Z) (bad : Z) :
  forall (j : nat) (st : SubmitState),
    commandBuffers (snd (fst st)) !! bad = None ->
    submitCommandBuffers cmds sid i j (good ++ bad :: rest) st
    = submitCommandBuffers cmds sid i j good st.
Proof.
  induction good as [|vkCb good IH]; intros j st Hbad.
  - destruct st as [[[hc bh] s] pending]. cbn [app submitCommandBuffers].
    cbn [fst snd] in Hbad. rewrite Hbad. reflexivity.
  - destruct st as [[[hc bh] s] pending]. cbn [app submitCommandBuffers].
    destruct (commandBuffers s !! vkCb) as [cbo|]; [|reflexivity].
    rewrite sread_label. apply IH.
    destruct (submitCommands_queues cmds sid i (Z.of_nat j)
                (default [] (cmds !! vkCb)) 0
                (hc, Behavior_Read bh (VLabel (cb_end cbo)), s, pending))
      as [new (Hs & _)].
    rewrite Hs. exact Hbad.
Qed.

Lemma submitLoop_stops (cmds : gmap Z (list commandBufferCommand))
    (contains : Z -> bool) (sid : Z) (before_ after : list SubmitArg)
    (good rest ws0 ss0 : list Z) (bad : Z) :
  forall (i : nat) (st : SubmitState) (ws ss : list Z),
    commandBuffers (snd (fst st)) !! bad = None ->
    submitLoop cmds contains sid i
      (before_ ++ mkSubmitArg (good ++ bad :: rest) ws0 ss0 :: after) st ws ss
    = submitLoop cmds contains sid i
        (before_ ++ mkSubmitArg good ws0 ss0 :: after) st ws ss.
Proof.
  induction before_ as [|submit before_ IH]; intros i st ws ss Hbad.
  - cbn [app submitLoop PCommandBuffers PWaitSemaphores PSignalSemaphores].
    rewrite (submitCommandBuffers_stops cmds sid (Z.of_nat i) good rest bad 0 st
               Hbad).
    reflexivity.
  - cbn [app submitLoop]. apply IH.
    destruct (submitCommandBuffers_queues cmds sid (Z.of_nat i)
                (PCommandBuffers submit) 0 st) as [new (Hs & _)].
    rewrite Hs. exact Hbad.
Qed.

(** X13.  A command buffer that the builder does not know ends the
    traversal of the command buffers of its submit: [VkQueueSubmit] does
    what it would do if the submit ended in front of that command buffer,
    whatever command buffers follow it; the submits behind are still
    taken. *)
Theorem unknown_command_buffer_ends_the_submit
    (ov : Range -> Range -> bool) (it : Range -> Range -> Range)
    (vb : FootprintBuilder) (mapped : list (Z * DeviceMemoryObject))
    (observations : option (list Range)) (contains : Z -> bool) (bh : Behavior)
    (sid Queue Fence : Z) (before_ after : list SubmitArg)
    (good rest ws ss : list Z) (bad : Z) :
  commandBuffers (shadow vb) !! bad = None ->
  queueSubmit ov it vb mapped observations contains bh sid Queue
    (before_ ++ mkSubmitArg (good ++ bad :: rest) ws ss :: after) Fence
  = queueSubmit ov it vb mapped observations contains bh sid Queue
      (before_ ++ mkSubmitArg good ws ss :: after) Fence.
Proof.
  intros Hbad. unfold queueSubmit. rewrite sread_handle. cbn [newLabel].
  rewrite submitLoop_stops; [reflexivity|exact Hbad].
Qed.

Lemma unknown_command_buffer_ends_the_submit_witness :
  queueSubmit (fun _ _ => false) (fun r _ => r) exampleBuilder [] None
    (fun _ => true) (NewBehavior [1]) 1 3
    ([] ++ mkSubmitArg ([7] ++ 9 :: [8]) [] [] :: []) 0
  = queueSubmit (fun _ _ => false) (fun r _ => r) exampleBuilder [] None
      (fun _ => true) (NewBehavior [1]) 1 3
      ([] ++ mkSubmitArg [7] [] [] :: []) 0.
Proof.
  apply unknown_command_buffer_ends_the_submit. reflexivity.
Defined.

(** * Objects and their labels *)

Lemma bindingLabelsBelow_mono (n m : Z) (l : list resBinding) :
  n <= m -> bindingLabelsBelow n l -> bindingLabelsBelow m l.
Proof.
  intros Hnm. unfold bindingLabelsBelow. apply List.Forall_impl.
  intros b Hb x Hx. specialize (Hb x Hx). lia.
Qed.

Lemma stateLabelsBelow_mono (n m : Z) (st : option commandBufferExecutionState) :
  n <= m -> stateLabelsBelow n st -> stateLabelsBelow m st.
Proof.
  intros Hnm H x Hx. destruct (H x Hx) as (A & B & C & D).
  split; [lia|]. split; [lia|].
  split; [eapply bindingLabelsBelow_mono; eassumption|].
  eapply map_Forall_impl; [exact D|]. cbn beta. intros k l.
  apply bindingLabelsBelow_mono. exact Hnm.
Qed.

Lemma labelsBelow_mono (n m : Z) (s : Shadow) :
  n <= m -> labelsBelow n s -> labelsBelow m s.
Proof.
  intros Hnm (A & B & C & D & E & F & G & H & I).
  unfold labelsBelow.
  split; [eapply map_Forall_impl; [exact A|]; cbn beta; intros; lia|].
  split; [eapply map_Forall_impl; [exact B|]; cbn beta; intros; lia|].
  split.
  { eapply map_Forall_impl; [exact C|]. cbn beta. intros k qp.
    apply List.Forall_impl. intros q. lia. }
  split; [eapply map_Forall_impl; [exact D|]; cbn beta; intros; lia|].
  split.
  { eapply map_Forall_impl; [exact E|]. cbn beta. intros k img [H1 H2].
    split; [lia|eapply bindingLabelsBelow_mono; eassumption]. }
  split.
  { eapply map_Forall_impl; [exact F|]. cbn beta. intros k l.
    apply bindingLabelsBelow_mono. exact Hnm. }
  split.
  { eapply map_Forall_impl; [exact G|]. cbn beta. intros k q [H1 H2].
    split; eapply stateLabelsBelow_mono; eassumption. }
  split.
  { eapply map_Forall_impl; [exact H|]. cbn beta. intros k l.
    apply List.Forall_impl. intros x. lia. }
  eapply map_Forall_impl; [exact I|]. cbn beta. intros k l.
  apply List.Forall_impl. intros x. lia.
Qed.

Lemma frame_labelsBelow (n : Z) (s s' : Shadow) :
  frame s s' -> labelsBelow n s -> labelsBelow n s'.
Proof. unfold frame. intros ->. exact (fun H => H). Qed.

Lemma frame_nextLabelVal (s s' : Shadow) :
  frame s s' -> nextLabelVal s' = nextLabelVal s.
Proof. unfold frame. intros ->. reflexivity. Qed.

Lemma newLabel_value (s : Shadow) :
  0 <= nextLabelVal s -> nextLabelVal s + 1 < two64 ->
  newLabel s = (nextLabelVal s, setNextLabelVal s (nextLabelVal s + 1)).
Proof. intros H0 H1. unfold newLabel. rewrite add64_small by lia. reflexivity. Qed.

(** The components of [labelsBelow], for a state given by its fields. *)
Ltac labels_split :=
  unfold labelsBelow;
  cbn [semaphoreSignals fences querypools commandBuffers images buffers
       executionStates swapchainImageAcquired swapchainImagePresented
       setSemaphoreSignals setFences setQuerypools setCommandBuffers setImages
       setBuffers setNextLabelVal setExecutionStates setEmitter AddBehavior
       withEmitterAndFootprint];
  repeat match goal with |- _ /\ _ => split end.

Lemma labelsBelow_setNextLabelVal (n m : Z) (s : Shadow) :
  labelsBelow n s -> labelsBelow n (setNextLabelVal s m).
Proof. exact (fun H => H). Qed.

Lemma labelsBelow_semaphore (n l : Z) (s : Shadow) (k : Z) :
  labelsBelow n s -> l < n ->
  labelsBelow n (setSemaphoreSignals s (<[k := l]> (semaphoreSignals s))).
Proof.
  intros (A & B & C & D & E & F & G & H & I) Hl. labels_split; try assumption.
  apply map_Forall_insert_2; assumption.
Qed.

Lemma labelsBelow_fence (n : Z) (s : Shadow) (k : Z) (f : fence) :
  labelsBelow n s -> fence_signal f < n -> fence_unsignal f < n ->
  labelsBelow n (setFences s (<[k := f]> (fences s))).
Proof.
  intros (A & B & C & D & E & F & G & H & I) H1 H2. labels_split; try assumption.
  apply map_Forall_insert_2; auto.
Qed.

Lemma labelsBelow_querypool (n : Z) (s : Shadow) (k : Z) (qp : queryPool) :
  labelsBelow n s ->
  Forall (fun q => query_reset q < n /\ query_begin q < n /\
                   query_end q < n /\ query_result q < n) (queries qp) ->
  labelsBelow n (setQuerypools s (<[k := qp]> (querypools s))).
Proof.
  intros (A & B & C & D & E & F & G & H & I) H1. labels_split; try assumption.
  apply map_Forall_insert_2; auto.
Qed.

Lemma labelsBelow_commandBuffer (n : Z) (s : Shadow) (k : Z) (cb : commandBuffer) :
  labelsBelow n s ->
  cb_begin cb < n -> cb_end cb < n -> cb_renderPassBegin cb < n ->
  labelsBelow n (setCommandBuffers s (<[k := cb]> (commandBuffers s))).
Proof.
  intros (A & B & C & D & E & F & G & H & I) H1 H2 H3.
  labels_split; try assumption. apply map_Forall_insert_2; auto.
Qed.

Lemma labelsBelow_image (n : Z) (s : Shadow) (k : Z) (img : imageLayoutAndData) :
  labelsBelow n s -> layout img < n -> bindingLabelsBelow n (opaqueData img) ->
  labelsBelow n (setImages s (<[k := img]> (images s))).
Proof.
  intros (A & B & C & D & E & F & G & H & I) H1 H2.
  labels_split; try assumption. apply map_Forall_insert_2; auto.
Qed.

Lemma labelsBelow_delete (n : Z) (s : Shadow) (k : Z) :
  labelsBelow n s ->
  labelsBelow n (setSemaphoreSignals s (delete k (semaphoreSignals s))) /\
  labelsBelow n (setFences s (delete k (fences s))) /\
  labelsBelow n (setQuerypools s (delete k (querypools s))) /\
  labelsBelow n (setCommandBuffers s (delete k (commandBuffers s))) /\
  labelsBelow n (setImages s (delete k (images s))) /\
  labelsBelow n (setBuffers s (delete k (buffers s))).
Proof.
  intros (A & B & C & D & E & F & G & H & I).
  split; [|split; [|split; [|split; [|split]]]];
    labels_split; try assumption; apply map_Forall_delete; assumption.
Qed.

Lemma fold_res_frame {A : Type}
    (step : res (Behavior * Shadow) -> A -> res (Behavior * Shadow)) :
  (forall a, step Panic a = Panic) ->
  (forall bh s a bh' s', step (Ok (bh, s)) a = Ok (bh', s') -> frame s s') ->
  forall (l : list A) (bh : Behavior) (s : Shadow) (bh' : Behavior) (s' : Shadow),
    fold_left step l (Ok (bh, s)) = Ok (bh', s') -> frame s s'.
Proof.
  intros Hpanic Hstep. induction l as [|a l IH]; intros bh s bh' s' H.
  - injection H as <- <-. apply frame_refl.
  - cbn [fold_left] in H. destruct (step (Ok (bh, s)) a) as [[bh1 s1]|] eqn:E.
    + eapply frame_trans; [eapply Hstep; exact E|eapply IH; exact H].
    + exfalso. clear -H Hpanic.
      assert (Hp : forall l0, fold_left step l0 Panic = Panic).
      { induction l0 as [|b l0 IHl]; [reflexivity|].
        cbn [fold_left]. rewrite Hpanic. exact IHl. }
      rewrite Hp in H. discriminate.
Qed.

Lemma fenceStatusStep_frame (bh : Behavior) (s : Shadow) (vkFe : Z)
    (bh' : Behavior) (s' : Shadow) :
  fenceStatusStep (Ok (bh, s)) vkFe = Ok (bh', s') -> frame s s'.
Proof.
  unfold fenceStatusStep. cbn [rbind]. rewrite sread_handle.
  destruct (negb (vkFe =? 0)).
  - destruct (fences s !! vkFe) as [f|]; [|discriminate].
    rewrite !sread_label. intros [= _ <-]. apply frame_refl.
  - intros [= _ <-]. apply frame_refl.
Qed.

Lemma resetFenceStep_frame (bh : Behavior) (s : Shadow) (vkFe : Z)
    (bh' : Behavior) (s' : Shadow) :
  resetFenceStep (Ok (bh, s)) vkFe = Ok (bh', s') -> frame s s'.
Proof.
  unfold resetFenceStep. cbn [rbind]. rewrite sread_handle.
  destruct (negb (vkFe =? 0)).
  - destruct (fences s !! vkFe) as [f|]; [|discriminate].
    rewrite swrite_label. intros [= _ <-]. apply frame_refl.
  - intros [= _ <-]. apply frame_refl.
Qed.

Lemma queryResultStep_frame (pool first : Z) (bh : Behavior) (s : Shadow)
    (i : nat) (bh' : Behavior) (s' : Shadow) :
  queryResultStep pool first (Ok (bh, s)) i = Ok (bh', s') -> frame s s'.
Proof.
  unfold queryResultStep. cbn [rbind].
  destruct (querypools s !! pool) as [qp|]; [|discriminate].
  destruct (queries qp !! _) as [q|]; [|discriminate].
  rewrite sread_label. intros [= _ <-]. apply frame_refl.
Qed.

Lemma deviceWaitIdleStep_frame (infos : gmap Z queueSubmitInfo) (bh : Behavior)
    (s : Shadow) (e : Z * queueExecutionState) (bh' : Behavior) (s' : Shadow) :
  deviceWaitIdleStep infos (Ok (bh, s)) e = Ok (bh', s') -> frame s s'.
Proof.
  unfold deviceWaitIdleStep. cbn [rbind].
  destruct (infos !! _) as [i|]; [|discriminate].
  rewrite sread_label. intros [= _ <-]. apply frame_refl.
Qed.

(** The queries that [newQueries] makes take the next [4 * count] labels. *)
Lemma newQueries_labels (count : nat) :
  forall s : Shadow,
    0 <= nextLabelVal s -> nextLabelVal s + 4 * Z.of_nat count < two64 ->
    exists qs,
      newQueries count s
      = (qs, setNextLabelVal s (nextLabelVal s + 4 * Z.of_nat count)) /\
      length qs = count /\
      Forall (fun q => nextLabelVal s <= query_reset q /\
                       query_reset q < query_begin q /\
                       query_begin q < query_end q /\
                       query_end q < query_result q /\
                       query_result q < nextLabelVal s + 4 * Z.of_nat count) qs.
Proof.
  induction count as [|k IH]; intros s H0 H1.
  - exists []. cbn [newQueries length]. split; [|split; [reflexivity|constructor]].
    replace (nextLabelVal s + 4 * Z.of_nat 0) with (nextLabelVal s) by lia.
    destruct s; reflexivity.
  - cbn [newQueries]. unfold newQuery.
    rewrite (newLabel_value s) by lia.
    rewrite (newLabel_value (setNextLabelVal s _))
      by (cbn [nextLabelVal setNextLabelVal]; lia).
    cbn [nextLabelVal setNextLabelVal].
    rewrite (newLabel_value (setNextLabelVal _ _))
      by (cbn [nextLabelVal setNextLabelVal]; lia).
    cbn [nextLabelVal setNextLabelVal].
    rewrite (newLabel_value (setNextLabelVal _ _))
      by (cbn [nextLabelVal setNextLabelVal]; lia).
    cbn [nextLabelVal setNextLabelVal].
    match goal with
    | |- context [newQueries k ?s4] => destruct (IH s4) as (qs & -> & Hlen & Hall)
    end.
    + cbn [nextLabelVal setNextLabelVal]. lia.
    + cbn [nextLabelVal setNextLabelVal]. lia.
    + cbn [nextLabelVal setNextLabelVal] in *.
      exists (mkQuery (nextLabelVal s) (nextLabelVal s + 1)
                (nextLabelVal s + 1 + 1) (nextLabelVal s + 1 + 1 + 1) :: qs).
      split; [|split; [cbn [length]; rewrite Hlen; reflexivity|]].
      * f_equal. unfold setNextLabelVal.
        cbn [emitter footprint semaphoreSignals fences querypools commandBuffers
             images buffers executionStates swapchainImageAcquired
             swapchainImagePresented].
        f_equal. lia.
      * constructor.
        -- cbn [query_reset query_begin query_end query_result]. lia.
        -- eapply Forall_impl; [exact Hall|]. cbn beta. intros q. lia.
Qed.

Lemma swrite_handle (s : Shadow) (bh : Behavior) (h : Z) :
  swrite s bh [toVkHandle h]
  = (negb (h =? 0), if h =? 0 then bh else Behavior_Write bh (VHandle h), s).
Proof.
  unfold swrite, write, toVkHandle. cbn [fold_left write1].
  destruct (h =? 0); rewrite setEmitter_same; reflexivity.
Qed.

Lemma allocateCommandBufferStep_value (bh : Behavior) (s : Shadow) (vkCb : Z) :
  0 <= nextLabelVal s -> nextLabelVal s + 3 < two64 ->
  allocateCommandBufferStep (bh, s) vkCb
  = (if vkCb =? 0 then bh else Behavior_Write bh (VHandle vkCb),
     setCommandBuffers (setNextLabelVal s (nextLabelVal s + 3))
       (<[vkCb := mkCommandBuffer (nextLabelVal s) (nextLabelVal s + 1)
                    (nextLabelVal s + 2)]> (commandBuffers s))).
Proof.
  intros H0 H1. unfold allocateCommandBufferStep.
  rewrite swrite_handle.
  rewrite (newLabel_value s) by lia.
  rewrite (newLabel_value (setNextLabelVal s _))
    by (cbn [nextLabelVal setNextLabelVal]; lia).
  cbn [nextLabelVal setNextLabelVal].
  rewrite (newLabel_value (setNextLabelVal _ _))
    by (cbn [nextLabelVal setNextLabelVal]; lia).
  cbn [nextLabelVal setNextLabelVal].
  unfold setCommandBuffers, setNextLabelVal.
  cbn [emitter footprint nextLabelVal semaphoreSignals fences querypools
       commandBuffers images buffers executionStates swapchainImageAcquired
       swapchainImagePresented].
  replace (nextLabelVal s + 1 + 1 + 1) with (nextLabelVal s + 3) by lia.
  replace (nextLabelVal s + 1 + 1) with (nextLabelVal s + 2) by lia.
  reflexivity.
Qed.

Lemma allocateCommandBuffers_labels (l : list Z) :
  forall (bh : Behavior) (s : Shadow),
    0 <= nextLabelVal s ->
    nextLabelVal s + 3 * Z.of_nat (length l) < two64 ->
    labelsBelow (nextLabelVal s) s ->
    let r := fold_left allocateCommandBufferStep l (bh, s) in
    nextLabelVal (snd r) = nextLabelVal s + 3 * Z.of_nat (length l) /\
    labelsBelow (nextLabelVal (snd r)) (snd r).
Proof.
  induction l as [|vkCb l IH]; intros bh s H0 H1 Hinv; cbn zeta.
  - cbn [fold_left snd length]. split; [cbn; lia|assumption].
  - cbn [fold_left]. cbn [length] in H1.
    rewrite allocateCommandBufferStep_value by lia.
    match goal with
    | |- context [fold_left _ l (?b, ?s1)] =>
        destruct (IH b s1) as [E1 E2]
    end.
    + cbn [nextLabelVal setCommandBuffers setNextLabelVal]. lia.
    + cbn [nextLabelVal setCommandBuffers setNextLabelVal]. lia.
    + match goal with
      | |- labelsBelow ?n (setCommandBuffers ?s1 _) =>
          change n with (nextLabelVal s + 3);
          apply (labelsBelow_commandBuffer (nextLabelVal s + 3) s1)
      end.
      * apply labelsBelow_setNextLabelVal.
        eapply labelsBelow_mono; [|exact Hinv]. lia.
      * cbn [cb_begin]. lia.
      * cbn [cb_end]. lia.
      * cbn [cb_renderPassBegin]. lia.
    + split; [|exact E2]. rewrite E1.
      cbn [nextLabelVal setCommandBuffers setNextLabelVal length]. lia.
Qed.

Lemma freeCommandBufferStep_value (bh : Behavior) (vb : FootprintBuilder)
    (vkCb : Z) :
  freeCommandBufferStep (bh, vb) vkCb
  = match commandBuffers (shadow vb) !! vkCb with
    | Some cbo =>
        if vkCb =? 0 then (bh, setShadow vb (shadow vb))
        else
          (Behavior_Write
             (Behavior_Write (Behavior_Read bh (VHandle vkCb))
                (VLabel (cb_begin cbo)))
             (VLabel (cb_end cbo)),
           setShadow (setCommands vb (delete vkCb (commands vb)))
             (setCommandBuffers (shadow vb)
                (delete vkCb (commandBuffers (shadow vb)))))
    | None => (bh, vb)
    end.
Proof.
  unfold freeCommandBufferStep.
  destruct (commandBuffers (shadow vb) !! vkCb) as [cbo|]; [|reflexivity].
  rewrite sread_handle. destruct (vkCb =? 0); cbn [negb]; [reflexivity|].
  rewrite !swrite_label. reflexivity.
Qed.

Lemma freeCommandBuffers_labels (n : Z) (l : list Z) :
  forall (bh : Behavior) (vb : FootprintBuilder),
    labelsBelow n (shadow vb) ->
    let r := fold_left freeCommandBufferStep l (bh, vb) in
    nextLabelVal (shadow (snd r)) = nextLabelVal (shadow vb) /\
    labelsBelow n (shadow (snd r)).
Proof.
  induction l as [|vkCb l IH]; intros bh vb Hinv; cbn zeta.
  - cbn [fold_left snd]. split; [reflexivity|assumption].
  - cbn [fold_left]. rewrite freeCommandBufferStep_value.
    destruct (commandBuffers (shadow vb) !! vkCb) as [cbo|].
    + destruct (vkCb =? 0).
      * match goal with
        | |- context [fold_left _ l (?b, ?vb1)] =>
            destruct (IH b vb1) as [E1 E2]
        end.
        -- cbn [shadow setShadow]. exact Hinv.
        -- split; [|exact E2]. rewrite E1. reflexivity.
      * match goal with
        | |- context [fold_left _ l (?b, ?vb1)] =>
            destruct (IH b vb1) as [E1 E2]
        end.
        -- cbn [shadow setShadow setCommands].
           apply (labelsBelow_delete n (shadow vb) vkCb Hinv).
        -- split; [|exact E2]. rewrite E1. reflexivity.
    + apply IH. exact Hinv.
Qed.

Lemma fenceStatusStep_Panic (vkFe : Z) : fenceStatusStep Panic vkFe = Panic.
Proof. reflexivity. Qed.

Lemma resetFenceStep_Panic (vkFe : Z) : resetFenceStep Panic vkFe = Panic.
Proof. reflexivity. Qed.

Lemma queryResultStep_Panic (pool first : Z) (i : nat) :
  queryResultStep pool first Panic i = Panic.
Proof. reflexivity. Qed.

Lemma deviceWaitIdleStep_Panic (infos : gmap Z queueSubmitInfo)
    (e : Z * queueExecutionState) :
  deviceWaitIdleStep infos Panic e = Panic.
Proof. reflexivity. Qed.

Ltac frame_arm H lem :=
  match type of H with
  | (r <-! ?f ; _) = Ok _ =>
      let E := fresh "E" in
      let Hfr := fresh "Hfr" in
      let bh1 := fresh "bh1" in
      let s1 := fresh "s1" in
      destruct f as [[bh1 s1]|] eqn:E; [|discriminate];
      cbn [rbind fst snd] in H; injection H as <- <-;
      cbn [shadow setShadow];
      match type of E with
      | _ (Ok (_, ?s0)) _ = _ =>
          assert (Hfr : frame s0 s1) by (eapply lem; exact E)
      | fold_left _ _ (Ok (_, ?s0)) = _ =>
          assert (Hfr : frame s0 s1) by (eapply lem; exact E)
      end;
      rewrite (frame_nextLabelVal _ _ Hfr);
      split; [cbn [labelsTaken]; lia|eapply frame_labelsBelow; eassumption]
  end.

(** What the arms of [objectSwitch] do to the labels: the counter advances
    by [labelsTaken], and the labels held stay below it. *)
Lemma objectSwitch_labels (vb : FootprintBuilder)
    (bh : Behavior) (c : ObjectCmd) (bh' : Behavior) (vb' : FootprintBuilder) :
  0 <= nextLabelVal (shadow vb) ->
  nextLabelVal (shadow vb) + labelsTaken c < two64 ->
  labelsBelow (nextLabelVal (shadow vb)) (shadow vb) ->
  objectSwitch vb bh c = Ok (bh', vb') ->
  nextLabelVal (shadow vb') = nextLabelVal (shadow vb) + labelsTaken c /\
  labelsBelow (nextLabelVal (shadow vb')) (shadow vb').
Proof.
  intros H0 H1 Hinv H. set (n := nextLabelVal (shadow vb)) in *.
  pose proof (labelsBelow_delete n (shadow vb)) as Hdel.
  destruct c as [vkSp|vkSp|vkFe|vkFe|fs|fs|vkFe|vkQp count|vkQp|vkQp first count
                |cbs|cbs|cb|vkImg|vkImg|vkBuf|vkBuf|vkQu|];
    cbn [objectSwitch labelsTaken] in H, H1 |- *.
  - rewrite swrite_handle, (newLabel_value (shadow vb)) in H by (fold n; lia).
    injection H as _ <-. cbn [shadow setShadow nextLabelVal setSemaphoreSignals
                              setNextLabelVal].
    fold n. split; [reflexivity|].
    apply (labelsBelow_semaphore (n + 1) n (setNextLabelVal (shadow vb) (n + 1)));
      [|lia].
    apply labelsBelow_setNextLabelVal. eapply labelsBelow_mono; [|exact Hinv]. lia.
  - rewrite sread_handle in H. destruct (negb (vkSp =? 0)); injection H as _ <-;
      cbn [shadow setShadow]; (split; [cbn; fold n; lia|]).
    + apply (Hdel vkSp Hinv).
    + exact Hinv.
  - rewrite swrite_handle, (newLabel_value (shadow vb)) in H by (fold n; lia).
    rewrite (newLabel_value (setNextLabelVal _ _)) in H
      by (cbn [nextLabelVal setNextLabelVal]; fold n; lia).
    injection H as _ <-. cbn [shadow setShadow nextLabelVal setFences
                              setNextLabelVal].
    fold n. split; [lia|].
    match goal with
    | |- labelsBelow _ (setFences ?s1 _) =>
        apply (labelsBelow_fence (n + 1 + 1) s1)
    end; [|cbn [fence_signal]; lia|cbn [fence_unsignal]; lia].
    apply labelsBelow_setNextLabelVal. eapply labelsBelow_mono; [|exact Hinv]. lia.
  - frame_arm H fenceStatusStep_frame.
  - frame_arm H (fold_res_frame fenceStatusStep fenceStatusStep_Panic
                   (fun b s a b' s' => fenceStatusStep_frame b s a b' s') fs).
  - frame_arm H (fold_res_frame resetFenceStep resetFenceStep_Panic
                   (fun b s a b' s' => resetFenceStep_frame b s a b' s') fs).
  - rewrite sread_handle in H. destruct (negb (vkFe =? 0)); injection H as _ <-;
      cbn [shadow setShadow]; (split; [cbn; fold n; lia|]).
    + apply (Hdel vkFe Hinv).
    + exact Hinv.
  - rewrite swrite_handle in H.
    destruct (newQueries_labels (Z.to_nat count) (shadow vb)) as (qs & E & _ & Hall);
      [fold n; lia|fold n; lia|].
    rewrite E in H. injection H as _ <-.
    cbn [shadow setShadow nextLabelVal setQuerypools setNextLabelVal]. fold n.
    split; [reflexivity|].
    match goal with
    | |- labelsBelow ?m (setQuerypools ?s1 _) =>
        apply (labelsBelow_querypool m s1)
    end.
    + apply labelsBelow_setNextLabelVal. eapply labelsBelow_mono; [|exact Hinv]. lia.
    + cbn [queries]. eapply List.Forall_impl; [|exact Hall]. cbn beta. fold n.
      intros q. lia.
  - rewrite sread_handle in H. injection H as _ <-.
    destruct (negb (vkQp =? 0)); cbn [shadow setShadow];
      (split; [cbn; fold n; lia|]).
    + apply (Hdel vkQp Hinv).
    + exact Hinv.
  - rewrite sread_handle in H.
    frame_arm H (fold_res_frame (queryResultStep vkQp first)
                   (queryResultStep_Panic vkQp first)
                   (fun b s a b' s' => queryResultStep_frame vkQp first b s a b' s')
                   (seq 0 (Z.to_nat count))).
  - destruct (allocateCommandBuffers_labels cbs bh (shadow vb)) as [E1 E2];
      [fold n; lia|fold n; lia|exact Hinv|].
    destruct (fold_left allocateCommandBufferStep cbs (bh, shadow vb)) as [b1 s1].
    injection H as _ <-. cbn [snd shadow setShadow] in *. fold n in E1.
    split; [exact E1|exact E2].
  - destruct (freeCommandBuffers_labels n cbs bh vb Hinv) as [E1 E2].
    destruct (fold_left freeCommandBufferStep cbs (bh, vb)) as [b1 vb1].
    injection H as _ <-. cbn [snd] in *. rewrite E1. fold n.
    split; [lia|]. replace (n + 0) with n by lia. exact E2.
  - rewrite sread_handle in H.
    destruct (commandBuffers (shadow vb) !! cb) as [cbo|].
    + rewrite sread_label, swrite_label in H. injection H as _ <-.
      cbn [shadow setShadow]. fold n. split; [lia|].
      replace (n + 0) with n by lia. exact Hinv.
    + injection H as _ <-. cbn [shadow setShadow]. fold n. split; [lia|].
      replace (n + 0) with n by lia. exact Hinv.
  - rewrite swrite_handle in H. unfold newImageLayoutAndData in H.
    rewrite (newLabel_value (shadow vb)) in H by (fold n; lia).
    rewrite swrite_label in H. injection H as _ <-.
    cbn [shadow setShadow nextLabelVal setImages setNextLabelVal]. fold n.
    split; [reflexivity|].
    match goal with
    | |- labelsBelow ?m (setImages ?s1 _) => apply (labelsBelow_image m s1)
    end; [|cbn [layout]; lia|constructor].
    apply labelsBelow_setNextLabelVal. eapply labelsBelow_mono; [|exact Hinv]. lia.
  - rewrite sread_handle in H. injection H as _ <-.
    destruct (negb (vkImg =? 0)); cbn [shadow setShadow];
      (split; [cbn; fold n; lia|]).
    + apply (Hdel vkImg Hinv).
    + exact Hinv.
  - rewrite swrite_handle in H. injection H as _ <-. cbn [shadow setShadow].
    fold n. split; [lia|]. replace (n + 0) with n by lia. exact Hinv.
  - rewrite sread_handle in H. injection H as _ <-.
    destruct (negb (vkBuf =? 0)); cbn [shadow setShadow];
      (split; [cbn; fold n; lia|]).
    + apply (Hdel vkBuf Hinv).
    + exact Hinv.
  - rewrite sread_handle in H. injection H as _ <-. cbn [shadow setShadow].
    fold n. split; [lia|]. replace (n + 0) with n by lia. exact Hinv.
  - frame_arm H (fold_res_frame (deviceWaitIdleStep (submitInfos vb))
                   (deviceWaitIdleStep_Panic (submitInfos vb))
                   (fun b s a b' s' =>
                      deviceWaitIdleStep_frame (submitInfos vb) b s a b' s')
                   (map_to_list (executionStates (shadow vb)))).
Qed.

Lemma fenceStatusStep_value (bh : Behavior) (s : Shadow) (f : Z) :
  fenceStatusStep (Ok (bh, s)) f
  = if f =? 0 then Ok (bh, s)
    else match fences s !! f with
         | None => Panic
         | Some fe =>
             Ok (setAlive
                   (Behavior_Read
                      (Behavior_Read (Behavior_Read bh (VHandle f))
                         (VLabel (fence_signal fe)))
                      (VLabel (fence_unsignal fe))) true, s)
         end.
Proof.
  unfold fenceStatusStep. cbn [rbind]. rewrite sread_handle.
  destruct (f =? 0); cbn [negb]; [reflexivity|].
  destruct (fences s !! f) as [fe|]; [|reflexivity].
  rewrite !sread_label. reflexivity.
Qed.

Lemma resetFenceStep_value (bh : Behavior) (s : Shadow) (f : Z) :
  resetFenceStep (Ok (bh, s)) f
  = if f =? 0 then Ok (bh, s)
    else match fences s !! f with
         | None => Panic
         | Some fe =>
             Ok (setAlive
                   (Behavior_Write (Behavior_Read bh (VHandle f))
                      (VLabel (fence_unsignal fe))) true, s)
         end.
Proof.
  unfold resetFenceStep. cbn [rbind]. rewrite sread_handle.
  destruct (f =? 0); cbn [negb]; [reflexivity|].
  destruct (fences s !! f) as [fe|]; [|reflexivity].
  rewrite swrite_label. reflexivity.
Qed.

Lemma fold_left_Panic {A B : Type} (step : res B -> A -> res B) :
  (forall a, step Panic a = Panic) ->
  forall l : list A, fold_left step l Panic = Panic.
Proof.
  intros Hp. induction l as [|a l IH]; [reflexivity|].
  cbn [fold_left]. rewrite Hp. exact IH.
Qed.

(** A loop over fences whose body skips the null handle, fails on a fence
    without an entry and otherwise marks the behavior alive. *)
Lemma fence_loop (step : res (Behavior * Shadow) -> Z -> res (Behavior * Shadow))
    (g : Behavior -> Z -> fence -> Behavior) :
  (forall f, step Panic f = Panic) ->
  (forall bh s f,
      step (Ok (bh, s)) f
      = if f =? 0 then Ok (bh, s)
        else match fences s !! f with
             | None => Panic
             | Some fe => Ok (g bh f fe, s)
             end) ->
  (forall bh f fe, Alive (g bh f fe) = true) ->
  forall (fs : list Z) (bh : Behavior) (s : Shadow),
    match fold_left step fs (Ok (bh, s)) with
    | Ok (bh', s') =>
        fencesKnown s fs /\ s' = s /\ Alive bh' = Alive bh || someNonNull fs
    | Panic => ~ fencesKnown s fs
    end.
Proof.
  intros Hp Hv Ha. induction fs as [|f fs IH]; intros bh s.
  - cbn [fold_left someNonNull existsb]. rewrite orb_false_r.
    repeat split. constructor.
  - cbn [fold_left someNonNull existsb]. rewrite Hv.
    destruct (f =? 0) eqn:Ef.
    + specialize (IH bh s).
      destruct (fold_left step fs (Ok (bh, s))) as [[bh' s']|].
      * destruct IH as (K & -> & HA). cbn [negb orb]. repeat split; [|exact HA].
        constructor; [|exact K]. intros Hne. apply Z.eqb_eq in Ef. contradiction.
      * intros K. apply IH. inversion K; assumption.
    + destruct (fences s !! f) as [fe|] eqn:El.
      * specialize (IH (g bh f fe) s).
        destruct (fold_left step fs (Ok (g bh f fe, s))) as [[bh' s']|].
        -- destruct IH as (K & -> & HA). cbn [negb orb]. rewrite orb_true_r.
           repeat split.
           ++ constructor; [|exact K]. intros _. rewrite El. eauto.
           ++ rewrite HA, Ha. reflexivity.
        -- intros K. apply IH. inversion K; assumption.
      * rewrite (fold_left_Panic step Hp). intros K. inversion K as [|? ? K1 K2].
        apply Z.eqb_neq in Ef. destruct (K1 Ef) as [fe0 Hfe0].
        rewrite El in Hfe0. discriminate.
Qed.

(** X15.  [VkWaitForFences] and [VkResetFences] fail exactly when one of
    their fences is neither the null handle nor a fence that the builder
    holds; otherwise they leave the builder as it is, and the behavior is
    alive when it was so or when one of the fences is not the null
    handle. *)
Theorem fence_commands_fail_on_unknown_fences (vb : FootprintBuilder)
    (bh : Behavior) (fs : list Z) :
  match objectSwitch vb bh (VkWaitForFences fs) with
  | Ok (bh', vb') =>
      fencesKnown (shadow vb) fs /\ vb' = vb /\
      Alive bh' = Alive bh || someNonNull fs
  | Panic => ~ fencesKnown (shadow vb) fs
  end /\
  match objectSwitch vb bh (VkResetFences fs) with
  | Ok (bh', vb') =>
      fencesKnown (shadow vb) fs /\ vb' = vb /\
      Alive bh' = Alive bh || someNonNull fs
  | Panic => ~ fencesKnown (shadow vb) fs
  end.
Proof.
  cbn [objectSwitch]. split.
  - pose proof (fence_loop fenceStatusStep _ fenceStatusStep_Panic
                  fenceStatusStep_value (fun _ _ _ => eq_refl) fs bh (shadow vb))
      as H.
    destruct (fold_left fenceStatusStep fs (Ok (bh, shadow vb))) as [[bh' s']|];
      cbn [rbind fst snd]; [|exact H].
    destruct H as (K & -> & HA). rewrite setShadow_same. auto.
  - pose proof (fence_loop resetFenceStep _ resetFenceStep_Panic
                  resetFenceStep_value (fun _ _ _ => eq_refl) fs bh (shadow vb))
      as H.
    destruct (fold_left resetFenceStep fs (Ok (bh, shadow vb))) as [[bh' s']|];
      cbn [rbind fst snd]; [|exact H].
    destruct H as (K & -> & HA). rewrite setShadow_same. auto.
Qed.

Lemma queryResultStep_value (qp first : Z) (bh : Behavior) (s : Shadow) (i : nat) :
  0 <= first -> Z.of_nat i + first < two64 ->
  queryResultStep qp first (Ok (bh, s)) i
  = if Z.of_nat i + first <? queryCount s qp
    then match querypools s !! qp with
         | Some p =>
             match queries p !! Z.to_nat (Z.of_nat i + first) with
             | Some q => Ok (Behavior_Read bh (VLabel (query_result q)), s)
             | None => Panic
             end
         | None => Panic
         end
    else Panic.
Proof.
  intros H0 H1. unfold queryResultStep, queryCount. cbn [rbind].
  rewrite add64_small by lia.
  destruct (querypools s !! qp) as [p|].
  - destruct (Z.ltb_spec (Z.of_nat i + first) (Z.of_nat (length (queries p))))
      as [Hlt|Hge].
    + destruct (queries p !! Z.to_nat (Z.of_nat i + first)) as [q|];
        [|reflexivity].
      rewrite sread_label. reflexivity.
    + rewrite (lookup_ge_None_2 (queries p)) by lia. reflexivity.
  - destruct (_ <? _); reflexivity.
Qed.

Lemma queryResults_loop (qp first : Z) (s : Shadow) (k : nat) :
  forall (a : nat) (bh : Behavior),
    0 <= first -> Z.of_nat a + Z.of_nat k + first < two64 ->
    match fold_left (queryResultStep qp first) (seq a k) (Ok (bh, s)) with
    | Ok (_, s') =>
        s' = s /\
        (k = 0%nat \/ first + Z.of_nat a + Z.of_nat k <= queryCount s qp)
    | Panic => queryCount s qp < first + Z.of_nat a + Z.of_nat k
    end.
Proof.
  induction k as [|k IH]; intros a bh H0 H1.
  - cbn [seq fold_left]. auto.
  - cbn [seq fold_left]. rewrite queryResultStep_value by lia.
    destruct (Z.ltb_spec (Z.of_nat a + first) (queryCount s qp)) as [Hlt|Hge].
    + unfold queryCount in Hlt.
      destruct (querypools s !! qp) as [p|] eqn:Ep; [|lia].
      destruct (lookup_lt_is_Some_2 (queries p) (Z.to_nat (Z.of_nat a + first)))
        as [q Eq]; [lia|].
      rewrite Eq. specialize (IH (S a) (Behavior_Read bh (VLabel (query_result q)))).
      destruct (fold_left _ (seq (S a) k) _) as [[bh' s']|].
      * destruct IH as [-> [->|Hle]]; [lia|lia| |]; (split; [reflexivity|right]).
        -- unfold queryCount. rewrite Ep. lia.
        -- lia.
      * lia.
    + rewrite (fold_left_Panic _ (queryResultStep_Panic qp first)). lia.
Qed.

Lemma newQueries_length (count : nat) :
  forall s : Shadow, length (fst (newQueries count s)) = count.
Proof.
  induction count as [|k IH]; intros s; [reflexivity|].
  cbn [newQueries]. destruct (newQuery s) as [q s1].
  specialize (IH s1). destruct (newQueries k s1) as [qs s2].
  cbn [fst length] in *. rewrite IH. reflexivity.
Qed.

(** X16.  [VkGetQueryPoolResults] fails exactly when it asks for a query
    that the pool does not have, a pool that the builder does not hold
    having none; when it returns, the builder is as it was.  A pool made by
    [VkCreateQueryPool] has [QueryCount] queries. *)
Theorem query_results_need_queries_of_the_pool (vb : FootprintBuilder)
    (bh : Behavior) (vkQp first count : Z) :
  0 <= first < 2 ^ 32 -> 0 <= count < 2 ^ 32 ->
  match objectSwitch vb bh (VkGetQueryPoolResults vkQp first count) with
  | Ok (_, vb') =>
      vb' = vb /\
      (count = 0 \/ first + count <= queryCount (shadow vb) vkQp)
  | Panic => 0 < count /\ queryCount (shadow vb) vkQp < first + count
  end /\
  match objectSwitch vb bh (VkCreateQueryPool vkQp count) with
  | Ok (_, vb') => queryCount (shadow vb') vkQp = count
  | Panic => False
  end.
Proof.
  intros Hf Hc. pose proof two64_value as Ht. split.
  - cbn [objectSwitch]. rewrite sread_handle.
    pose proof (queryResults_loop vkQp first (shadow vb) (Z.to_nat count) 0
                  (if vkQp =? 0 then bh else Behavior_Read bh (VHandle vkQp)))
      as H.
    destruct (Z.eq_dec count 0) as [->|Hne].
    { clear H. change (Z.to_nat 0) with 0%nat.
      cbn [seq fold_left rbind fst snd]. rewrite setShadow_same. auto. }
    destruct (fold_left _ (seq 0 (Z.to_nat count)) _) as [[bh' s']|];
      cbn [rbind fst snd].
    + destruct H as [-> H]; [lia|lia|]. rewrite setShadow_same.
      split; [reflexivity|]. destruct H as [H|H]; [left|right]; lia.
    + assert (H' := H ltac:(lia) ltac:(lia)). lia.
  - cbn [objectSwitch]. rewrite swrite_handle.
    pose proof (newQueries_length (Z.to_nat count) (shadow vb)) as Hl.
    destruct (newQueries (Z.to_nat count) (shadow vb)) as [qs s2].
    cbn [fst] in Hl. unfold queryCount.
    cbn [shadow setShadow setQuerypools querypools].
    rewrite lookup_insert_eq. cbn [queries]. rewrite Hl. lia.
Qed.

Lemma freeCommandBuffers_lookup (l : list Z) :
  forall (bh : Behavior) (vb : FootprintBuilder) (cb : Z),
    let r := fold_left freeCommandBufferStep l (bh, vb) in
    commandBuffers (shadow (snd r)) !! cb
    = (if freed (shadow vb) l cb then None
       else commandBuffers (shadow vb) !! cb) /\
    commands (snd r) !! cb
    = (if freed (shadow vb) l cb then None else commands vb !! cb) /\
    submitInfos (snd r) = submitInfos vb.
Proof.
  induction l as [|a l IH]; intros bh vb cb; cbn zeta.
  - cbn [fold_left snd freed existsb andb]. auto.
  - cbn [fold_left]. rewrite freeCommandBufferStep_value.
    unfold freed. cbn [existsb].
    destruct (commandBuffers (shadow vb) !! a) as [cbo|] eqn:Ea.
    + destruct (a =? 0) eqn:E0.
      * rewrite setShadow_same.
        destruct (IH bh vb cb) as (A & B & C). rewrite A, B, C. unfold freed.
        destruct (Z.eqb_spec cb a) as [->|Hne]; [|auto].
        rewrite E0. cbn [negb]. rewrite !andb_false_r. cbn [andb]. auto.
      * match goal with
        | |- context [fold_left _ l (?b, ?vb1)] =>
            destruct (IH b vb1 cb) as (A & B & C)
        end.
        rewrite A, B, C. unfold freed.
        cbn [shadow setShadow setCommands commands submitInfos setCommandBuffers
             commandBuffers].
        destruct (Z.eqb_spec cb a) as [->|Hne].
        -- rewrite E0, Ea. cbn [negb orb andb]. rewrite !lookup_delete_eq.
           rewrite andb_false_r. auto.
        -- rewrite !lookup_delete_ne by congruence. cbn [orb]. auto.
    + destruct (IH bh vb cb) as (A & B & C). rewrite A, B, C. unfold freed.
      destruct (Z.eqb_spec cb a) as [->|Hne]; [|auto].
      rewrite Ea. rewrite !andb_false_r. cbn [andb]. auto.
Qed.

(** X17.  [VkFreeCommandBuffers] never fails and marks its behavior alive.
    It forgets the command buffers of its list that the builder holds and
    that are not the null handle, together with their recorded commands,
    and keeps every other command buffer with its commands, and the submit
    infos. *)
Theorem free_command_buffers_forgets_them (vb : FootprintBuilder)
    (bh : Behavior) (l : list Z) :
  match objectSwitch vb bh (VkFreeCommandBuffers l) with
  | Ok (bh', vb') =>
      Alive bh' = true /\
      submitInfos vb' = submitInfos vb /\
      forall cb,
        commandBuffers (shadow vb') !! cb
        = (if freed (shadow vb) l cb then None
           else commandBuffers (shadow vb) !! cb) /\
        commands vb' !! cb
        = (if freed (shadow vb) l cb then None else commands vb !! cb)
  | Panic => False
  end.
Proof.
  cbn [objectSwitch].
  pose proof (freeCommandBuffers_lookup l bh vb) as H. cbn zeta in H.
  destruct (fold_left freeCommandBufferStep l (bh, vb)) as [bh1 vb1].
  cbn [snd] in H. split; [reflexivity|]. split; [apply (H 0)|].
  intros cb. destruct (H cb) as (A & B & _). auto.
Qed.

Lemma queueSubmit_frame (ov : Range -> Range -> bool)
    (it : Range -> Range -> Range)
    (vb : FootprintBuilder) (mapped : list (Z * DeviceMemoryObject))
    (observations : option (list Range)) (contains : Z -> bool) (bh : Behavior)
    (sid Queue : Z) (PSubmits : list SubmitArg) (Fence : Z)
    (bh' : Behavior) (vb' : FootprintBuilder) :
  queueSubmit ov it vb mapped observations contains bh sid Queue PSubmits Fence
  = Ok (bh', vb') ->
  frame
    (setNextLabelVal
       (setExecutionStates (shadow vb)
          (<[Queue := setLastSubmitID
                        (default (newQueueExecutionState sid)
                           (executionStates (shadow vb) !! Queue)) sid]>
             (executionStates (shadow vb))))
       (add64 (add64 (nextLabelVal (shadow vb)) 1) 1))
    (shadow vb') /\
  exists info,
    submitInfos vb' = <[sid := info]> (submitInfos vb) /\
    queued info = nextLabelVal (shadow vb) /\
    done info = add64 (nextLabelVal (shadow vb)) 1.
Proof.
  unfold queueSubmit. rewrite sread_handle. cbn [newLabel].
  match goal with
  | |- context [submitLoop ?c ?k ?i ?n ?l ?st ?w ?s] =>
      pose proof (submitLoop_queues c k i l n st w s) as Hq;
      destruct (submitLoop c k i n l st w s) as [[st1 ws] ss]
  end.
  destruct st1 as [[[hc bh2] s5] pending].
  destruct Hq as [new (Hs5 & _)]. cbn [fst snd] in Hs5.
  pose proof (writeCoherentMemoryData_frame ov it mapped observations s5 bh2)
    as Hf6.
  destruct (writeCoherentMemoryData ov it mapped observations s5 bh2) as [bh3 s6].
  cbn [snd] in Hf6. rewrite sread_handle. rewrite Hs5 in Hf6.
  cbn [nextLabelVal setNextLabelVal setExecutionStates] in *.
  destruct (Z.eqb_spec Fence 0) as [Hz|Hnz]; cbn [negb].
  - cbn [rbind]. rewrite swrite_label.
    match goal with
    | |- context [fold_left (submitWaitStep hc) ws (?b, s6)] =>
        pose proof (submitWaitStep_fold hc ws b s6) as Hw;
        destruct (fold_left (submitWaitStep hc) ws (b, s6)) as [bh9 s12]
    end.
    cbn [snd] in Hw.
    pose proof (submitSignalStep_fold hc ss bh9 s12) as Hg.
    destruct (fold_left (submitSignalStep hc) ss _) as [bh10 s13].
    cbn [snd] in Hg. rewrite sread_handle.
    destruct (Z.eqb_spec Fence 0) as [_|]; [|contradiction].
    cbn [negb andb rbind fst snd]. intros [= <- <-].
    cbn [shadow setShadow submitInfos setSubmitInfos].
    split; [eapply frame_trans; [exact Hf6|eapply frame_trans; eassumption]|].
    eexists. split; [reflexivity|]. split; reflexivity.
  - destruct (fences s6 !! Fence) as [f|] eqn:Ef; [|discriminate].
    rewrite sread_label, swrite_label. cbn [rbind]. rewrite swrite_label.
    match goal with
    | |- context [fold_left (submitWaitStep hc) ws (?b, s6)] =>
        pose proof (submitWaitStep_fold hc ws b s6) as Hw;
        destruct (fold_left (submitWaitStep hc) ws (b, s6)) as [bh9 s12]
    end.
    cbn [snd] in Hw.
    pose proof (submitSignalStep_fold hc ss bh9 s12) as Hg.
    destruct (fold_left (submitSignalStep hc) ss _) as [bh10 s13].
    cbn [snd] in Hg. rewrite sread_handle.
    destruct (Z.eqb_spec Fence 0) as [|_]; [contradiction|].
    cbn [negb andb].
    assert (Hfr : frame s6 s13) by (eapply frame_trans; eassumption).
    destruct (negb hc).
    + rewrite (frame_fences _ _ Hfr), Ef, swrite_label.
      cbn [rbind fst snd]. intros [= <- <-].
      cbn [shadow setShadow submitInfos setSubmitInfos].
      split; [eapply frame_trans; eassumption|].
      eexists. split; [reflexivity|]. split; reflexivity.
    + cbn [rbind fst snd]. intros [= <- <-].
      cbn [shadow setShadow submitInfos setSubmitInfos].
      split; [eapply frame_trans; eassumption|].
      eexists. split; [reflexivity|]. split; reflexivity.
Qed.

Lemma queueSubmit_executionStates (ov : Range -> Range -> bool)
    (it : Range -> Range -> Range)
    (vb : FootprintBuilder) (mapped : list (Z * DeviceMemoryObject))
    (observations : option (list Range)) (contains : Z -> bool) (bh : Behavior)
    (sid Queue : Z) (PSubmits : list SubmitArg) (Fence : Z)
    (bh' : Behavior) (vb' : FootprintBuilder) :
  queueSubmit ov it vb mapped observations contains bh sid Queue PSubmits Fence
  = Ok (bh', vb') ->
  executionStates (shadow vb')
  = <[Queue := setLastSubmitID
                 (default (newQueueExecutionState sid)
                    (executionStates (shadow vb) !! Queue)) sid]>
      (executionStates (shadow vb)).
Proof.
  intros H. destruct (queueSubmit_frame _ _ _ _ _ _ _ _ _ _ _ _ _ H) as [Hfr _].
  rewrite (frame_executionStates _ _ Hfr). reflexivity.
Qed.

Lemma deviceWaitIdleStep_value (infos : gmap Z queueSubmitInfo) (bh : Behavior)
    (s : Shadow) (e : Z * queueExecutionState) :
  deviceWaitIdleStep infos (Ok (bh, s)) e
  = match infos !! lastSubmitID (snd e) with
    | None => Panic
    | Some i => Ok (setAlive (Behavior_Read bh (VLabel (done i))) true, s)
    end.
Proof.
  unfold deviceWaitIdleStep. cbn [rbind].
  destruct (infos !! lastSubmitID (snd e)) as [i|]; [|reflexivity].
  rewrite sread_label. reflexivity.
Qed.

Lemma deviceWaitIdle_loop (infos : gmap Z queueSubmitInfo)
    (l : list (Z * queueExecutionState)) :
  forall (bh : Behavior) (s : Shadow),
    match fold_left (deviceWaitIdleStep infos) l (Ok (bh, s)) with
    | Ok (bh', s') =>
        Forall (fun e => is_Some (infos !! lastSubmitID (snd e))) l /\
        s' = s /\ (Alive bh' = true <-> Alive bh = true \/ l <> [])
    | Panic => ~ Forall (fun e => is_Some (infos !! lastSubmitID (snd e))) l
    end.
Proof.
  induction l as [|e l IH]; intros bh s.
  - cbn [fold_left]. repeat split; [constructor|tauto|].
    intros [H|H]; [exact H|contradiction].
  - cbn [fold_left]. rewrite deviceWaitIdleStep_value.
    destruct (infos !! lastSubmitID (snd e)) as [i|] eqn:Ei.
    + specialize (IH (setAlive (Behavior_Read bh (VLabel (done i))) true) s).
      destruct (fold_left _ l _) as [[bh' s']|].
      * destruct IH as (K & -> & HA). repeat split.
        -- constructor; [rewrite Ei; eauto|exact K].
        -- intros _. right. discriminate.
        -- intros _. apply HA. left. reflexivity.
      * intros K. apply IH. inversion K; assumption.
    + rewrite (fold_left_Panic _ (deviceWaitIdleStep_Panic infos)).
      intros K. inversion K as [|? ? K1 K2]. rewrite Ei in K1.
      destruct K1 as [? K1]. discriminate.
Qed.

Lemma lastSubmitsKnown_to_list (vb : FootprintBuilder) :
  lastSubmitsKnown vb <->
  Forall (fun e => is_Some (submitInfos vb !! lastSubmitID (snd e)))
    (map_to_list (executionStates (shadow vb))).
Proof.
  unfold lastSubmitsKnown. rewrite map_Forall_to_list.
  split; intros H; eapply List.Forall_impl; try exact H;
    intros [k q]; cbn; auto.
Qed.

Lemma deviceWaitIdle_spec (vb : FootprintBuilder) (bh : Behavior) :
  match objectSwitch vb bh VkDeviceWaitIdle with
  | Ok (bh', vb') =>
      lastSubmitsKnown vb /\ vb' = vb /\
      (Alive bh' = true <->
       Alive bh = true \/ executionStates (shadow vb) <> ∅)
  | Panic => ~ lastSubmitsKnown vb
  end.
Proof.
  cbn [objectSwitch].
  pose proof (deviceWaitIdle_loop (submitInfos vb)
                (map_to_list (executionStates (shadow vb))) bh (shadow vb)) as H.
  destruct (fold_left _ (map_to_list _) _) as [[bh' s']|]; cbn [rbind fst snd].
  - destruct H as (K & -> & HA). rewrite setShadow_same.
    split; [apply lastSubmitsKnown_to_list; exact K|]. split; [reflexivity|].
    rewrite HA. rewrite map_to_list_empty_iff. reflexivity.
  - intros K. apply H. apply lastSubmitsKnown_to_list. exact K.
Qed.

(** X18.  [VkDeviceWaitIdle] fails exactly when some queue with an
    execution state has no submit info under its last submit id;
    otherwise it leaves the builder as it is, and its behavior is alive
    when it was so or when some queue has an execution state. *)
Theorem device_wait_idle_needs_the_last_submits (vb : FootprintBuilder)
    (bh : Behavior) :
  match objectSwitch vb bh VkDeviceWaitIdle with
  | Ok (bh', vb') =>
      lastSubmitsKnown vb /\ vb' = vb /\
      (Alive bh' = true <->
       Alive bh = true \/ executionStates (shadow vb) <> ∅)
  | Panic => ~ lastSubmitsKnown vb
  end.
Proof. apply deviceWaitIdle_spec. Qed.

(** X19.  The [VkQueueSubmit] arm keeps a submit info under the last
    submit id of every queue, so that a [VkDeviceWaitIdle] after it
    returns, with the builder as the submit has left it and an alive
    behavior. *)
Theorem device_wait_idle_returns_after_a_submit
    (ov : Range -> Range -> bool) (it : Range -> Range -> Range)
    (vb : FootprintBuilder) (mapped : list (Z * DeviceMemoryObject))
    (observations : option (list Range)) (contains : Z -> bool) (bh : Behavior)
    (sid Queue : Z) (PSubmits : list SubmitArg) (Fence : Z)
    (bh1 : Behavior) (vb1 : FootprintBuilder) (bh2 : Behavior) :
  lastSubmitsKnown vb ->
  queueSubmit ov it vb mapped observations contains bh sid Queue PSubmits Fence
  = Ok (bh1, vb1) ->
  lastSubmitsKnown vb1 /\
  exists bh3,
    objectSwitch vb1 bh2 VkDeviceWaitIdle = Ok (bh3, vb1) /\ Alive bh3 = true.
Proof.
  intros Hinv H.
  pose proof (queueSubmit_executionStates _ _ _ _ _ _ _ _ _ _ _ _ _ H) as He.
  destruct (queueSubmit_inv _ _ _ _ _ _ _ _ _ _ _ _ _ H) as (info & new & Hi & _).
  assert (Hk : lastSubmitsKnown vb1).
  { unfold lastSubmitsKnown. rewrite He, Hi. apply map_Forall_insert_2.
    - cbn [lastSubmitID setLastSubmitID]. rewrite lookup_insert_eq. eauto.
    - eapply map_Forall_impl; [exact Hinv|]. cbn beta. intros q qei [x Hx].
      destruct (Z.eq_dec (lastSubmitID qei) sid) as [->|Hne].
      + rewrite lookup_insert_eq. eauto.
      + rewrite lookup_insert_ne by congruence. eauto. }
  split; [exact Hk|].
  pose proof (deviceWaitIdle_spec vb1 bh2) as Hd.
  destruct (objectSwitch vb1 bh2 VkDeviceWaitIdle) as [[bh3 vb3]|];
    [|contradiction].
  destruct Hd as (_ & -> & HA). exists bh3. split; [reflexivity|].
  apply HA. right. rewrite He. apply insert_non_empty.
Qed.

(** X14.  The labels of the shadow state stay below the counter of
    [newLabel]: when every label held lies below the counter and the
    counter does not wrap, [BuildFootprint] for a command that creates,
    queries or destroys an object advances the counter by the number of
    labels that the command hands out, by none when the command fails to
    mutate, and leaves every label held below the new counter. *)
Theorem object_commands_hand_out_new_labels (vb : FootprintBuilder)
    (co : Collaborator) (cmdId : Z) (c : ObjectCmd) (vb' : FootprintBuilder) :
  0 <= nextLabelVal (shadow vb) ->
  nextLabelVal (shadow vb) + labelsTaken c < two64 ->
  labelsBelow (nextLabelVal (shadow vb)) (shadow vb) ->
  BuildFootprint_object vb co cmdId c = Ok vb' ->
  nextLabelVal (shadow vb')
  = nextLabelVal (shadow vb) + (if mutateFails co then 0 else labelsTaken c) /\
  labelsBelow (nextLabelVal (shadow vb')) (shadow vb').
Proof.
  intros H0 H1 Hinv. unfold BuildFootprint_object.
  destruct (mutateFails co).
  - intros [= <-]. rewrite Z.add_0_r. auto.
  - destruct (objectSwitch vb (NewBehavior [cmdId]) c) as [[bh vb1]|] eqn:E;
      [|discriminate].
    cbn [rbind].
    destruct (objectSwitch_labels vb (NewBehavior [cmdId]) c bh vb1 H0 H1 Hinv E)
      as [Hn Hl].
    destruct (lastDrawTail_returns (setShadow vb1 (AddBehavior (shadow vb1) bh))
                co cmdId) as (s' & -> & Hfr).
    intros [= <-]. cbn [shadow setShadow] in *.
    assert (Hfr' : frame (shadow vb1) s')
      by (eapply frame_trans; [apply frame_AddBehavior|exact Hfr]).
    rewrite (frame_nextLabelVal _ _ Hfr'). split; [exact Hn|].
    eapply frame_labelsBelow; [exact Hfr'|exact Hl].
Qed.

(** Every label of the example builder lies below its counter. *)
Lemma exampleBuilder_labels : labelsBelow 100 (shadow exampleBuilder).
Proof.
  cbn [shadow exampleBuilder]. labels_split; try apply map_Forall_empty.
  apply map_Forall_insert_2; [cbn; lia|].
  apply map_Forall_insert_2; [cbn; lia|]. apply map_Forall_empty.
Qed.

Lemma object_commands_hand_out_new_labels_witness :
  exists vb',
    BuildFootprint_object exampleBuilder (mkCollaborator false []) 1
      (VkCreateQueryPool 9 2) = Ok vb' /\
    nextLabelVal (shadow vb') = 100 + 8 /\
    labelsBelow (nextLabelVal (shadow vb')) (shadow vb').
Proof.
  destruct (BuildFootprint_object exampleBuilder (mkCollaborator false []) 1
              (VkCreateQueryPool 9 2)) as [vb'|] eqn:E;
    [|vm_compute in E; discriminate].
  exists vb'. split; [reflexivity|].
  apply (object_commands_hand_out_new_labels exampleBuilder
           (mkCollaborator false []) 1 (VkCreateQueryPool 9 2) vb').
  - cbn. lia.
  - pose proof two64_value as Ht. cbn. lia.
  - exact exampleBuilder_labels.
  - exact E.
Defined.

Lemma query_results_need_queries_of_the_pool_witness :
  match objectSwitch exampleBuilder (NewBehavior [1])
          (VkGetQueryPoolResults 9 1 2) with
  | Ok (_, vb') =>
      vb' = exampleBuilder /\
      (2 = 0 \/ 1 + 2 <= queryCount (shadow exampleBuilder) 9)
  | Panic => 0 < 2 /\ queryCount (shadow exampleBuilder) 9 < 1 + 2
  end /\
  match objectSwitch exampleBuilder (NewBehavior [1]) (VkCreateQueryPool 9 2) with
  | Ok (_, vb') => queryCount (shadow vb') 9 = 2
  | Panic => False
  end.
Proof.
  apply (query_results_need_queries_of_the_pool exampleBuilder (NewBehavior [1])
           9 1 2); lia.
Defined.

Lemma device_wait_idle_returns_after_a_submit_witness :
  exists bh1 vb1,
    queueSubmit (fun _ _ => false) (fun r _ => r) exampleBuilder [] None
      (fun _ => true) (NewBehavior [1]) 1 3 [mkSubmitArg [7] [] []] 0
    = Ok (bh1, vb1) /\
    lastSubmitsKnown vb1 /\
    exists bh3,
      objectSwitch vb1 (NewBehavior [2]) VkDeviceWaitIdle = Ok (bh3, vb1) /\
      Alive bh3 = true.
Proof.
  assert (Hids : queuedIndices
                   (queueSubmit (fun _ _ => false) (fun r _ => r) exampleBuilder
                      [] None (fun _ => true) (NewBehavior [1]) 1 3
                      [mkSubmitArg [7] [] []] 0) 1
                 = Some [[1; 0; 0; 0]; [1; 0; 0; 1]; [1; 0; 0; 1; 0; 0]])
    by (vm_compute; reflexivity).
  destruct (queueSubmit (fun _ _ => false) (fun r _ => r) exampleBuilder [] None
              (fun _ => true) (NewBehavior [1]) 1 3 [mkSubmitArg [7] [] []] 0)
    as [[bh1 vb1]|] eqn:E; [|discriminate].
  exists bh1, vb1. split; [reflexivity|].
  apply (device_wait_idle_returns_after_a_submit (fun _ _ => false)
           (fun r _ => r) exampleBuilder [] None (fun _ => true) (NewBehavior [1])
           1 3 [mkSubmitArg [7] [] []] 0 bh1 vb1 (NewBehavior [2])).
  - apply map_Forall_empty.
  - exact E.
Defined.

Lemma labelsBelow_submitted (n : Z) (s : Shadow) (Queue sid : Z) :
  labelsBelow n s ->
  labelsBelow n
    (setExecutionStates s
       (<[Queue := setLastSubmitID
                     (default (newQueueExecutionState sid)
                        (executionStates s !! Queue)) sid]>
          (executionStates s))).
Proof.
  intros (A & B & C & D & E & F & G & H & I). labels_split; try assumption.
  apply map_Forall_insert_2; [|exact G].
  destruct (executionStates s !! Queue) as [q|] eqn:Eq;
    cbn [default setLastSubmitID primaryCmdBufState secondaryCmdBufState].
  - exact (G Queue q Eq).
  - unfold Datatypes.id.
    cbn [newQueueExecutionState primaryCmdBufState secondaryCmdBufState].
    split; intros x Hx; discriminate.
Qed.

(** X20.  The [VkQueueSubmit] arm takes two new labels, for the submit
    being queued and for its being done: when every label that the builder
    holds lies below the counter of [newLabel] and the counter does not
    wrap, the submit info of the command holds the next two labels, the
    counter has advanced by two, and every label held lies below it. *)
Theorem submit_takes_two_new_labels
    (ov : Range -> Range -> bool) (it : Range -> Range -> Range)
    (vb : FootprintBuilder) (mapped : list (Z * DeviceMemoryObject))
    (observations : option (list Range)) (contains : Z -> bool) (bh : Behavior)
    (sid Queue : Z) (PSubmits : list SubmitArg) (Fence : Z)
    (bh' : Behavior) (vb' : FootprintBuilder) :
  0 <= nextLabelVal (shadow vb) ->
  nextLabelVal (shadow vb) + 2 < two64 ->
  builderLabelsBelow (nextLabelVal (shadow vb)) vb ->
  queueSubmit ov it vb mapped observations contains bh sid Queue PSubmits Fence
  = Ok (bh', vb') ->
  exists info,
    submitInfos vb' !! sid = Some info /\
    queued info = nextLabelVal (shadow vb) /\
    done info = nextLabelVal (shadow vb) + 1 /\
    nextLabelVal (shadow vb') = nextLabelVal (shadow vb) + 2 /\
    builderLabelsBelow (nextLabelVal (shadow vb')) vb'.
Proof.
  intros H0 H1 [Hs Hi] H. set (n := nextLabelVal (shadow vb)) in *.
  destruct (queueSubmit_frame _ _ _ _ _ _ _ _ _ _ _ _ _ H)
    as (Hfr & info & Hinfo & Hq & Hd).
  fold n in Hfr, Hq, Hd.
  assert (E1 : add64 n 1 = n + 1) by (apply add64_small; lia).
  rewrite E1 in Hfr, Hd.
  assert (E2 : add64 (n + 1) 1 = n + 2)
    by (rewrite add64_small by lia; lia).
  rewrite E2 in Hfr.
  assert (Hn : nextLabelVal (shadow vb') = n + 2).
  { rewrite (frame_nextLabelVal _ _ Hfr). cbn [nextLabelVal setNextLabelVal]. lia. }
  exists info. rewrite Hinfo, lookup_insert_eq.
  split; [reflexivity|]. split; [exact Hq|]. split; [exact Hd|].
  split; [exact Hn|]. rewrite Hn. split.
  - eapply frame_labelsBelow; [exact Hfr|].
    apply labelsBelow_setNextLabelVal. apply labelsBelow_submitted.
    eapply labelsBelow_mono; [|exact Hs]. lia.
  - rewrite Hinfo. apply map_Forall_insert_2; [lia|].
    eapply map_Forall_impl; [exact Hi|]. cbn beta. intros k i. lia.
Qed.

Lemma submit_takes_two_new_labels_witness :
  exists bh1 vb1 info,
    queueSubmit (fun _ _ => false) (fun r _ => r) exampleBuilder [] None
      (fun _ => true) (NewBehavior [1]) 1 3 [mkSubmitArg [7] [] []] 0
    = Ok (bh1, vb1) /\
    submitInfos vb1 !! 1 = Some info /\
    queued info = 100 /\ done info = 100 + 1 /\
    nextLabelVal (shadow vb1) = 100 + 2 /\
    builderLabelsBelow (nextLabelVal (shadow vb1)) vb1.
Proof.
  assert (Hids : queuedIndices
                   (queueSubmit (fun _ _ => false) (fun r _ => r) exampleBuilder
                      [] None (fun _ => true) (NewBehavior [1]) 1 3
                      [mkSubmitArg [7] [] []] 0) 1
                 = Some [[1; 0; 0; 0]; [1; 0; 0; 1]; [1; 0; 0; 1; 0; 0]])
    by (vm_compute; reflexivity).
  destruct (queueSubmit (fun _ _ => false) (fun r _ => r) exampleBuilder [] None
              (fun _ => true) (NewBehavior [1]) 1 3 [mkSubmitArg [7] [] []] 0)
    as [[bh1 vb1]|] eqn:E; [|discriminate].
  pose proof two64_value as Ht.
  destruct (submit_takes_two_new_labels (fun _ _ => false) (fun r _ => r)
              exampleBuilder [] None (fun _ => true) (NewBehavior [1]) 1 3
              [mkSubmitArg [7] [] []] 0 bh1 vb1) as (info & Hinfo);
    [cbn; lia|cbn; lia| |exact E|].
  - split; [exact exampleBuilder_labels|apply map_Forall_empty].
  - exists bh1, vb1, info. split; [reflexivity|exact Hinfo].
Defined.

(** ** The data of an image, with and without a behavior *)

Lemma sparseStep_fold_data (l : list sparseImageMemoryBinding) :
  forall (data : list DefUseVariable) (bh : option Behavior) (em : Emitter),
    fst (fst (fold_left sparseStep l (data, bh, em)))
    = data ++ map sparse_backingData l.
Proof.
  induction l as [|b l IH]; intros data bh em.
  - cbn [fold_left map fst]. rewrite app_nil_r. reflexivity.
  - cbn [fold_left map]. unfold sparseStep at 2.
    destruct (readIfBehavior em bh _) as [bh' em'].
    rewrite IH, <- app_assoc. reflexivity.
Qed.

Lemma getBoundData_data (em em' : Emitter) (bh bh' : option Behavior)
    (l : list resBinding) (offset size : Z) :
  fst (fst (getBoundData em bh l offset size))
  = fst (fst (getBoundData em' bh' l offset size)).
Proof.
  unfold getBoundData. rewrite !getSubBindingList_fold.
  destruct (subBindingStep_fold offset (clampedSize offset size)
              (visited l offset size) [] bh em) as (H1 & _).
  destruct (subBindingStep_fold offset (clampedSize offset size)
              (visited l offset size) [] bh' em') as (H2 & _).
  cbv zeta in H1, H2.
  destruct (fold_left _ _ ([], bh, em)) as [[d1 b1] e1].
  destruct (fold_left _ _ ([], bh', em')) as [[d2 b2] e2].
  cbn [fst] in *. congruence.
Qed.

Lemma getImageDataTail_data (s : Shadow) (bh bh' : option Behavior) (vkImg : Z) :
  fst (fst (getImageDataTail s bh vkImg))
  = fst (fst (getImageDataTail s bh' vkImg)).
Proof.
  unfold getImageDataTail. destruct (images s !! vkImg) as [img|]; [|reflexivity].
  pose proof (getBoundData_data (emitter s) (emitter s) bh bh' (opaqueData img)
                0 vkWholeSize) as Hd.
  destruct (getBoundData (emitter s) bh (opaqueData img) 0 vkWholeSize)
    as [[d1 b1] e1].
  destruct (getBoundData (emitter s) bh' (opaqueData img) 0 vkWholeSize)
    as [[d2 b2] e2].
  cbn [fst] in Hd. subst d2.
  pose proof (sparseStep_fold_data (sparseData img) d1 b1 e1) as H1.
  pose proof (sparseStep_fold_data (sparseData img) d1 b2 e2) as H2.
  destruct (fold_left sparseStep (sparseData img) (d1, b1, e1)) as [[x1 y1] z1].
  destruct (fold_left sparseStep (sparseData img) (d1, b2, e2)) as [[x2 y2] z2].
  cbn [fst] in *. congruence.
Qed.

(** X21.  [getImageData] with a behavior returns the data that it returns
    without one, with two exceptions: for the null handle it returns no
    data, and for an image that the builder does not hold it fails, where
    the call without a behavior returns no data. *)
Theorem image_data_with_and_without_a_behavior (s : Shadow) (b : Behavior)
    (vkImg : Z) :
  match getImageData s (Some b) vkImg with
  | Ok (data, _, _) =>
      if vkImg =? 0 then data = []
      else is_Some (images s !! vkImg) /\
           exists s0, getImageData s None vkImg = Ok (data, None, s0)
  | Panic =>
      (vkImg =? 0) = false /\ images s !! vkImg = None /\
      getImageData s None vkImg = Ok ([], None, s)
  end.
Proof.
  cbn [getImageData]. rewrite sread_handle.
  destruct (vkImg =? 0) eqn:E0; cbn [negb]; [reflexivity|].
  destruct (images s !! vkImg) as [img|] eqn:Ei.
  2: { split; [reflexivity|]. split; [reflexivity|].
       unfold getImageDataTail. rewrite Ei. reflexivity. }
  rewrite sread_label. cbn [negb].
  pose proof (getImageDataTail_data s (Some (Behavior_Read
                 (Behavior_Read b (VHandle vkImg)) (VLabel (layout img))))
                None vkImg) as Hd.
  destruct (getImageDataTail s (Some _) vkImg) as [[d1 b1] s1].
  cbn [fst] in Hd. subst d1. split; [eauto|].
  assert (Hn : snd (fst (getImageDataTail s None vkImg)) = None).
  { unfold getImageDataTail. rewrite Ei. unfold getBoundData.
    pose proof (subBindingStep_fold_no_behavior 0 (clampedSize 0 vkWholeSize)
                  (visited (opaqueData img) 0 vkWholeSize) [] (emitter s)) as Hb.
    rewrite getSubBindingList_fold.
    destruct (fold_left _ (visited _ _ _) _) as [[d2 b2] e2].
    cbn [fst snd] in Hb. subst b2.
    generalize (map backingData d2) e2. clear.
    induction (sparseData img) as [|x l IH]; intros d e; [reflexivity|].
    cbn [fold_left sparseStep readIfBehavior]. apply IH. }
  destruct (getImageDataTail s None vkImg) as [[d2 b2] s2].
  cbn [fst snd] in *. subst b2. eauto.
Qed.
